(* ===== verification/_CoqProject ===== *)
-Q . S2P
Prelude.v
GoFloat.v
GoSort.v
GoStrings.v
NetIP.v
GoHttp.v
Logging.v
Env.v
Stability.v
Config.v
Priority.v
Breaker.v
Collector.v
Balancer.v
Canary.v
Selector.v
Rule.v
RuleSyntax.v
Routes.v
Proxy.v
Monitor.v
SharedCore.v
Service.v
Middlewares.v
Retry.v
CircuitBreaker.v
RateLimit.v
AccessLog.v
Builder.v
Hub.v
HotReload.v
EntryPoint.v
App.v
Pipeline.v
Isolation.v
ConfigDiff.v
ServeMux.v
Process.v
Running.v
Tls.v
Reporter.v
Startup.v
Backend.v
Clients.v
