(* ===== verification/Prelude.v ===== *)
(** * BalanceX, verified: a development for the load balancer in Go

    BalanceX is a reverse proxy.  A request enters at an entrypoint, passes the entrypoint's middlewares,
    is dispatched by rules to a router, passes the router's middlewares, and ends at a service, whose
    proxy handler selects a backend and forwards the request.  Monitors probe the backends; breakers,
    collectors and monitors feed the selection; a watcher reloads the configuration while it runs.

    ** The files and the code they model (paths under src/)

    Go and its standard library: [Prelude] (machine integers, durations, results, shared tactics, the
    selection of a best element), [GoFloat] (float64 as binary64), [GoSort] (sort.Slice and
    sort.Float64s as an interface satisfied by every sort, with insertion sort as a witness),
    [GoStrings] (strings and bytes, UTF-8), [NetIP] (addresses and CIDR blocks), [GoHttp] (headers,
    contexts, requests, the response writers of the program, handlers and middlewares), [ServeMux] (the
    multiplexer of net/http), [Env] (clock, random source, timers, the log, the HTTP client, components of
    the world as lenses), [Stability] (invariants that other goroutines keep).

    The program:
    - [Logging]: internal/logging/logger.go.  The structured lines, on standard output and in the file.
    - [Config]: config/config.go.  The configuration types, [setDefaults], [validate], [Load].
    - [Priority]: internal/priority/classifier.go.
    - [Breaker]: internal/health/breaker.go.  The breaker, and the three-phase automaton it refines.
    - [Collector]: internal/metrics/collector.go.  The statistics, windows, event log and dashboard totals.
    - [Balancer], [Canary]: internal/balancer: roundrobin.go, leastconn.go, weighted.go, canary.go.  The
      interface of the algorithms is the class [Algorithm], with the classes [AlgorithmSound] and
      [AlgorithmLive] for what the selection relies on.
    - [Selector]: internal/balancer/router.go.  [Router_Select] over any algorithm of the interface, on values.
    - [Rule], [RuleSyntax], [Routes]: internal/router: matcher.go, rule.go, router.go.  Matchers, lexer,
      parser, the printed syntax, the table of routes.
    - [Proxy]: internal/proxy/proxy.go.  Selection, one attempt, the response, the lines it logs.  Its
      [proxy_select] is the same selection call by call in the world, where others act at every reading of
      the clock; when nobody does it is [Router_Select] ([proxy_select_alone]).
    - [Monitor]: internal/health/monitor.go.  A probe, and the life of the probing goroutines.
    - [SharedCore]: what the components of one service that its proxy and its monitor share may go through.
    - [Service]: internal/service/manager.go.  Instances, building, stopping, importing, recording.
    - [Middlewares], [Retry], [CircuitBreaker], [RateLimit], [AccessLog], [Builder]: internal/middleware.
      The chain and the stateless middlewares; one file for each of the others; the builder.
    - [Hub]: internal/dashboard/hub.go.  [HotReload]: internal/hotreload/watcher.go.
    - [Reporter]: internal/metrics/reporter.go.  [Tls]: internal/tlsutil/certs.go.
    - [EntryPoint]: internal/entrypoint/entrypoint.go.
    - [App], [ConfigDiff]: cmd/loadbalancer/main.go.  [initialize], [app_ServeHTTP], [reload], the change log.
    - [Pipeline]: the compositions: every chain of middlewares over the application keeps to the writer's
      interface, and keeps what the environment keeps of the state.  [Isolation]: what a handler does
      depends on the backends of its service only.
    - [Process], [Running], [Startup]: main.go again.  [Process] is the state of the running program: the
      generations of services and routes that reloads leave behind, the one in force, the dashboard's
      hub, and the limiters of the entrypoints; its steps, with every handler and background loop as an
      operation on it.  [Running] says which operations a step of a generation is made of ([app_op]: a change
      of a service's shared components by its own handlers, a limiter, a recorded result, a snapshot, the
      stop, the end of a probing goroutine), and has the invariant of that state, what it implies for the
      requests under way, and what survives a reload.  [Startup] is [main], from the configuration file to
      the shutdown.
    - [Backend], [Clients]: backend/server.go and client/, the programs that exercise the balancer.

    A Go struct is a Record with the fields that matter, a method is a function from the struct to the
    struct and the results, an error is [Err] of [result], and a run-time panic (a nil dereference, the
    second close of a channel, a ticker of a period that is not positive) is [None] or a value of its own.
    The pointers in the maps of the configuration file can be nil ([Config.Document]).  A ticker is made
    on the first line of a goroutine; its panic is taken at the moment the goroutine is started.  A method that holds its mutex throughout
    is one atomic step; where a method of one component calls several of another, what other goroutines
    may do in between is an argument ([interfere] in [Selector]) or is left to the world, which may
    change at every call of the environment ([Env]); a theorem that needs a component left alone
    says so with [Frame].  A loop over a Go map takes the order of its iteration as an argument, and
    the theorems hold for every order.  An int is a [Z] that wraps at 64 bits.

    ** What the theorems show

    - Routing: parsing is total, inverse to printing on the whole syntax, and the table sends a request to
      a best matching route, in whatever order routes are added and sorted ([RuleSyntax], [Routes]); a
      configuration is accepted exactly when its routers are in order, and then every request takes the
      middlewares and the service its best router names ([App]), and no request changes that ([Pipeline]).
    - The whole program: from any configuration file main panics over one of the entries that [startable]
      names, stops with the first error it meets, or runs with every entrypoint listening ([Startup]);
      while it runs, requests, probes, snapshots and reloads keep it well formed, no nil pointer is
      dereferenced but over a null entry of a file being reloaded, and a request is served by the routes,
      the middlewares and the backends of the configuration it was dispatched under, whatever is reloaded
      meanwhile ([Running]); it shuts down with every health check stopped ([Startup]).
    - Selection: a selected backend is healthy, admitted and not excluded, under every interleaving, and
      one is selected when one is eligible ([Selector]); each algorithm does what it promises, the
      canary split exactly ([Balancer], [Canary]).
    - Failure handling: the breaker refines its automaton ([Breaker]); a probe's effects, to the last figure
      ([Monitor]); what an attempt tells the client, to the last header and byte, and the metrics
      ([Proxy]); the answer that retries deliver, what the circuit breaker middleware reports, what rate
      limits and authentication let through, the access log's entry; what a failed certificate generation
      leaves on the disk ([Tls]).
    - Observation: the collector's figures are what they are called ([Collector]); the dashboard's history;
      the access log is right about the whole program ([Pipeline]), the structured log about every attempt
      ([Proxy]), and the terminal report adds up ([Reporter]).
    - Life cycle: building from a configuration, stopping, reloading, debouncing ([Service], [App],
      [HotReload]); defaults and validation ([Config]).
    - The test programs: what the backend answers and where its toggle races ([Backend]); the load report
      is independent of the order of the goroutines, the failure test reports the edges, the chaos
      client's belief is wrong by the answers it lost, the dynamic load is all of high priority
      ([Clients]).

    Where the code and its comments or documents disagree the theorem states the code, and its comment
    says so.

    ** Bounds and fuel

    [ParseRule] runs its recursive descent with the length of the text plus two as fuel: every step of the
    descent consumes a token and every token a byte.  [ParseRule_answers] shows that it never runs out.  The retry loop counts down the attempts that remain, at most the configured number.
    The history has 120 entries, the latency window 100, the event logs 50.  All other recursion is
    structural.

    ** What is not modelled

    The HTTP transport and server, JSON, WebSockets, fsnotify, crypto/x509, golang.org/x/time/rate and the
    Unicode case tables are parameters (classes [Client], [JSONDecoder], [SnapshotProvider], [Fsnotify],
    [Crypto], [RateLib], [UnicodeTables]) or arguments.  The texts of log lines and of the tables on the
    terminal are left out: their figures are modelled, their layout is not, and the lines of the package log
    that main and the background loops print appear only as far as the banner and the clients go.  The server's
    writer knows of a HEAD request that its answer has no body; it does not enforce a Content-Length
    header.  A snapshot for the dashboard and a reload are each one step on the state.  A response status outside
    100 to 999, on which the server panics, is not represented.  Of the operating
    system's side of main, signals and sockets, the outcome is an argument.  The dashboard page is HTML and
    JavaScript and is left out. *)
From stdpp Require Export base tactics option list gmap strings sorting.
From Stdlib Require Export ZArith Lia Ascii.
#[export] Set Default Goal Selector "!".

Open Scope Z_scope.

(** ** Results of fallible Go functions: [(T, error)] *)
Inductive result (E A : Type) : Type :=
| Ok (a : A)
| Err (e : E).
Arguments Ok {E A} a.
Arguments Err {E A} e.

Definition result_bind {E A B : Type} (r : result E A) (k : A -> result E B) : result E B :=
  match r with
  | Ok a => k a
  | Err e => Err e
  end.

Declare Scope go_scope.
Delimit Scope go_scope with go.
Notation "'let?' x ':=' r 'in' k" := (result_bind r (fun x => k))
  (at level 10, x pattern, r at level 100, k at level 200) : go_scope.
Open Scope go_scope.

Definition is_Ok {E A : Type} (r : result E A) : bool :=
  match r with Ok _ => true | Err _ => false end.

(** ** The last elements of a list *)
Definition last_n {T} (n : nat) (l : list T) : list T := drop (length l - n) l.

Lemma last_n_push {T} (n : nat) (l : list T) x :
  (0 < n)%nat -> last_n n (last_n n l ++ [x]) = last_n n (l ++ [x]).
Proof.
  intros Hn. unfold last_n. rewrite !length_app, length_drop. cbn [length].
  destruct (decide (length l <= n)%nat) as [Hle|Hgt].
  - replace (length l - n)%nat with 0%nat by lia. rewrite drop_0. f_equal. lia.
  - replace (length l - (length l - n) + 1 - n)%nat with 1%nat by lia.
    replace (length l + 1 - n)%nat with (S (length l - n))%nat by lia.
    rewrite (drop_app_le l) by lia. rewrite (drop_app_le (drop _ l)) by (rewrite length_drop; lia).
    rewrite drop_drop. do 2 f_equal. lia.
Qed.

(** ** Machine integers: Go's [int] and [int64] (two's complement, 64 bits) and [uint64] *)
Definition two63 : Z := 9223372036854775808.
Definition two64 : Z := 18446744073709551616.
Definition maxInt64 : Z := two63 - 1.
Definition minInt64 : Z := - two63.

Definition wrap64 (z : Z) : Z := (z + two63) mod two64 - two63.
Definition uwrap64 (z : Z) : Z := z mod two64.

Definition in_int64 (z : Z) : Prop := minInt64 <= z <= maxInt64.

(** ** Time: instants are nanoseconds, a [time.Duration] is an int64 of nanoseconds *)
Definition Nanosecond : Z := 1.
Definition Millisecond : Z := 1000000.
Definition Second : Z := 1000000000.
Definition Minute : Z := 60 * Second.

(** [time.Time.Sub] saturates at the ends of the [Duration] range. *)
Definition time_Sub (t u : Z) : Z := Z.max minInt64 (Z.min maxInt64 (t - u)).

(** [time.Since(t)] at the instant [now]. *)
Definition time_Since (now t : Z) : Z := time_Sub now t.

(** [time.Duration(n) * unit] for an int [n]. *)
Definition Duration_mul (n unit : Z) : Z := wrap64 (n * unit).

(** [time.NewTicker] of a number of seconds: its period, or [None], the panic on one that is not positive. *)
Definition NewTicker (sec : Z) : option Z :=
  let d := Duration_mul sec Second in if 0 <? d then Some d else None.

Create HintDb golib.
Create Rewrite HintDb golib.

(** ** Automation shared by the components *)
Ltac unfold_int := unfold wrap64, uwrap64, in_int64, time_Since, time_Sub, maxInt64, minInt64, two63, two64 in *.

(** Splits every conditional and match of the goal or of a hypothesis, and closes what is left by
    congruence or arithmetic. *)
Ltac go_cases :=
  repeat (first
    [ progress simplify_eq/=
    | case_match
    | case_decide ]);
  try done; try lia.

(** Turns boolean tests of [Z] into propositions. *)
Ltac z_bool :=
  repeat match goal with
  | H : (_ <? _) = true |- _ => apply Z.ltb_lt in H
  | H : (_ <? _) = false |- _ => apply Z.ltb_ge in H
  | H : (_ <=? _) = true |- _ => apply Z.leb_le in H
  | H : (_ <=? _) = false |- _ => apply Z.leb_gt in H
  | H : (_ =? _) = true |- _ => apply Z.eqb_eq in H
  | H : (_ =? _) = false |- _ => apply Z.eqb_neq in H
  | H : _ && _ = true |- _ => apply andb_true_iff in H as [??]
  | H : _ || _ = false |- _ => apply orb_false_iff in H as [??]
  | H : negb _ = true |- _ => apply negb_true_iff in H
  | H : negb _ = false |- _ => apply negb_false_iff in H
  end.

(** ** Lemmas on machine integers *)
Lemma wrap64_small (z : Z) : in_int64 z -> wrap64 z = z.
Proof.
  unfold_int. intros Hz. rewrite Z.mod_small; lia.
Qed.

Lemma wrap64_range (z : Z) : in_int64 (wrap64 z).
Proof.
  unfold_int. pose proof (Z.mod_pos_bound (z + 9223372036854775808) 18446744073709551616). lia.
Qed.

Lemma wrap64_add_l (a b : Z) : wrap64 (wrap64 a + b) = wrap64 (a + b).
Proof.
  unfold wrap64. f_equal.
  replace ((a + two63) mod two64 - two63 + b + two63) with ((a + two63) mod two64 + b) by lia.
  rewrite Zplus_mod_idemp_l. f_equal. lia.
Qed.

Lemma wrap64_add_r (a b : Z) : wrap64 (a + wrap64 b) = wrap64 (a + b).
Proof. by rewrite Z.add_comm, wrap64_add_l, Z.add_comm. Qed.

Lemma wrap64_idem (a : Z) : wrap64 (wrap64 a) = wrap64 a.
Proof. apply wrap64_small, wrap64_range. Qed.

#[export] Hint Resolve wrap64_range : golib.
#[export] Hint Rewrite wrap64_idem wrap64_add_l wrap64_add_r : golib.

Lemma time_Since_mono (now now' t : Z) : now <= now' -> time_Since now t <= time_Since now' t.
Proof. unfold_int. lia. Qed.

(** An elapsed time is compared exactly with any duration below the largest one. *)
Lemma time_Since_gt (now t d : Z) :
  in_int64 d -> d < maxInt64 -> (d < time_Since now t <-> t + d < now).
Proof. unfold_int. lia. Qed.

(** ** The best element of a list, the first of the best ones

    The selection loops of the balancer all have this shape: a current best, replaced only by a
    strictly better element. *)
Section pick_best.
Context {A V : Type} (better : V -> V -> bool).

Fixpoint pick_best (best : A) (bestV : V) (l : list (A * V)) : A * V :=
  match l with
  | [] => (best, bestV)
  | (a, v) :: l' => if better v bestV then pick_best a v l' else pick_best best bestV l'
  end.

Lemma pick_best_elem best bestV l :
  pick_best best bestV l = (best, bestV) \/ pick_best best bestV l ∈ l.
Proof.
  revert best bestV. induction l as [|[a v] l IH]; intros best bestV; simpl; [by left|].
  destruct (better v bestV).
  - right. destruct (IH a v) as [-> | H]; [apply list_elem_of_here|by apply list_elem_of_further].
  - destruct (IH best bestV) as [-> | H]; [by left|right; by apply list_elem_of_further].
Qed.

Context (Hirr : forall v, better v v = false)
  (Htrans : forall u v w, better u v = true -> better v w = true -> better u w = true).

Lemma pick_best_improves best bestV l :
  (pick_best best bestV l).2 = bestV \/ better (pick_best best bestV l).2 bestV = true.
Proof.
  revert best bestV. induction l as [|[a v] l IH]; intros best bestV; simpl; [by left|].
  destruct (better v bestV) eqn:E; [|apply IH].
  right. destruct (IH a v) as [-> | H]; [done|]. by eapply Htrans.
Qed.

Lemma pick_best_max_start best bestV l : better bestV (pick_best best bestV l).2 = false.
Proof.
  destruct (pick_best_improves best bestV l) as [-> | H]; [apply Hirr|].
  apply not_true_iff_false. intros H'.
  pose proof (Htrans _ _ _ H H') as H2. by rewrite Hirr in H2.
Qed.

Lemma pick_best_max best bestV l a v :
  (a, v) ∈ l -> better v (pick_best best bestV l).2 = false.
Proof.
  revert best bestV. induction l as [|[a' v'] l IH]; intros best bestV Hin;
    [by apply not_elem_of_nil in Hin|]. simpl.
  apply elem_of_cons in Hin as [[= -> ->] | Hin].
  - destruct (better v' bestV) eqn:E; [apply pick_best_max_start|].
    destruct (pick_best_improves best bestV l) as [-> | H]; [done|].
    apply not_true_iff_false. intros H'. pose proof (Htrans _ _ _ H' H). congruence.
  - by destruct (better v' bestV); apply IH.
Qed.

(** An element better than the start makes the result an element of the list. *)
Lemma pick_best_found best bestV l a v :
  (a, v) ∈ l -> better v bestV = true -> pick_best best bestV l ∈ l.
Proof.
  intros Hin Hb. destruct (pick_best_elem best bestV l) as [E | ?]; [|done].
  pose proof (pick_best_max best bestV l a v Hin) as H. rewrite E in H. simpl in H. congruence.
Qed.
End pick_best.

(** In a concatenation without repetitions an element comes from one list. *)
Lemma NoDup_bind_inj {A B : Type} (f : A -> list B) (l : list A) (i j : nat) (x y : A) (u : B) :
  NoDup (l ≫= f) -> l !! i = Some x -> l !! j = Some y -> u ∈ f x -> u ∈ f y -> i = j.
Proof.
  revert i j. induction l as [|z l IH]; intros i j; [done|]. cbn [mbind list_bind].
  intros (_ & Hdis & Hnd)%NoDup_app Hi Hj Hx Hy.
  destruct i as [|i], j as [|j]; simpl in *; simplify_eq; [done| | |f_equal; by apply IH].
  - exfalso. apply (Hdis u Hx). apply list_elem_of_bind. exists y. split; [done|]. by eapply list_elem_of_lookup_2.
  - exfalso. apply (Hdis u Hy). apply list_elem_of_bind. exists x. split; [done|]. by eapply list_elem_of_lookup_2.
Qed.
