(* ===== verification/GoFloat.v ===== *)
(** * Go's float64

    IEEE 754 binary64 arithmetic as the Standard Library specifies it ([SpecFloat], round to nearest
    even), with the conversions the code makes, and the order facts its comparisons rely on. *)
From Stdlib Require Export SpecFloat.
From S2P Require Import Prelude.

Abbreviation float64 := spec_float.

Definition f64_add : float64 -> float64 -> float64 := SFadd 53 1024.
Definition f64_sub : float64 -> float64 -> float64 := SFsub 53 1024.
Definition f64_mul : float64 -> float64 -> float64 := SFmul 53 1024.
Definition f64_div : float64 -> float64 -> float64 := SFdiv 53 1024.
Definition f64_lt (x y : float64) : bool := SFltb x y.
Definition f64_le (x y : float64) : bool := SFleb x y.
Definition f64_eq (x y : float64) : bool := SFeqb x y.

(** [float64(n)] for an integer [n]: correctly rounded. *)
Definition f64_of_Z (n : Z) : float64 := binary_normalize 53 1024 n 0 false.

(** A decimal literal [num/den]: the division of two exactly represented integers is correctly
    rounded, so this is the constant the compiler produces. *)
Definition f64_lit (num den : Z) : float64 := f64_div (f64_of_Z num) (f64_of_Z den).

Definition f64_zero : float64 := S754_zero false.
Definition f64_one : float64 := f64_of_Z 1.

Definition f64_is_nan (x : float64) : bool :=
  match x with S754_nan => true | _ => false end.

(** [math.Ceil]. *)
Definition f64_ceil (x : float64) : float64 :=
  match x with
  | S754_finite s m e =>
      if 0 <=? e then x
      else
        let d := 2 ^ (- e) in
        if s then
          let q := Z.pos m / d in
          if q =? 0 then S754_zero true else f64_of_Z (- q)
        else f64_of_Z ((Z.pos m + d - 1) / d)
  | _ => x
  end.

(** [int(x)] and [time.Duration(x)]: truncation towards zero; an operand that does not fit (or NaN)
    gives the value the amd64 instruction gives. *)
Definition f64_to_int64 (x : float64) : Z :=
  match x with
  | S754_zero _ => 0
  | S754_finite s m e =>
      let a := if 0 <=? e then Z.pos m * 2 ^ e else Z.pos m / 2 ^ (- e) in
      let v := if s then - a else a in
      if (minInt64 <=? v) && (v <=? maxInt64) then v else minInt64
  | _ => minInt64
  end.

(** The order used by [sort.Float64s]: NaN sorts first. *)
Definition f64_less (x y : float64) : bool :=
  f64_lt x y || (f64_is_nan x && negb (f64_is_nan y)).

(** ** Order facts

    Comparison is lexicographic on a key: the sign and class first, then exponent and mantissa. *)
Definition fkey (x : float64) : Z * Z * Z :=
  match x with
  | S754_nan => (-3, 0, 0)
  | S754_infinity true => (-2, 0, 0)
  | S754_finite true m e => (-1, - e, - Z.pos m)
  | S754_zero _ => (0, 0, 0)
  | S754_finite false m e => (1, e, Z.pos m)
  | S754_infinity false => (2, 0, 0)
  end.

Definition key_lt (k l : Z * Z * Z) : Prop :=
  let '(a, b, c) := k in let '(a', b', c') := l in
  a < a' \/ (a = a' /\ (b < b' \/ (b = b' /\ c < c'))).

Lemma pos_compare_cont_Z (m n : positive) : Pos.compare_cont Eq m n = (Z.pos m ?= Z.pos n).
Proof. done. Qed.

Lemma f64_less_key (x y : float64) : f64_less x y = true <-> key_lt (fkey x) (fkey y).
Proof.
  unfold f64_less, f64_lt, SFltb.
  destruct x as [[]|[]| |[] m e], y as [[]|[]| |[] n f]; simpl; try (split; [done|lia]); try (split; lia).
  - rewrite pos_compare_cont_Z.
    destruct (Z.compare_spec e f), (Z.compare_spec (Z.pos m) (Z.pos n)); simpl; split; try done; lia.
  - rewrite pos_compare_cont_Z.
    destruct (Z.compare_spec e f), (Z.compare_spec (Z.pos m) (Z.pos n)); simpl; split; try done; lia.
Qed.

Lemma f64_lt_less (x y : float64) : f64_is_nan x = false -> f64_lt x y = f64_less x y.
Proof. unfold f64_less. intros ->. by rewrite andb_false_l, orb_false_r. Qed.

Lemma f64_lt_not_nan (x y : float64) :
  f64_lt x y = true -> f64_is_nan x = false /\ f64_is_nan y = false.
Proof. by destruct x as [[]|[]| |[] m e], y as [[]|[]| |[] n f]. Qed.

Lemma key_lt_trans k l j : key_lt k l -> key_lt l j -> key_lt k j.
Proof. destruct k as [[??]?], l as [[??]?], j as [[??]?]; simpl. lia. Qed.

Lemma key_lt_neg_trans k l j : ~ key_lt k l -> ~ key_lt l j -> ~ key_lt k j.
Proof. destruct k as [[??]?], l as [[??]?], j as [[??]?]; simpl. lia. Qed.

Lemma key_lt_irrefl k : ~ key_lt k k.
Proof. destruct k as [[??]?]; simpl. lia. Qed.

Lemma f64_less_false (x y : float64) : f64_less x y = false <-> ~ key_lt (fkey x) (fkey y).
Proof. rewrite <- f64_less_key. by rewrite not_true_iff_false. Qed.

Lemma f64_less_irrefl x : f64_less x x = false.
Proof. apply f64_less_false, key_lt_irrefl. Qed.

Lemma f64_less_trans x y z : f64_less x y = true -> f64_less y z = true -> f64_less x z = true.
Proof. rewrite !f64_less_key. apply key_lt_trans. Qed.

Lemma f64_less_neg_trans x y z :
  f64_less x y = false -> f64_less y z = false -> f64_less x z = false.
Proof. rewrite !f64_less_false. apply key_lt_neg_trans. Qed.

Lemma f64_less_asym x y : f64_less x y = true -> f64_less y x = false.
Proof.
  rewrite f64_less_key, f64_less_false. intros H1 H2. apply (key_lt_irrefl (fkey x)).
  by eapply key_lt_trans.
Qed.

Lemma f64_lt_trans x y z : f64_lt x y = true -> f64_lt y z = true -> f64_lt x z = true.
Proof.
  intros H1 H2. pose proof (f64_lt_not_nan _ _ H1) as [Hx Hy].
  rewrite f64_lt_less in * by done. eauto using f64_less_trans.
Qed.

#[export] Hint Resolve f64_less_irrefl f64_less_asym : golib.
