(* ===== verification/GoSort.v ===== *)
(** * Package sort

    The code calls [sort.Slice] and [sort.Float64s], which promise a sorted permutation and no
    stability.  [GoSort] is that promise, as an interface: the theorems about code that sorts hold for
    every implementation.  [insertion_GoSort] implements it, so that definitions run. *)
From S2P Require Import Prelude.

Class GoSort (A : Type) (less : A -> A -> bool) : Type := {
  go_sort : list A -> list A;
  go_sort_perm : forall l, go_sort l ≡ₚ l;
  go_sort_sorted : forall l, Sorted (fun x y => less y x = false) (go_sort l);
}.
Arguments go_sort {A} less {_} l.

Class StrictWeakOrder {A : Type} (less : A -> A -> bool) : Prop := {
  swo_asym : forall x y, less x y = true -> less y x = false;
  swo_neg_trans : forall x y z, less x y = false -> less y z = false -> less x z = false;
}.

Section insertion.
Context {A : Type} (less : A -> A -> bool).

Fixpoint insert_sorted (x : A) (l : list A) : list A :=
  match l with
  | [] => [x]
  | y :: l' => if less y x then y :: insert_sorted x l' else x :: l
  end.

Definition insertion_sort (l : list A) : list A := foldr insert_sorted [] l.

Lemma insert_sorted_perm x l : insert_sorted x l ≡ₚ x :: l.
Proof.
  induction l as [|y l IH]; simpl; [done|].
  destruct (less y x); [|done]. rewrite IH. apply Permutation_swap.
Qed.

Lemma insertion_sort_perm l : insertion_sort l ≡ₚ l.
Proof. induction l as [|x l IH]; simpl; [done|]. by rewrite insert_sorted_perm, IH. Qed.

Context (Hasym : forall x y, less x y = true -> less y x = false).

Lemma insert_sorted_sorted x l :
  Sorted (fun x y => less y x = false) l -> Sorted (fun x y => less y x = false) (insert_sorted x l).
Proof.
  intros Hl. induction Hl as [|y l Hl IH Hhd]; simpl; [by repeat constructor|].
  destruct (less y x) eqn:E.
  - constructor; [done|].
    destruct Hhd as [|z l Hz]; simpl; [constructor; by apply Hasym|].
    destruct (less z x); constructor; [done|by apply Hasym].
  - repeat constructor; done.
Qed.

Lemma insertion_sort_sorted l : Sorted (fun x y => less y x = false) (insertion_sort l).
Proof. induction l; simpl; [constructor|by apply insert_sorted_sorted]. Qed.

Definition insertion_GoSort : GoSort A less :=
  {| go_sort := insertion_sort;
     go_sort_perm := insertion_sort_perm;
     go_sort_sorted := insertion_sort_sorted |}.
End insertion.

Section sorted.
Context {A : Type} (less : A -> A -> bool) `{!StrictWeakOrder less} `{!GoSort A less}.

Lemma go_sort_length l : length (go_sort less l) = length l.
Proof. by rewrite go_sort_perm. Qed.

Lemma go_sort_strongly l : StronglySorted (fun x y => less y x = false) (go_sort less l).
Proof.
  apply Sorted_StronglySorted; [|apply go_sort_sorted].
  intros x y z H1 H2. by apply (swo_neg_trans z y x).
Qed.

(** The element at a position separates the sorted list: none before it is greater, none after it
    is smaller. *)
Lemma go_sort_split l i x :
  go_sort less l !! i = Some x ->
  exists l1 l2, go_sort less l = l1 ++ x :: l2 /\ length l1 = i /\
    Forall (fun y => less x y = false) l1 /\ Forall (fun y => less y x = false) l2.
Proof.
  intros Hi. pose proof (go_sort_strongly l) as Hs.
  exists (take i (go_sort less l)), (drop (S i) (go_sort less l)).
  pose proof (lookup_lt_Some _ _ _ Hi).
  assert (go_sort less l = take i (go_sort less l) ++ x :: drop (S i) (go_sort less l)) as E
    by (by rewrite take_drop_middle).
  repeat split; [done|rewrite length_take; lia| |].
  - rewrite E in Hs. apply Forall_forall. intros y Hy.
    apply StronglySorted_app_1_elem_of with (x1 := y) (x2 := x) in Hs; [done|done|].
    apply list_elem_of_here.
  - rewrite E in Hs. apply StronglySorted_app_1_r in Hs. by apply StronglySorted_inv in Hs as [_ ?].
Qed.

Lemma filter_Forall_nil (P : A -> Prop) `{!forall x, Decision (P x)} (l : list A) :
  Forall (fun x => ~ P x) l -> filter P l = [].
Proof. induction 1; [done|]. by rewrite filter_cons_False. Qed.

(** How many elements of the input lie on each side of the element at position [i]. *)
Lemma go_sort_rank l i x :
  go_sort less l !! i = Some x ->
  (length (filter (fun y => less x y = true) l) <= length l - S i)%nat /\
  (length (filter (fun y => less y x = true) l) <= i)%nat.
Proof.
  intros Hi. destruct (go_sort_split l i x Hi) as (l1 & l2 & E & Hl & H1 & H2).
  assert (length l = (i + S (length l2))%nat) as Hlen.
  { rewrite <- (go_sort_length l), E, length_app. simpl. lia. }
  assert (less x x = false) as Hxx.
  { destruct (less x x) eqn:Exx; [|done]. pose proof (swo_asym _ _ Exx). congruence. }
  assert (forall P `{!forall y, Decision (P y)},
    length (filter P l) = length (filter P (l1 ++ x :: l2))) as Hf.
  { intros P HP. by rewrite <- E, go_sort_perm. }
  split; rewrite Hf, filter_app, length_app.
  - rewrite (filter_Forall_nil _ l1) by (eapply Forall_impl; [exact H1|]; simpl; congruence).
    rewrite filter_cons_False by congruence. simpl.
    pose proof (length_filter (fun y => less x y = true) l2). lia.
  - rewrite filter_cons_False by congruence.
    rewrite (filter_Forall_nil _ l2) by (eapply Forall_impl; [exact H2|]; simpl; congruence). simpl.
    pose proof (length_filter (fun y => less y x = true) l1). lia.
Qed.
End sorted.
