(* ===== verification/GoStrings.v ===== *)
(** * Go strings

    A Go string is a sequence of bytes.  This file has the functions of packages strings, unicode and
    unicode/utf8 that the code calls, and the UTF-8 decoding a [range] loop over a string performs. *)
From S2P Require Import Prelude.
Open Scope Z_scope.

Abbreviation bytes := (list ascii).

Definition byte (a : ascii) : Z := Z.of_nat (nat_of_ascii a).
Definition to_byte (n : Z) : ascii := ascii_of_nat (Z.to_nat n).

Definition to_bytes (s : string) : bytes := String.list_ascii_of_string s.
Definition of_bytes (l : bytes) : string := String.string_of_list_ascii l.

(** [len(s)]. *)
Definition len (s : string) : Z := Z.of_nat (length (to_bytes s)).

Definition HasPrefix (s prefix : string) : bool := String.prefix prefix s.

Fixpoint bytes_prefix (p l : bytes) : bool :=
  match p, l with
  | [], _ => true
  | a :: p, b :: l => Ascii.eqb a b && bytes_prefix p l
  | _ :: _, [] => false
  end.

Definition bytes_suffix (l suffix : bytes) : bool := bytes_prefix (rev suffix) (rev l).

(** Position of the first, and of the last, occurrence of a byte. *)
Fixpoint IndexByte (l : bytes) (c : ascii) : option nat :=
  match l with
  | [] => None
  | b :: l => if Ascii.eqb b c then Some O else S <$> IndexByte l c
  end.

Fixpoint LastIndexByte (l : bytes) (c : ascii) : option nat :=
  match l with
  | [] => None
  | b :: l =>
      match LastIndexByte l c with
      | Some i => Some (S i)
      | None => if Ascii.eqb b c then Some O else None
      end
  end.

(** [strings.Join(elems, sep)]. *)
Fixpoint Join (elems : list string) (sep : string) : string :=
  match elems with
  | [] => ""
  | [e] => e
  | e :: rest => e +:+ sep +:+ Join rest sep
  end%string.

(** ** unicode, on single bytes taken as runes and on runes *)
Definition IsSpace (r : Z) : bool :=
  ((9 <=? r) && (r <=? 13)) || (r =? 32) || (r =? 133) || (r =? 160) || (r =? 5760) ||
  ((8192 <=? r) && (r <=? 8202)) || (r =? 8232) || (r =? 8233) || (r =? 8239) || (r =? 8287) ||
  (r =? 12288).

(** [unicode.IsLetter] on the Latin-1 range: the lexer applies it to single bytes. *)
Definition IsLetter_latin1 (r : Z) : bool :=
  ((65 <=? r) && (r <=? 90)) || ((97 <=? r) && (r <=? 122)) || (r =? 170) || (r =? 181) || (r =? 186) ||
  ((192 <=? r) && (r <=? 214)) || ((216 <=? r) && (r <=? 246)) || ((248 <=? r) && (r <=? 255)).

(** ** UTF-8 *)
Definition RuneError : Z := 65533.
Definition RuneSelf : Z := 128.

Definition in_range (lo hi : Z) (a : ascii) : bool := (lo <=? byte a) && (byte a <=? hi).
Definition is_cont (a : ascii) : bool := in_range 128 191 a.

(** The accepted range of the second byte, by leading byte. *)
Definition second_ok (b0 b1 : ascii) : bool :=
  if byte b0 =? 224 then in_range 160 191 b1
  else if byte b0 =? 237 then in_range 128 159 b1
  else if byte b0 =? 240 then in_range 144 191 b1
  else if byte b0 =? 244 then in_range 128 143 b1
  else is_cont b1.

(** [utf8.DecodeRuneInString]: the first rune and the remaining bytes; an invalid sequence is
    [RuneError] and one byte. *)
Definition decode_rune (l : bytes) : option (Z * bytes) :=
  match l with
  | [] => None
  | b0 :: l1 =>
      let c := byte b0 in
      if c <? 128 then Some (c, l1)
      else if in_range 194 223 b0 then
        match l1 with
        | b1 :: l2 =>
            if second_ok b0 b1 then Some ((c - 192) * 64 + (byte b1 - 128), l2) else Some (RuneError, l1)
        | [] => Some (RuneError, l1)
        end
      else if in_range 224 239 b0 then
        match l1 with
        | b1 :: b2 :: l3 =>
            if second_ok b0 b1 && is_cont b2
            then Some ((c - 224) * 4096 + (byte b1 - 128) * 64 + (byte b2 - 128), l3)
            else Some (RuneError, l1)
        | _ => Some (RuneError, l1)
        end
      else if in_range 240 244 b0 then
        match l1 with
        | b1 :: b2 :: b3 :: l4 =>
            if second_ok b0 b1 && is_cont b2 && is_cont b3
            then Some ((c - 240) * 262144 + (byte b1 - 128) * 4096 + (byte b2 - 128) * 64 + (byte b3 - 128), l4)
            else Some (RuneError, l1)
        | _ => Some (RuneError, l1)
        end
      else Some (RuneError, l1)
  end.

(** The runes of a [range] loop; every step consumes a byte, so the length is enough fuel. *)
Fixpoint runes_fuel (n : nat) (l : bytes) : list Z :=
  match n with
  | O => []
  | S n =>
      match decode_rune l with
      | None => []
      | Some (r, l) => r :: runes_fuel n l
      end
  end.
Definition runes (l : bytes) : list Z := runes_fuel (length l) l.

(** [string(r)] of a rune. *)
Definition encode_rune (r : Z) : bytes :=
  let r := if ((0 <=? r) && (r <? 55296)) || ((57344 <=? r) && (r <=? 1114111)) then r else RuneError in
  if r <? 128 then [to_byte r]
  else if r <? 2048 then [to_byte (192 + r / 64); to_byte (128 + r mod 64)]
  else if r <? 65536 then
    [to_byte (224 + r / 4096); to_byte (128 + (r / 64) mod 64); to_byte (128 + r mod 64)]
  else
    [to_byte (240 + r / 262144); to_byte (128 + (r / 4096) mod 64); to_byte (128 + (r / 64) mod 64);
     to_byte (128 + r mod 64)].

(** [string(rs)] of a rune slice. *)
Definition of_runes (rs : list Z) : bytes := concat (encode_rune <$> rs).

(** ** strings.TrimSpace *)
Fixpoint trim_left_fuel (n : nat) (l : bytes) : bytes :=
  match n with
  | O => l
  | S n =>
      match decode_rune l with
      | None => l
      | Some (r, l') => if IsSpace r then trim_left_fuel n l' else l
      end
  end.
Definition trim_left (l : bytes) : bytes := trim_left_fuel (length l) l.

(** [utf8.DecodeLastRune] on the reversed string: look back at most four bytes for the start of a
    sequence that ends the string.  [acc] holds the bytes passed. *)
Fixpoint decode_last_fuel (n : nat) (acc l : bytes) : option (Z * nat) :=
  match n, l with
  | S n, b :: l' =>
      if is_cont b then decode_last_fuel n (b :: acc) l'
      else
        match decode_rune (b :: acc) with
        | Some (r, []) => Some (r, S (length acc))
        | _ => None
        end
  | _, _ => None
  end.

Definition decode_last_rune (l : bytes) : Z * nat :=
  match l with
  | [] => (RuneError, O)
  | b :: _ =>
      if byte b <? 128 then (byte b, 1%nat)
      else match decode_last_fuel 4 [] l with
           | Some (r, n) => (r, n)
           | None => (RuneError, 1%nat)
           end
  end.

Fixpoint trim_right_fuel (n : nat) (l : bytes) : bytes :=
  match n with
  | O => l
  | S n =>
      let '(r, k) := decode_last_rune l in
      if IsSpace r then trim_right_fuel n (drop k l) else l
  end.
Definition trim_right (l : bytes) : bytes := rev (trim_right_fuel (length l) (rev l)).

Definition TrimSpace (l : bytes) : bytes := trim_right (trim_left l).

(** ** strings.ToUpper

    ASCII strings are mapped byte by byte; for the others the Unicode case table is a parameter. *)
Class UnicodeTables : Type := unicode_ToUpper : Z -> Z.

Definition is_ascii (l : bytes) : bool := forallb (fun b => byte b <? 128) l.
Definition ascii_upper (a : ascii) : ascii := if in_range 97 122 a then to_byte (byte a - 32) else a.
Definition ascii_lower (a : ascii) : ascii := if in_range 65 90 a then to_byte (byte a + 32) else a.

Definition ToUpper `{!UnicodeTables} (s : string) : string :=
  let l := to_bytes s in
  if is_ascii l then of_bytes (ascii_upper <$> l)
  else of_bytes (of_runes (unicode_ToUpper <$> runes l)).

(** ** fmt: [%d] of an int *)
Fixpoint digits_fuel (n : nat) (z : Z) (acc : bytes) : bytes :=
  match n with
  | O => acc
  | S n => let acc := to_byte (48 + z mod 10) :: acc in
           if z / 10 =? 0 then acc else digits_fuel n (z / 10) acc
  end.
(** Twenty digits are enough for an int64. *)
Definition Itoa (z : Z) : string :=
  of_bytes (if z <? 0 then to_byte 45 :: digits_fuel 20 (- z) [] else digits_fuel 20 z []).

(** ** strconv.Atoi: the number, and whether the error is nil.

    Digits are read until one is no digit (the number is then 0) or the value leaves uint64; a value
    outside int64 is replaced by the nearest end. *)
Inductive Digits : Type := Number (n : Z) | NotANumber | TooLarge.

Fixpoint parse_digits (l : bytes) (n : Z) : Digits :=
  match l with
  | [] => Number n
  | c :: l =>
      if in_range 48 57 c then
        let n := n * 10 + (byte c - 48) in
        if 18446744073709551615 <? n then TooLarge else parse_digits l n
      else NotANumber
  end.

Definition Atoi (s : string) : Z * bool :=
  let '(neg, l) :=
    match to_bytes s with
    | c :: l => if byte c =? 45 then (true, l) else if byte c =? 43 then (false, l) else (false, c :: l)
    | [] => (false, [])
    end in
  match (match l with [] => NotANumber | _ => parse_digits l 0 end) with
  | NotANumber => (0, false)
  | TooLarge => (if neg then minInt64 else maxInt64, false)
  | Number n =>
      if neg then (if 9223372036854775808 <? n then (minInt64, false) else (- n, true))
      else if 9223372036854775808 <=? n then (maxInt64, false) else (n, true)
  end.

(** ** Lemmas *)
Lemma of_to_bytes s : of_bytes (to_bytes s) = s.
Proof. apply String.string_of_list_ascii_of_string. Qed.

Lemma to_of_bytes l : to_bytes (of_bytes l) = l.
Proof. apply String.list_ascii_of_string_of_list_ascii. Qed.

Lemma byte_range a : 0 <= byte a < 256.
Proof. unfold byte. pose proof (nat_ascii_bounded a). lia. Qed.

Lemma to_byte_byte a : to_byte (byte a) = a.
Proof. unfold to_byte, byte. rewrite Nat2Z.id. apply ascii_nat_embedding. Qed.

Lemma byte_inj a b : byte a = byte b -> a = b.
Proof. intros H. by rewrite <- (to_byte_byte a), <- (to_byte_byte b), H. Qed.

Lemma runes_ascii l : is_ascii l = true -> runes l = byte <$> l.
Proof.
  unfold runes, is_ascii. induction l as [|b l IH]; [done|]. cbn [forallb length runes_fuel].
  intros [Hb Hl]%andb_true_iff. cbn [decode_rune]. rewrite Hb. by rewrite IH.
Qed.

Lemma of_runes_ascii l : is_ascii l = true -> of_runes (byte <$> l) = l.
Proof.
  unfold of_runes, is_ascii. induction l as [|b l IH]; [done|]. cbn [forallb fmap list_fmap concat].
  intros [Hb Hl]%andb_true_iff. rewrite IH by done.
  pose proof (byte_range b). apply Z.ltb_lt in Hb as Hb'. unfold encode_rune.
  rewrite (proj2 (Z.leb_le 0 (byte b))), (proj2 (Z.ltb_lt (byte b) 55296)) by lia. simpl.
  by rewrite Hb, to_byte_byte.
Qed.

(** A byte that [TrimSpace] keeps at an end. *)
Definition solid (b : ascii) : bool := (byte b <? 128) && negb (IsSpace (byte b)).

Lemma trim_left_solid b l : solid b = true -> trim_left (b :: l) = b :: l.
Proof.
  unfold solid, trim_left. intros [Hb Hs]%andb_true_iff. cbn [length trim_left_fuel decode_rune].
  rewrite Hb. apply negb_true_iff in Hs. by rewrite Hs.
Qed.

Lemma trim_right_solid l b : solid b = true -> trim_right (l ++ [b]) = l ++ [b].
Proof.
  unfold solid, trim_right. intros [Hb Hs]%andb_true_iff.
  rewrite length_app, Nat.add_comm, rev_app_distr. cbn [length Nat.add trim_right_fuel rev app decode_last_rune].
  rewrite Hb. apply negb_true_iff in Hs. rewrite Hs. cbn [rev]. by rewrite rev_involutive.
Qed.

(** A string whose first and last bytes are solid is left alone. *)
Definition solid_ends (l : bytes) : bool :=
  match l with
  | [] => true
  | b :: _ => solid b && solid (List.last l b)
  end.

Lemma TrimSpace_solid l : solid_ends l = true -> TrimSpace l = l.
Proof.
  unfold TrimSpace. destruct l as [|b l] using rev_ind; [done|]. clear IHl.
  intros H. assert (exists c k, l ++ [b] = c :: k /\ solid c = true /\ solid b = true) as (c & k & E & Hc & Hb).
  { assert (forall x, List.last (l ++ [b]) x = b) as Hlast by (intros; apply List.last_last).
    destruct l as [|c l].
    - apply andb_true_iff in H as [? _]. by exists b, [].
    - cbn [app solid_ends] in H. apply andb_true_iff in H as [Hc Hl].
      rewrite app_comm_cons, Hlast in Hl. by exists c, (l ++ [b]). }
  rewrite E at 1. rewrite trim_left_solid by done. rewrite <- E. by apply trim_right_solid.
Qed.

Example TrimSpace_ex : of_bytes (TrimSpace (to_bytes " 	 a b 
 ")) = "a b"%string.
Proof. reflexivity. Qed.

Example Atoi_ex : (Atoi "8002", Atoi "-7", Atoi "12x", Atoi "", Atoi "99999999999999999999") =
  ((8002, true), (-7, true), (0, false), (0, false), (maxInt64, false)).
Proof. reflexivity. Qed.

Example runes_ex : runes (to_bytes "aé€") = [97; 233; 8364].
Proof. reflexivity. Qed.
