(* ===== verification/NetIP.v ===== *)
(** * Package net: addresses

    [net.SplitHostPort], [net.ParseIP], [net.ParseCIDR], [IP.Equal] and [IPNet.Contains], as the
    matchers and the client-address helpers use them.  An address is its byte slice: 16 bytes as
    parsed, 4 after [To4], none for a nil [net.IP]. *)
From S2P Require Import Prelude GoStrings.
Open Scope Z_scope.

Definition ch_dot : ascii := "."%char.
Definition ch_colon : ascii := ":"%char.
Definition ch_percent : ascii := "%"%char.
Definition ch_slash : ascii := "/"%char.
Definition ch_lbrack : ascii := "["%char.
Definition ch_rbrack : ascii := "]"%char.

(** ** SplitHostPort: host and port, or an error *)
Definition SplitHostPort (hostport : string) : option (string * string) :=
  let s := to_bytes hostport in
  match LastIndexByte s ch_colon with
  | None => None
  | Some i =>
      let finish (host : bytes) (j k : nat) :=
        if bool_decide (is_Some (IndexByte (drop j s) ch_lbrack)) then None
        else if bool_decide (is_Some (IndexByte (drop k s) ch_rbrack)) then None
        else Some (of_bytes host, of_bytes (drop (S i) s)) in
      match s with
      | b :: _ =>
          if Ascii.eqb b ch_lbrack then
            match IndexByte s ch_rbrack with
            | None => None
            | Some e => if (S e =? i)%nat then finish (drop 1 (take e s)) 1%nat (S e) else None
            end
          else
            let host := take i s in
            if bool_decide (is_Some (IndexByte host ch_colon)) then None else finish host 0%nat 0%nat
      | [] => None
      end
  end.

(** ** netip.ParseAddr *)
Definition is_digit (a : ascii) : bool := in_range 48 57 a.

(** parseIPv4Fields over the bytes of one dotted quad: [val] and [digLen] describe the current octet,
    [fields] the finished ones, [prev_dot] whether the previous byte was a dot. *)
Fixpoint ipv4_fields (l : bytes) (first prev_dot : bool) (val : Z) (digLen : nat) (fields : list Z) : option (list Z) :=
  match l with
  | [] => if (length fields <? 3)%nat then None else Some (fields ++ [val])
  | c :: rest =>
      if is_digit c then
        if (digLen =? 1)%nat && (val =? 0) then None
        else
          let val := val * 10 + (byte c - 48) in
          if 255 <? val then None else ipv4_fields rest false false val (S digLen) fields
      else if Ascii.eqb c ch_dot then
        if first || (length rest =? 0)%nat || prev_dot then None
        else if (length fields =? 3)%nat then None
        else ipv4_fields rest false true 0 0 (fields ++ [val])
      else None
  end.

Definition parseIPv4Fields (l : bytes) : option (list Z) := ipv4_fields l true false 0 0 [].

Definition hex_digit (c : ascii) : option Z :=
  if in_range 48 57 c then Some (byte c - 48)
  else if in_range 97 102 c then Some (byte c - 97 + 10)
  else if in_range 65 70 c then Some (byte c - 65 + 10)
  else None.

(** One group of hexadecimal digits: its value, the number of digits, and the rest. *)
Fixpoint hex_group (l : bytes) (off : nat) (acc : Z) : option (Z * nat * bytes) :=
  match l with
  | [] => Some (acc, off, [])
  | c :: rest =>
      match hex_digit c with
      | None => Some (acc, off, l)
      | Some d =>
          let acc := acc * 16 + d in
          if (3 <? off)%nat then None
          else if 65535 <? acc then None
          else hex_group rest (S off) acc
      end
  end.

(** The loop of parseIPv6: [ip] is what has been parsed, [ellipsis] its position.  Every turn consumes
    at least one byte; the length is enough fuel. *)
Fixpoint ipv6_loop (n : nat) (s : bytes) (ip : list Z) (ellipsis : option nat) : option (bytes * list Z * option nat) :=
  match n with
  | O => Some (s, ip, ellipsis)
  | S n =>
      if (16 <=? length ip)%nat then Some (s, ip, ellipsis)
      else
        match hex_group s 0 0 with
        | None => None
        | Some (acc, off, rest) =>
            if (off =? 0)%nat then None
            else
              match rest with
              | [] => Some ([], ip ++ [acc / 256; acc mod 256], ellipsis)
              | c :: rest' =>
                  if Ascii.eqb c ch_dot then
                    if bool_decide (ellipsis = None) && negb (length ip =? 12)%nat then None
                    else if (16 <? length ip + 4)%nat then None
                    else
                      match parseIPv4Fields s with
                      | None => None
                      | Some f => Some ([], ip ++ f, ellipsis)
                      end
                  else
                    let ip := ip ++ [acc / 256; acc mod 256] in
                    if negb (Ascii.eqb c ch_colon) then None
                    else
                      match rest' with
                      | [] => None
                      | c2 :: rest'' =>
                          if Ascii.eqb c2 ch_colon then
                            match ellipsis with
                            | Some _ => None
                            | None =>
                                match rest'' with
                                | [] => Some ([], ip, Some (length ip))
                                | _ => ipv6_loop n rest'' ip (Some (length ip))
                                end
                            end
                          else ipv6_loop n rest' ip ellipsis
                      end
              end
        end
  end.

(** The bytes of an IPv6 address without zone. *)
Definition parseIPv6_bytes (s : bytes) : option (list Z) :=
  let finish (r : option (bytes * list Z * option nat)) :=
    match r with
    | None => None
    | Some (s, ip, ellipsis) =>
        if negb (length s =? 0)%nat then None
        else if (length ip <? 16)%nat then
          match ellipsis with
          | None => None
          | Some e => Some (take e ip ++ replicate (16 - length ip) 0 ++ drop e ip)
          end
        else match ellipsis with None => Some ip | Some _ => None end
    end in
  match s with
  | a :: b :: rest =>
      if Ascii.eqb a ch_colon && Ascii.eqb b ch_colon then
        match rest with
        | [] => Some (replicate 16 0)
        | _ => finish (ipv6_loop (length s) rest [] (Some O))
        end
      else finish (ipv6_loop (length s) s [] None)
  | _ => finish (ipv6_loop (length s) s [] None)
  end.

Definition v4InV6Prefix : list Z := [0; 0; 0; 0; 0; 0; 0; 0; 0; 0; 255; 255].

(** Which of '.', ':' and '%' comes first decides the family. *)
Fixpoint addr_family (l : bytes) : option ascii :=
  match l with
  | [] => None
  | c :: l => if Ascii.eqb c ch_dot || Ascii.eqb c ch_colon || Ascii.eqb c ch_percent then Some c else addr_family l
  end.

(** The 16 bytes and the bit length (32 or 128) of an address without a zone; an address with a zone
    is refused by both callers. *)
Definition ParseAddr (s : string) : option (list Z * Z) :=
  let l := to_bytes s in
  match addr_family l with
  | None => None
  | Some c =>
      if Ascii.eqb c ch_dot then (fun f => (v4InV6Prefix ++ f, 32)) <$> parseIPv4Fields l
      else if Ascii.eqb c ch_colon then
        match IndexByte l ch_percent with
        | Some _ => None
        | None => (fun f => (f, 128)) <$> parseIPv6_bytes l
        end
      else None
  end.

(** ** net.IP and net.IPNet *)
Definition ParseIP (s : string) : option (list Z) := fst <$> ParseAddr s.

Definition To4 (ip : list Z) : option (list Z) :=
  if (length ip =? 4)%nat then Some ip
  else if (length ip =? 16)%nat && bool_decide (take 12 ip = v4InV6Prefix) then Some (drop 12 ip)
  else None.

Definition IP_Equal (ip x : list Z) : bool :=
  if (length ip =? length x)%nat then bool_decide (ip = x)
  else if (length ip =? 4)%nat && (length x =? 16)%nat then
    bool_decide (take 12 x = v4InV6Prefix) && bool_decide (ip = drop 12 x)
  else if (length ip =? 16)%nat && (length x =? 4)%nat then
    bool_decide (take 12 ip = v4InV6Prefix) && bool_decide (drop 12 ip = x)
  else false.

(** [net.CIDRMask(ones, bits)]. *)
Definition mask_byte (ones : Z) : Z := if 8 <=? ones then 255 else if ones <=? 0 then 0 else 256 - 2 ^ (8 - ones).
Definition CIDRMask (ones : Z) (nbytes : nat) : list Z :=
  (fun i => mask_byte (ones - 8 * Z.of_nat i)) <$> seq 0 nbytes.

Definition mask_bytes (ip m : list Z) : list Z := zip_with Z.land ip m.

(** [IP.Mask]. *)
Definition IP_Mask (ip m : list Z) : list Z :=
  let ip := if (length m =? 4)%nat && (length ip =? 16)%nat && bool_decide (take 12 ip = v4InV6Prefix)
            then drop 12 ip else ip in
  if (length ip =? length m)%nat then mask_bytes ip m else [].

Record IPNet : Type := mkIPNet { net_IP : list Z; net_Mask : list Z }.

(** [dtoi]: a decimal number that is the whole string. *)
Fixpoint dtoi (l : bytes) (n : Z) : option Z :=
  match l with
  | [] => Some n
  | c :: l =>
      if is_digit c then
        let n := n * 10 + (byte c - 48) in
        if 16777215 <=? n then None else dtoi l n
      else None
  end.

Definition ParseCIDR (s : string) : option IPNet :=
  let l := to_bytes s in
  match IndexByte l ch_slash with
  | None => None
  | Some i =>
      match ParseAddr (of_bytes (take i l)) with
      | None => None
      | Some (addr, bits) =>
          let mask := drop (S i) l in
          if (length mask =? 0)%nat then None
          else
            match dtoi mask 0 with
            | None => None
            | Some n =>
                if bits <? n then None
                else
                  let m := CIDRMask n (Z.to_nat (bits / 8)) in
                  Some (mkIPNet (IP_Mask addr m) m)
            end
      end
  end.

Definition networkNumberAndMask (n : IPNet) : option (list Z * list Z) :=
  let ip := match To4 (net_IP n) with Some ip => ip | None => net_IP n end in
  if negb ((length ip =? 4)%nat || (length ip =? 16)%nat) then None
  else
    let m := net_Mask n in
    if (length m =? 4)%nat then (if (length ip =? 4)%nat then Some (ip, m) else None)
    else if (length m =? 16)%nat then Some (ip, if (length ip =? 4)%nat then drop 12 m else m)
    else None.

Definition IPNet_Contains (n : IPNet) (ip : list Z) : bool :=
  match networkNumberAndMask n with
  | None => false
  | Some (nn, m) =>
      let ip := match To4 ip with Some x => x | None => ip end in
      (length ip =? length nn)%nat && bool_decide (mask_bytes nn m = mask_bytes ip m)
  end.

Example ParseIP_v4 : ParseIP "10.0.3.255" = Some (v4InV6Prefix ++ [10; 0; 3; 255]).
Proof. vm_compute. reflexivity. Qed.
Example ParseIP_bad : (ParseIP "10.0.3", ParseIP "1.2.3.04", ParseIP "1.2.3.256", ParseIP "::1%eth0") = (None, None, None, None).
Proof. vm_compute. reflexivity. Qed.
Example ParseIP_v6 : ParseIP "2001:db8::1" = Some [32; 1; 13; 184; 0; 0; 0; 0; 0; 0; 0; 0; 0; 0; 0; 1].
Proof. vm_compute. reflexivity. Qed.
Example Contains_ex :
  ((fun n => (IPNet_Contains n <$> ParseIP "10.1.2.3", IPNet_Contains n <$> ParseIP "11.1.2.3")) <$> ParseCIDR "10.0.0.0/8")
  = Some (Some true, Some false).
Proof. vm_compute. reflexivity. Qed.
Example Split_ex :
  (SplitHostPort "127.0.0.1:80", SplitHostPort "[::1]:80", SplitHostPort "::1:80", SplitHostPort "host")
  = (Some ("127.0.0.1", "80"), Some ("::1", "80"), None, None)%string.
Proof. vm_compute. reflexivity. Qed.
