(* ===== verification/GoHttp.v ===== *)
(** * Package net/http: headers, requests, contexts and response writers

    A header is a map from canonical keys to value lists.  A request header is one map, and a request body
    one reader, shared by every copy of the request ([WithContext] copies the pointers), so a handler
    returns what it leaves of them.
    The response writers of the program wrap each other; [ResponseWriter] has a constructor per struct,
    and the methods dispatch on it.  The server's own writer knows whether the request is a HEAD, whose
    answer has no body although [Write] counts one. *)
From S2P Require Import Prelude GoStrings.
Open Scope Z_scope.

(** ** Headers *)
Abbreviation Header := (gmap string (list string)).

Definition token_byte (a : ascii) : bool :=
  in_range 48 57 a || in_range 65 90 a || in_range 97 122 a ||
  bool_decide (byte a ∈ [33; 35; 36; 37; 38; 39; 42; 43; 45; 46; 94; 95; 96; 124; 126]).

Fixpoint canonical_loop (upper : bool) (l : bytes) : bytes :=
  match l with
  | [] => []
  | c :: l =>
      let c := if upper then ascii_upper c else ascii_lower c in
      c :: canonical_loop (byte c =? 45) l
  end.

(** [textproto.CanonicalMIMEHeaderKey]: a key with a byte that is not a token byte is left alone. *)
Definition CanonicalKey (s : string) : string :=
  let l := to_bytes s in
  if forallb token_byte l then of_bytes (canonical_loop true l) else s.

Definition Header_Get (h : Header) (key : string) : string :=
  match h !! CanonicalKey key with
  | Some (v :: _) => v
  | _ => ""
  end.

Definition Header_Set (h : Header) (key value : string) : Header := <[CanonicalKey key := [value]]> h.
Definition Header_Add (h : Header) (key value : string) : Header :=
  <[CanonicalKey key := default [] (h !! CanonicalKey key) ++ [value]]> h.
Definition Header_Del (h : Header) (key : string) : Header := delete (CanonicalKey key) h.

(** ** Contexts

    The values the program stores under its private keys, the deadline, and the instant at which the
    client goes away, if it does. *)
Record Context : Type := mkContext {
  ctx_deadline : option Z;
  ctx_disconnect : option Z;
  ctx_requestID : option string;
  ctx_priority : option string;
  ctx_attempt : option Z;
  ctx_excluded : option (list string);
}.

Definition Background : Context := mkContext None None None None None None.

(** [context.WithTimeout(parent, d)] at [now]: the earlier of the two deadlines. *)
Definition WithTimeout (now d : Z) (c : Context) : Context :=
  mkContext (Some (match ctx_deadline c with Some p => Z.min p (now + d) | None => now + d end))
    (ctx_disconnect c) (ctx_requestID c) (ctx_priority c) (ctx_attempt c) (ctx_excluded c).

Definition WithRequestID (id : string) (c : Context) : Context :=
  mkContext (ctx_deadline c) (ctx_disconnect c) (Some id) (ctx_priority c) (ctx_attempt c) (ctx_excluded c).
Definition WithPriority (p : string) (c : Context) : Context :=
  mkContext (ctx_deadline c) (ctx_disconnect c) (ctx_requestID c) (Some p) (ctx_attempt c) (ctx_excluded c).
Definition WithAttempt (n : Z) (c : Context) : Context :=
  mkContext (ctx_deadline c) (ctx_disconnect c) (ctx_requestID c) (ctx_priority c) (Some n) (ctx_excluded c).
Definition WithExcluded (l : list string) (c : Context) : Context :=
  mkContext (ctx_deadline c) (ctx_disconnect c) (ctx_requestID c) (ctx_priority c) (ctx_attempt c) (Some l).

(** The instant at which [ctx.Done()] is closed. *)
Definition ctx_done_at (c : Context) : option Z :=
  match ctx_deadline c, ctx_disconnect c with
  | Some a, Some b => Some (Z.min a b)
  | Some a, None => Some a
  | None, o => o
  end.

(** ** Requests *)
Record Request : Type := mkRequest {
  req_Method : string;
  req_Path : string;          (* URL.Path *)
  req_RequestURI : string;
  req_RemoteAddr : string;
  req_Host : string;
  req_TLS : bool;             (* TLS != nil *)
  req_Header : Header;
  req_Body : bytes;           (* what is left to read of Body *)
  req_ctx : Context;
}.

Definition WithContext (c : Context) (r : Request) : Request :=
  mkRequest (req_Method r) (req_Path r) (req_RequestURI r) (req_RemoteAddr r) (req_Host r) (req_TLS r)
    (req_Header r) (req_Body r) c.

(** The same request once its shared header map holds [h]. *)
Definition WithHeader (h : Header) (r : Request) : Request :=
  mkRequest (req_Method r) (req_Path r) (req_RequestURI r) (req_RemoteAddr r) (req_Host r) (req_TLS r)
    h (req_Body r) (req_ctx r).

(** The same request once its shared body reader has only [b] left. *)
Definition WithBody (b : bytes) (r : Request) : Request :=
  mkRequest (req_Method r) (req_Path r) (req_RequestURI r) (req_RemoteAddr r) (req_Host r) (req_TLS r)
    (req_Header r) b (req_ctx r).

(** ** Response writers *)
Inductive ResponseWriter : Type :=
(** the server's own writer: whether the request is a HEAD, header map, header snapshot and status once
    written, body sent *)
| ServerWriter (head : bool) (headers : Header) (sent : option (Z * Header)) (body : bytes)
(** middleware/circuitbreaker.go: cbStatusRecorder *)
| CbRecorder (inner : ResponseWriter) (statusCode : Z) (written : bool)
(** middleware/accesslog.go: statusRecorder *)
| StatusRecorder (inner : ResponseWriter) (statusCode bytesSent : Z) (written : bool)
(** middleware/retry.go: retryResponseWriter *)
| RetryWriter (inner : ResponseWriter) (statusCode : Z) (body : bytes) (headers : Header) (committed : bool).

(** [w.Header()]. *)
Fixpoint rw_Header (w : ResponseWriter) : Header :=
  match w with
  | ServerWriter _ h _ _ => h
  | CbRecorder inner _ _ => rw_Header inner
  | StatusRecorder inner _ _ _ => rw_Header inner
  | RetryWriter _ _ _ h _ => h
  end.

(** Assigning through the map [w.Header()] returns. *)
Fixpoint rw_SetHeaders (h : Header) (w : ResponseWriter) : ResponseWriter :=
  match w with
  | ServerWriter head _ s b => ServerWriter head h s b
  | CbRecorder inner c wr => CbRecorder (rw_SetHeaders h inner) c wr
  | StatusRecorder inner c n wr => StatusRecorder (rw_SetHeaders h inner) c n wr
  | RetryWriter inner c b _ cm => RetryWriter inner c b h cm
  end.

Definition rw_Set (key value : string) (w : ResponseWriter) : ResponseWriter :=
  rw_SetHeaders (Header_Set (rw_Header w) key value) w.
Definition rw_Add (key value : string) (w : ResponseWriter) : ResponseWriter :=
  rw_SetHeaders (Header_Add (rw_Header w) key value) w.
Definition rw_Del (key : string) (w : ResponseWriter) : ResponseWriter :=
  rw_SetHeaders (Header_Del (rw_Header w) key) w.

(** An informational status is sent at once and does not end the header. *)
Definition informational (code : Z) : bool := (100 <=? code) && (code <=? 199) && negb (code =? 101).
Definition bodyAllowedForStatus (code : Z) : bool :=
  negb (((100 <=? code) && (code <=? 199)) || (code =? 204) || (code =? 304)).

Fixpoint rw_WriteHeader (code : Z) (w : ResponseWriter) : ResponseWriter :=
  match w with
  | ServerWriter _ h (Some s) b => w
  | ServerWriter head h None b => if informational code then w else ServerWriter head h (Some (code, h)) b
  | CbRecorder inner c wr =>
      CbRecorder (rw_WriteHeader code inner) (if wr then c else code) true
  | StatusRecorder inner c n wr =>
      StatusRecorder (rw_WriteHeader code inner) (if wr then c else code) n true
  | RetryWriter inner c b h cm => RetryWriter inner (if cm then c else code) b h cm
  end.

(** What of [data] a connection sends: the answer to a HEAD has no body, and the server drops it without
    telling the handler. *)
Definition body_sent (head : bool) (data : bytes) : bytes := if head then [] else data.

(** [w.Write(data)]: the writer and the number of bytes written. *)
Fixpoint rw_Write (data : bytes) (w : ResponseWriter) : ResponseWriter * Z :=
  match w with
  | ServerWriter head h (Some (code, h0)) b =>
      if bodyAllowedForStatus code
      then (ServerWriter head h (Some (code, h0)) (b ++ body_sent head data), Z.of_nat (length data))
      else (w, 0)
  | ServerWriter head h None b =>
      (ServerWriter head h (Some (200, h)) (b ++ body_sent head data), Z.of_nat (length data))
  | CbRecorder inner c wr =>
      let '(inner, n) := rw_Write data inner in
      (CbRecorder inner (if wr then c else 200) true, n)
  | StatusRecorder inner c m wr =>
      let '(inner, n) := rw_Write data inner in
      (StatusRecorder inner (if wr then c else 200) (wrap64 (m + n)) true, n)
  | RetryWriter inner c b h cm =>
      if negb cm then (RetryWriter inner c (b ++ data) h cm, Z.of_nat (length data))
      else let '(inner, n) := rw_Write data inner in (RetryWriter inner c b h cm, n)
  end.

(** [http.Error]. *)
Definition http_Error (msg : string) (code : Z) (w : ResponseWriter) : ResponseWriter :=
  let w := rw_Del "Content-Length" w in
  let w := rw_Set "Content-Type" "text/plain; charset=utf-8" w in
  let w := rw_Set "X-Content-Type-Options" "nosniff" w in
  let w := rw_WriteHeader code w in
  (rw_Write (to_bytes msg ++ [to_byte 10]) w).1.

(** What the client received: status, header and body; 200 with the current header if the handler
    wrote nothing. *)
Fixpoint client_view (w : ResponseWriter) : Z * Header * bytes :=
  match w with
  | ServerWriter _ h (Some (c, h0)) b => (c, h0, b)
  | ServerWriter _ h None b => (200, h, b)
  | CbRecorder inner _ _ => client_view inner
  | StatusRecorder inner _ _ _ => client_view inner
  | RetryWriter inner _ _ _ _ => client_view inner
  end.

(** ** Handlers

    [ServeHTTP] on a world [W]: the writer afterwards, the final contents of what the copies of the
    request share (the header map and the unread part of the body), and the world. *)
Record Served (W : Type) : Type := mkServed {
  sv_w : ResponseWriter;
  sv_header : Header;
  sv_body : bytes;
  sv_world : W;
}.
Arguments mkServed {W}.
Arguments sv_w {W}.
Arguments sv_header {W}.
Arguments sv_body {W}.
Arguments sv_world {W}.

Definition Handler (W : Type) : Type := ResponseWriter -> Request -> W -> Served W.

(** [func(http.Handler) http.Handler]. *)
Definition Middleware (W : Type) : Type := Handler W -> Handler W.

(** ** Lemmas *)
Lemma Header_Get_Set h k v : Header_Get (Header_Set h k v) k = v.
Proof. unfold Header_Get, Header_Set. by rewrite lookup_insert_eq. Qed.

Lemma Header_Get_Set_ne h k k' v :
  CanonicalKey k <> CanonicalKey k' -> Header_Get (Header_Set h k v) k' = Header_Get h k'.
Proof. intros. unfold Header_Get, Header_Set. by rewrite lookup_insert_ne. Qed.

Lemma rw_Header_SetHeaders h w : rw_Header (rw_SetHeaders h w) = h.
Proof. by induction w. Qed.

Lemma rw_Header_WriteHeader code w : rw_Header (rw_WriteHeader code w) = rw_Header w.
Proof. induction w as [? h [|] b| | |]; simpl; try done. by destruct (informational code). Qed.

Lemma rw_Header_Write data w : rw_Header (rw_Write data w).1 = rw_Header w.
Proof.
  induction w as [? h [[c h0]|] b|inner IH|inner IH|inner IH c b h cm]; simpl; try done.
  - by destruct (bodyAllowedForStatus c).
  - by destruct (rw_Write data inner).
  - by destruct (rw_Write data inner).
  - destruct cm; simpl; [by destruct (rw_Write data inner)|done].
Qed.

#[export] Hint Rewrite rw_Header_SetHeaders rw_Header_WriteHeader rw_Header_Write : golib.

(** The server's writer for a request, before the handlers run: [h] is what is in its header map. *)
Definition connection (r : Request) (h : Header) : ResponseWriter :=
  ServerWriter (String.eqb (req_Method r) "HEAD") h None [].

(** The page [http.Error] makes of a connection on which nothing was sent yet. *)
Definition error_page (head : bool) (msg : string) (code : Z) (h : Header) : Z * Header * bytes :=
  (code,
   Header_Set (Header_Set (Header_Del h "Content-Length") "Content-Type" "text/plain; charset=utf-8")
     "X-Content-Type-Options" "nosniff",
   if bodyAllowedForStatus code then body_sent head (to_bytes msg ++ [to_byte 10]) else []).

Lemma http_Error_page msg code head h :
  informational code = false ->
  client_view (http_Error msg code (ServerWriter head h None [])) = error_page head msg code h.
Proof.
  intros Hc. unfold http_Error, error_page, rw_Set, rw_Del. cbn [rw_Header rw_SetHeaders rw_WriteHeader]. rewrite Hc.
  cbn [rw_Write]. by destruct (bodyAllowedForStatus code).
Qed.

(** What a client sees when the writer is the server's own and nothing was sent yet. *)
Lemma http_Error_view msg code head h :
  informational code = false -> (client_view (http_Error msg code (ServerWriter head h None []))).1.1 = code.
Proof. intros Hc. by rewrite http_Error_page. Qed.

(** *** The shape of a writer: which wrappers it is made of.  Handlers keep it. *)
Fixpoint same_shape (w w' : ResponseWriter) : Prop :=
  match w, w' with
  | ServerWriter head _ _ _, ServerWriter head' _ _ _ => head = head'
  | CbRecorder i _ _, CbRecorder j _ _ => same_shape i j
  | StatusRecorder i _ _ _, StatusRecorder j _ _ _ => same_shape i j
  | RetryWriter i _ _ _ _, RetryWriter j _ _ _ _ => same_shape i j
  | _, _ => False
  end.

#[export] Instance same_shape_equiv : Equivalence same_shape.
Proof.
  split.
  - intros w. by induction w.
  - intros w. induction w; intros [] ?; simpl in *; auto.
  - intros w. induction w; intros [] [] ??; simpl in *; try done; eauto; congruence.
Qed.

Lemma same_shape_SetHeaders h w : same_shape w (rw_SetHeaders h w).
Proof. induction w; simpl; try done. Qed.

Lemma same_shape_WriteHeader code w : same_shape w (rw_WriteHeader code w).
Proof. induction w as [? h [|] b| | |]; simpl; try done. by destruct (informational code). Qed.

Lemma same_shape_Write data w : same_shape w (rw_Write data w).1.
Proof.
  induction w as [? h [[c h0]|] b|inner IH|inner IH|inner IH c b h cm]; simpl; try done.
  - by destruct (bodyAllowedForStatus c).
  - by destruct (rw_Write data inner).
  - by destruct (rw_Write data inner).
  - destruct cm; simpl; [by destruct (rw_Write data inner)|done].
Qed.

Lemma same_shape_Error msg code w : same_shape w (http_Error msg code w).
Proof.
  unfold http_Error, rw_Del, rw_Set.
  etrans; [|apply same_shape_Write]. etrans; [|apply same_shape_WriteHeader].
  repeat (etrans; [|apply same_shape_SetHeaders]). done.
Qed.

#[export] Hint Resolve same_shape_SetHeaders same_shape_WriteHeader same_shape_Write same_shape_Error : golib.

(** *** The interface a handler has on its writer: any number of method calls *)
Inductive writer_step (w : ResponseWriter) : ResponseWriter -> Prop :=
| ws_header h : writer_step w (rw_SetHeaders h w)
| ws_writeHeader code : informational code = false -> writer_step w (rw_WriteHeader code w)
| ws_write data : writer_step w (rw_Write data w).1.

(** A handler that reaches its writer only through the interface, and sends no informational status. *)
Definition uses_writer {W : Type} (next : Handler W) : Prop :=
  forall rw r w, rtc writer_step rw (sv_w (next rw r w)).

Lemma http_Error_steps msg code w : informational code = false -> rtc writer_step w (http_Error msg code w).
Proof.
  intros Hc. unfold http_Error, rw_Del, rw_Set.
  do 3 (eapply rtc_l; [apply ws_header|]). eapply rtc_l; [by apply ws_writeHeader|].
  apply rtc_once, ws_write.
Qed.

Example CanonicalKey_ex : CanonicalKey "x-real-IP" = "X-Real-Ip"%string.
Proof. reflexivity. Qed.
