(* ===== verification/Logging.v ===== *)
(** * internal/logging/logger.go: structured log lines

    A line on standard output and, once [InitFileLogger] has opened it, the same line in the access log
    file.  A line is its entry; the time is kept as an instant, its formatting and the JSON encoding are left
    out, except that encoding fails on a latency that is no finite number, and then the line is empty. *)
From S2P Require Import Prelude GoFloat.
Open Scope Z_scope.

Record AccessLog : Type := mkAccessLog {
  al_Time : Z;
  al_Level : string;
  al_Message : string;
  al_RequestID : string;
  al_ClientIP : string;
  al_Method : string;
  al_Path : string;
  al_Priority : string;
  al_ServerName : string;
  al_Target : string;
  al_StatusCode : Z;
  al_LatencyMs : float64;
  al_Attempt : Z;
  al_BackoffMs : Z;
  al_Error : string;
}.

(** The package's variables: what was printed, and the file with its lines once it is open. *)
Record Logger : Type := mkLogger {
  lg_stdout : list (option AccessLog);
  lg_file : option (list (option AccessLog));
}.

Definition Logger_init : Logger := mkLogger [] None.

(** [opened]: the outcome of [os.OpenFile], with the lines the file already has. *)
Definition InitFileLogger (opened : result string (list (option AccessLog))) (l : Logger) : Logger * option string :=
  match opened with
  | Err e => (l, Some e)
  | Ok lines => (mkLogger (lg_stdout l) (Some lines), None)
  end.

(** [json.Marshal]: [None] is the empty line that is left of an error. *)
Definition marshal (e : AccessLog) : option AccessLog :=
  match al_LatencyMs e with
  | S754_infinity _ | S754_nan => None
  | _ => Some e
  end.

Definition println (line : option AccessLog) (l : Logger) : Logger :=
  mkLogger (lg_stdout l ++ [line]) ((fun lines => lines ++ [line]) <$> lg_file l).

Definition stamp (now : Z) (level : string) (e : AccessLog) : AccessLog :=
  mkAccessLog now level (al_Message e) (al_RequestID e) (al_ClientIP e) (al_Method e) (al_Path e) (al_Priority e)
    (al_ServerName e) (al_Target e) (al_StatusCode e) (al_LatencyMs e) (al_Attempt e) (al_BackoffMs e) (al_Error e).

Definition Info (now : Z) (e : AccessLog) (l : Logger) : Logger :=
  println (marshal (stamp now (if String.eqb (al_Level e) "" then "INFO" else al_Level e)%string e)) l.

Definition Error (now : Z) (e : AccessLog) (l : Logger) : Logger :=
  println (marshal (stamp now "ERROR" e)) l.

(** ** The file keeps up with the output *)
(** What was printed since the file was opened is what was appended to it. *)
Definition in_step (before : nat) (lines : list (option AccessLog)) (l : Logger) : Prop :=
  lg_file l = Some (lines ++ drop before (lg_stdout l)) /\ (before <= length (lg_stdout l))%nat.

Lemma in_step_println before lines line l : in_step before lines l -> in_step before lines (println line l).
Proof.
  intros [Hf Hle]. unfold in_step, println; cbn [lg_file lg_stdout]. rewrite Hf, length_app. cbn [fmap option_fmap option_map length].
  split; [|lia]. by rewrite drop_app_le, app_assoc by done.
Qed.

Lemma in_step_init lines l : in_step (length (lg_stdout l)) lines (InitFileLogger (Ok lines) l).1.
Proof. split; cbn [InitFileLogger fst lg_file lg_stdout]; [by rewrite drop_all, app_nil_r|done]. Qed.
