(* ===== verification/Env.v ===== *)
(** * What the handlers take from outside

    The handlers are functions on a world [W].  [Env] is what they ask of the runtime: the clock, the
    random source, the timer of a [select], and the program's log (Logging.v).  [Client] is the HTTP client of the proxy.  A component that
    owns a part of the world reaches it through a [Lens].  The world a call of the environment returns
    may differ in any component: other goroutines run there; [Frame] says that they left one component
    alone. *)
From S2P Require Import Prelude GoFloat GoStrings GoHttp Logging.
Open Scope Z_scope.

Class Env (W : Type) : Type := {
  env_Now : W -> Z * W;                    (* time.Now *)
  env_SleepUntil : Z -> W -> W;            (* blocking until an instant *)
  env_Choose : W -> bool * W;              (* the choice of a select with two ready cases *)
  env_Float64 : W -> float64 * W;          (* math/rand.Float64 *)
  env_RandBytes : nat -> W -> list Z * W;  (* crypto/rand.Read *)
  env_Info : AccessLog -> W -> W;          (* logging.Info *)
  env_Error : AccessLog -> W -> W;         (* logging.Error *)
}.

(** The outgoing request of the proxy, and what comes back. *)
Record OutRequest : Type := mkOut {
  out_Method : string;
  out_URL : string;
  out_Header : Header;
  out_Body : bytes;
  out_ctx : Context;
}.

Record Response : Type := mkResponse {
  resp_StatusCode : Z;
  resp_Header : Header;
  resp_Body : bytes;      (* what io.Copy reads of it *)
}.

Class Client (W : Type) : Type := {
  (** [http.NewRequestWithContext] accepts the method and the URL *)
  client_NewRequest_ok : string -> string -> bool;
  (** [client.Do]: a response or the text of an error, the part of the request body left unread, the world *)
  client_Do : OutRequest -> W -> result string Response * bytes * W;
}.

(** A component of the world. *)
Record Lens (W S : Type) : Type := mkLens {
  lget : W -> S;
  lput : S -> W -> W;
  lget_put : forall s w, lget (lput s w) = s;
}.
Arguments mkLens {W S}.
Arguments lget {W S}.
Arguments lput {W S}.
Arguments lget_put {W S}.

Definition modify {W S : Type} (L : Lens W S) (f : S -> S) (w : W) : W := lput L (f (lget L w)) w.

Lemma lget_modify {W S} (L : Lens W S) f w : lget L (modify L f w) = f (lget L w).
Proof. apply lget_put. Qed.

(** The whole world as a component. *)
Definition id_lens (W : Type) : Lens W W := mkLens (fun w => w) (fun s _ => s) (fun s _ => eq_refl).

(** While the environment runs, nobody touches the component. *)
Class Frame {W S : Type} `{!Env W} (L : Lens W S) : Prop := {
  frame_Now : forall w, lget L (env_Now w).2 = lget L w;
  frame_SleepUntil : forall t w, lget L (env_SleepUntil t w) = lget L w;
  frame_Choose : forall w, lget L (env_Choose w).2 = lget L w;
  frame_Float64 : forall w, lget L (env_Float64 w).2 = lget L w;
  frame_RandBytes : forall n w, lget L (env_RandBytes n w).2 = lget L w;
  frame_Info : forall e w, lget L (env_Info e w) = lget L w;
  frame_Error : forall e w, lget L (env_Error e w) = lget L w;
}.

Class ClientFrame {W S : Type} `{!Client W} (L : Lens W S) : Prop :=
  frame_Do : forall req w, lget L (client_Do req w).2 = lget L w.

#[export] Hint Rewrite @lget_put @lget_modify : golib.

(** The world's log is a [Logger]: [logging.Info] and [logging.Error] read the clock and print, and
    nothing else that the environment does prints. *)
Class LogFrame {W : Type} `{!Env W} `{!Client W} (G : Lens W Logger) : Prop := {
  log_Now : forall w, lget G (env_Now w).2 = lget G w;
  log_SleepUntil : forall t w, lget G (env_SleepUntil t w) = lget G w;
  log_Choose : forall w, lget G (env_Choose w).2 = lget G w;
  log_Float64 : forall w, lget G (env_Float64 w).2 = lget G w;
  log_RandBytes : forall n w, lget G (env_RandBytes n w).2 = lget G w;
  log_Do : forall out w, lget G (client_Do out w).2 = lget G w;
  log_Info : forall e w, lget G (env_Info e w) = Info (env_Now w).1 e (lget G w);
  log_Error : forall e w, lget G (env_Error e w) = Error (env_Now w).1 e (lget G w);
}.

(** The component [L] of the world is not the log. *)
Definition apart {W S T : Type} (L : Lens W S) (G : Lens W T) : Prop := forall s w, lget G (lput L s w) = lget G w.

Lemma apart_modify {W S T} (L : Lens W S) (G : Lens W T) f w : apart L G -> lget G (modify L f w) = lget G w.
Proof. intros H. apply H. Qed.

(** A select between a timer of [d] and a context: [true] when the timer's case is taken.  A negative
    duration fires at once; when both are ready either case may be taken. *)
Definition select_timer {W : Type} `{!Env W} (d : Z) (ctx : Context) (w : W) : bool * W :=
  let '(now, w) := env_Now w in
  let fires := now + Z.max 0 d in
  match ctx_done_at ctx with
  | None => (true, env_SleepUntil fires w)
  | Some t =>
      let t := Z.max now t in
      if fires <? t then (true, env_SleepUntil fires w)
      else if t <? fires then (false, env_SleepUntil t w)
      else env_Choose (env_SleepUntil fires w)
  end.

Lemma select_timer_frame {W S : Type} `{!Env W} (L : Lens W S) `{!Frame L} d ctx w :
  lget L (select_timer d ctx w).2 = lget L w.
Proof.
  unfold select_timer. pose proof (frame_Now (L := L) w) as H. destruct (env_Now w) as [now w1]; simpl in H.
  repeat case_match; simpl; rewrite ?frame_Choose, ?frame_SleepUntil; done.
Qed.

(** A context that is never done lets every timer fire. *)
Lemma select_timer_fires {W : Type} `{!Env W} d ctx (w : W) :
  ctx_done_at ctx = None -> (select_timer d ctx w).1 = true.
Proof. unfold select_timer. destruct (env_Now w) as [now w1]. by intros ->. Qed.

(** ** A world for concrete runs: a clock, and a client that answers from a table of backends;
    what is logged is lost *)
Record Sim (S : Type) : Type := mkSim { sim_now : Z; sim_state : S; sim_backends : OutRequest -> option Response }.
Arguments mkSim {S}.
Arguments sim_now {S}.
Arguments sim_state {S}.
Arguments sim_backends {S}.

#[export] Instance Sim_Env S : Env (Sim S) := {|
  env_Now w := (sim_now w, w);
  env_SleepUntil t w := mkSim t (sim_state w) (sim_backends w);
  env_Choose w := (true, w);
  env_Float64 w := (f64_of_Z 0, w);
  env_RandBytes n w := (replicate n 0, w);
  env_Info _ w := w;
  env_Error _ w := w;
|}.

#[export] Instance Sim_Client S : Client (Sim S) := {|
  client_NewRequest_ok _ _ := true;
  client_Do req w :=
    (match sim_backends w req with
     | Some r => if informational (resp_StatusCode r) then Err "malformed HTTP response"%string else Ok r
     | None => Err "connection refused"%string
     end, [], w);
|}.

Definition sim_lens (S : Type) : Lens (Sim S) S :=
  mkLens sim_state (fun s w => mkSim (sim_now w) s (sim_backends w)) (fun s w => eq_refl).

#[export] Instance Sim_Frame S : Frame (sim_lens S).
Proof. by split. Qed.
#[export] Instance Sim_ClientFrame S : ClientFrame (sim_lens S).
Proof. done. Qed.

(** The same world with its log. *)
Record Console (S : Type) : Type := mkConsole { con_log : Logger; con_sim : Sim S }.
Arguments mkConsole {S}.
Arguments con_log {S}.
Arguments con_sim {S}.

Definition on_sim {S A : Type} (w : Console S) (o : A * Sim S) : A * Console S := (o.1, mkConsole (con_log w) o.2).

#[export] Instance Console_Env S : Env (Console S) := {|
  env_Now w := on_sim w (env_Now (con_sim w));
  env_SleepUntil t w := mkConsole (con_log w) (env_SleepUntil t (con_sim w));
  env_Choose w := on_sim w (env_Choose (con_sim w));
  env_Float64 w := on_sim w (env_Float64 (con_sim w));
  env_RandBytes n w := on_sim w (env_RandBytes n (con_sim w));
  env_Info e w := mkConsole (Info (sim_now (con_sim w)) e (con_log w)) (con_sim w);
  env_Error e w := mkConsole (Error (sim_now (con_sim w)) e (con_log w)) (con_sim w);
|}.

#[export] Instance Console_Client S : Client (Console S) := {|
  client_NewRequest_ok method url := client_NewRequest_ok (W := Sim S) method url;
  client_Do req w := on_sim w (client_Do req (con_sim w));
|}.

Definition console_lens (S : Type) : Lens (Console S) S :=
  mkLens (fun w => sim_state (con_sim w)) (fun s w => mkConsole (con_log w) (lput (sim_lens S) s (con_sim w)))
    (fun s w => eq_refl).
Definition log_lens (S : Type) : Lens (Console S) Logger :=
  mkLens con_log (fun l w => mkConsole l (con_sim w)) (fun l w => eq_refl).

#[export] Instance Console_Frame S : Frame (console_lens S).
Proof. by split. Qed.
#[export] Instance Console_ClientFrame S : ClientFrame (console_lens S).
Proof. done. Qed.
#[export] Instance Console_LogFrame S : LogFrame (log_lens S).
Proof. by split. Qed.

Lemma console_apart S : apart (console_lens S) (log_lens S).
Proof. done. Qed.
