(* ===== verification/Stability.v ===== *)
(** * Invariants among other goroutines

    [Stable I]: whatever other goroutines do while a handler waits on the environment, they keep [I].  A
    handler that keeps [I] as well ([keeps]) may run among them.  [respects I L R]: a write of the component
    [L] that is a step of [R] keeps [I]. *)
From S2P Require Import Prelude GoFloat GoStrings GoHttp Logging Env.
Open Scope Z_scope.

Class Stable {W : Type} `{!Env W} `{!Client W} (I : W -> Prop) : Prop := {
  stable_Now : forall w, I w -> I (env_Now w).2;
  stable_SleepUntil : forall t w, I w -> I (env_SleepUntil t w);
  stable_Choose : forall w, I w -> I (env_Choose w).2;
  stable_Float64 : forall w, I w -> I (env_Float64 w).2;
  stable_RandBytes : forall n w, I w -> I (env_RandBytes n w).2;
  stable_Info : forall e w, I w -> I (env_Info e w);
  stable_Error : forall e w, I w -> I (env_Error e w);
  stable_Do : forall out w, I w -> I (client_Do out w).2;
}.

(** When nobody touches a component, what is said of it is stable. *)
Lemma frame_Stable {W S : Type} `{!Env W} `{!Client W} (L : Lens W S) `{!Frame L} `{!ClientFrame L} (P : S -> Prop) :
  Stable (fun w => P (lget L w)).
Proof.
  split; intros; by rewrite ?frame_Now, ?frame_SleepUntil, ?frame_Choose, ?frame_Float64, ?frame_RandBytes,
    ?frame_Info, ?frame_Error, ?frame_Do.
Qed.

Definition respects {W S : Type} (I : W -> Prop) (L : Lens W S) (R : S -> S -> Prop) : Prop :=
  forall w s, I w -> R (lget L w) s -> I (lput L s w).

(** Writing the component does not matter to the invariant. *)
Definition insensitive {W S : Type} (I : W -> Prop) (L : Lens W S) : Prop := forall s w, I w -> I (lput L s w).

Lemma insensitive_respects {W S : Type} (I : W -> Prop) (L : Lens W S) R : insensitive I L -> respects I L R.
Proof. intros H w s Hw _. by apply H. Qed.

Lemma respects_modify {W S : Type} (I : W -> Prop) (L : Lens W S) R f w :
  respects I L R -> R (lget L w) (f (lget L w)) -> I w -> I (modify L f w).
Proof. intros HL HR Hw. by apply HL. Qed.

(** What a component allows at a time it allows over time, if it stays what it was. *)
Lemma respects_rtc {W S : Type} (I : W -> Prop) (L : Lens W S) R :
  (forall s s' w, lput L s' (lput L s w) = lput L s' w) -> (forall w, lput L (lget L w) w = w) ->
  respects I L R -> respects I L (rtc R).
Proof.
  intros Hpp Hpg HL w s Hw Hsteps. remember (lget L w) as s0 eqn:E0. revert w Hw E0.
  induction Hsteps as [s|s0 s1 s Hstep _ IH]; intros w Hw ->; [by rewrite Hpg|].
  rewrite <- (Hpp s1). apply IH; [by apply HL|by rewrite lget_put].
Qed.

(** The clock is read: the invariant survives. *)
Ltac stable_clock I := match goal with
  | H : I ?w |- context [env_Now ?w] =>
      apply (stable_Now (I := I)) in H; destruct (env_Now w) as [? ?]; cbn [snd] in H
  end.

Section stability.
Context {W : Type} `{!Env W} `{!Client W} (I : W -> Prop) `{!Stable I}.

Definition keeps (next : Handler W) : Prop := forall rw r w, I w -> I (sv_world (next rw r w)).

Lemma select_timer_stable d ctx w : I w -> I (select_timer d ctx w).2.
Proof.
  intros H. unfold select_timer. stable_clock I.
  repeat case_match; simpl; first [by apply stable_SleepUntil | by apply stable_Choose, stable_SleepUntil].
Qed.

(** Invariants hold together. *)
#[export] Instance and_Stable (J : W -> Prop) `{!Stable J} : Stable (fun w => I w /\ J w).
Proof.
  split; intros; destruct_and!; split;
    first [apply stable_Now|apply stable_SleepUntil|apply stable_Choose|apply stable_Float64|apply stable_RandBytes
          |apply stable_Info|apply stable_Error|apply stable_Do]; done.
Qed.
End stability.
