(* ===== verification/Config.v ===== *)
(** * config/config.go: the configuration, its defaults and its validation

    Pointers to structs are options, and so are the entries of the four maps: an entry whose JSON is null
    is a nil pointer.  [setDefaults] writes through every service and every entrypoint, so it panics
    ([None]) on a nil one and none is left after it: [Document] is the struct as it was decoded, [Config]
    the struct after that, whose services and entrypoints are values.  Reading the file and decoding the JSON are
    arguments of [Load].  A loop over a map takes the order of its iteration, a permutation of the
    entries, as an argument. *)
From S2P Require Import Prelude GoFloat GoStrings.
Open Scope Z_scope.

(** ** Data *)
Record HealthCheckConfig : Type := mkHC {
  hc_Path : string;
  hc_IntervalSec : Z;
  hc_TimeoutSec : Z;
  hc_ExpectedStatus : Z;
}.

Record CircuitBreakerConfig : Type := mkCB {
  cb_Threshold : Z;
  cb_RecoveryTimeoutSec : Z;
}.

Record LoadBalancerConfig : Type := mkLB {
  lb_Algorithm : string;
  lb_Sticky : bool;
}.

Record ServerConfig : Type := mkServer {
  srv_URL : string;
  srv_Name : string;
  srv_Weight : Z;
  srv_DelayMs : Z;
  srv_HealthCheck : HealthCheckConfig;
}.

Record RouterConfig : Type := mkRouter {
  rc_Rule : string;
  rc_Priority : Z;
  rc_Middlewares : list string;
  rc_Service : string;
}.

Record ServiceConfig : Type := mkService {
  svc_LoadBalancer : option LoadBalancerConfig;
  svc_HealthCheck : option HealthCheckConfig;
  svc_CircuitBreaker : option CircuitBreakerConfig;
  svc_Canary : bool;
  svc_Servers : list ServerConfig;
}.

Record DashboardAuth : Type := mkAuth {
  da_Username : string;
  da_Password : string;
}.

(** [Config] is the raw JSON, [None] when absent. *)
Record MiddlewareConfig : Type := mkMiddleware {
  mc_Type : string;
  mc_Config : option string;
}.

Record TimeoutConfig : Type := mkTimeouts {
  tm_HighSec : Z;
  tm_MediumSec : Z;
  tm_LowSec : Z;
}.

Record TLSConfig : Type := mkTLS {
  tls_Enabled : bool;
  tls_CertFile : string;
  tls_KeyFile : string;
  tls_AutoGenerate : bool;
}.

Record EntryPointConfig : Type := mkEntryPoint {
  ep_Address : string;
  ep_Protocol : string;
  ep_Middlewares : list string;
  ep_TLS : option TLSConfig;
}.

Record CORSConfig : Type := mkCORS {
  co_AllowedOrigins : list string;
  co_AllowedMethods : list string;
  co_AllowedHeaders : list string;
}.

(** The struct, with what an entry of the maps of entrypoints ([E]) and of services ([S]) is. *)
Record ConfigOf (E S : Type) : Type := mkConfig {
  cfg_ListenPort : Z;
  cfg_DashboardPort : Z;
  cfg_Servers : list ServerConfig;
  cfg_Algorithm : string;
  cfg_HealthInterval : Z;
  cfg_BreakerThreshold : Z;
  cfg_BreakerTimeoutSec : Z;
  cfg_MetricsIntervalSec : Z;
  cfg_MaxRetries : Z;
  cfg_ShutdownTimeoutSec : Z;
  cfg_RateLimitRPS : float64;
  cfg_RateLimitBurst : Z;
  cfg_PerAttemptTimeoutSec : Z;
  cfg_RetryBackoffMs : Z;
  cfg_RetryBackoffMaxMs : Z;
  cfg_AccessLogPath : string;
  cfg_DashboardAuth : DashboardAuth;
  cfg_TLS : TLSConfig;
  cfg_CORS : CORSConfig;
  cfg_HotReload : bool;
  cfg_Middlewares : gmap string (option MiddlewareConfig);
  cfg_Timeouts : TimeoutConfig;
  cfg_EntryPoints : gmap string E;
  cfg_Routers : gmap string (option RouterConfig);
  cfg_Services : gmap string S;
}.
Arguments mkConfig {E S}.
Arguments cfg_ListenPort {E S}.
Arguments cfg_DashboardPort {E S}.
Arguments cfg_Servers {E S}.
Arguments cfg_Algorithm {E S}.
Arguments cfg_HealthInterval {E S}.
Arguments cfg_BreakerThreshold {E S}.
Arguments cfg_BreakerTimeoutSec {E S}.
Arguments cfg_MetricsIntervalSec {E S}.
Arguments cfg_MaxRetries {E S}.
Arguments cfg_ShutdownTimeoutSec {E S}.
Arguments cfg_RateLimitRPS {E S}.
Arguments cfg_RateLimitBurst {E S}.
Arguments cfg_PerAttemptTimeoutSec {E S}.
Arguments cfg_RetryBackoffMs {E S}.
Arguments cfg_RetryBackoffMaxMs {E S}.
Arguments cfg_AccessLogPath {E S}.
Arguments cfg_DashboardAuth {E S}.
Arguments cfg_TLS {E S}.
Arguments cfg_CORS {E S}.
Arguments cfg_HotReload {E S}.
Arguments cfg_Middlewares {E S}.
Arguments cfg_Timeouts {E S}.
Arguments cfg_EntryPoints {E S}.
Arguments cfg_Routers {E S}.
Arguments cfg_Services {E S}.

Definition Config : Type := ConfigOf EntryPointConfig ServiceConfig.
Definition Document : Type := ConfigOf (option EntryPointConfig) (option ServiceConfig).

(** The same struct with other entrypoints and services. *)
Definition with_maps {E S E' S' : Type} (eps : gmap string E') (svcs : gmap string S') (cfg : ConfigOf E S) : ConfigOf E' S' :=
  mkConfig (cfg_ListenPort cfg) (cfg_DashboardPort cfg) (cfg_Servers cfg) (cfg_Algorithm cfg) (cfg_HealthInterval cfg)
    (cfg_BreakerThreshold cfg) (cfg_BreakerTimeoutSec cfg) (cfg_MetricsIntervalSec cfg) (cfg_MaxRetries cfg)
    (cfg_ShutdownTimeoutSec cfg) (cfg_RateLimitRPS cfg) (cfg_RateLimitBurst cfg) (cfg_PerAttemptTimeoutSec cfg)
    (cfg_RetryBackoffMs cfg) (cfg_RetryBackoffMaxMs cfg) (cfg_AccessLogPath cfg) (cfg_DashboardAuth cfg) (cfg_TLS cfg)
    (cfg_CORS cfg) (cfg_HotReload cfg) (cfg_Middlewares cfg) (cfg_Timeouts cfg) eps (cfg_Routers cfg) svcs.

(** ** setDefaults *)
(** [if x == 0 { x = d }], and the same for strings and floats. *)
Definition dflt (x d : Z) : Z := if x =? 0 then d else x.
Definition dflt_s (x d : string) : string := if String.eqb x "" then d else x.
Definition dflt_f (x d : float64) : float64 := if f64_eq x (f64_of_Z 0) then d else x.

Definition hc_defaults (path : string) (interval timeout status : Z) (h : HealthCheckConfig) : HealthCheckConfig :=
  mkHC (dflt_s (hc_Path h) path) (dflt (hc_IntervalSec h) interval) (dflt (hc_TimeoutSec h) timeout)
    (dflt (hc_ExpectedStatus h) status).

(** The loop over the legacy global servers. *)
Definition legacy_server_defaults (healthInterval : Z) (s : ServerConfig) : ServerConfig :=
  mkServer (srv_URL s) (srv_Name s) (srv_Weight s) (srv_DelayMs s)
    (hc_defaults "/health" healthInterval 2 200 (srv_HealthCheck s)).

(** The loop over the servers of a service, which inherit its health check. *)
Definition server_defaults (hc : HealthCheckConfig) (s : ServerConfig) : ServerConfig :=
  mkServer (srv_URL s) (srv_Name s) (dflt (srv_Weight s) 1) (srv_DelayMs s)
    (hc_defaults (hc_Path hc) (hc_IntervalSec hc) (hc_TimeoutSec hc) (hc_ExpectedStatus hc) (srv_HealthCheck s)).

(** The body of the loop over the services; the three numbers and the algorithm are the global settings. *)
Definition service_defaults (healthInterval threshold recovery : Z) (algorithm : string) (svc : ServiceConfig)
    : ServiceConfig :=
  let hc := hc_defaults "/health" healthInterval 2 200 (default (mkHC "" 0 0 0) (svc_HealthCheck svc)) in
  let cb := default (mkCB 0 0) (svc_CircuitBreaker svc) in
  let cb := mkCB (dflt (cb_Threshold cb) threshold) (dflt (cb_RecoveryTimeoutSec cb) recovery) in
  let lb := default (mkLB "" false) (svc_LoadBalancer svc) in
  let lb := mkLB (dflt_s (lb_Algorithm lb) algorithm) (lb_Sticky lb) in
  mkService (Some lb) (Some hc) (Some cb) (svc_Canary svc) (server_defaults hc <$> svc_Servers svc).

(** The entrypoints synthesised from the legacy ports. *)
Definition legacy_entrypoints (listenPort dashboardPort : Z) (tls : TLSConfig) : gmap string EntryPointConfig :=
  let web := mkEntryPoint (":" +:+ Itoa listenPort) "http" [] None in
  let dashboard := mkEntryPoint (":" +:+ Itoa dashboardPort) "http" [] None in
  let web := if tls_Enabled tls then mkEntryPoint (ep_Address web) "https" [] (Some tls) else web in
  {[ "web" := web; "dashboard" := dashboard ]}%string.

Definition entrypoint_defaults (ep : EntryPointConfig) : EntryPointConfig :=
  mkEntryPoint (ep_Address ep) (dflt_s (ep_Protocol ep) "http") (ep_Middlewares ep) (ep_TLS ep).

(** [setDefaults] where no entry is nil.  When the flat server list is wrapped into the service "default", the
    service's slice is the same array as [cfg.Servers]: the defaults of the service's servers show in
    both. *)
Definition fill_defaults (cfg : Config) : Config :=
  let listenPort := dflt (cfg_ListenPort cfg) 8080 in
  let dashboardPort := dflt (cfg_DashboardPort cfg) 8081 in
  let healthInterval := dflt (cfg_HealthInterval cfg) 5 in
  let breakerThreshold := dflt (cfg_BreakerThreshold cfg) 3 in
  let breakerTimeoutSec := dflt (cfg_BreakerTimeoutSec cfg) 15 in
  let algorithm := dflt_s (cfg_Algorithm cfg) "weighted" in
  let timeouts := mkTimeouts (dflt (tm_HighSec (cfg_Timeouts cfg)) 5) (dflt (tm_MediumSec (cfg_Timeouts cfg)) 10)
                    (dflt (tm_LowSec (cfg_Timeouts cfg)) 20) in
  let servers := legacy_server_defaults healthInterval <$> cfg_Servers cfg in
  let legacy := bool_decide (cfg_Services cfg = ∅) && negb (length servers =? 0)%nat in
  let services := if legacy then {[ "default"%string := mkService None None None false servers ]}
                  else cfg_Services cfg in
  let services := service_defaults healthInterval breakerThreshold breakerTimeoutSec algorithm <$> services in
  let servers := if legacy then default servers (svc_Servers <$> services !! "default"%string) else servers in
  let entryPoints := if bool_decide (cfg_EntryPoints cfg = ∅)
                     then legacy_entrypoints listenPort dashboardPort (cfg_TLS cfg) else cfg_EntryPoints cfg in
  mkConfig listenPort dashboardPort servers algorithm healthInterval breakerThreshold breakerTimeoutSec
    (dflt (cfg_MetricsIntervalSec cfg) 10) (dflt (cfg_MaxRetries cfg) 3) (dflt (cfg_ShutdownTimeoutSec cfg) 15)
    (dflt_f (cfg_RateLimitRPS cfg) (f64_of_Z 100)) (dflt (cfg_RateLimitBurst cfg) 200)
    (dflt (cfg_PerAttemptTimeoutSec cfg) 5) (dflt (cfg_RetryBackoffMs cfg) 100)
    (dflt (cfg_RetryBackoffMaxMs cfg) 5000) (dflt_s (cfg_AccessLogPath cfg) "access.log")
    (cfg_DashboardAuth cfg) (cfg_TLS cfg) (cfg_CORS cfg) (cfg_HotReload cfg) (cfg_Middlewares cfg) timeouts
    (entrypoint_defaults <$> entryPoints) (cfg_Routers cfg) services.

(** The entries behind the pointers, unless one is nil. *)
Definition non_nil {A : Type} (m : gmap string (option A)) : option (gmap string A) :=
  if bool_decide (map_Forall (fun _ p => is_Some p) m) then Some (omap id m) else None.

(** [setDefaults] on what was decoded: the loops over the services and the entrypoints write through every
    pointer they meet, in whatever order. *)
Definition setDefaults (doc : Document) : option Config :=
  services ← non_nil (cfg_Services doc);
  entryPoints ← non_nil (cfg_EntryPoints doc);
  Some (fill_defaults (with_maps entryPoints services doc)).

(** ** validate *)
Inductive ConfigError : Type :=
| MultipleServices (url existingSvc svcName : string)
| ReadError
| JSONError.

(** The inner loop: the servers of one service. *)
Fixpoint validate_servers (svcName : string) (servers : list ServerConfig) (seenURLs : gmap string string)
    : result ConfigError (gmap string string) :=
  match servers with
  | [] => Ok seenURLs
  | srv :: servers =>
      match seenURLs !! srv_URL srv with
      | Some existingSvc => Err (MultipleServices (srv_URL srv) existingSvc svcName)
      | None => validate_servers svcName servers (<[srv_URL srv := svcName]> seenURLs)
      end
  end.

Fixpoint validate_services (entries : list (string * ServiceConfig)) (seenURLs : gmap string string)
    : result ConfigError unit :=
  match entries with
  | [] => Ok ()
  | (svcName, svc) :: entries =>
      let? seenURLs := validate_servers svcName (svc_Servers svc) seenURLs in
      validate_services entries seenURLs
  end.

(** [entries]: the services in the order the loop meets them. *)
Definition validate (entries : list (string * ServiceConfig)) : result ConfigError unit :=
  validate_services entries ∅.

(** [Load], over the outcome of [os.ReadFile] and [json.Unmarshal], and the iteration order of [validate];
    [None] is the panic of [setDefaults]. *)
Definition Load (data : option string) (unmarshal : string -> option Document)
    (order : gmap string ServiceConfig -> list (string * ServiceConfig)) : option (result ConfigError Config) :=
  match data with
  | None => Some (Err ReadError)
  | Some data =>
      match unmarshal data with
      | None => Some (Err JSONError)
      | Some doc =>
          cfg ← setDefaults doc;
          Some (let? _ := validate (order (cfg_Services cfg)) in Ok cfg)
      end
  end.

(** ** Lemmas *)
Lemma dflt_idem x d : dflt (dflt x d) d = dflt x d.
Proof. unfold dflt. destruct (x =? 0) eqn:E; [by destruct (d =? 0)|by rewrite E]. Qed.

Lemma dflt_s_idem x d : dflt_s (dflt_s x d) d = dflt_s x d.
Proof. unfold dflt_s. destruct (String.eqb x "") eqn:E; [by destruct (String.eqb d "")|by rewrite E]. Qed.

Lemma dflt_f_idem x d : dflt_f (dflt_f x d) d = dflt_f x d.
Proof. unfold dflt_f. destruct (f64_eq x _) eqn:E; [by destruct (f64_eq d _)|by rewrite E]. Qed.

Lemma dflt_nonzero x d : d <> 0 -> dflt x d <> 0.
Proof. unfold dflt. destruct (x =? 0) eqn:E; z_bool; lia. Qed.

Lemma dflt_s_nonempty x d : d <> ""%string -> dflt_s x d <> ""%string.
Proof. unfold dflt_s. destruct (String.eqb_spec x ""); congruence. Qed.

Lemma dflt_keep x d : x <> 0 -> dflt x d = x.
Proof. intros H. unfold dflt. by rewrite (proj2 (Z.eqb_neq x 0) H). Qed.

Lemma dflt_s_keep x d : x <> ""%string -> dflt_s x d = x.
Proof. unfold dflt_s. by destruct (String.eqb_spec x ""). Qed.

#[export] Hint Resolve dflt_nonzero dflt_s_nonempty : golib.

(** Health-check settings with no field left at zero. *)
Definition hc_complete (h : HealthCheckConfig) : Prop :=
  hc_Path h <> ""%string /\ hc_IntervalSec h <> 0 /\ hc_TimeoutSec h <> 0 /\ hc_ExpectedStatus h <> 0.

Lemma hc_defaults_complete p i t s h :
  p <> ""%string -> i <> 0 -> t <> 0 -> s <> 0 -> hc_complete (hc_defaults p i t s h).
Proof. intros. unfold hc_complete; simpl. auto with golib. Qed.

Lemma hc_defaults_keep p i t s h : hc_complete h -> hc_defaults p i t s h = h.
Proof.
  intros (Hp & Hi & Ht & Hs). unfold hc_defaults. destruct h; simpl in *.
  by rewrite dflt_s_keep, !dflt_keep.
Qed.

Definition server_complete (s : ServerConfig) : Prop := srv_Weight s <> 0 /\ hc_complete (srv_HealthCheck s).

Definition service_complete (svc : ServiceConfig) : Prop :=
  exists lb hc cb, svc_LoadBalancer svc = Some lb /\ svc_HealthCheck svc = Some hc /\
    svc_CircuitBreaker svc = Some cb /\ lb_Algorithm lb <> ""%string /\ hc_complete hc /\
    cb_Threshold cb <> 0 /\ cb_RecoveryTimeoutSec cb <> 0 /\ Forall server_complete (svc_Servers svc).

Lemma server_defaults_complete hc s : hc_complete hc -> server_complete (server_defaults hc s).
Proof.
  intros (? & ? & ? & ?). split; simpl; [apply dflt_nonzero; lia|]. by apply hc_defaults_complete.
Qed.

Lemma server_defaults_keep hc s : server_complete s -> server_defaults hc s = s.
Proof.
  intros [Hw Hh]. unfold server_defaults. rewrite hc_defaults_keep, dflt_keep by done. by destruct s.
Qed.

Lemma service_defaults_complete i t r a svc :
  i <> 0 -> t <> 0 -> r <> 0 -> a <> ""%string -> service_complete (service_defaults i t r a svc).
Proof.
  intros Hi Ht Hr Ha.
  assert (hc_complete (hc_defaults "/health" i 2 200 (default (mkHC "" 0 0 0) (svc_HealthCheck svc)))) as Hh
    by by apply hc_defaults_complete.
  eexists _, _, _. unfold service_defaults; simpl. split_and!; eauto with golib.
  apply Forall_fmap, Forall_forall. intros s _. by apply server_defaults_complete.
Qed.

Lemma service_defaults_keep i t r a svc : service_complete svc -> service_defaults i t r a svc = svc.
Proof.
  intros (lb & hc & cb & El & Eh & Ec & Ha & Hh & Ht & Hr & Hs). unfold service_defaults.
  rewrite El, Eh, Ec. simpl. rewrite hc_defaults_keep, dflt_s_keep, !dflt_keep by done.
  assert (server_defaults hc <$> svc_Servers svc = svc_Servers svc) as ->.
  { rewrite <- (list_fmap_id (svc_Servers svc)) at 2. apply Forall_fmap_ext_1.
    eapply Forall_impl; [exact Hs|]. intros s Hc. by apply server_defaults_keep. }
  destruct svc, lb, cb; simpl in *; congruence.
Qed.

Lemma legacy_server_defaults_keep i s : hc_complete (srv_HealthCheck s) -> legacy_server_defaults i s = s.
Proof. intros H. unfold legacy_server_defaults. rewrite hc_defaults_keep by done. by destruct s. Qed.

Lemma legacy_entrypoints_nonempty l d t : legacy_entrypoints l d t <> ∅.
Proof. unfold legacy_entrypoints. apply insert_non_empty. Qed.

Lemma fmap_nonempty {A B} (f : A -> B) (m : gmap string A) : m <> ∅ -> f <$> m <> ∅.
Proof. intros Hm Hf. apply Hm. by apply fmap_empty_inv in Hf. Qed.

(** What [setDefaults] leaves: no setting the program reads as "unset". *)
Record config_complete (cfg : Config) : Prop := {
  cc_ports : cfg_ListenPort cfg <> 0 /\ cfg_DashboardPort cfg <> 0;
  cc_health : cfg_HealthInterval cfg <> 0;
  cc_breaker : cfg_BreakerThreshold cfg <> 0 /\ cfg_BreakerTimeoutSec cfg <> 0;
  cc_algorithm : cfg_Algorithm cfg <> ""%string;
  cc_retry : cfg_MaxRetries cfg <> 0 /\ cfg_RetryBackoffMs cfg <> 0 /\ cfg_RetryBackoffMaxMs cfg <> 0 /\
             cfg_PerAttemptTimeoutSec cfg <> 0;
  cc_timeouts : tm_HighSec (cfg_Timeouts cfg) <> 0 /\ tm_MediumSec (cfg_Timeouts cfg) <> 0 /\
                tm_LowSec (cfg_Timeouts cfg) <> 0;
  cc_others : cfg_MetricsIntervalSec cfg <> 0 /\ cfg_ShutdownTimeoutSec cfg <> 0 /\
              cfg_RateLimitBurst cfg <> 0 /\ f64_eq (cfg_RateLimitRPS cfg) (f64_of_Z 0) = false /\
              cfg_AccessLogPath cfg <> ""%string;
  cc_services : forall name svc, cfg_Services cfg !! name = Some svc -> service_complete svc;
  cc_services_exist : cfg_Servers cfg <> [] -> cfg_Services cfg <> ∅;
  cc_servers : Forall (fun s => hc_complete (srv_HealthCheck s)) (cfg_Servers cfg);
  cc_entrypoints : cfg_EntryPoints cfg <> ∅ /\
    forall name ep, cfg_EntryPoints cfg !! name = Some ep -> ep_Protocol ep <> ""%string;
}.

(** Every unset field receives a set default. *)
Ltac filled := simpl; repeat apply conj; repeat (apply dflt_nonzero || apply dflt_s_nonempty); done.

Section defaults.
Context (cfg : Config).
Let cfg' : Config := fill_defaults cfg.

Lemma filled_services_complete name svc :
  cfg_Services cfg' !! name = Some svc -> service_complete svc.
Proof.
  unfold cfg', fill_defaults; cbn [cfg_Services]. rewrite lookup_fmap. intros (s & _ & ->)%fmap_Some.
  apply service_defaults_complete; filled.
Qed.

Lemma legacy_servers_complete i l :
  i <> 0 -> Forall (fun s => hc_complete (srv_HealthCheck s)) (legacy_server_defaults i <$> l).
Proof. intros Hi. apply Forall_fmap, Forall_forall. intros s _. by apply hc_defaults_complete. Qed.

(** In the legacy case the flat list and the service "default" are one array. *)
Lemma filled_legacy :
  cfg_Services cfg = ∅ -> cfg_Servers cfg <> [] ->
  exists svc, cfg_Services cfg' = {[ "default"%string := svc ]} /\ cfg_Servers cfg' = svc_Servers svc /\
    map srv_URL (svc_Servers svc) = map srv_URL (cfg_Servers cfg).
Proof.
  intros Hs Hne. unfold cfg', fill_defaults; cbn [cfg_Services cfg_Servers].
  rewrite bool_decide_eq_true_2 by done. rewrite length_fmap.
  destruct (cfg_Servers cfg) as [|s l] eqn:E; [done|]. cbn [length Nat.eqb negb andb].
  rewrite map_fmap_singleton, lookup_singleton_eq. eexists. split; [done|]. simpl. split; [done|].
  f_equal. rewrite !map_map. by apply map_ext.
Qed.

Lemma filled_not_legacy :
  cfg_Services cfg <> ∅ \/ cfg_Servers cfg = [] ->
  cfg_Servers cfg' = legacy_server_defaults (cfg_HealthInterval cfg') <$> cfg_Servers cfg /\
  (cfg_Services cfg' = ∅ <-> cfg_Services cfg = ∅).
Proof.
  intros Hd. unfold cfg', fill_defaults; cbn [cfg_Services cfg_Servers cfg_HealthInterval].
  assert (bool_decide (cfg_Services cfg = ∅) &&
    negb (length (legacy_server_defaults (dflt (cfg_HealthInterval cfg) 5) <$> cfg_Servers cfg) =? 0)%nat = false) as ->.
  { destruct Hd as [Hd|Hd]; [by rewrite bool_decide_eq_false_2|]. rewrite Hd. simpl. by rewrite andb_false_r. }
  split; [done|]. split; [intros Hf; by apply fmap_empty_inv in Hf|]. intros ->. apply fmap_empty.
Qed.

Lemma legacy_cases :
  (cfg_Services cfg = ∅ /\ cfg_Servers cfg <> []) \/ (cfg_Services cfg <> ∅ \/ cfg_Servers cfg = []).
Proof. destruct (decide (cfg_Services cfg = ∅)), (cfg_Servers cfg); auto. Qed.

Lemma fill_defaults_complete : config_complete cfg'.
Proof.
  split.
  all: try (unfold cfg', fill_defaults; filled).
  - unfold cfg', fill_defaults; simpl. split_and!; try filled.
    unfold dflt_f. destruct (f64_eq (cfg_RateLimitRPS cfg) (f64_of_Z 0)) eqn:E; [reflexivity|done].
  - apply filled_services_complete.
  - intros Hne. destruct legacy_cases as [[Hs Hl]|Hd].
    + destruct (filled_legacy Hs Hl) as (svc & -> & _). apply insert_non_empty.
    + destruct (filled_not_legacy Hd) as [Hl Hiff]. rewrite Hiff.
      destruct Hd as [Hd| Hd]; [done|]. rewrite Hl, Hd in Hne. done.
  - destruct legacy_cases as [[Hs Hl]|Hd].
    + destruct (filled_legacy Hs Hl) as (svc & Hsvc & -> & _).
      assert (service_complete svc) as (lb & hc & cb & _ & _ & _ & _ & _ & _ & _ & Hall).
      { apply (filled_services_complete "default"). rewrite Hsvc. apply lookup_singleton_eq. }
      eapply Forall_impl; [exact Hall|]. by intros s [_ ?].
    + destruct (filled_not_legacy Hd) as [-> _]. apply legacy_servers_complete.
      unfold cfg', fill_defaults; filled.
  - unfold cfg', fill_defaults; cbn [cfg_EntryPoints]. split.
    + apply fmap_nonempty. case_bool_decide; [apply legacy_entrypoints_nonempty|done].
    + intros name ep. rewrite lookup_fmap. intros (e & _ & ->)%fmap_Some. simpl. auto with golib.
Qed.
End defaults.

Lemma fill_defaults_id cfg : config_complete cfg -> fill_defaults cfg = cfg.
Proof.
  intros C. unfold fill_defaults.
  rewrite (dflt_keep (cfg_ListenPort cfg)), (dflt_keep (cfg_DashboardPort cfg)) by apply C.
  rewrite (dflt_keep (cfg_HealthInterval cfg)), (dflt_keep (cfg_BreakerThreshold cfg)),
    (dflt_keep (cfg_BreakerTimeoutSec cfg)), (dflt_s_keep (cfg_Algorithm cfg)),
    (dflt_keep (cfg_MetricsIntervalSec cfg)), (dflt_keep (cfg_MaxRetries cfg)),
    (dflt_keep (cfg_ShutdownTimeoutSec cfg)), (dflt_keep (cfg_RateLimitBurst cfg)),
    (dflt_keep (cfg_PerAttemptTimeoutSec cfg)), (dflt_keep (cfg_RetryBackoffMs cfg)),
    (dflt_keep (cfg_RetryBackoffMaxMs cfg)), (dflt_s_keep (cfg_AccessLogPath cfg)),
    (dflt_keep (tm_HighSec (cfg_Timeouts cfg))), (dflt_keep (tm_MediumSec (cfg_Timeouts cfg))),
    (dflt_keep (tm_LowSec (cfg_Timeouts cfg))) by apply C.
  assert (dflt_f (cfg_RateLimitRPS cfg) (f64_of_Z 100) = cfg_RateLimitRPS cfg) as ->.
  { unfold dflt_f. destruct (cc_others cfg C) as (_ & _ & _ & -> & _). done. }
  assert (legacy_server_defaults (cfg_HealthInterval cfg) <$> cfg_Servers cfg = cfg_Servers cfg) as ->.
  { rewrite <- (list_fmap_id (cfg_Servers cfg)) at 2. apply Forall_fmap_ext_1.
    eapply Forall_impl; [apply (cc_servers cfg C)|]. intros s. apply legacy_server_defaults_keep. }
  assert (bool_decide (cfg_Services cfg = ∅) && negb (length (cfg_Servers cfg) =? 0)%nat = false) as ->.
  { case_bool_decide; [|done]. destruct (cfg_Servers cfg) eqn:E; [done|]. exfalso.
    apply (cc_services_exist cfg C); [by rewrite E|done]. }
  assert (service_defaults (cfg_HealthInterval cfg) (cfg_BreakerThreshold cfg) (cfg_BreakerTimeoutSec cfg)
    (cfg_Algorithm cfg) <$> cfg_Services cfg = cfg_Services cfg) as ->.
  { rewrite <- (map_fmap_id (cfg_Services cfg)) at 2. apply map_fmap_ext. intros n svc Hn.
    apply service_defaults_keep. by apply (cc_services cfg C n). }
  rewrite bool_decide_eq_false_2 by apply C.
  assert (entrypoint_defaults <$> cfg_EntryPoints cfg = cfg_EntryPoints cfg) as ->.
  { rewrite <- (map_fmap_id (cfg_EntryPoints cfg)) at 2. apply map_fmap_ext. intros n ep Hn.
    unfold entrypoint_defaults. rewrite dflt_s_keep by (by eapply (cc_entrypoints cfg C)). by destruct ep. }
  destruct cfg as [? ? ? ? ? ? ? ? ? ? ? ? ? ? ? ? ? ? ? ? ? tm ? ? ?]; simpl. by destruct tm.
Qed.

(** *** What was configured is kept *)
(** [y] is the setting [x], or the default [d] where [x] is unset. *)
Definition filled (x d y : Z) : Prop := (x <> 0 -> y = x) /\ (x = 0 -> y = d).
Definition filled_s (x d y : string) : Prop := (x <> ""%string -> y = x) /\ (x = ""%string -> y = d).
Definition filled_f (x d y : float64) : Prop :=
  (f64_eq x f64_zero = false -> y = x) /\ (f64_eq x f64_zero = true -> y = d).

Lemma dflt_filled x d : filled x d (dflt x d).
Proof. unfold filled, dflt. destruct (Z.eqb_spec x 0); naive_solver. Qed.

Lemma dflt_s_filled x d : filled_s x d (dflt_s x d).
Proof. unfold filled_s, dflt_s. destruct (String.eqb_spec x ""); naive_solver. Qed.

Lemma dflt_f_filled x d : filled_f x d (dflt_f x d).
Proof. unfold filled_f, dflt_f. change (f64_of_Z 0) with f64_zero. destruct (f64_eq x f64_zero); naive_solver. Qed.

#[export] Hint Resolve dflt_filled dflt_s_filled dflt_f_filled : golib.

(** A health check, filled from another. *)
Record hc_filled (h from h' : HealthCheckConfig) : Prop := {
  hf_path : filled_s (hc_Path h) (hc_Path from) (hc_Path h');
  hf_interval : filled (hc_IntervalSec h) (hc_IntervalSec from) (hc_IntervalSec h');
  hf_timeout : filled (hc_TimeoutSec h) (hc_TimeoutSec from) (hc_TimeoutSec h');
  hf_status : filled (hc_ExpectedStatus h) (hc_ExpectedStatus from) (hc_ExpectedStatus h');
}.

(** A server: nothing of it changes but a weight of zero and what its health check lacks. *)
Record server_filled (hc : HealthCheckConfig) (s s' : ServerConfig) : Prop := {
  vf_same : srv_URL s' = srv_URL s /\ srv_Name s' = srv_Name s /\ srv_DelayMs s' = srv_DelayMs s;
  vf_weight : filled (srv_Weight s) 1 (srv_Weight s');
  vf_health : hc_filled (srv_HealthCheck s) hc (srv_HealthCheck s');
}.

(** A service, filled from the global settings of [cfg]. *)
Definition service_filled (cfg : Config) (svc svc' : ServiceConfig) : Prop :=
  exists lb hc cb, svc_LoadBalancer svc' = Some lb /\ svc_HealthCheck svc' = Some hc /\ svc_CircuitBreaker svc' = Some cb /\
    svc_Canary svc' = svc_Canary svc /\
    let lb0 := default (mkLB "" false) (svc_LoadBalancer svc) in
    let cb0 := default (mkCB 0 0) (svc_CircuitBreaker svc) in
    filled_s (lb_Algorithm lb0) (cfg_Algorithm cfg) (lb_Algorithm lb) /\ lb_Sticky lb = lb_Sticky lb0 /\
    hc_filled (default (mkHC "" 0 0 0) (svc_HealthCheck svc)) (mkHC "/health" (cfg_HealthInterval cfg) 2 200) hc /\
    filled (cb_Threshold cb0) (cfg_BreakerThreshold cfg) (cb_Threshold cb) /\
    filled (cb_RecoveryTimeoutSec cb0) (cfg_BreakerTimeoutSec cfg) (cb_RecoveryTimeoutSec cb) /\
    Forall2 (server_filled hc) (svc_Servers svc) (svc_Servers svc').

Definition entrypoint_filled (ep ep' : EntryPointConfig) : Prop :=
  ep_Address ep' = ep_Address ep /\ filled_s (ep_Protocol ep) "http" (ep_Protocol ep') /\
  ep_Middlewares ep' = ep_Middlewares ep /\ ep_TLS ep' = ep_TLS ep.

(** [cfg'] is [cfg] with every unset setting at its default and nothing else changed.  A flat list of
    servers, where there are no services, becomes the service "default"; where there are entrypoints
    none is added, and where there are none the two of the legacy ports appear. *)
Record settings_filled (cfg cfg' : Config) : Prop := {
  sf_ports : filled (cfg_ListenPort cfg) 8080 (cfg_ListenPort cfg') /\ filled (cfg_DashboardPort cfg) 8081 (cfg_DashboardPort cfg');
  sf_health : filled (cfg_HealthInterval cfg) 5 (cfg_HealthInterval cfg') /\
    filled (cfg_BreakerThreshold cfg) 3 (cfg_BreakerThreshold cfg') /\
    filled (cfg_BreakerTimeoutSec cfg) 15 (cfg_BreakerTimeoutSec cfg');
  sf_intervals : filled (cfg_MetricsIntervalSec cfg) 10 (cfg_MetricsIntervalSec cfg') /\
    filled (cfg_ShutdownTimeoutSec cfg) 15 (cfg_ShutdownTimeoutSec cfg');
  sf_retry : filled (cfg_MaxRetries cfg) 3 (cfg_MaxRetries cfg') /\
    filled (cfg_PerAttemptTimeoutSec cfg) 5 (cfg_PerAttemptTimeoutSec cfg') /\
    filled (cfg_RetryBackoffMs cfg) 100 (cfg_RetryBackoffMs cfg') /\
    filled (cfg_RetryBackoffMaxMs cfg) 5000 (cfg_RetryBackoffMaxMs cfg');
  sf_rate : filled_f (cfg_RateLimitRPS cfg) (f64_of_Z 100) (cfg_RateLimitRPS cfg') /\
    filled (cfg_RateLimitBurst cfg) 200 (cfg_RateLimitBurst cfg');
  sf_names : filled_s (cfg_Algorithm cfg) "weighted" (cfg_Algorithm cfg') /\
    filled_s (cfg_AccessLogPath cfg) "access.log" (cfg_AccessLogPath cfg');
  sf_timeouts : filled (tm_HighSec (cfg_Timeouts cfg)) 5 (tm_HighSec (cfg_Timeouts cfg')) /\
    filled (tm_MediumSec (cfg_Timeouts cfg)) 10 (tm_MediumSec (cfg_Timeouts cfg')) /\
    filled (tm_LowSec (cfg_Timeouts cfg)) 20 (tm_LowSec (cfg_Timeouts cfg'));
  sf_same : cfg_DashboardAuth cfg' = cfg_DashboardAuth cfg /\ cfg_TLS cfg' = cfg_TLS cfg /\ cfg_CORS cfg' = cfg_CORS cfg /\
    cfg_HotReload cfg' = cfg_HotReload cfg /\ cfg_Middlewares cfg' = cfg_Middlewares cfg /\
    cfg_Routers cfg' = cfg_Routers cfg;
  sf_services : cfg_Services cfg <> ∅ \/ cfg_Servers cfg = [] ->
    forall name, option_Forall2 (service_filled cfg') (cfg_Services cfg !! name) (cfg_Services cfg' !! name);
  sf_flat : cfg_Services cfg = ∅ -> cfg_Servers cfg <> [] ->
    exists svc, cfg_Services cfg' = {[ "default"%string := svc ]} /\ cfg_Servers cfg' = svc_Servers svc /\
      service_filled cfg' (mkService None None None false (cfg_Servers cfg)) svc;
  sf_entrypoints : cfg_EntryPoints cfg <> ∅ ->
    forall name, option_Forall2 entrypoint_filled (cfg_EntryPoints cfg !! name) (cfg_EntryPoints cfg' !! name);
  sf_legacy_entrypoints : cfg_EntryPoints cfg = ∅ ->
    forall name ep, cfg_EntryPoints cfg' !! name = Some ep <->
      (name = "web"%string /\ ep = mkEntryPoint (":" +:+ Itoa (cfg_ListenPort cfg'))
         (if tls_Enabled (cfg_TLS cfg) then "https" else "http") [] (if tls_Enabled (cfg_TLS cfg) then Some (cfg_TLS cfg) else None)) \/
      (name = "dashboard"%string /\ ep = mkEntryPoint (":" +:+ Itoa (cfg_DashboardPort cfg')) "http" [] None);
}.

Lemma hc_defaults_filled p i t st h : hc_filled h (mkHC p i t st) (hc_defaults p i t st h).
Proof. split; simpl; auto with golib. Qed.

Lemma server_defaults_filled hc s : server_filled hc s (server_defaults hc s).
Proof. split; [done|apply dflt_filled|]. destruct hc. apply hc_defaults_filled. Qed.

(** The defaults of the flat list come before those of the service, and are the same. *)
Lemma hc_defaults_idem p i t st h : hc_defaults p i t st (hc_defaults p i t st h) = hc_defaults p i t st h.
Proof. unfold hc_defaults. simpl. by rewrite dflt_s_idem, !dflt_idem. Qed.

Lemma legacy_then_service p i t st s :
  p = "/health"%string -> t = 2 -> st = 200 ->
  server_defaults (mkHC p i t st) (legacy_server_defaults i s) = server_defaults (mkHC p i t st) s.
Proof. intros -> -> ->. unfold server_defaults, legacy_server_defaults. simpl. by rewrite hc_defaults_idem. Qed.

Lemma service_defaults_filled (cfg : Config) svc :
  service_filled cfg svc (service_defaults (cfg_HealthInterval cfg) (cfg_BreakerThreshold cfg)
    (cfg_BreakerTimeoutSec cfg) (cfg_Algorithm cfg) svc).
Proof.
  eexists _, _, _. unfold service_defaults; simpl. do 4 (split; [done|]).
  split_and!; auto with golib; [apply hc_defaults_filled|].
  induction (svc_Servers svc); constructor; [apply server_defaults_filled|done].
Qed.

Lemma fill_defaults_filled cfg : settings_filled cfg (fill_defaults cfg).
Proof.
  split.
  all: try (unfold fill_defaults; simpl; split_and!; auto with golib; done).
  - intros Hd name. destruct (filled_not_legacy cfg Hd) as [_ _].
    assert (cfg_Services (fill_defaults cfg) = service_defaults (cfg_HealthInterval (fill_defaults cfg))
      (cfg_BreakerThreshold (fill_defaults cfg)) (cfg_BreakerTimeoutSec (fill_defaults cfg))
      (cfg_Algorithm (fill_defaults cfg)) <$> cfg_Services cfg) as ->.
    { unfold fill_defaults; cbn [cfg_Services cfg_HealthInterval cfg_BreakerThreshold cfg_BreakerTimeoutSec cfg_Algorithm].
      rewrite length_fmap. destruct Hd as [Hd| ->]; [by rewrite bool_decide_eq_false_2|].
      cbn [length Nat.eqb negb]. by rewrite andb_false_r. }
    rewrite lookup_fmap. destruct (cfg_Services cfg !! name); constructor. apply service_defaults_filled.
  - intros Hs Hne. unfold fill_defaults; cbn [cfg_Services cfg_Servers].
    rewrite bool_decide_eq_true_2, length_fmap by done.
    destruct (cfg_Servers cfg) as [|s0 l0] eqn:E; [done|]. cbn [length Nat.eqb negb andb]. rewrite <- E.
    rewrite map_fmap_singleton, lookup_singleton_eq. eexists. split; [done|]. split; [done|].
    set (cfg' := mkConfig _ _ _ _ _ _ _ _ _ _ _ _ _ _ _ _ _ _ _ _ _ _ _ _ _).
    pose proof (service_defaults_filled cfg' (mkService None None None false (cfg_Servers cfg))) as H.
    replace (service_defaults _ _ _ _ (mkService None None None false (legacy_server_defaults _ <$> _)))
      with (service_defaults (cfg_HealthInterval cfg') (cfg_BreakerThreshold cfg') (cfg_BreakerTimeoutSec cfg')
              (cfg_Algorithm cfg') (mkService None None None false (cfg_Servers cfg))); [exact H|].
    unfold service_defaults. simpl. f_equal. rewrite <- list_fmap_compose. apply list_fmap_ext. intros i s _. simpl.
    unfold hc_defaults. simpl. symmetry. by apply legacy_then_service.
  - intros Hne name. unfold fill_defaults; cbn [cfg_EntryPoints]. rewrite bool_decide_eq_false_2 by done.
    rewrite lookup_fmap. destruct (cfg_EntryPoints cfg !! name); constructor.
    split_and!; simpl; auto with golib.
  - intros He name ep. unfold fill_defaults; cbn [cfg_EntryPoints cfg_ListenPort cfg_DashboardPort cfg_TLS].
    rewrite bool_decide_eq_true_2 by done. rewrite lookup_fmap_Some. unfold legacy_entrypoints.
    split.
    + intros (e & <- & [[<- <-]|[_ [<- <-]%lookup_singleton_Some]]%lookup_insert_Some); [left|by right].
      split; [done|]. by destruct (tls_Enabled (cfg_TLS cfg)).
    + intros [[-> ->]|[-> ->]]; eexists; rewrite lookup_insert; (split; [|done]); [|done].
      by destruct (tls_Enabled (cfg_TLS cfg)).
Qed.

(** *** Nil entries *)
(** What the decoder makes of a configuration without null entries. *)
Definition decoded (cfg : Config) : Document :=
  with_maps (Some <$> cfg_EntryPoints cfg) (Some <$> cfg_Services cfg) cfg.

Lemma non_nil_spec {A} (m : gmap string (option A)) :
  match non_nil m with
  | Some m' => m = Some <$> m'
  | None => exists name, m !! name = Some None
  end.
Proof.
  unfold non_nil. case_bool_decide as H.
  - apply map_eq. intros n. rewrite lookup_fmap, lookup_omap. destruct (m !! n) as [[a|]|] eqn:E; [done| |done].
    by destruct (H n None E).
  - apply map_not_Forall in H; [|apply _]. destruct H as (n & [a|] & Hn & Hno); [by destruct Hno|by exists n].
Qed.

Lemma non_nil_fmap {A} (m : gmap string A) : non_nil (Some <$> m) = Some m.
Proof.
  unfold non_nil. rewrite bool_decide_eq_true_2; [|by intros n p (a & <- & _)%lookup_fmap_Some]. f_equal.
  apply map_eq. intros n. rewrite lookup_omap, lookup_fmap. by destruct (m !! n).
Qed.

Lemma setDefaults_decoded cfg : setDefaults (decoded cfg) = Some (fill_defaults cfg).
Proof.
  unfold setDefaults, decoded. cbn [cfg_Services cfg_EntryPoints with_maps]. rewrite !non_nil_fmap.
  cbn [mbind option_bind]. by destruct cfg.
Qed.

Lemma setDefaults_cases doc :
  match setDefaults doc with
  | Some cfg => exists plain, doc = decoded plain /\ cfg = fill_defaults plain
  | None => (exists name, cfg_Services doc !! name = Some None) \/ (exists name, cfg_EntryPoints doc !! name = Some None)
  end.
Proof.
  unfold setDefaults. pose proof (non_nil_spec (cfg_Services doc)) as Hs. pose proof (non_nil_spec (cfg_EntryPoints doc)) as He.
  destruct (non_nil (cfg_Services doc)) as [svcs|]; cbn [mbind option_bind]; [|by left].
  destruct (non_nil (cfg_EntryPoints doc)) as [eps|]; cbn [mbind option_bind]; [|by right].
  exists (with_maps eps svcs doc). split; [|done]. unfold decoded. cbn [cfg_EntryPoints cfg_Services with_maps].
  rewrite <- Hs, <- He. by destruct doc.
Qed.


(** ** validate *)
Definition service_urls (svc : ServiceConfig) : list string := srv_URL <$> svc_Servers svc.
Definition entries_urls (entries : list (string * ServiceConfig)) : list string :=
  entries ≫= (fun e => service_urls e.2).

Lemma validate_servers_spec name servers seen :
  match validate_servers name servers seen with
  | Ok seen' => NoDup (srv_URL <$> servers) /\ (forall u, u ∈ srv_URL <$> servers -> seen !! u = None) /\
                (forall u, is_Some (seen' !! u) <-> is_Some (seen !! u) \/ u ∈ srv_URL <$> servers)
  | Err e => ~ (NoDup (srv_URL <$> servers) /\ forall u, u ∈ srv_URL <$> servers -> seen !! u = None)
  end.
Proof.
  revert seen. induction servers as [|s servers IH]; intros seen; cbn [validate_servers fmap list_fmap].
  - split_and!; [constructor|by intros u ?%elem_of_nil|]. intros u. rewrite elem_of_nil. tauto.
  - destruct (seen !! srv_URL s) as [o|] eqn:E.
    { intros [_ H]. rewrite (H (srv_URL s)) in E; [done|left]. }
    specialize (IH (<[srv_URL s:=name]> seen)).
    destruct (validate_servers name servers _) as [seen'|e].
    + destruct IH as (Hnd & Hnone & Hdom). split_and!.
      * constructor; [|done]. intros Hin. specialize (Hnone _ Hin). by rewrite lookup_insert_eq in Hnone.
      * intros u [->|Hu]%elem_of_cons; [done|]. specialize (Hnone u Hu).
        by apply lookup_insert_None in Hnone as [? _].
      * intros u. rewrite Hdom, lookup_insert_is_Some', elem_of_cons. intuition congruence.
    + intros [Hnd Hnone]. apply IH. apply NoDup_cons in Hnd as [Hin Hnd]. split; [done|].
      intros u Hu. rewrite lookup_insert_ne by congruence. apply Hnone. by right.
Qed.

Lemma validate_services_spec entries seen :
  validate_services entries seen = Ok () <->
  NoDup (entries_urls entries) /\ forall u, u ∈ entries_urls entries -> seen !! u = None.
Proof.
  revert seen. induction entries as [|[name svc] entries IH]; intros seen; cbn [validate_services].
  - split; [|done]. intros _. split; [constructor|by intros u ?%elem_of_nil].
  - unfold entries_urls. cbn [mbind list_bind]. fold (entries_urls entries). cbn [snd].
    rewrite NoDup_app. pose proof (validate_servers_spec name (svc_Servers svc) seen) as H.
    destruct (validate_servers name (svc_Servers svc) seen) as [seen'|e]; simpl.
    + destruct H as (Hnd & Hnone & Hdom). rewrite IH. split.
      * intros [Hnd2 Hnone2]. split_and!; [done| |done|].
        -- intros u Hu Hu'. specialize (Hnone2 u Hu'). apply eq_None_not_Some in Hnone2. apply Hnone2, Hdom. by right.
        -- intros u [Hu|Hu]%elem_of_app; [by apply Hnone|]. specialize (Hnone2 u Hu).
           apply eq_None_not_Some. apply eq_None_not_Some in Hnone2. intros Hs. apply Hnone2, Hdom. by left.
      * intros [(_ & Hdisj & Hnd2) Hall]. split; [done|]. intros u Hu. apply eq_None_not_Some.
        intros [Hs|Hs]%Hdom; [|by apply (Hdisj u Hs)].
        revert Hs. apply eq_None_not_Some. apply Hall, elem_of_app. by right.
    + split; [done|]. intros [(Hnd & _ & _) Hall]. exfalso. apply H. split; [done|].
      intros u Hu. apply Hall, elem_of_app. by left.
Qed.

Lemma validate_distinct (services : gmap string ServiceConfig) (entries : list (string * ServiceConfig)) :
  entries ≡ₚ map_to_list services ->
  validate entries = Ok () <-> NoDup (entries_urls (map_to_list services)).
Proof.
  intros Hp. unfold validate. rewrite validate_services_spec.
  assert (entries_urls entries ≡ₚ entries_urls (map_to_list services)) as Hu
    by (unfold entries_urls; by rewrite Hp).
  rewrite Hu. split; [tauto|]. intros Hnd. split; [done|]. intros u _. apply lookup_empty.
Qed.

(** What [Load] returns: defaults filled in, and no backend URL twice. *)
Definition valid_config (cfg : Config) : Prop :=
  config_complete cfg /\ NoDup (entries_urls (map_to_list (cfg_Services cfg))).

Lemma Load_valid data unmarshal order cfg :
  (forall m, order m ≡ₚ map_to_list m) -> Load data unmarshal order = Some (Ok cfg) -> valid_config cfg.
Proof.
  intros Horder. unfold Load. destruct data as [data|]; [|done]. destruct (unmarshal data) as [doc|]; [|done].
  pose proof (setDefaults_cases doc) as H. destruct (setDefaults doc) as [raw|]; [|done]. destruct H as (plain & _ & ->).
  cbn [mbind option_bind]. destruct (validate _) as [[]|e] eqn:E; [|done]. cbn [result_bind]. intros [= <-].
  split; [apply fill_defaults_complete|]. by apply (validate_distinct _ _ (Horder _)).
Qed.

(** Loading panics on a null service or entrypoint, and on nothing else. *)
Definition null_document (data : option string) (unmarshal : string -> option Document) : Prop :=
  exists text doc, data = Some text /\ unmarshal text = Some doc /\
    ((exists name, cfg_Services doc !! name = Some None) \/ (exists name, cfg_EntryPoints doc !! name = Some None)).

Lemma non_nil_null {A} (m : gmap string (option A)) name : m !! name = Some None -> non_nil m = None.
Proof. intros H. unfold non_nil. rewrite bool_decide_eq_false_2; [done|]. intros Hall. by destruct (Hall name None H). Qed.

Lemma Load_panics data unmarshal order : Load data unmarshal order = None <-> null_document data unmarshal.
Proof.
  unfold Load, null_document. split.
  - destruct data as [text|]; [|done]. destruct (unmarshal text) as [doc|] eqn:E; [|done].
    pose proof (setDefaults_cases doc) as H. destruct (setDefaults doc); [done|]. eauto 10.
  - intros (text & doc & -> & -> & H). unfold setDefaults. destruct H as [[n H]|[n H]]; rewrite (non_nil_null _ n H); [done|].
    by destruct (non_nil (cfg_Services doc)).
Qed.

(** C17. Whatever the order in which the loop meets the services, validation accepts a configuration exactly
    when no backend URL occurs twice, within one service or across two.  (internal/service/README.md says
    that a URL can appear in several services; the code refuses it.) *)
Theorem validate_iff_distinct (services : gmap string ServiceConfig) (entries : list (string * ServiceConfig)) :
  entries ≡ₚ map_to_list services ->
  validate entries = Ok () <-> NoDup (entries_urls (map_to_list services)).
Proof. apply validate_distinct. Qed.

Definition example_server (url : string) : ServerConfig := mkServer url url 0 0 (mkHC "" 0 0 0).
Definition example_services : gmap string ServiceConfig :=
  {[ "a" := mkService None None None false [example_server "http://1"; example_server "http://2"];
     "b" := mkService None None None false [example_server "http://3"] ]}%string.

Lemma validate_iff_distinct_witness :
  rev (map_to_list example_services) ≡ₚ map_to_list example_services /\
  (validate (rev (map_to_list example_services)) = Ok () <-> NoDup (entries_urls (map_to_list example_services))).
Proof.
  assert (rev (map_to_list example_services) ≡ₚ map_to_list example_services) as Hp by (symmetry; apply Permutation_rev).
  split; [exact Hp|]. apply (validate_iff_distinct example_services). exact Hp.
Defined.

(** A URL listed twice in one service is refused with the message about multiple services. *)
Example duplicate_in_one_service :
  validate [("a", mkService None None None false [example_server "u"; example_server "u"])]%string =
  Err (MultipleServices "u" "a" "a").
Proof. reflexivity. Qed.
