(* ===== verification/Priority.v ===== *)
(** * priority/classifier.go: the priority class of a request *)
From S2P Require Import Prelude GoStrings.

Definition highPriorityPaths : list string :=
  ["/api/critical"; "/api/payment"; "/api/auth"; "/admin"; "/health-check"]%string.

Definition Classify (path headerValue : string) : string :=
  if String.eqb headerValue "HIGH" || String.eqb headerValue "LOW" then headerValue
  else if existsb (HasPrefix path) highPriorityPaths then "HIGH"
  else "LOW".

Lemma Classify_values path h : Classify path h = "HIGH"%string \/ Classify path h = "LOW"%string.
Proof.
  unfold Classify. destruct (String.eqb_spec h "HIGH"), (String.eqb_spec h "LOW"); cbn [orb]; auto;
    destruct (existsb (HasPrefix path) highPriorityPaths); auto.
Qed.

(** The header decides when it names a class; otherwise the path does. *)
Lemma Classify_high path h :
  Classify path h = "HIGH"%string <->
  h = "HIGH"%string \/ (h <> "LOW"%string /\ exists p, p ∈ highPriorityPaths /\ HasPrefix path p = true).
Proof.
  unfold Classify. destruct (String.eqb_spec h "HIGH") as [->|Hh]; cbn [orb]; [tauto|].
  destruct (String.eqb_spec h "LOW") as [->|Hl]; cbn [orb]; [split; [done|intros [|[]]; congruence]|].
  destruct (existsb (HasPrefix path) highPriorityPaths) eqn:E.
  - apply existsb_exists in E as (p & Hp & Hm). split; [intros _; right; split; [done|]|done].
    exists p. by rewrite list_elem_of_In.
  - split; [done|]. intros [?|(_ & p & Hp & Hm)]; [done|]. exfalso.
    rewrite <- not_true_iff_false in E. apply E, existsb_exists. exists p. by rewrite <- list_elem_of_In.
Qed.
