(* ===== verification/Breaker.v ===== *)
(** * health/breaker.go: the per-server circuit breaker

    [Breaker] is the struct, one definition per method; the clock reading a method makes is its
    argument [now].  The file proves the three-state machine against an abstract automaton, the trip
    condition, the blocking window of an open circuit, and the agreement of the two tests
    ([IsOpen] for filtering, [CanSend] for the chosen server). *)
From S2P Require Import Prelude.

(** ** State and operations *)
Inductive State : Type :=
| StateClosed
| StateOpen
| StateHalfOpen.

#[export] Instance State_eq_dec : EqDecision State.
Proof. solve_decision. Defined.

Definition State_String (s : State) : string :=
  match s with
  | StateClosed => "CLOSED"
  | StateOpen => "OPEN"
  | StateHalfOpen => "HALF_OPEN"
  end.

Record Breaker : Type := mkBreaker {
  b_state : State;
  b_failureCount : Z;
  b_threshold : Z;
  b_recoveryTimeout : Z;
  b_lastFailureTime : Z;
}.

(** Go's zero [time.Time] is the first instant of year 1. *)
Definition zeroTime : Z := -62135596800 * Second.

Definition NewBreaker (threshold recoveryTimeout : Z) : Breaker :=
  {| b_state := StateClosed;
     b_failureCount := 0;
     b_threshold := threshold;
     b_recoveryTimeout := recoveryTimeout;
     b_lastFailureTime := zeroTime |}.

Definition Breaker_IsOpen (now : Z) (b : Breaker) : bool :=
  if negb (bool_decide (b_state b = StateOpen)) then false
  else time_Since now (b_lastFailureTime b) <=? b_recoveryTimeout b.

Definition set_state (s : State) (b : Breaker) : Breaker :=
  {| b_state := s;
     b_failureCount := b_failureCount b;
     b_threshold := b_threshold b;
     b_recoveryTimeout := b_recoveryTimeout b;
     b_lastFailureTime := b_lastFailureTime b |}.

Definition Breaker_CanSend (now : Z) (b : Breaker) : Breaker * bool :=
  match b_state b with
  | StateClosed => (b, true)
  | StateOpen =>
      if b_recoveryTimeout b <? time_Since now (b_lastFailureTime b)
      then (set_state StateHalfOpen b, true)
      else (b, false)
  | StateHalfOpen => (b, true)
  end.

Definition Breaker_RecordSuccess (b : Breaker) : Breaker * bool :=
  let wasOpen := negb (bool_decide (b_state b = StateClosed)) in
  ({| b_state := StateClosed;
      b_failureCount := 0;
      b_threshold := b_threshold b;
      b_recoveryTimeout := b_recoveryTimeout b;
      b_lastFailureTime := b_lastFailureTime b |}, wasOpen).

Definition Breaker_RecordFailure (now : Z) (b : Breaker) : Breaker :=
  let failureCount := wrap64 (b_failureCount b + 1) in
  {| b_state := if (b_threshold b <=? failureCount) || bool_decide (b_state b = StateHalfOpen)
                then StateOpen else b_state b;
     b_failureCount := failureCount;
     b_threshold := b_threshold b;
     b_recoveryTimeout := b_recoveryTimeout b;
     b_lastFailureTime := now |}.

Definition Breaker_State (b : Breaker) : string := State_String (b_state b).

(** ** Histories: the calls made on one breaker, each at its instant *)
Inductive Op : Type :=
| OpIsOpen
| OpCanSend
| OpRecordSuccess
| OpRecordFailure
| OpState.

#[export] Instance Op_eq_dec : EqDecision Op.
Proof. solve_decision. Defined.

(** What a call returns. *)
Inductive Out : Type :=
| OutBool (r : bool)
| OutUnit
| OutString (s : string).

Definition exec (op : Op) (now : Z) (b : Breaker) : Breaker * Out :=
  match op with
  | OpIsOpen => (b, OutBool (Breaker_IsOpen now b))
  | OpCanSend => let '(b', r) := Breaker_CanSend now b in (b', OutBool r)
  | OpRecordSuccess => let '(b', r) := Breaker_RecordSuccess b in (b', OutBool r)
  | OpRecordFailure => (Breaker_RecordFailure now b, OutUnit)
  | OpState => (b, OutString (Breaker_State b))
  end.

Fixpoint run (h : list (Op * Z)) (b : Breaker) : Breaker * list Out :=
  match h with
  | [] => (b, [])
  | (op, now) :: h' =>
      let '(b', o) := exec op now b in
      let '(b'', os) := run h' b' in (b'', o :: os)
  end.

Inductive breaker_step (b : Breaker) : Breaker -> Prop :=
| step_exec op now : breaker_step b (exec op now b).1.

Definition breaker_reachable (threshold recoveryTimeout : Z) (b : Breaker) : Prop :=
  rtc breaker_step (NewBreaker threshold recoveryTimeout) b.

(** ** The abstract breaker: what each phase needs to remember *)
Inductive Spec : Type :=
| SClosed (failures : Z)
| SOpen (since : Z)
| SProbing.

Definition spec_exec (threshold timeout : Z) (op : Op) (now : Z) (s : Spec) : Spec * Out :=
  match op, s with
  | OpIsOpen, SOpen since => (s, OutBool (time_Since now since <=? timeout))
  | OpIsOpen, _ => (s, OutBool false)
  | OpCanSend, SOpen since =>
      if timeout <? time_Since now since then (SProbing, OutBool true) else (s, OutBool false)
  | OpCanSend, _ => (s, OutBool true)
  | OpRecordSuccess, SClosed _ => (SClosed 0, OutBool false)
  | OpRecordSuccess, _ => (SClosed 0, OutBool true)
  | OpRecordFailure, SClosed k => (if threshold <=? k + 1 then SOpen now else SClosed (k + 1), OutUnit)
  | OpRecordFailure, _ => (SOpen now, OutUnit)
  | OpState, SClosed _ => (s, OutString "CLOSED")
  | OpState, SOpen _ => (s, OutString "OPEN")
  | OpState, SProbing => (s, OutString "HALF_OPEN")
  end.

Fixpoint spec_run (threshold timeout : Z) (h : list (Op * Z)) (s : Spec) : Spec * list Out :=
  match h with
  | [] => (s, [])
  | (op, now) :: h' =>
      let '(s', o) := spec_exec threshold timeout op now s in
      let '(s'', os) := spec_run threshold timeout h' s' in (s'', o :: os)
  end.

Definition abs (b : Breaker) : Spec :=
  match b_state b with
  | StateClosed => SClosed (b_failureCount b)
  | StateOpen => SOpen (b_lastFailureTime b)
  | StateHalfOpen => SProbing
  end.

(** A closed breaker has counted fewer failures than the threshold. *)
Definition breaker_inv (b : Breaker) : Prop :=
  1 <= b_threshold b <= maxInt64 /\
  (b_state b = StateClosed -> 0 <= b_failureCount b < b_threshold b).

(** ** Lemmas *)
Ltac breaker_unfold :=
  unfold exec, spec_exec, abs, breaker_inv, Breaker_IsOpen, Breaker_CanSend, Breaker_RecordSuccess,
    Breaker_RecordFailure, Breaker_State, set_state in *.

Lemma breaker_inv_New (threshold recoveryTimeout : Z) :
  1 <= threshold <= maxInt64 -> breaker_inv (NewBreaker threshold recoveryTimeout).
Proof. intros. split; simpl; lia. Qed.

Lemma breaker_inv_exec (op : Op) (now : Z) (b : Breaker) :
  breaker_inv b -> breaker_inv (exec op now b).1.
Proof.
  intros Hb. pose proof (wrap64_small (b_failureCount b + 1)) as Hw. revert Hb Hw.
  breaker_unfold. unfold in_int64. destruct b as [s k th tmo last]; simpl; intros [Hth Hk] Hw.
  destruct op, s; simpl; go_cases; z_bool; (split; [lia|]); intros; try discriminate;
    try (specialize (Hk eq_refl); rewrite Hw in *; unfold_int; lia); try lia.
  all: simpl in *; go_cases.
Qed.

Lemma exec_params (op : Op) (now : Z) (b : Breaker) :
  b_threshold (exec op now b).1 = b_threshold b /\
  b_recoveryTimeout (exec op now b).1 = b_recoveryTimeout b.
Proof. breaker_unfold. destruct op, b as [[] k th tmo last]; simpl; go_cases. Qed.

#[export] Hint Resolve breaker_inv_New breaker_inv_exec : golib.

Lemma exec_refines (op : Op) (now : Z) (b : Breaker) :
  breaker_inv b ->
  spec_exec (b_threshold b) (b_recoveryTimeout b) op now (abs b)
  = (abs (exec op now b).1, (exec op now b).2).
Proof.
  intros [Hth Hk].
  destruct b as [s k th tmo last]; simpl in *.
  assert (s = StateClosed -> wrap64 (k + 1) = k + 1) as Hw
    by (intros Hs; apply wrap64_small; specialize (Hk Hs); unfold_int; lia).
  breaker_unfold; destruct op, s; simpl; rewrite ?orb_true_r, ?orb_false_r; try done.
  - by destruct (tmo <? time_Since now last).
  - rewrite Hw by done. by destruct (th <=? k + 1).
  - by destruct (th <=? wrap64 (k + 1)).
Qed.

Lemma run_refines (h : list (Op * Z)) (b : Breaker) :
  breaker_inv b ->
  spec_run (b_threshold b) (b_recoveryTimeout b) h (abs b) = (abs (run h b).1, (run h b).2).
Proof.
  revert b. induction h as [|[op now] h IH]; intros b Hb; [done|]. simpl.
  rewrite exec_refines by done.
  pose proof (breaker_inv_exec op now b Hb) as Hb'.
  destruct (exec_params op now b) as [E1 E2].
  destruct (exec op now b) as [b' o]; simpl in *.
  specialize (IH b' Hb'). rewrite E1, E2 in IH. rewrite IH.
  by destruct (run h b').
Qed.

Lemma breaker_inv_reachable (threshold recoveryTimeout : Z) (b : Breaker) :
  1 <= threshold <= maxInt64 -> breaker_reachable threshold recoveryTimeout b -> breaker_inv b.
Proof.
  intros Hth. unfold breaker_reachable.
  apply (rtc_ind_r breaker_inv); [by apply breaker_inv_New|].
  intros b1 b2 _ [op now] Hb. by apply breaker_inv_exec.
Qed.

(** Consecutive failures of the abstract breaker: an open one stays open, a closed one opens when the
    count reaches the threshold. *)
Lemma spec_failures_open (th tmo u : Z) (ts : list Z) :
  exists v, (spec_run th tmo ((fun t => (OpRecordFailure, t)) <$> ts) (SOpen u)).1 = SOpen v.
Proof.
  revert u. induction ts as [|t ts IH]; intros u; [by exists u|].
  destruct (IH t) as [v Hv]. exists v. simpl in *. by destruct (spec_run _ _ _ (SOpen t)).
Qed.

Lemma spec_failures_closed (th tmo k : Z) (ts : list Z) :
  k < th ->
  (exists v, (spec_run th tmo ((fun t => (OpRecordFailure, t)) <$> ts) (SClosed k)).1 = SOpen v)
  <-> th <= k + Z.of_nat (length ts).
Proof.
  revert k. induction ts as [|t ts IH]; intros k Hk.
  - simpl. split; [intros [? [=]]|lia].
  - cbn [length fmap list_fmap spec_run spec_exec].
    destruct (Z.leb_spec th (k + 1)) as [Hle|Hgt].
    + destruct (spec_failures_open th tmo t ts) as [v Hv].
      destruct (spec_run _ _ _ (SOpen t)) as [s os]; simpl in *.
      split; [lia|intros _; by exists v].
    + specialize (IH (k + 1) Hgt).
      destruct (spec_run _ _ _ (SClosed (k + 1))) as [s' os]; simpl in *. rewrite IH. lia.
Qed.

Lemma abs_open (b : Breaker) : b_state b = StateOpen <-> exists v, abs b = SOpen v.
Proof. unfold abs. destruct (b_state b); split; try done; try (by eexists); by intros [? [=]]. Qed.

(** ** Properties *)

(** C8. The breaker implements the three-phase automaton: from its creation, whatever calls are made
    on it and at whatever instants, every value they return is the one the abstract breaker (closed
    with a failure count, open since an instant, probing) returns. *)
Theorem breaker_refines_automaton (threshold recoveryTimeout : Z) (h : list (Op * Z)) :
  1 <= threshold <= maxInt64 ->
  (run h (NewBreaker threshold recoveryTimeout)).2
  = (spec_run threshold recoveryTimeout h (SClosed 0)).2.
Proof.
  intros Hth.
  pose proof (run_refines h _ (breaker_inv_New threshold recoveryTimeout Hth)) as E.
  apply (f_equal snd) in E; cbn [snd] in E. symmetry. exact E.
Qed.

Lemma breaker_refines_automaton_witness :
  (run [(OpRecordFailure, 10); (OpRecordFailure, 20); (OpIsOpen, 21); (OpCanSend, 121)]
     (NewBreaker 2 100)).2
  = (spec_run 2 100 [(OpRecordFailure, 10); (OpRecordFailure, 20); (OpIsOpen, 21); (OpCanSend, 121)]
       (SClosed 0)).2.
Proof. apply breaker_refines_automaton. unfold_int. lia. Defined.

(** A closed breaker trips exactly at its threshold: after any number of consecutive failures
    counted from a reset, it is open precisely when that number has reached the threshold. *)
Theorem breaker_trips_at_threshold (b : Breaker) (ts : list Z) :
  1 <= b_threshold b <= maxInt64 ->
  b_state (run ((fun t => (OpRecordFailure, t)) <$> ts) (Breaker_RecordSuccess b).1).1 = StateOpen
  <-> b_threshold b <= Z.of_nat (length ts).
Proof.
  intros Hth.
  assert (breaker_inv (Breaker_RecordSuccess b).1) as H0 by (split; simpl; lia).
  pose proof (run_refines ((fun t => (OpRecordFailure, t)) <$> ts) _ H0) as E.
  apply (f_equal fst) in E; cbn [fst] in E.
  rewrite abs_open, <- E. apply (spec_failures_closed _ _ 0). simpl. lia.
Qed.

Lemma breaker_trips_at_threshold_witness :
  b_state (run ((fun t => (OpRecordFailure, t)) <$> [5; 6; 7])
    (Breaker_RecordSuccess (NewBreaker 3 100)).1).1 = StateOpen.
Proof.
  apply (breaker_trips_at_threshold (NewBreaker 3 100) [5; 6; 7]); vm_compute; intuition discriminate.
Defined.

(** An open circuit blocks: as long as its recovery timeout has not elapsed since the last
    recorded failure, every [IsOpen] answers true and every [CanSend] answers false, and none of
    these calls changes the breaker. *)
Theorem open_breaker_blocks (b : Breaker) (h : list (Op * Z)) :
  b_state b = StateOpen -> in_int64 (b_recoveryTimeout b) ->
  Forall (fun c => (c.1 = OpIsOpen \/ c.1 = OpCanSend) /\
                   c.2 <= b_lastFailureTime b + b_recoveryTimeout b) h ->
  run h b = (b, (fun c => OutBool (bool_decide (c.1 = OpIsOpen))) <$> h).
Proof.
  intros Hs Htmo Hh. induction Hh as [|[op now] h [Hop Hnow] _ IH]; [done|].
  cbn [fst snd run fmap list_fmap] in *.
  assert (time_Since now (b_lastFailureTime b) <= b_recoveryTimeout b) as Hle by (unfold_int; lia).
  destruct Hop as [-> | ->]; cbn [exec].
  - unfold Breaker_IsOpen. rewrite Hs; simpl. apply Z.leb_le in Hle. by rewrite Hle, IH.
  - unfold Breaker_CanSend. rewrite Hs. apply Z.ltb_ge in Hle. by rewrite Hle, IH.
Qed.

Lemma open_breaker_blocks_witness :
  let b := Breaker_RecordFailure 10 (NewBreaker 1 100) in
  run [(OpIsOpen, 50); (OpCanSend, 110)] b = (b, [OutBool true; OutBool false]).
Proof.
  cbv zeta. apply (open_breaker_blocks (Breaker_RecordFailure 10 (NewBreaker 1 100))
    [(OpIsOpen, 50); (OpCanSend, 110)]); [done| |].
  - simpl. unfold_int. lia.
  - repeat constructor; simpl; auto; lia.
Defined.

(** Filtering and admission agree: a server that passes the pure test [IsOpen] at one instant is
    admitted by [CanSend] at that instant and at every later one, and a server that fails it is
    refused at that instant. *)
Theorem IsOpen_CanSend_agree (b : Breaker) (now later : Z) :
  now <= later ->
  (Breaker_IsOpen now b = false -> (Breaker_CanSend later b).2 = true) /\
  (Breaker_IsOpen now b = true -> Breaker_CanSend now b = (b, false)).
Proof.
  intros Hle. unfold Breaker_IsOpen, Breaker_CanSend.
  pose proof (time_Since_mono now later (b_lastFailureTime b) Hle) as Hm.
  destruct (b_state b) eqn:Hs; simpl; try done.
  split; intros H; z_bool; go_cases; z_bool; lia.
Qed.

Lemma IsOpen_CanSend_agree_witness :
  let b := Breaker_RecordFailure 10 (NewBreaker 1 100) in
  (Breaker_IsOpen 120 b = false -> (Breaker_CanSend 130 b).2 = true) /\
  (Breaker_IsOpen 120 b = true -> Breaker_CanSend 120 b = (b, false)).
Proof. apply IsOpen_CanSend_agree. lia. Defined.

(** A half-open circuit does not limit itself to one probe: until a result is recorded, every
    request that asks is admitted, however many there are. *)
Theorem half_open_admits_every_request (b : Breaker) (ts : list Z) :
  b_state b = StateHalfOpen ->
  run ((fun t => (OpCanSend, t)) <$> ts) b = (b, (fun _ => OutBool true) <$> ts).
Proof.
  intros Hs. induction ts as [|t ts IH]; [done|].
  cbn [fmap list_fmap run exec]. unfold Breaker_CanSend. by rewrite Hs, IH.
Qed.

Lemma half_open_admits_every_request_witness :
  let b := (Breaker_CanSend 200 (Breaker_RecordFailure 10 (NewBreaker 1 100))).1 in
  run [(OpCanSend, 201); (OpCanSend, 202); (OpCanSend, 203)] b
  = (b, [OutBool true; OutBool true; OutBool true]).
Proof.
  cbv zeta. apply (half_open_admits_every_request _ [201; 202; 203]). reflexivity.
Defined.
