(* ===== verification/Collector.v ===== *)
(** * metrics/collector.go: the per-server metrics store

    [Collector] is the store, one definition per method; [now] is the clock reading a method makes.
    The file proves the store's invariant over every operation, the latency percentile, the circuit
    event log, the in-flight count under interleaved requests, and the dashboard totals. *)
From S2P Require Import Prelude GoFloat GoSort.
From stdpp Require Import gmultiset.
Open Scope Z_scope.

(** ** Data *)
Record CircuitEvent : Type := mkCircuitEvent {
  ev_ServerName : string;
  ev_ServerURL : string;
  ev_OldState : string;
  ev_NewState : string;
  ev_Timestamp : string;
}.

Record ServerStats : Type := mkServerStats {
  Name : string;
  URL : string;
  Weight : Z;
  IsHealthy : bool;
  AvgLatencyMs : float64;
  P95LatencyMs : float64;
  ActiveConnections : Z;
  TotalRequests : Z;
  SuccessCount : Z;
  FailureCount : Z;
  RetryCount : Z;
  CircuitState : string;
  HighPriorityCount : Z;
  LowPriorityCount : Z;
  LastChecked : string;
  recentLatencies : list float64;
}.

Record DashboardSnapshot : Type := mkDashboardSnapshot {
  ds_Servers : gmap string ServerStats;
  ds_GlobalRPS : float64;
  ds_TotalRequests : Z;
  ds_SuccessRate : float64;
  ds_HealthyCount : Z;
  ds_TotalCount : Z;
  ds_Algorithm : string;
  ds_CircuitEvents : list CircuitEvent;
}.

Record Collector : Type := mkCollector {
  c_servers : gmap string ServerStats;
  c_lastSnapshotTime : Z;
  c_lastTotalRequests : Z;
  c_circuitEvents : list CircuitEvent;
  c_algorithm : string;
}.

(** [t.Format("15:04:05")]: instants are counted from a local midnight. *)
Definition digit (n : Z) : ascii := ascii_of_nat (Z.to_nat (48 + n mod 10)).
Definition pad2 (n : Z) : string := String (digit (n / 10)) (String (digit n) EmptyString).
Definition format_hms (now : Z) : string :=
  let s := (now / Second) mod 86400 in
  (pad2 (s / 3600) +:+ ":" +:+ pad2 ((s / 60) mod 60) +:+ ":" +:+ pad2 (s mod 60))%string.

(** [Duration.Seconds]. *)
Definition Duration_Seconds (d : Z) : float64 :=
  f64_add (f64_of_Z (Z.quot d Second)) (f64_div (f64_of_Z (Z.rem d Second)) (f64_of_Z Second)).

(** ** Record updates *)
Definition set_servers (m : gmap string ServerStats) (c : Collector) : Collector :=
  mkCollector m (c_lastSnapshotTime c) (c_lastTotalRequests c) (c_circuitEvents c) (c_algorithm c).

Definition set_events (l : list CircuitEvent) (c : Collector) : Collector :=
  mkCollector (c_servers c) (c_lastSnapshotTime c) (c_lastTotalRequests c) l (c_algorithm c).

(** [if s, ok := c.servers[url]; ok { f(s) }]: the map holds pointers, so the entry is updated in place. *)
Definition update_server (url : string) (f : ServerStats -> ServerStats) (c : Collector) : Collector :=
  match c_servers c !! url with
  | Some s => set_servers (<[url := f s]> (c_servers c)) c
  | None => c
  end.

Section with_sort.
Context `{!GoSort float64 f64_less}.

(** ** Operations *)
Definition New_stats (i : nat) (url : string) (names : list string) (weights : list Z) : ServerStats :=
  {| Name := match names !! i with Some n => n | None => url end;
     URL := url;
     Weight := match weights !! i with
               | Some w => if 0 <? w then w else 1
               | None => 1
               end;
     IsHealthy := true;
     AvgLatencyMs := f64_zero; P95LatencyMs := f64_zero;
     ActiveConnections := 0; TotalRequests := 0; SuccessCount := 0; FailureCount := 0;
     RetryCount := 0; CircuitState := "CLOSED"; HighPriorityCount := 0; LowPriorityCount := 0;
     LastChecked := ""; recentLatencies := [] |}.

Fixpoint New_loop (i : nat) (servers names : list string) (weights : list Z)
    (m : gmap string ServerStats) : gmap string ServerStats :=
  match servers with
  | [] => m
  | url :: servers' =>
      New_loop (S i) servers' names weights (<[url := New_stats i url names weights]> m)
  end.

Definition New (now : Z) (servers names : list string) (weights : list Z) : Collector :=
  mkCollector (New_loop 0 servers names weights ∅) now 0 [] "".

Definition SetAlgorithm (algo : string) (c : Collector) : Collector :=
  mkCollector (c_servers c) (c_lastSnapshotTime c) (c_lastTotalRequests c) (c_circuitEvents c) algo.

Definition start_stats (s : ServerStats) : ServerStats :=
  {| Name := Name s; URL := URL s; Weight := Weight s; IsHealthy := IsHealthy s;
     AvgLatencyMs := AvgLatencyMs s; P95LatencyMs := P95LatencyMs s;
     ActiveConnections := wrap64 (ActiveConnections s + 1);
     TotalRequests := TotalRequests s; SuccessCount := SuccessCount s;
     FailureCount := FailureCount s; RetryCount := RetryCount s; CircuitState := CircuitState s;
     HighPriorityCount := HighPriorityCount s; LowPriorityCount := LowPriorityCount s;
     LastChecked := LastChecked s; recentLatencies := recentLatencies s |}.

Definition RecordStart (url : string) (c : Collector) : Collector :=
  update_server url start_stats c.

Definition p95_index (n : Z) : Z :=
  let idx := wrap64 (f64_to_int64 (f64_ceil (f64_mul (f64_of_Z n) (f64_lit 95 100))) - 1) in
  let idx := if idx <? 0 then 0 else idx in
  if n <=? idx then n - 1 else idx.

Definition computeP95 (latencies : list float64) : float64 :=
  let n := length latencies in
  if (n =? 0)%nat then f64_zero
  else
    let sorted := go_sort f64_less latencies in
    default f64_zero (sorted !! Z.to_nat (p95_index (Z.of_nat n))).

Definition average (l : list float64) : float64 :=
  f64_div (foldl f64_add f64_zero l) (f64_of_Z (Z.of_nat (length l))).

Definition push_latency (l : list float64) (latencyMs : float64) : list float64 :=
  let l := l ++ [latencyMs] in
  if (100 <? length l)%nat then drop 1 l else l.

Definition end_stats (latencyMs : float64) (success : bool) (s : ServerStats) : ServerStats :=
  let active := wrap64 (ActiveConnections s - 1) in
  let recent := push_latency (recentLatencies s) latencyMs in
  {| Name := Name s; URL := URL s; Weight := Weight s; IsHealthy := IsHealthy s;
     AvgLatencyMs := average recent;
     P95LatencyMs := computeP95 recent;
     ActiveConnections := if active <? 0 then 0 else active;
     TotalRequests := wrap64 (TotalRequests s + 1);
     SuccessCount := if success then wrap64 (SuccessCount s + 1) else SuccessCount s;
     FailureCount := if success then FailureCount s else wrap64 (FailureCount s + 1);
     RetryCount := RetryCount s; CircuitState := CircuitState s;
     HighPriorityCount := HighPriorityCount s; LowPriorityCount := LowPriorityCount s;
     LastChecked := LastChecked s; recentLatencies := recent |}.

Definition RecordEnd (url : string) (latencyMs : float64) (success : bool) (c : Collector) : Collector :=
  update_server url (end_stats latencyMs success) c.

Definition retry_stats (s : ServerStats) : ServerStats :=
  {| Name := Name s; URL := URL s; Weight := Weight s; IsHealthy := IsHealthy s;
     AvgLatencyMs := AvgLatencyMs s; P95LatencyMs := P95LatencyMs s;
     ActiveConnections := ActiveConnections s; TotalRequests := TotalRequests s;
     SuccessCount := SuccessCount s; FailureCount := FailureCount s;
     RetryCount := wrap64 (RetryCount s + 1); CircuitState := CircuitState s;
     HighPriorityCount := HighPriorityCount s; LowPriorityCount := LowPriorityCount s;
     LastChecked := LastChecked s; recentLatencies := recentLatencies s |}.

Definition RecordRetry (url : string) (c : Collector) : Collector :=
  update_server url retry_stats c.

Definition health_stats (now : Z) (healthy : bool) (s : ServerStats) : ServerStats :=
  {| Name := Name s; URL := URL s; Weight := Weight s; IsHealthy := healthy;
     AvgLatencyMs := AvgLatencyMs s; P95LatencyMs := P95LatencyMs s;
     ActiveConnections := ActiveConnections s; TotalRequests := TotalRequests s;
     SuccessCount := SuccessCount s; FailureCount := FailureCount s;
     RetryCount := RetryCount s; CircuitState := CircuitState s;
     HighPriorityCount := HighPriorityCount s; LowPriorityCount := LowPriorityCount s;
     LastChecked := format_hms now; recentLatencies := recentLatencies s |}.

Definition SetHealth (now : Z) (url : string) (healthy : bool) (c : Collector) : Collector :=
  update_server url (health_stats now healthy) c.

Definition circuit_stats (state : string) (s : ServerStats) : ServerStats :=
  {| Name := Name s; URL := URL s; Weight := Weight s; IsHealthy := IsHealthy s;
     AvgLatencyMs := AvgLatencyMs s; P95LatencyMs := P95LatencyMs s;
     ActiveConnections := ActiveConnections s; TotalRequests := TotalRequests s;
     SuccessCount := SuccessCount s; FailureCount := FailureCount s;
     RetryCount := RetryCount s; CircuitState := state;
     HighPriorityCount := HighPriorityCount s; LowPriorityCount := LowPriorityCount s;
     LastChecked := LastChecked s; recentLatencies := recentLatencies s |}.

(** [append], then keep the last [max] elements. *)
Definition push_event (max : nat) (l : list CircuitEvent) (e : CircuitEvent) : list CircuitEvent :=
  let l := l ++ [e] in
  if (max <? length l)%nat then drop (length l - max) l else l.

Definition SetCircuitState (now : Z) (url state : string) (c : Collector) : Collector :=
  match c_servers c !! url with
  | None => c
  | Some s =>
      let oldState := CircuitState s in
      let c := set_servers (<[url := circuit_stats state s]> (c_servers c)) c in
      if negb (bool_decide (oldState = state)) then
        set_events (push_event 50 (c_circuitEvents c)
          {| ev_ServerName := Name s; ev_ServerURL := url; ev_OldState := oldState;
             ev_NewState := state; ev_Timestamp := format_hms now |}) c
      else c
  end.

Definition priority_stats (priority : string) (s : ServerStats) : ServerStats :=
  {| Name := Name s; URL := URL s; Weight := Weight s; IsHealthy := IsHealthy s;
     AvgLatencyMs := AvgLatencyMs s; P95LatencyMs := P95LatencyMs s;
     ActiveConnections := ActiveConnections s; TotalRequests := TotalRequests s;
     SuccessCount := SuccessCount s; FailureCount := FailureCount s;
     RetryCount := RetryCount s; CircuitState := CircuitState s;
     HighPriorityCount := if bool_decide (priority = "HIGH"%string)
                          then wrap64 (HighPriorityCount s + 1) else HighPriorityCount s;
     LowPriorityCount := if bool_decide (priority = "HIGH"%string)
                         then LowPriorityCount s else wrap64 (LowPriorityCount s + 1);
     LastChecked := LastChecked s; recentLatencies := recentLatencies s |}.

Definition RecordPriority (url priority : string) (c : Collector) : Collector :=
  update_server url (priority_stats priority) c.

Definition GetName (url : string) (c : Collector) : string :=
  match c_servers c !! url with
  | Some s => Name s
  | None => url
  end.

Definition clear_stats (s : ServerStats) : ServerStats :=
  {| Name := Name s; URL := URL s; Weight := Weight s; IsHealthy := IsHealthy s;
     AvgLatencyMs := f64_zero; P95LatencyMs := f64_zero;
     ActiveConnections := ActiveConnections s; TotalRequests := TotalRequests s;
     SuccessCount := SuccessCount s; FailureCount := FailureCount s;
     RetryCount := RetryCount s; CircuitState := CircuitState s;
     HighPriorityCount := HighPriorityCount s; LowPriorityCount := LowPriorityCount s;
     LastChecked := LastChecked s; recentLatencies := [] |}.

Definition ClearLatencies (url : string) (c : Collector) : Collector :=
  update_server url clear_stats c.

Definition Snapshot (c : Collector) : gmap string ServerStats := c_servers c.

Definition import_stats (old s : ServerStats) : ServerStats :=
  {| Name := Name s; URL := URL s; Weight := Weight s; IsHealthy := IsHealthy s;
     AvgLatencyMs := AvgLatencyMs old; P95LatencyMs := P95LatencyMs old;
     ActiveConnections := ActiveConnections s; TotalRequests := TotalRequests old;
     SuccessCount := SuccessCount old; FailureCount := FailureCount old;
     RetryCount := RetryCount old; CircuitState := CircuitState s;
     HighPriorityCount := HighPriorityCount old; LowPriorityCount := LowPriorityCount old;
     LastChecked := LastChecked s; recentLatencies := recentLatencies s |}.

Definition ImportMetrics (oldSnap : gmap string ServerStats) (c : Collector) : Collector :=
  map_fold (fun url old c => update_server url (import_stats old) c) c oldSnap.

Definition sum_totals (m : gmap string ServerStats) : Z :=
  map_fold (fun _ s acc => wrap64 (acc + TotalRequests s)) 0 m.
Definition sum_successes (m : gmap string ServerStats) : Z :=
  map_fold (fun _ s acc => wrap64 (acc + SuccessCount s)) 0 m.
Definition count_healthy (m : gmap string ServerStats) : Z :=
  map_fold (fun _ s acc => if IsHealthy s then wrap64 (acc + 1) else acc) 0 m.

Definition success_rate (totalOK totalReq : Z) : float64 :=
  if 0 <? totalReq
  then f64_mul (f64_div (f64_of_Z totalOK) (f64_of_Z totalReq)) (f64_of_Z 100)
  else f64_zero.

Definition DashboardSnap (now : Z) (c : Collector) : Collector * DashboardSnapshot :=
  let snap := c_servers c in
  let totalReq := sum_totals (c_servers c) in
  let totalOK := sum_successes (c_servers c) in
  let healthyCount := count_healthy (c_servers c) in
  let elapsed := Duration_Seconds (time_Sub now (c_lastSnapshotTime c)) in
  let rps := if f64_lt f64_zero elapsed
             then f64_div (f64_of_Z (wrap64 (totalReq - c_lastTotalRequests c))) elapsed
             else f64_zero in
  (mkCollector (c_servers c) now totalReq (c_circuitEvents c) (c_algorithm c),
   {| ds_Servers := snap; ds_GlobalRPS := rps; ds_TotalRequests := totalReq;
      ds_SuccessRate := success_rate totalOK totalReq; ds_HealthyCount := healthyCount;
      ds_TotalCount := Z.of_nat (size (c_servers c)); ds_Algorithm := c_algorithm c;
      ds_CircuitEvents := c_circuitEvents c |}).

Definition CircuitEvents (c : Collector) : list CircuitEvent := c_circuitEvents c.
End with_sort.

(** ** The method calls, as the operations of one transition system *)
Inductive CollectorOp : Type :=
| COpSetAlgorithm (algo : string)
| COpRecordStart (url : string)
| COpRecordEnd (url : string) (latencyMs : float64) (success : bool)
| COpRecordRetry (url : string)
| COpSetHealth (now : Z) (url : string) (healthy : bool)
| COpSetCircuitState (now : Z) (url state : string)
| COpRecordPriority (url priority : string)
| COpClearLatencies (url : string)
| COpImportMetrics (oldSnap : gmap string ServerStats)
| COpDashboardSnap (now : Z).

Section operations.
Context `{!GoSort float64 f64_less}.

Definition c_exec (op : CollectorOp) (c : Collector) : Collector :=
  match op with
  | COpSetAlgorithm algo => SetAlgorithm algo c
  | COpRecordStart url => RecordStart url c
  | COpRecordEnd url l ok => RecordEnd url l ok c
  | COpRecordRetry url => RecordRetry url c
  | COpSetHealth now url h => SetHealth now url h c
  | COpSetCircuitState now url st => SetCircuitState now url st c
  | COpRecordPriority url p => RecordPriority url p c
  | COpClearLatencies url => ClearLatencies url c
  | COpImportMetrics old => ImportMetrics old c
  | COpDashboardSnap now => (DashboardSnap now c).1
  end.

Definition c_run (ops : list CollectorOp) (c : Collector) : Collector := foldl (fun c op => c_exec op c) c ops.
End operations.

(** ** Lookup after an update *)
Lemma update_server_lookup url u f c :
  c_servers (update_server url f c) !! u
  = if decide (url = u) then f <$> (c_servers c !! u) else c_servers c !! u.
Proof.
  unfold update_server. destruct (c_servers c !! url) as [s|] eqn:E; simpl.
  - rewrite lookup_insert. case_decide; [subst; simplify_option_eq; done|done].
  - case_decide; [subst; simplify_option_eq; done|done].
Qed.

Lemma update_server_events url f c : c_circuitEvents (update_server url f c) = c_circuitEvents c.
Proof. unfold update_server. by destruct (c_servers c !! url). Qed.

#[export] Hint Rewrite update_server_lookup update_server_events : golib.

(** A method that leaves a field of the entry it updates alone leaves it alone everywhere. *)
Lemma update_server_field {A} (g : ServerStats -> A) url u f c :
  (forall s, g (f s) = g s) ->
  g <$> (c_servers (update_server url f c) !! u) = g <$> (c_servers c !! u).
Proof.
  intros Hf. rewrite update_server_lookup. case_decide; [|done].
  destruct (c_servers c !! u); simpl; [by rewrite Hf|done].
Qed.

Lemma SetCircuitState_lookup now url u st c :
  c_servers (SetCircuitState now url st c) !! u
  = if decide (url = u) then circuit_stats st <$> (c_servers c !! u) else c_servers c !! u.
Proof.
  unfold SetCircuitState. destruct (c_servers c !! url) as [s|] eqn:E.
  - destruct (negb _); simpl; rewrite lookup_insert; (case_decide; [subst; simplify_option_eq; done|done]).
  - case_decide; [subst; simplify_option_eq; done|done].
Qed.

(** Induction on the servers of an imported snapshot. *)
Lemma ImportMetrics_ind (P : Collector -> Prop) old c :
  P c -> (forall url o c', old !! url = Some o -> P c' -> P (update_server url (import_stats o) c')) ->
  P (ImportMetrics old c).
Proof.
  intros H0 Hstep. unfold ImportMetrics.
  assert (forall m, m ⊆ old -> P (map_fold (fun url o c => update_server url (import_stats o) c) c m)) as H.
  { intros m. apply (map_fold_weak_ind (fun c' m' => m' ⊆ old -> P c')); [done|].
    intros url o m' c' Hnone IH Hsub. apply Hstep.
    - eapply lookup_weaken; [apply lookup_insert_eq|exact Hsub].
    - apply IH. etrans; [by apply insert_subseteq|exact Hsub]. }
  by apply H.
Qed.

Section invariants.
Context `{!GoSort float64 f64_less}.

(** ** The store's invariant *)
Record stats_inv (url : string) (s : ServerStats) : Prop := {
  si_url : URL s = url;
  si_total : TotalRequests s = wrap64 (SuccessCount s + FailureCount s);
  si_window : (length (recentLatencies s) <= 100)%nat;
  si_weight : 1 <= Weight s;
}.

Definition collector_inv (c : Collector) : Prop :=
  map_Forall stats_inv (c_servers c) /\ (length (c_circuitEvents c) <= 50)%nat.

(** A snapshot whose counters add up, as the snapshots of a store in its invariant do. *)
Definition snapshot_ok (m : gmap string ServerStats) : Prop :=
  map_Forall (fun _ s => TotalRequests s = wrap64 (SuccessCount s + FailureCount s)) m.

Definition op_ok (op : CollectorOp) : Prop :=
  match op with
  | COpImportMetrics old => snapshot_ok old
  | _ => True
  end.

Lemma collector_inv_update url f c :
  (forall s, stats_inv url s -> stats_inv url (f s)) ->
  collector_inv c -> collector_inv (update_server url f c).
Proof.
  intros Hf [Hm He]. split; [|by rewrite update_server_events].
  intros u s. rewrite update_server_lookup. case_decide as Hu; [subst|by apply Hm].
  intros (s' & Hs' & ->)%fmap_Some. by apply Hf, Hm.
Qed.

Lemma push_latency_length l x : (length l <= 100)%nat -> (length (push_latency l x) <= 100)%nat.
Proof.
  unfold push_latency. rewrite length_app; simpl. intros.
  case_match eqn:E; rewrite ?length_drop, length_app; simpl; [lia|].
  apply Nat.ltb_ge in E. lia.
Qed.

Lemma push_event_length l e : (length (push_event 50 l e) <= 50)%nat.
Proof.
  unfold push_event. case_match eqn:E; [rewrite length_drop; lia|].
  apply Nat.ltb_ge in E. lia.
Qed.

Lemma stats_inv_end url lat ok s : stats_inv url s -> stats_inv url (end_stats lat ok s).
Proof.
  intros [Hu Ht Hw Hg]. split; simpl; [done| |by apply push_latency_length|done].
  rewrite Ht. destruct ok; rewrite ?wrap64_add_l, ?wrap64_add_r; f_equal; lia.
Qed.

Lemma collector_inv_exec op c : op_ok op -> collector_inv c -> collector_inv (c_exec op c).
Proof.
  intros Hop Hc. destruct op; simpl;
    try (apply collector_inv_update; [|done]; intros s []; split; simpl; (done || lia || (simpl; lia))).
  - destruct Hc. by split.
  - apply collector_inv_update; [|done]. intros s Hs. by apply stats_inv_end.
  - destruct Hc as [Hm He]. split.
    + intros u s. rewrite SetCircuitState_lookup. case_decide as Hu; [subst|by apply Hm].
      intros (s' & Hs' & ->)%fmap_Some. destruct (Hm _ _ Hs'). by split.
    + unfold SetCircuitState. destruct (c_servers c !! url); [|done].
      case_match; simpl; [apply push_event_length|done].
  - apply ImportMetrics_ind; [done|]. intros url o c' Ho Hc'.
    apply collector_inv_update; [|done]. intros s []. split; simpl; try done. by apply (Hop url).
  - done.
Qed.

Lemma collector_inv_run ops c : Forall op_ok ops -> collector_inv c -> collector_inv (c_run ops c).
Proof.
  intros Hops. revert c. induction Hops as [|op ops Hop _ IH]; intros c Hc; simpl; [done|].
  by apply IH, collector_inv_exec.
Qed.

Lemma New_loop_inv i servers names weights m :
  map_Forall stats_inv m -> map_Forall stats_inv (New_loop i servers names weights m).
Proof.
  revert i m. induction servers as [|url servers IH]; intros i m Hm; [done|]. simpl.
  apply IH. apply map_Forall_insert_2; [|done]. split; simpl; [done|by vm_compute|lia|].
  repeat case_match; z_bool; lia.
Qed.

Lemma collector_inv_New now servers names weights : collector_inv (New now servers names weights).
Proof. split; simpl; [|lia]. apply New_loop_inv, map_Forall_empty. Qed.

(** ** The latency window *)
Lemma push_latency_take l x :
  (length l <= 100)%nat -> push_latency l x = drop (length (l ++ [x]) - 100) (l ++ [x]).
Proof.
  unfold push_latency. intros Hl. case_match eqn:E; z_bool.
  - apply Nat.ltb_lt in E. f_equal. rewrite length_app in *; simpl in *. lia.
  - apply Nat.ltb_ge in E. by replace (length (l ++ [x]) - 100)%nat with 0%nat by lia.
Qed.

Lemma push_latency_window ls :
  foldl push_latency [] ls = drop (length ls - 100) ls.
Proof.
  induction ls as [|x ls IH] using rev_ind; [done|].
  rewrite foldl_app, IH. simpl. rewrite push_latency_take by (rewrite length_drop; lia).
  rewrite !length_app, length_drop. simpl.
  destruct (Nat.le_gt_cases (length ls) 99) as [H|H].
  - replace (length ls - 100)%nat with 0%nat by lia.
    rewrite drop_0. f_equal. lia.
  - rewrite <- (drop_app_le ls [x]) by lia. rewrite drop_drop. f_equal. lia.
Qed.

(** The index the code computes in floating point is the exact [ceil(0.95 n) - 1] for every window
    size: checked on all of them. *)
Lemma p95_index_exact n : 1 <= n <= 100 -> p95_index n = (95 * n + 99) / 100 - 1.
Proof.
  intros Hn.
  assert (forallb (fun k => p95_index (Z.of_nat k) =? (95 * Z.of_nat k + 99) / 100 - 1)
    (List.seq 1 100) = true) as H by (vm_compute; reflexivity).
  rewrite List.forallb_forall in H.
  specialize (H (Z.to_nat n)). rewrite Z2Nat.id in H by lia.
  apply Z.eqb_eq, H, List.in_seq. lia.
Qed.
End invariants.

(** ** The circuit event log *)

(** The state the log says [url] was in before the events [l]: the old state of its first event in
    [l], or its current state [cur]. *)
Fixpoint first_old (url : string) (l : list CircuitEvent) (cur : string) : string :=
  match l with
  | [] => cur
  | e :: l' => if decide (ev_ServerURL e = url) then ev_OldState e else first_old url l' cur
  end.

(** Every event of the log is a real change, and leads to the state in which its server's next event
    starts, or, for its last event, to the server's current state. *)
Definition log_ok (m : gmap string ServerStats) (l : list CircuitEvent) : Prop :=
  forall l1 e l2, l = l1 ++ e :: l2 ->
    ev_OldState e <> ev_NewState e /\
    exists s, m !! ev_ServerURL e = Some s /\
      ev_NewState e = first_old (ev_ServerURL e) l2 (CircuitState s).

Lemma first_old_app url l e cur :
  first_old url (l ++ [e]) cur = first_old url l (if decide (ev_ServerURL e = url) then ev_OldState e else cur).
Proof. induction l as [|e' l IH]; simpl; [done|]. by rewrite IH. Qed.

Lemma log_ok_suffix m n l : log_ok m l -> log_ok m (drop n l).
Proof.
  intros H l1 e l2 E. apply (H (take n l ++ l1) e l2).
  by rewrite <- app_assoc, <- E, take_drop.
Qed.

Lemma log_ok_states m m' l :
  (forall u, CircuitState <$> (m' !! u) = CircuitState <$> (m !! u)) -> log_ok m l -> log_ok m' l.
Proof.
  intros Hm H l1 e l2 E. destruct (H l1 e l2 E) as (Hne & s & Hs & Hnew). split; [done|].
  specialize (Hm (ev_ServerURL e)). rewrite Hs in Hm; simpl in Hm.
  apply fmap_Some in Hm as (s' & Hs' & Hc). exists s'. by rewrite <- Hc.
Qed.

Lemma log_ok_push m l url s st now :
  m !! url = Some s -> CircuitState s <> st -> log_ok m l ->
  log_ok (<[url := circuit_stats st s]> m)
    (l ++ [{| ev_ServerName := Name s; ev_ServerURL := url; ev_OldState := CircuitState s;
              ev_NewState := st; ev_Timestamp := format_hms now |}]).
Proof.
  intros Hs Hne H l1 e l2 E.
  destruct l2 as [|e2 l2 _] using rev_ind.
  - apply app_inj_tail in E as [_ <-]; simpl. split; [done|].
    eexists. rewrite lookup_insert_eq. by split.
  - rewrite app_comm_cons, app_assoc in E. apply app_inj_tail in E as [-> <-].
    destruct (H l1 e l2 eq_refl) as (Hd & s' & Hs' & Hnew). split; [done|].
    destruct (decide (url = ev_ServerURL e)) as [Hu|Hu].
    + subst. eexists. rewrite lookup_insert_eq. split; [done|].
      rewrite first_old_app; simpl. rewrite decide_True by done. by simplify_eq.
    + exists s'. rewrite lookup_insert_ne by done. split; [done|].
      rewrite first_old_app; simpl. by rewrite decide_False.
Qed.

Section event_log.
Context `{!GoSort float64 f64_less}.

Definition collector_log_ok (c : Collector) : Prop := log_ok (c_servers c) (c_circuitEvents c).

Lemma collector_log_update url f c :
  (forall s, CircuitState (f s) = CircuitState s) ->
  collector_log_ok c -> collector_log_ok (update_server url f c).
Proof.
  intros Hf. unfold collector_log_ok. rewrite update_server_events. apply log_ok_states.
  intros u. by apply update_server_field.
Qed.

Lemma collector_log_exec op c : collector_log_ok c -> collector_log_ok (c_exec op c).
Proof.
  intros Hc. destruct op; simpl; try (by apply collector_log_update); try done.
  - unfold collector_log_ok, SetCircuitState in *.
    destruct (c_servers c !! url) as [s|] eqn:Hs; [|done].
    destruct (bool_decide_reflect (CircuitState s = state)) as [<-|Hne]; simpl.
    + revert Hc. apply log_ok_states. intros u. rewrite lookup_insert.
      case_decide; [subst; by rewrite Hs|done].
    + unfold push_event. case_match; [apply log_ok_suffix|]; by apply log_ok_push.
  - by apply ImportMetrics_ind; [|intros; apply collector_log_update].
Qed.
End event_log.

(** ** Requests in flight

    [RecordStart] and [RecordEnd] of concurrent requests interleave with each other and with every
    other method; a request ends on the server it started on. *)
Section in_flight.
Context `{!GoSort float64 f64_less}.

Inductive flight_step : Collector * gmultiset string -> Collector * gmultiset string -> Prop :=
| flight_start c fl url :
    Z.of_nat (size fl) < maxInt64 ->
    flight_step (c, fl) (RecordStart url c, {[+ url +]} ⊎ fl)
| flight_end c fl url lat ok :
    url ∈ fl -> flight_step (c, fl) (RecordEnd url lat ok c, fl ∖ {[+ url +]})
| flight_other c fl op :
    (forall url, op <> COpRecordStart url) -> (forall url lat ok, op <> COpRecordEnd url lat ok) ->
    flight_step (c, fl) (c_exec op c, fl).

Definition flight_inv (st : Collector * gmultiset string) : Prop :=
  Z.of_nat (size st.2) <= maxInt64 /\
  forall url s, c_servers st.1 !! url = Some s ->
    ActiveConnections s = Z.of_nat (multiplicity url st.2).

Lemma New_loop_active i servers names weights m :
  map_Forall (fun _ s => ActiveConnections s = 0) m ->
  map_Forall (fun _ s => ActiveConnections s = 0) (New_loop i servers names weights m).
Proof.
  revert i m. induction servers as [|url servers IH]; intros i m Hm; [done|]. simpl.
  apply IH. by apply map_Forall_insert_2.
Qed.

Lemma multiplicity_size (url : string) (fl : gmultiset string) : (multiplicity url fl <= size fl)%nat.
Proof.
  induction fl as [|x fl IH] using gmultiset_ind; [rewrite multiplicity_empty; lia|].
  rewrite multiplicity_disj_union, gmultiset_size_disj_union, gmultiset_size_singleton.
  rewrite multiplicity_singleton. case_decide; lia.
Qed.

Lemma other_active op c url :
  (forall url, op <> COpRecordStart url) -> (forall url lat ok, op <> COpRecordEnd url lat ok) ->
  ActiveConnections <$> (c_servers (c_exec op c) !! url) = ActiveConnections <$> (c_servers c !! url).
Proof.
  intros H1 H2. destruct op; simpl; try (by apply update_server_field); try done.
  - by destruct (H1 url0).
  - by destruct (H2 url0 latencyMs success).
  - rewrite SetCircuitState_lookup. case_decide; [|done]. by destruct (c_servers c !! url).
  - apply ImportMetrics_ind; [done|]. intros u o c' _ <-. by apply update_server_field.
Qed.

Lemma flight_inv_step st st' : flight_step st st' -> flight_inv st -> flight_inv st'.
Proof.
  intros Hstep [Hsz Hinv]. destruct Hstep as [c fl url Hlt|c fl url lat ok Hin|c fl op H1 H2];
    simpl in *.
  - split; simpl; [rewrite gmultiset_size_disj_union, gmultiset_size_singleton; lia|].
    intros u s. unfold RecordStart. rewrite update_server_lookup, multiplicity_disj_union.
    rewrite multiplicity_singleton. case_decide as Hu.
    + subst. intros (s' & Hs' & ->)%fmap_Some. simpl. rewrite (Hinv _ _ Hs'), decide_True by done.
      pose proof (multiplicity_size u fl). rewrite wrap64_small; unfold_int; lia.
    + intros Hs. rewrite (Hinv _ _ Hs), decide_False by congruence. lia.
  - assert (1 <= multiplicity url fl)%nat as Hm by (by apply elem_of_multiplicity).
    split; simpl; [pose proof (gmultiset_size_difference fl {[+ url +]}
      ltac:(by apply gmultiset_singleton_subseteq_l)) as E; rewrite E, gmultiset_size_singleton; lia|].
    intros u s. unfold RecordEnd. rewrite update_server_lookup, multiplicity_difference.
    rewrite multiplicity_singleton. case_decide as Hu.
    + subst. intros (s' & Hs' & ->)%fmap_Some. simpl. rewrite (Hinv _ _ Hs'), decide_True by done.
      pose proof (multiplicity_size u fl). rewrite wrap64_small by (unfold_int; lia).
      case_match; z_bool; lia.
    + intros Hs. rewrite (Hinv _ _ Hs), decide_False by congruence. lia.
  - split; [done|]. intros u s Hs. pose proof (other_active op c u H1 H2) as E.
    simpl in *. rewrite Hs in E. simpl in E. symmetry in E. apply fmap_Some in E as (s' & Hs' & ->).
    by apply Hinv.
Qed.
End in_flight.

(** ** Sums over a Go map *)
Lemma sum_any_order (g : ServerStats -> Z) (m : gmap string ServerStats) (l : list (string * ServerStats)) :
  l ≡ₚ map_to_list m ->
  map_fold (fun _ s acc => wrap64 (acc + g s)) 0 m = wrap64 (foldr (fun kv acc => g kv.2 + acc) 0 l).
Proof.
  intros Hl. rewrite map_fold_foldr.
  assert (forall l', foldr (uncurry (fun (_ : string) s acc => wrap64 (acc + g s))) 0 l'
    = wrap64 (foldr (fun kv acc => g kv.2 + acc) 0 l')) as E.
  { induction l' as [|[k s] l' IH]; [done|]. simpl. rewrite IH, wrap64_add_l. f_equal. lia. }
  rewrite E. f_equal. symmetry. apply (foldr_permutation (=) _ _ _ _); [|done].
  intros. lia.
Qed.

Lemma count_healthy_any_order (m : gmap string ServerStats) (l : list (string * ServerStats)) :
  l ≡ₚ map_to_list m ->
  count_healthy m = wrap64 (Z.of_nat (length (filter (fun kv => IsHealthy kv.2 = true) l))).
Proof.
  intros Hl. unfold count_healthy. rewrite map_fold_foldr.
  assert (forall l', foldr (uncurry (fun (_ : string) s acc => if IsHealthy s then wrap64 (acc + 1) else acc)) 0 l'
    = wrap64 (Z.of_nat (length (filter (fun kv => IsHealthy kv.2 = true) l')))) as E.
  { induction l' as [|[k s] l' IH]; [done|]. cbn [foldr uncurry curry]. rewrite filter_cons; simpl.
    simpl in IH. rewrite IH. destruct (IsHealthy s); simpl.
    - rewrite wrap64_add_l. f_equal. lia.
    - done. }
  by rewrite E, Hl.
Qed.

Lemma ImportMetrics_lookup old c u :
  c_servers (ImportMetrics old c) !! u
  = match old !! u with
    | Some o => import_stats o <$> (c_servers c !! u)
    | None => c_servers c !! u
    end.
Proof.
  unfold ImportMetrics.
  apply (map_fold_weak_ind (fun c' m => c_servers c' !! u = match m !! u with
    | Some o => import_stats o <$> (c_servers c !! u) | None => c_servers c !! u end)); [done|].
  intros url o m c' Hnone IH. rewrite update_server_lookup, lookup_insert.
  case_decide; [|done]. subst. by rewrite IH, Hnone.
Qed.

(** ** Properties *)
Section properties.
Context `{!GoSort float64 f64_less}.

#[local] Instance f64_less_swo : StrictWeakOrder f64_less.
Proof. split; [apply f64_less_asym|apply f64_less_neg_trans]. Qed.

(** The samples of a window end up split by the element the code picks. *)
Lemma computeP95_rank l :
  (1 <= length l <= 100)%nat ->
  computeP95 l ∈ l /\
  (20 * length (filter (fun y => f64_less (computeP95 l) y = true) l) <= length l)%nat /\
  (20 * length (filter (fun y => f64_less y (computeP95 l) = true) l) < 19 * length l)%nat.
Proof.
  intros Hl. unfold computeP95. case_match eqn:E; [apply Nat.eqb_eq in E; lia|].
  pose proof (p95_index_exact (Z.of_nat (length l)) ltac:(lia)) as Hi.
  assert (0 <= (95 * Z.of_nat (length l) + 99) / 100 - 1) as Hpos
    by (pose proof (Z.div_le_lower_bound (95 * Z.of_nat (length l) + 99) 100 1); lia).
  remember (Z.to_nat (p95_index (Z.of_nat (length l)))) as i eqn:Ei. rewrite Hi in Ei.
  assert (100 * (Z.of_nat i + 1) <= 95 * Z.of_nat (length l) + 99 < 100 * (Z.of_nat i + 2)) as Hi'.
  { pose proof (Z.div_mod (95 * Z.of_nat (length l) + 99) 100).
    pose proof (Z.mod_pos_bound (95 * Z.of_nat (length l) + 99) 100). lia. }
  destruct (lookup_lt_is_Some_2 (go_sort f64_less l) i) as [x Hx]; [rewrite go_sort_length; lia|].
  rewrite Hx; simpl. destruct (go_sort_rank f64_less l i x Hx) as [H1 H2].
  split; [|lia].
  rewrite <- (go_sort_perm (less := f64_less) l). by eapply list_elem_of_lookup_2.
Qed.

(** C19. The store keeps its invariant: from its creation, whatever methods are called, every entry is
    the one of its URL, counts as many requests as successes and failures together (modulo the
    int64 wrap), keeps at most 100 latency samples and a positive weight, and the event log keeps at
    most 50 events. *)
Theorem collector_invariant now servers names weights ops :
  Forall op_ok ops -> collector_inv (c_run ops (New now servers names weights)).
Proof. intros Hops. apply collector_inv_run; [done|]. apply collector_inv_New. Qed.

(** C20. The percentile is a percentile: after any sequence of finished requests on a server, the
    window holds exactly the last 100 latencies, and the P95 shown for it is one of these samples,
    with at most 5% of them above it and fewer than 95% below it. *)
Theorem latency_window_p95 (s : ServerStats) (rs : list (float64 * bool)) :
  recentLatencies s = [] -> rs <> [] ->
  let s' := foldl (fun s r => end_stats r.1 r.2 s) s rs in
  let w := drop (length rs - 100) rs.*1 in
  recentLatencies s' = w /\ P95LatencyMs s' ∈ w /\
  (20 * length (filter (fun y => f64_less (P95LatencyMs s') y = true) w) <= length w)%nat /\
  (20 * length (filter (fun y => f64_less y (P95LatencyMs s') = true) w) < 19 * length w)%nat.
Proof.
  intros Hs Hrs s' w.
  assert (recentLatencies s' = foldl push_latency (recentLatencies s) rs.*1) as Hw.
  { subst s'. clear. revert s. induction rs as [|r rs IH]; intros s; [done|]. simpl. by rewrite IH. }
  rewrite Hs, push_latency_window, length_fmap in Hw. fold w in Hw.
  assert (P95LatencyMs s' = computeP95 (recentLatencies s')) as Hp.
  { subst s'. destruct rs as [|r rs _] using rev_ind; [done|]. by rewrite foldl_app. }
  rewrite Hp, Hw. split; [done|]. apply computeP95_rank.
  subst w. rewrite length_drop, length_fmap. destruct rs; [done|simpl]. lia.
Qed.

(** *** The history of the circuit states *)
(** Name and state of every server. *)
Definition circuit_states (c : Collector) : gmap string (string * string) :=
  (fun s => (Name s, CircuitState s)) <$> c_servers c.

(** The changes that a sequence of calls makes, all of them, and the states it leads to: only a call of
    SetCircuitState for a known server with another state is one. *)
Fixpoint changes (ops : list CollectorOp) (known : gmap string (string * string))
    : list CircuitEvent * gmap string (string * string) :=
  match ops with
  | [] => ([], known)
  | COpSetCircuitState now url st :: ops =>
      match known !! url with
      | Some (name, old) =>
          let '(evs, known) := changes ops (<[url := (name, st)]> known) in
          if String.eqb old st then (evs, known)
          else ({| ev_ServerName := name; ev_ServerURL := url; ev_OldState := old; ev_NewState := st;
                   ev_Timestamp := format_hms now |} :: evs, known)
      | None => changes ops known
      end
  | _ :: ops => changes ops known
  end.

Lemma circuit_states_update url f c :
  (forall s, Name (f s) = Name s) -> (forall s, CircuitState (f s) = CircuitState s) ->
  circuit_states (update_server url f c) = circuit_states c.
Proof.
  intros Hn Hs. apply map_eq. intros u. unfold circuit_states. rewrite !lookup_fmap.
  apply (update_server_field (fun s => (Name s, CircuitState s))). intros s. by rewrite Hn, Hs.
Qed.

(** The other methods change neither. *)
Lemma other_states op c :
  (forall now url st, op <> COpSetCircuitState now url st) ->
  circuit_states (c_exec op c) = circuit_states c /\ c_circuitEvents (c_exec op c) = c_circuitEvents c.
Proof.
  intros H. destruct op; simpl; try (split; [by apply circuit_states_update|by apply update_server_events]); try done.
  - by destruct (H now url state).
  - apply ImportMetrics_ind; [done|]. intros u o c' _ [<- <-].
    split; [by apply circuit_states_update|apply update_server_events].
Qed.

Lemma set_states now url st c :
  match circuit_states c !! url with
  | Some (name, old) =>
      circuit_states (SetCircuitState now url st c) = <[url := (name, st)]> (circuit_states c) /\
      c_circuitEvents (SetCircuitState now url st c) =
        if String.eqb old st then c_circuitEvents c
        else push_event 50 (c_circuitEvents c) {| ev_ServerName := name; ev_ServerURL := url; ev_OldState := old;
               ev_NewState := st; ev_Timestamp := format_hms now |}
  | None => SetCircuitState now url st c = c
  end.
Proof.
  unfold circuit_states, SetCircuitState. rewrite lookup_fmap.
  destruct (c_servers c !! url) as [s|] eqn:E; [|done]. cbn [fmap option_fmap option_map].
  destruct (String.eqb_spec (CircuitState s) st) as [Es|Es].
  - rewrite bool_decide_eq_true_2 by done. simpl. by rewrite fmap_insert.
  - rewrite bool_decide_eq_false_2 by done. simpl. by rewrite fmap_insert.
Qed.

Lemma push_event_last_n n l e : push_event n (last_n n l) e = last_n n (l ++ [e]).
Proof.
  destruct (decide (n = O)) as [->|Hn].
  - unfold last_n. rewrite !Nat.sub_0_r, drop_all, drop_all. done.
  - rewrite <- last_n_push by lia. unfold push_event. set (l' := last_n n l ++ [e]).
    destruct (n <? length l')%nat eqn:E; [done|]. apply Nat.ltb_ge in E. unfold last_n.
    by replace (length l' - n)%nat with O by lia.
Qed.

Lemma run_history ops c before :
  c_circuitEvents c = last_n 50 before ->
  let '(evs, states) := changes ops (circuit_states c) in
  c_circuitEvents (c_run ops c) = last_n 50 (before ++ evs) /\ circuit_states (c_run ops c) = states.
Proof.
  revert c before. induction ops as [|op ops IH]; intros c before Hc.
  { cbn [changes c_run foldl]. by rewrite app_nil_r. }
  assert ((forall now url st, op <> COpSetCircuitState now url st) ->
    let '(evs, states) := changes ops (circuit_states c) in
    c_circuitEvents (c_run (op :: ops) c) = last_n 50 (before ++ evs) /\ circuit_states (c_run (op :: ops) c) = states) as Hother.
  { intros H. destruct (other_states op c H) as [Hs He]. rewrite <- Hs. apply IH. by rewrite He. }
  destruct op; try (apply Hother; discriminate). clear Hother. cbn [changes c_run foldl c_exec].
  pose proof (set_states now url state c) as H.
  destruct (circuit_states c !! url) as [[name old]|].
  - destruct H as [Hs He]. rewrite <- Hs. destruct (String.eqb old state).
    + specialize (IH (SetCircuitState now url state c) before).
      destruct (changes ops _) as [evs states]. apply IH. by rewrite He.
    + set (e := {| ev_ServerName := name; ev_ServerURL := url; ev_OldState := old; ev_NewState := state;
                   ev_Timestamp := format_hms now |}) in *.
      specialize (IH (SetCircuitState now url state c) (before ++ [e])).
      destruct (changes ops _) as [evs states]. destruct IH as [H1 H2]; [by rewrite He, Hc, push_event_last_n|].
      split; [|done]. unfold c_run in H1. by rewrite H1, <- app_assoc.
  - rewrite H. by apply IH.
Qed.

(** C21. The circuit event log is a faithful history.  Whatever methods are called, in whatever order, it holds the
    last fifty of the changes of state there were, in their order: each call that gave a known server
    another state than it had, with both states, the server's name and the time, and no other; and the
    servers' states are those the changes lead to. *)
Theorem circuit_log_faithful now servers names weights ops :
  let c := New now servers names weights in
  let '(history, states) := changes ops (circuit_states c) in
  c_circuitEvents (c_run ops c) = last_n 50 history /\ circuit_states (c_run ops c) = states.
Proof. apply (run_history ops (New now servers names weights) []). done. Qed.

(** Every logged event leads to the state in which its server's next logged event starts, or, if it is the
    last one, to the state the server is in. *)
Theorem circuit_log_chained now servers names weights ops :
  collector_log_ok (c_run ops (New now servers names weights)).
Proof.
  assert (collector_log_ok (New now servers names weights)) as H0.
  { intros l1 e l2 E. by destruct l1. }
  revert H0. generalize (New now servers names weights).
  induction ops as [|op ops IH]; intros c Hc; simpl; [done|]. by apply IH, collector_log_exec.
Qed.

(** C18. The active-connection gauge is exact under every interleaving: as long as requests end on
    the server they started on, a server's gauge is the number of its requests in flight, whatever
    other methods run in between, hot-reload imports included. *)
Theorem active_connections_exact now servers names weights st :
  rtc flight_step (New now servers names weights, ∅) st ->
  forall url s, c_servers st.1 !! url = Some s ->
    ActiveConnections s = Z.of_nat (multiplicity url st.2).
Proof.
  intros Hst. cut (flight_inv st); [by intros []|]. revert Hst. apply (rtc_ind_r flight_inv).
  - split; [by vm_compute|]. simpl.
    intros url s Hs. rewrite multiplicity_empty.
    apply (New_loop_active 0 servers names weights ∅ (map_Forall_empty _) url s Hs).
  - intros y z _ Hyz Hy. by eapply flight_inv_step.
Qed.

(** The dashboard totals do not depend on the order in which the map of servers is traversed:
    for every enumeration of the servers they are the (int64) sums over it. *)
Theorem dashboard_totals_any_order now (c : Collector) (l : list (string * ServerStats)) :
  l ≡ₚ map_to_list (c_servers c) ->
  let ds := (DashboardSnap now c).2 in
  ds_TotalRequests ds = wrap64 (foldr (fun kv acc => TotalRequests kv.2 + acc) 0 l) /\
  ds_SuccessRate ds = success_rate (wrap64 (foldr (fun kv acc => SuccessCount kv.2 + acc) 0 l))
                                   (ds_TotalRequests ds) /\
  ds_HealthyCount ds = wrap64 (Z.of_nat (length (filter (fun kv => IsHealthy kv.2 = true) l))) /\
  ds_TotalCount ds = Z.of_nat (length l).
Proof.
  intros Hl. simpl. unfold sum_totals, sum_successes.
  rewrite (sum_any_order TotalRequests _ l), (sum_any_order SuccessCount _ l),
    (count_healthy_any_order _ l) by done.
  repeat split. by rewrite Hl, length_map_to_list.
Qed.
End properties.

(** ** Witnesses *)
#[export] Instance f64_GoSort : GoSort float64 f64_less := insertion_GoSort f64_less f64_less_asym.

Definition w_ops : list CollectorOp :=
  [COpRecordStart "a"; COpSetCircuitState (5 * Second) "a" "OPEN";
   COpRecordEnd "a" (f64_of_Z 12) true; COpSetCircuitState (6 * Second) "a" "CLOSED"]%string.

Lemma collector_invariant_witness :
  collector_inv (c_run w_ops (New 0 ["a"; "b"]%string ["A"]%string [3; 0])).
Proof. apply collector_invariant. repeat constructor. Defined.

Lemma latency_window_p95_witness :
  P95LatencyMs (foldl (fun s r => end_stats r.1 r.2 s) (New_stats 0 "a" [] [])
    [(f64_of_Z 7, true); (f64_of_Z 3, false)]) ∈ [f64_of_Z 7; f64_of_Z 3].
Proof.
  apply (latency_window_p95 (New_stats 0 "a" [] []) [(f64_of_Z 7, true); (f64_of_Z 3, false)]); done.
Defined.

Definition w_new : Collector := New 0 ["a"]%string [] [].
Definition w_flight : Collector * gmultiset string :=
  (RecordStart "a" (RecordStart "a" w_new), {[+ "a"%string +]} ⊎ ({[+ "a"%string +]} ⊎ ∅)).

Lemma w_flight_reachable : rtc flight_step (w_new, ∅) w_flight.
Proof.
  eapply rtc_l; [refine (flight_start w_new ∅ "a" _); by vm_compute|].
  eapply rtc_l; [refine (flight_start (RecordStart "a" w_new) _ "a" _); by vm_compute|].
  apply rtc_refl.
Qed.

Lemma active_connections_exact_witness :
  exists s, c_servers w_flight.1 !! "a"%string = Some s /\
    ActiveConnections s = Z.of_nat (multiplicity "a"%string w_flight.2).
Proof.
  eexists. split; [vm_compute; reflexivity|].
  apply (active_connections_exact 0 ["a"]%string [] [] w_flight w_flight_reachable).
  vm_compute. reflexivity.
Defined.

Lemma dashboard_totals_any_order_witness :
  ds_HealthyCount (DashboardSnap 7 (New 0 ["a"; "b"]%string [] [])).2 = 2.
Proof.
  destruct (dashboard_totals_any_order 7 (New 0 ["a"; "b"]%string [] [])
    (map_to_list (c_servers (New 0 ["a"; "b"]%string [] [])))) as (_ & _ & H & _); [done|].
  etransitivity; [exact H|]. vm_compute. reflexivity.
Defined.
