(* ===== verification/Balancer.v ===== *)
(** * internal/balancer: the algorithm interface and its stateless-set implementations

    weighted.go (the [Algorithm] interface and [WeightedScore]), roundrobin.go and leastconn.go.
    [Algorithm] is the interface, [AlgorithmSound] and [AlgorithmLive] what an implementation
    promises to the router: a result is one of the candidates, and there is one. *)
From S2P Require Import Prelude GoFloat GoSort Collector.
Open Scope Z_scope.

(** ** The interface *)
Class Algorithm (A : Type) : Type :=
  algo_Select : A -> list string -> gmap string ServerStats -> string -> A * string.

(** Whatever the statistics, an answer is the empty string or a candidate. *)
Class AlgorithmSound (A : Type) `{!Algorithm A} : Prop :=
  algo_sound : forall (a : A) candidates stats priority,
    (algo_Select a candidates stats priority).2 = ""%string \/
    (algo_Select a candidates stats priority).2 ∈ candidates.

(** In the states and for the candidates described by [ok], the answer is a candidate. *)
Class AlgorithmLive (A : Type) `{!Algorithm A} (ok : A -> list string -> gmap string ServerStats -> Prop) : Prop :=
  algo_live : forall (a : A) candidates stats priority,
    candidates <> [] -> ok a candidates stats ->
    (algo_Select a candidates stats priority).2 ∈ candidates.

(** ** Round robin *)
Record RoundRobin : Type := mkRoundRobin { rr_counter : Z }.

Definition RoundRobin_Select (rr : RoundRobin) (candidates : list string)
    (stats : gmap string ServerStats) (priority : string) : RoundRobin * string :=
  match candidates with
  | [] => (rr, "")
  | c0 :: _ =>
      let counter := uwrap64 (rr_counter rr + 1) in
      let idx := uwrap64 (counter - 1) in
      (mkRoundRobin counter,
       nth (Z.to_nat (idx mod Z.of_nat (length candidates))) candidates c0)
  end%string.

#[export] Instance RoundRobin_Algorithm : Algorithm RoundRobin := RoundRobin_Select.

(** ** Least connections *)
Record LeastConnections : Type := mkLeastConnections {}.

Fixpoint lc_loop (stats : gmap string ServerStats) (candidates : list string)
    (best : string) (bestConn : Z) : string :=
  match candidates with
  | [] => best
  | url :: rest =>
      match stats !! url with
      | None => lc_loop stats rest best bestConn
      | Some s =>
          if ActiveConnections s <? bestConn
          then lc_loop stats rest url (ActiveConnections s)
          else lc_loop stats rest best bestConn
      end
  end.

Definition LeastConnections_Select (lc : LeastConnections) (candidates : list string)
    (stats : gmap string ServerStats) (priority : string) : LeastConnections * string :=
  match candidates with
  | [] => (lc, "")
  | c0 :: _ => (lc, lc_loop stats candidates c0 (Z.shiftl 1 62))
  end%string.

#[export] Instance LeastConnections_Algorithm : Algorithm LeastConnections := LeastConnections_Select.

(** ** Weighted score

    [rand.Float64] is a generator of the standard library's math/rand: a state and a draw. *)
Class Rand (R : Type) : Type := rand_Float64 : R -> float64 * R.

Section weighted.
Context {R : Type} `{!Rand R}.

Record WeightedScore : Type := mkWeightedScore { ws_rng : R }.

Definition ws_weights (priority : string) : float64 * float64 :=
  if bool_decide (priority = "HIGH"%string)
  then (f64_lit 8 10, f64_lit 2 10) else (f64_lit 6 10, f64_lit 4 10).

Definition ws_score (w : float64 * float64) (s : ServerStats) (draw : float64) : float64 :=
  let '(latencyWeight, loadWeight) := w in
  let baseScore :=
    f64_add (f64_div latencyWeight (f64_add f64_one (AvgLatencyMs s)))
            (f64_div loadWeight (f64_add f64_one (f64_of_Z (ActiveConnections s)))) in
  let weightMultiplier := f64_of_Z (Weight s) in
  let weightMultiplier := if f64_le weightMultiplier f64_zero then f64_one else weightMultiplier in
  let jitter := f64_mul draw (f64_lit 1 1000) in
  f64_add (f64_mul baseScore weightMultiplier) jitter.

Fixpoint ws_loop (w : float64 * float64) (stats : gmap string ServerStats) (candidates : list string)
    (rng : R) (bestScore : float64) (bestServer : string) : R * string :=
  match candidates with
  | [] => (rng, bestServer)
  | url :: rest =>
      match stats !! url with
      | None => ws_loop w stats rest rng bestScore bestServer
      | Some s =>
          let '(draw, rng) := rand_Float64 rng in
          let score := ws_score w s draw in
          if f64_lt bestScore score
          then ws_loop w stats rest rng score url
          else ws_loop w stats rest rng bestScore bestServer
      end
  end.

Definition WeightedScore_Select (ws : WeightedScore) (candidates : list string)
    (stats : gmap string ServerStats) (priority : string) : WeightedScore * string :=
  match candidates with
  | [] => (ws, ""%string)
  | c0 :: _ =>
      let '(rng, best) :=
        ws_loop (ws_weights priority) stats candidates (ws_rng ws) (f64_of_Z (-1)) c0 in
      (mkWeightedScore rng, best)
  end.

#[export] Instance WeightedScore_Algorithm : Algorithm WeightedScore := WeightedScore_Select.

(** The scores the loop computes, each with its own draw, in order. *)
Fixpoint ws_scores (w : float64 * float64) (stats : gmap string ServerStats) (candidates : list string)
    (rng : R) : list (string * float64) :=
  match candidates with
  | [] => []
  | url :: rest =>
      match stats !! url with
      | None => ws_scores w stats rest rng
      | Some s =>
          let '(draw, rng) := rand_Float64 rng in
          (url, ws_score w s draw) :: ws_scores w stats rest rng
      end
  end.
End weighted.
Arguments WeightedScore : clear implicits.

(** ** The loops are instances of [pick_best] *)
Definition lc_conns (stats : gmap string ServerStats) (candidates : list string) : list (string * Z) :=
  omap (fun url => (fun s => (url, ActiveConnections s)) <$> stats !! url) candidates.

Lemma lc_loop_pick stats candidates best bestConn :
  lc_loop stats candidates best bestConn = (pick_best Z.ltb best bestConn (lc_conns stats candidates)).1.
Proof.
  revert best bestConn. induction candidates as [|url rest IH]; intros best bestConn; [done|].
  simpl. unfold lc_conns in *; simpl. destruct (stats !! url) as [s|]; simpl; [|apply IH].
  by destruct (ActiveConnections s <? bestConn).
Qed.

Lemma ws_loop_pick {R} `{!Rand R} w stats candidates (rng : R) bestScore bestServer :
  (ws_loop w stats candidates rng bestScore bestServer).2
  = (pick_best (fun v b => f64_lt b v) bestServer bestScore (ws_scores w stats candidates rng)).1.
Proof.
  revert rng bestScore bestServer. induction candidates as [|url rest IH]; intros; [done|].
  simpl. destruct (stats !! url) as [s|]; simpl; [|apply IH].
  destruct (rand_Float64 rng) as [draw rng']; simpl.
  by destruct (f64_lt bestScore (ws_score w s draw)).
Qed.

Lemma ws_scores_elem {R} `{!Rand R} w stats candidates (rng : R) url v :
  (url, v) ∈ ws_scores w stats candidates rng -> url ∈ candidates /\ is_Some (stats !! url).
Proof.
  revert rng. induction candidates as [|u rest IH]; intros rng; simpl; [by intros ?%not_elem_of_nil|].
  destruct (stats !! u) as [s|] eqn:E.
  - destruct (rand_Float64 rng) as [draw rng']. intros [[= -> _] | Hin]%elem_of_cons.
    + split; [apply list_elem_of_here|by eexists].
    + destruct (IH _ Hin). split; [by apply list_elem_of_further|done].
  - intros Hin. destruct (IH _ Hin). split; [by apply list_elem_of_further|done].
Qed.

Lemma lc_conns_elem stats candidates url n :
  (url, n) ∈ lc_conns stats candidates <->
  url ∈ candidates /\ exists s, stats !! url = Some s /\ ActiveConnections s = n.
Proof.
  unfold lc_conns. rewrite list_elem_of_omap. split.
  - intros (u & Hu & (s & Hs & [= -> ->])%fmap_Some). eauto.
  - intros (Hu & s & Hs & <-). exists url. by rewrite Hs.
Qed.

(** ** The implementations keep the promises of the interface *)
Lemma nth_elem {A} (l : list A) (i : nat) (d : A) : (i < length l)%nat -> nth i l d ∈ l.
Proof. intros. apply list_elem_of_In. by apply nth_In. Qed.

Lemma RoundRobin_elem rr c0 rest stats p :
  (RoundRobin_Select rr (c0 :: rest) stats p).2 ∈ c0 :: rest.
Proof.
  unfold RoundRobin_Select; cbn [snd]. apply nth_elem.
  pose proof (Z.mod_pos_bound (uwrap64 (uwrap64 (rr_counter rr + 1) - 1))
    (Z.of_nat (length (c0 :: rest))) ltac:(simpl; lia)). lia.
Qed.

#[export] Instance RoundRobin_Sound : AlgorithmSound RoundRobin.
Proof. intros a [|c0 rest] stats p; [by left|right]. apply RoundRobin_elem. Qed.

#[export] Instance RoundRobin_Live : AlgorithmLive RoundRobin (fun _ _ _ => True).
Proof. intros a [|c0 rest] stats p Hne _; [done|]. apply RoundRobin_elem. Qed.

Lemma LeastConnections_elem lc c0 rest stats p :
  (LeastConnections_Select lc (c0 :: rest) stats p).2 ∈ c0 :: rest.
Proof.
  unfold LeastConnections_Select; cbn [snd]. rewrite lc_loop_pick.
  set (l := lc_conns stats (c0 :: rest)).
  destruct (pick_best_elem Z.ltb c0 (Z.shiftl 1 62) l) as [-> | H]; [apply list_elem_of_here|].
  destruct (pick_best _ _ _ l) as [u n]. by apply lc_conns_elem in H as [? _].
Qed.

#[export] Instance LeastConnections_Sound : AlgorithmSound LeastConnections.
Proof. intros a [|c0 rest] stats p; [by left|right]. apply LeastConnections_elem. Qed.

#[export] Instance LeastConnections_Live : AlgorithmLive LeastConnections (fun _ _ _ => True).
Proof. intros a [|c0 rest] stats p Hne _; [done|]. apply LeastConnections_elem. Qed.

Section weighted_instances.
Context {R : Type} `{!Rand R}.

Lemma WeightedScore_elem (ws : WeightedScore R) c0 rest stats p :
  (WeightedScore_Select ws (c0 :: rest) stats p).2 ∈ c0 :: rest.
Proof.
  unfold WeightedScore_Select.
  pose proof (ws_loop_pick (ws_weights p) stats (c0 :: rest) (ws_rng ws) (f64_of_Z (-1)) c0) as E.
  destruct (ws_loop _ _ _ _ _ _) as [rng best]; cbn [snd] in *. rewrite E.
  set (l := ws_scores _ _ _ _).
  destruct (pick_best_elem (fun v b => f64_lt b v) c0 (f64_of_Z (-1)) l) as [-> | H];
    [apply list_elem_of_here|].
  destruct (pick_best _ _ _ l) as [u v]. by apply ws_scores_elem in H as [? _].
Qed.

#[export] Instance WeightedScore_Sound : AlgorithmSound (WeightedScore R).
Proof. intros a [|c0 rest] stats p; [by left|right]. apply WeightedScore_elem. Qed.

#[export] Instance WeightedScore_Live : AlgorithmLive (WeightedScore R) (fun _ _ _ => True).
Proof. intros a [|c0 rest] stats p Hne _; [done|]. apply WeightedScore_elem. Qed.
End weighted_instances.

(** ** Round-robin rotation *)
Fixpoint rr_run (n : nat) (rr : RoundRobin) (candidates : list string)
    (stats : gmap string ServerStats) (priority : string) : RoundRobin * list string :=
  match n with
  | O => (rr, [])
  | S n' =>
      let '(rr, u) := RoundRobin_Select rr candidates stats priority in
      let '(rr, us) := rr_run n' rr candidates stats priority in (rr, u :: us)
  end.

(** Below the wrap of the counter, the [j]-th answer is the candidate at [counter + j] modulo their number. *)
Lemma rr_run_spec n c candidates stats p d :
  candidates <> [] -> 0 <= c -> c + Z.of_nat n < two64 ->
  rr_run n (mkRoundRobin c) candidates stats p
  = (mkRoundRobin (c + Z.of_nat n),
     (fun j => nth (Z.to_nat ((c + Z.of_nat j) mod Z.of_nat (length candidates))) candidates d) <$> seq 0 n).
Proof.
  intros Hne. revert c. induction n as [|n IH]; intros c Hc Hlt.
  - simpl. by rewrite Z.add_0_r.
  - cbn [rr_run]. unfold RoundRobin_Select; cbn [rr_counter]. destruct candidates as [|c0 rest]; [done|].
    assert (uwrap64 (c + 1) = c + 1) as -> by (unfold uwrap64; apply Z.mod_small; lia).
    replace (c + 1 - 1) with c by lia.
    assert (uwrap64 c = c) as -> by (unfold uwrap64; apply Z.mod_small; unfold two64 in *; lia).
    rewrite IH by lia. rewrite <- cons_seq, <- fmap_S_seq. cbn [fmap list_fmap]. f_equal; [f_equal; lia|].
    rewrite Z.add_0_r. f_equal.
    + apply nth_indep. pose proof (Z.mod_pos_bound c (Z.of_nat (length (c0 :: rest))) ltac:(simpl; lia)). lia.
    + rewrite <- list_fmap_compose. apply list_fmap_ext. intros i j _. cbn [compose]. do 3 f_equal. lia.
Qed.

(** One turn is a permutation of the positions. *)
Lemma rotation_perm (c : Z) (n : nat) :
  0 <= c -> (fun j => Z.to_nat ((c + Z.of_nat j) mod Z.of_nat n)) <$> seq 0 n ≡ₚ seq 0 n.
Proof.
  intros Hc. apply submseteq_length_Permutation; [|by rewrite length_fmap].
  apply NoDup_submseteq.
  - apply NoDup_fmap_2_strong; [|apply NoDup_seq].
    intros i j Hi%elem_of_seq Hj%elem_of_seq E.
    assert ((c + Z.of_nat i) mod Z.of_nat n = (c + Z.of_nat j) mod Z.of_nat n) as E'.
    { pose proof (Z.mod_pos_bound (c + Z.of_nat i) (Z.of_nat n)).
      pose proof (Z.mod_pos_bound (c + Z.of_nat j) (Z.of_nat n)). lia. }
    pose proof (Z.div_mod (c + Z.of_nat i) (Z.of_nat n) ltac:(lia)).
    pose proof (Z.div_mod (c + Z.of_nat j) (Z.of_nat n) ltac:(lia)).
    assert (Z.of_nat i - Z.of_nat j
      = Z.of_nat n * ((c + Z.of_nat i) / Z.of_nat n - (c + Z.of_nat j) / Z.of_nat n)) by lia.
    assert ((c + Z.of_nat i) / Z.of_nat n - (c + Z.of_nat j) / Z.of_nat n = 0) by nia. lia.
  - intros x (j & -> & Hj%elem_of_seq)%list_elem_of_fmap.
    apply elem_of_seq. pose proof (Z.mod_pos_bound (c + Z.of_nat j) (Z.of_nat n)). lia.
Qed.

Lemma nth_seq_self {A} (l : list A) (d : A) : (fun i => nth i l d) <$> seq 0 (length l) = l.
Proof.
  induction l as [|x l IH]; [done|]. simpl. f_equal.
  rewrite <- fmap_S_seq, <- list_fmap_compose. exact IH.
Qed.

Lemma rr_turn c candidates stats p :
  0 <= c -> c + Z.of_nat (length candidates) < two64 ->
  exists us, rr_run (length candidates) (mkRoundRobin c) candidates stats p
    = (mkRoundRobin (c + Z.of_nat (length candidates)), us) /\ us ≡ₚ candidates.
Proof.
  intros Hc Hlt. destruct candidates as [|c0 rest] eqn:E.
  - exists []. simpl. by rewrite Z.add_0_r.
  - rewrite <- E in *. eexists. split; [apply (rr_run_spec _ _ _ _ _ c0); [by subst|done|done]|].
    transitivity ((fun i => nth i candidates c0) <$>
      ((fun j => Z.to_nat ((c + Z.of_nat j) mod Z.of_nat (length candidates))) <$> seq 0 (length candidates)));
      [by rewrite <- list_fmap_compose|].
    by rewrite rotation_perm, nth_seq_self.
Qed.

Lemma rr_run_app m n rr candidates stats p :
  rr_run (m + n) rr candidates stats p
  = let '(rr1, us1) := rr_run m rr candidates stats p in
    let '(rr2, us2) := rr_run n rr1 candidates stats p in (rr2, us1 ++ us2).
Proof.
  revert rr. induction m as [|m IH]; intros rr; [simpl; by destruct (rr_run n _ _ _ _)|].
  cbn [Nat.add rr_run]. destruct (RoundRobin_Select rr candidates stats p) as [rr' u].
  rewrite IH. destruct (rr_run m rr' _ _ _) as [rr1 us1]. by destruct (rr_run n rr1 _ _ _).
Qed.

(** ** Properties *)

(** C25. Round robin is fair: over any whole number of turns with the same candidates, below the wrap
    of the 64-bit counter, every candidate is chosen exactly once per turn. *)
Theorem round_robin_fair (k : nat) (c : Z) candidates stats priority :
  0 <= c -> c + Z.of_nat (k * length candidates) < two64 ->
  (rr_run (k * length candidates) (mkRoundRobin c) candidates stats priority).2
  ≡ₚ concat (replicate k candidates).
Proof.
  revert c. induction k as [|k IH]; intros c Hc Hlt; [done|].
  cbn [Nat.mul replicate concat]. rewrite rr_run_app.
  destruct (rr_turn c candidates stats priority) as (us & -> & Hus); [done|lia|].
  specialize (IH (c + Z.of_nat (length candidates)) ltac:(lia) ltac:(lia)).
  destruct (rr_run (k * length candidates) _ _ _ _) as [rr2 us2]. simpl in *. by rewrite Hus, IH.
Qed.

Lemma round_robin_fair_witness :
  (rr_run (2 * length ["a"; "b"; "c"]%string) (mkRoundRobin 7) ["a"; "b"; "c"]%string ∅ "LOW").2
  ≡ₚ ["a"; "b"; "c"; "a"; "b"; "c"]%string.
Proof. apply (round_robin_fair 2 7); by vm_compute. Defined.

(** Least connections chooses a least-loaded server: if some candidate with statistics has fewer
    than 2^62 active connections, the answer is a candidate whose gauge is minimal among all
    candidates with statistics. *)
Theorem least_connections_minimal lc candidates stats priority u0 s0 :
  u0 ∈ candidates -> stats !! u0 = Some s0 -> ActiveConnections s0 < 2 ^ 62 ->
  let best := (LeastConnections_Select lc candidates stats priority).2 in
  best ∈ candidates /\
  exists s, stats !! best = Some s /\
    forall u s', u ∈ candidates -> stats !! u = Some s' -> ActiveConnections s <= ActiveConnections s'.
Proof.
  intros Hu Hs Hlt. destruct candidates as [|c0 rest]; [by apply not_elem_of_nil in Hu|].
  split; [apply LeastConnections_elem|].
  unfold LeastConnections_Select; cbn [snd]. rewrite lc_loop_pick.
  set (cs := c0 :: rest) in *. clearbody cs.
  assert ((u0, ActiveConnections s0) ∈ lc_conns stats cs) as H0 by (apply lc_conns_elem; eauto).
  assert (forall u v w, (u <? v) = true -> (v <? w) = true -> (u <? w) = true) as Htr by (intros; z_bool; lia).
  pose proof (pick_best_found Z.ltb Z.ltb_irrefl Htr c0 (Z.shiftl 1 62) _ _ _ H0 (proj2 (Z.ltb_lt _ _) Hlt)) as Hf.
  pose proof (fun u v => pick_best_max Z.ltb Z.ltb_irrefl Htr c0 (Z.shiftl 1 62) (lc_conns stats cs) u v) as Hm.
  destruct (pick_best _ _ _ _) as [best n]; simpl in *.
  apply lc_conns_elem in Hf as (_ & s & Hsb & <-). exists s. split; [done|].
  intros u s' Hu' Hs'. specialize (Hm u (ActiveConnections s')).
  apply Z.ltb_ge, Hm, lc_conns_elem. eauto.
Qed.

Definition w_stat (active : Z) (lat : float64) (weight : Z) : ServerStats :=
  {| Name := "s"; URL := "s"; Weight := weight; IsHealthy := true; AvgLatencyMs := lat;
     P95LatencyMs := f64_zero; ActiveConnections := active; TotalRequests := 0; SuccessCount := 0;
     FailureCount := 0; RetryCount := 0; CircuitState := "CLOSED"; HighPriorityCount := 0;
     LowPriorityCount := 0; LastChecked := ""; recentLatencies := [] |}.

Definition w_stats : gmap string ServerStats :=
  {["a" := w_stat 5 (f64_of_Z 10) 1; "b" := w_stat 2 (f64_of_Z 40) 1]}%string.

Lemma least_connections_minimal_witness :
  (LeastConnections_Select (mkLeastConnections) ["a"; "b"]%string w_stats "LOW").2 ∈ ["a"; "b"]%string.
Proof.
  apply (least_connections_minimal mkLeastConnections ["a"; "b"]%string w_stats "LOW" "a"%string
    (w_stat 5 (f64_of_Z 10) 1)); [apply list_elem_of_here|done|by vm_compute].
Defined.

(** The weighted algorithm chooses a best-scored server: if some candidate's score, with the
    jitter drawn for it, exceeds -1, the answer is a candidate with statistics whose score no other
    candidate's score exceeds. *)
Theorem weighted_score_maximal {R} `{!Rand R} (ws : WeightedScore R) candidates stats priority u0 v0 :
  let scores := ws_scores (ws_weights priority) stats candidates (ws_rng ws) in
  (u0, v0) ∈ scores -> f64_lt (f64_of_Z (-1)) v0 = true ->
  exists v, ((WeightedScore_Select ws candidates stats priority).2, v) ∈ scores /\
    forall u v', (u, v') ∈ scores -> f64_lt v v' = false.
Proof.
  intros scores H0 Hlt. destruct candidates as [|c0 rest]; [by apply not_elem_of_nil in H0|].
  unfold WeightedScore_Select.
  pose proof (ws_loop_pick (ws_weights priority) stats (c0 :: rest) (ws_rng ws) (f64_of_Z (-1)) c0) as E.
  destruct (ws_loop _ _ _ _ _ _) as [rng best]; cbn [snd] in *. fold scores in E. clearbody scores.
  set (better := fun v b => f64_lt b v) in *.
  assert (forall v, better v v = false) as Hirr.
  { intros v. unfold better. destruct (f64_is_nan v) eqn:Hn; [by destruct v|].
    rewrite f64_lt_less by done. apply f64_less_irrefl. }
  assert (forall u v w, better u v = true -> better v w = true -> better u w = true) as Htr
    by (unfold better; eauto using f64_lt_trans).
  pose proof (pick_best_found better Hirr Htr c0 (f64_of_Z (-1)) _ _ _ H0 Hlt) as Hf.
  pose proof (fun u v => pick_best_max better Hirr Htr c0 (f64_of_Z (-1)) scores u v) as Hm.
  destruct (pick_best _ _ _ scores) as [b v]; simpl in *. subst best. eauto.
Qed.

(** A generator that always draws 0. *)
#[local] Instance zero_Rand : Rand unit := fun _ => (f64_zero, tt).

Lemma weighted_score_maximal_witness :
  exists v, ((WeightedScore_Select (mkWeightedScore tt) ["a"; "b"]%string w_stats "HIGH").2, v)
    ∈ ws_scores (ws_weights "HIGH") w_stats ["a"; "b"]%string tt /\
    forall u v', (u, v') ∈ ws_scores (ws_weights "HIGH") w_stats ["a"; "b"]%string tt -> f64_lt v v' = false.
Proof.
  eapply (weighted_score_maximal (mkWeightedScore tt) ["a"; "b"]%string w_stats "HIGH" "a"%string);
    [apply list_elem_of_here|by vm_compute].
Defined.
