(* ===== verification/Canary.v ===== *)
(** * balancer/canary.go: smooth weighted round robin

    [Canary] is the struct, [Canary_initWeights] and [Canary_Select] its methods (the mutex makes a
    call one step).  The file proves the traffic split: exact over every multiple of the total weight,
    and never above a server's rounded-up share in between. *)
From S2P Require Import Prelude GoFloat Collector Balancer.
Open Scope Z_scope.

Record Canary : Type := mkCanary {
  serverWeights : gmap string Z;
  currentWeights : gmap string Z;
  initialized : bool;
}.

(** The zero value the service manager creates. *)
Definition Canary_zero : Canary := mkCanary ∅ ∅ false.

Definition effective_weight (w : Z) : Z := if w <=? 0 then 1 else w.

Definition Canary_initWeights (stats : gmap string ServerStats) (c : Canary) : Canary :=
  if initialized c then c
  else
    {| serverWeights := (fun s => effective_weight (Weight s)) <$> stats;
       currentWeights := (fun _ => 0) <$> stats;
       initialized := true |}.

(** Total weight of the candidates; a candidate without a weight gets weight 1. *)
Fixpoint canary_total (candidates : list string) (c : Canary) (totalWeight : Z) : Canary * Z :=
  match candidates with
  | [] => (c, totalWeight)
  | url :: rest =>
      match serverWeights c !! url with
      | Some w => canary_total rest c (wrap64 (totalWeight + w))
      | None =>
          canary_total rest
            (mkCanary (<[url := 1]> (serverWeights c)) (<[url := 0]> (currentWeights c)) (initialized c))
            (wrap64 (totalWeight + 1))
      end
  end.

(** Increment every candidate's current weight and keep the first greatest. *)
Fixpoint canary_loop (sw : gmap string Z) (candidates : list string) (cw : gmap string Z)
    (best : string) (bestCW : Z) : gmap string Z * string * Z :=
  match candidates with
  | [] => (cw, best, bestCW)
  | url :: rest =>
      let ew := default 0 (sw !! url) in
      let v := wrap64 (default 0 (cw !! url) + ew) in
      let cw := <[url := v]> cw in
      if bestCW <? v then canary_loop sw rest cw url v else canary_loop sw rest cw best bestCW
  end.

Definition Canary_Select (c : Canary) (candidates : list string)
    (stats : gmap string ServerStats) (priority : string) : Canary * string :=
  match candidates with
  | [] => (c, ""%string)
  | c0 :: _ =>
      let c := if negb (initialized c) then Canary_initWeights stats c else c in
      let '(c, totalWeight) := canary_total candidates c 0 in
      if totalWeight =? 0 then (c, c0)
      else
        let '(cw, best, _) :=
          canary_loop (serverWeights c) candidates (currentWeights c) ""%string (Z.shiftl (-1) 30) in
        let cw := if bool_decide (best <> ""%string)
                  then <[best := wrap64 (default 0 (cw !! best) - totalWeight)]> cw else cw in
        (mkCanary (serverWeights c) cw (initialized c), best)
  end.

#[export] Instance Canary_Algorithm : Algorithm Canary := Canary_Select.

(** Successive calls with the same candidates, each with the statistics of its time. *)
Fixpoint canary_run (c : Canary) (candidates : list string) (statss : list (gmap string ServerStats))
    (priority : string) : Canary * list string :=
  match statss with
  | [] => (c, [])
  | stats :: statss =>
      let '(c, u) := Canary_Select c candidates stats priority in
      let '(c, us) := canary_run c candidates statss priority in (c, u :: us)
  end.

Definition count_chosen (u : string) (us : list string) : Z :=
  Z.of_nat (length (filter (fun v => v = u) us)).

(** ** The loops *)
Lemma canary_loop_lookup sw candidates cw best bestCW u :
  NoDup candidates ->
  (canary_loop sw candidates cw best bestCW).1.1 !! u
  = if decide (u ∈ candidates) then Some (wrap64 (default 0 (cw !! u) + default 0 (sw !! u))) else cw !! u.
Proof.
  intros Hnd. revert cw best bestCW. induction Hnd as [|x l Hx Hnd IH]; intros cw best bestCW; [done|].
  cbn [canary_loop].
  set (v := wrap64 _). transitivity ((canary_loop sw l (<[x:=v]> cw)
    (if bestCW <? v then x else best) (if bestCW <? v then v else bestCW)).1.1 !! u);
    [by destruct (bestCW <? v)|]. rewrite IH, lookup_insert.
  destruct (decide (x = u)) as [->|Hne].
  - rewrite decide_False by done. by rewrite decide_True by apply list_elem_of_here.
  - destruct (decide (u ∈ l)).
    + by rewrite decide_True by (by apply list_elem_of_further).
    + rewrite decide_False; [done|]. by intros [->|?]%elem_of_cons.
Qed.

Lemma canary_loop_pick sw candidates cw best bestCW :
  NoDup candidates ->
  let r := canary_loop sw candidates cw best bestCW in
  (r.1.2, r.2) = pick_best (fun v b => b <? v) best bestCW
    ((fun u => (u, wrap64 (default 0 (cw !! u) + default 0 (sw !! u)))) <$> candidates).
Proof.
  intros Hnd. cbv zeta. revert cw best bestCW.
  induction Hnd as [|x l Hx Hnd IH]; intros cw best bestCW; [done|].
  cbn [canary_loop fmap list_fmap pick_best].
  set (v := wrap64 _).
  assert ((fun u => (u, wrap64 (default 0 (cw !! u) + default 0 (sw !! u)))) <$> l
    = (fun u => (u, wrap64 (default 0 (<[x:=v]> cw !! u) + default 0 (sw !! u)))) <$> l) as E.
  { apply list_fmap_ext. intros i u Hu%list_elem_of_lookup_2.
    by rewrite lookup_insert_ne by (by intros ->). }
  rewrite E. destruct (bestCW <? v); apply IH.
Qed.

Definition total_of (w : string -> Z) (l : list string) : Z := foldr (fun u acc => w u + acc) 0 l.

Lemma canary_total_known candidates c t :
  (forall u, u ∈ candidates -> is_Some (serverWeights c !! u)) ->
  canary_total candidates c t
  = (c, foldl (fun t u => wrap64 (t + default 0 (serverWeights c !! u))) t candidates).
Proof.
  revert t. induction candidates as [|u rest IH]; intros t Hk; [done|]. simpl.
  destruct (Hk u (list_elem_of_here _ _)) as [w Hw]. rewrite Hw. simpl.
  apply IH. intros v Hv. apply Hk. by apply list_elem_of_further.
Qed.

Lemma foldl_wrap_total (w : string -> Z) l t :
  in_int64 t -> foldl (fun t u => wrap64 (t + w u)) t l = wrap64 (t + total_of w l).
Proof.
  revert t. induction l as [|u l IH]; intros t Ht; simpl.
  - rewrite Z.add_0_r. symmetry. by apply wrap64_small.
  - rewrite IH by apply wrap64_range. rewrite wrap64_add_l. f_equal. lia.
Qed.

Lemma total_of_nonneg w l : (forall u, u ∈ l -> 0 <= w u) -> 0 <= total_of w l.
Proof.
  induction l as [|u l IH]; intros H; simpl; [lia|].
  pose proof (H u (list_elem_of_here _ _)).
  specialize (IH (fun v Hv => H v (list_elem_of_further _ _ _ Hv))). lia.
Qed.

Lemma total_of_ge w l u : (forall u, u ∈ l -> 0 <= w u) -> u ∈ l -> w u <= total_of w l.
Proof.
  intros H Hu. induction l as [|v l IH]; [by apply not_elem_of_nil in Hu|]. simpl.
  apply elem_of_cons in Hu as [-> | Hu].
  - pose proof (total_of_nonneg w l (fun v Hv => H v (list_elem_of_further _ _ _ Hv))). lia.
  - pose proof (H v (list_elem_of_here _ _)).
    specialize (IH (fun v Hv => H v (list_elem_of_further _ _ _ Hv)) Hu). lia.
Qed.

Lemma total_of_len w l : (forall u, u ∈ l -> 1 <= w u) -> Z.of_nat (length l) <= total_of w l.
Proof.
  induction l as [|u l IH]; intros H; simpl; [lia|].
  pose proof (H u (list_elem_of_here _ _)).
  specialize (IH (fun v Hv => H v (list_elem_of_further _ _ _ Hv))). lia.
Qed.

Lemma total_of_ext w w' l : (forall u, u ∈ l -> w u = w' u) -> total_of w l = total_of w' l.
Proof.
  induction l as [|u l IH]; intros H; simpl; [done|].
  rewrite (H u (list_elem_of_here _ _)). f_equal.
  apply IH. intros v Hv. by apply H, list_elem_of_further.
Qed.

Lemma total_of_linear a b w k l :
  total_of (fun u => a * w u + b * k u) l = a * total_of w l + b * total_of k l.
Proof. induction l as [|u l IH]; simpl; [lia|]. rewrite IH. lia. Qed.

(** A sum above zero has a term above zero. *)
Lemma total_of_pos w l : 0 < total_of w l -> exists u, u ∈ l /\ 0 < w u.
Proof.
  induction l as [|u l IH]; simpl; [lia|]. intros H.
  destruct (Z.lt_ge_cases 0 (w u)).
  - exists u. split; [apply list_elem_of_here|done].
  - destruct IH as (v & ? & ?); [lia|]. exists v. split; [by apply list_elem_of_further|done].
Qed.

(** Terms bounded below by [-B] and summing to zero are bounded above. *)
Lemma total_of_lower w l B : (forall v, v ∈ l -> - B <= w v) -> - B * Z.of_nat (length l) <= total_of w l.
Proof.
  induction l as [|v l IH]; intros H; simpl; [lia|].
  pose proof (H v (list_elem_of_here _ _)).
  specialize (IH (fun v Hv => H v (list_elem_of_further _ _ _ Hv))). lia.
Qed.

Lemma total_of_upper w l B u :
  0 <= B -> (forall v, v ∈ l -> - B <= w v) -> u ∈ l -> w u <= total_of w l + B * Z.of_nat (length l).
Proof.
  intros HB Hw Hu. induction l as [|v l IH]; [by apply not_elem_of_nil in Hu|].
  pose proof (total_of_lower w l B (fun v Hv => Hw v (list_elem_of_further _ _ _ Hv))). simpl.
  apply elem_of_cons in Hu as [-> | Hu]; [lia|].
  pose proof (Hw v (list_elem_of_here _ _)).
  specialize (IH (fun v Hv => Hw v (list_elem_of_further _ _ _ Hv)) Hu). lia.
Qed.

Lemma total_of_indicator b l :
  NoDup l -> b ∈ l -> total_of (fun u => if decide (u = b) then 1 else 0) l = 1.
Proof.
  assert (forall l', b ∉ l' -> total_of (fun u => if decide (u = b) then 1 else 0) l' = 0) as H0.
  { induction l' as [|x l' IH]; intros Hb; [done|]. simpl.
    rewrite decide_False by (intros ->; apply Hb, list_elem_of_here).
    rewrite IH; [done|]. intros H. by apply Hb, list_elem_of_further. }
  induction 1 as [|x l Hx Hnd IH]; intros Hb; [by apply not_elem_of_nil in Hb|]. simpl.
  destruct (decide (x = b)) as [->|Hne]; [by rewrite H0|].
  rewrite IH; [done|]. apply elem_of_cons in Hb as [->|]; done.
Qed.

(** The step on a known, initialised, non-empty candidate list with a positive total. *)
Lemma Canary_Select_known c candidates stats p t :
  candidates <> [] -> initialized c = true -> canary_total candidates c 0 = (c, t) -> t <> 0 ->
  Canary_Select c candidates stats p
  = let '(cw, best, _) :=
      canary_loop (serverWeights c) candidates (currentWeights c) ""%string (Z.shiftl (-1) 30) in
    let cw := if bool_decide (best <> ""%string)
              then <[best := wrap64 (default 0 (cw !! best) - t)]> cw else cw in
    (mkCanary (serverWeights c) cw (initialized c), best).
Proof.
  intros Hne Hi Ht Hnz. unfold Canary_Select. destruct candidates as [|c0 rest]; [done|].
  rewrite Hi. cbn [negb]. cbv iota zeta. rewrite Ht. cbv iota beta zeta. apply Z.eqb_neq in Hnz. by rewrite Hnz, Hi.
Qed.

(** ** The state after [n] choices, [k u] of them for [u] *)
Section swrr.
Context (candidates : list string) (w : string -> Z).
Context (Hnd : NoDup candidates) (Hempty : (""%string ∉ candidates)).
Context (Hw : forall u, u ∈ candidates -> 1 <= w u).
Abbreviation W := (total_of w candidates).
Context (HW : 1 <= W < 2 ^ 30).

Record swrr_inv (n : Z) (k : string -> Z) (c : Canary) : Prop := {
  swrr_init : initialized c = true;
  swrr_sw : forall u, u ∈ candidates -> serverWeights c !! u = Some (w u);
  swrr_cw : forall u, u ∈ candidates -> currentWeights c !! u = Some (n * w u - W * k u);
  swrr_low : forall u, u ∈ candidates -> - W < n * w u - W * k u;
  swrr_sum : total_of k candidates = n;
}.

Lemma swrr_bounds n k c u :
  swrr_inv n k c -> u ∈ candidates -> - W < n * w u - W * k u <= W * W.
Proof.
  intros [_ _ _ Hlow Hsum] Hu. split; [by apply Hlow|].
  pose proof (total_of_upper (fun u => n * w u + (- W) * k u) candidates W u) as H.
  rewrite total_of_linear, Hsum in H.
  pose proof (total_of_len w candidates Hw).
  assert (n * w u + - W * k u <= n * W + - W * n + W * Z.of_nat (length candidates)) as H'.
  { apply H; [lia| |done]. intros v Hv. specialize (Hlow v Hv). lia. }
  nia.
Qed.

(** The incremented weight of [u]: no overflow. *)
Lemma swrr_increment n k c u :
  swrr_inv n k c -> u ∈ candidates ->
  wrap64 (default 0 (currentWeights c !! u) + default 0 (serverWeights c !! u))
  = (n + 1) * w u - W * k u.
Proof.
  intros Hc Hu. rewrite (swrr_cw _ _ _ Hc u Hu), (swrr_sw _ _ _ Hc u Hu). simpl.
  pose proof (swrr_bounds n k c u Hc Hu). pose proof (Hw u Hu).
  pose proof (total_of_ge w candidates u (fun v Hv => ltac:(specialize (Hw v Hv); lia)) Hu).
  rewrite wrap64_small; [lia|]. unfold_int. change (2 ^ 30) with 1073741824 in HW. nia.
Qed.

(** The loop ends on a candidate whose incremented weight is positive. *)
Lemma swrr_choice n k c :
  swrr_inv n k c ->
  exists b v, (canary_loop (serverWeights c) candidates (currentWeights c) "" (Z.shiftl (-1) 30)).1.2 = b /\
    b ∈ candidates /\ v = (n + 1) * w b - W * k b /\ 0 < v.
Proof.
  intros Hc.
  pose proof (canary_loop_pick (serverWeights c) candidates (currentWeights c) ""%string
    (Z.shiftl (-1) 30) Hnd) as E. cbv zeta in E.
  set (l := (fun u => (u, wrap64 (default 0 (currentWeights c !! u) + default 0 (serverWeights c !! u))))
    <$> candidates) in *.
  assert (forall u v, (u, v) ∈ l -> u ∈ candidates /\ v = (n + 1) * w u - W * k u) as Hl.
  { intros u v (x & [= -> ->] & Hx)%list_elem_of_fmap. split; [done|]. by eapply swrr_increment. }
  destruct (total_of_pos (fun u => (n + 1) * w u + (- W) * k u) candidates) as (u0 & Hu0 & Hpos).
  { rewrite total_of_linear, (swrr_sum _ _ _ Hc). lia. }
  assert ((u0, (n + 1) * w u0 - W * k u0) ∈ l) as Hin.
  { rewrite <- (swrr_increment n k c u0 Hc Hu0). unfold l. apply list_elem_of_fmap. by exists u0. }
  set (better := fun v b : Z => b <? v) in *.
  assert (forall v, better v v = false) as Hirr by (intros; apply Z.ltb_irrefl).
  assert (forall u v w, better u v = true -> better v w = true -> better u w = true) as Htr
    by (unfold better; intros; z_bool; lia).
  assert (better ((n + 1) * w u0 - W * k u0) (Z.shiftl (-1) 30) = true) as Hgt.
  { unfold better. change (Z.shiftl (-1) 30) with (-1073741824). lia. }
  pose proof (pick_best_found better Hirr Htr ""%string (Z.shiftl (-1) 30) l _ _ Hin Hgt) as Hf.
  pose proof (pick_best_max better Hirr Htr ""%string (Z.shiftl (-1) 30) l _ _ Hin) as Hm.
  rewrite <- E in Hf, Hm. simpl in Hm. unfold better in Hm. z_bool.
  destruct (Hl _ _ Hf) as [Hb Hv]. eexists _, _. split; [done|]. split; [done|]. split; [exact Hv|].
  lia.
Qed.

Lemma swrr_step n k c stats p :
  swrr_inv n k c ->
  exists c' b, Canary_Select c candidates stats p = (c', b) /\ b ∈ candidates /\
    swrr_inv (n + 1) (fun u => k u + if decide (u = b) then 1 else 0) c'.
Proof.
  intros Hc. destruct (swrr_choice n k c Hc) as (b & v & Eb & Hb & Ev & Hpos).
  rewrite (Canary_Select_known c candidates stats p W); [|by intros E; rewrite E in Hb; apply not_elem_of_nil in Hb|apply Hc| |lia].
  2: { rewrite canary_total_known by (intros u Hu; rewrite (swrr_sw _ _ _ Hc u Hu); by eexists).
    rewrite (foldl_wrap_total (fun u => default 0 (serverWeights c !! u))) by by vm_compute.
    rewrite (total_of_ext _ w) by (intros u Hu; by rewrite (swrr_sw _ _ _ Hc u Hu)).
    rewrite Z.add_0_l, wrap64_small; [done|]. unfold_int; change (2 ^ 30) with 1073741824 in HW; lia. }
  pose proof (fun u => canary_loop_lookup (serverWeights c) candidates (currentWeights c) ""%string
    (Z.shiftl (-1) 30) u Hnd) as Hlk.
  destruct (canary_loop _ _ _ _ _) as [[cw best] bestCW]. simpl in Eb, Hlk. subst best.
  rewrite bool_decide_eq_true_2 by (by intros ->).
  assert (forall u, u ∈ candidates -> cw !! u = Some ((n + 1) * w u - W * k u)) as Hcw.
  { intros u Hu. rewrite Hlk, decide_True by done. f_equal. by eapply swrr_increment. }
  exists (mkCanary (serverWeights c) (<[b:=wrap64 (default 0 (cw !! b) - W)]> cw) (initialized c)), b.
  rewrite (Hcw b Hb); simpl.
  pose proof (swrr_bounds n k c b Hc Hb).
  pose proof (total_of_ge w candidates b (fun v Hv => ltac:(specialize (Hw v Hv); lia)) Hb).
  rewrite wrap64_small by (unfold_int; change (2 ^ 30) with 1073741824 in HW; nia).
  split; [done|]. split; [done|]. split; simpl.
  - apply Hc.
  - apply Hc.
  - intros u Hu. rewrite lookup_insert. destruct (decide (b = u)) as [->|Hne].
    + rewrite decide_True by done. f_equal. lia.
    + rewrite decide_False by done. rewrite (Hcw u Hu). f_equal. lia.
  - intros u Hu. destruct (decide (u = b)) as [->|Hne]; [lia|].
    pose proof (swrr_low _ _ _ Hc u Hu). pose proof (Hw u Hu). lia.
  - pose proof (total_of_linear 1 1 k (fun u => if decide (u = b) then 1 else 0) candidates) as E.
    rewrite (total_of_indicator b), (swrr_sum _ _ _ Hc) in E by done.
    replace (n + 1) with (1 * n + 1 * 1) by lia.
    rewrite <- E. apply total_of_ext. intros; lia.
Qed.
End swrr.

Lemma count_chosen_cons u v us :
  count_chosen u (v :: us) = (if decide (u = v) then 1 else 0) + count_chosen u us.
Proof.
  unfold count_chosen. rewrite filter_cons.
  destruct (decide (v = u)) as [->|Hne]; [rewrite decide_True by done|rewrite decide_False by congruence];
    simpl; lia.
Qed.

Lemma canary_run_length c candidates statss p :
  length (canary_run c candidates statss p).2 = length statss.
Proof.
  revert c. induction statss as [|x l IH]; intros c; [done|]. cbn [canary_run].
  destruct (Canary_Select c candidates x p) as [c1 u].
  specialize (IH c1). destruct (canary_run c1 candidates l p). simpl in *. lia.
Qed.

Section split.
Context (candidates : list string) (stats0 : gmap string ServerStats).

(** The weight the first call captures for a server. *)
Definition captured_weight (u : string) : Z :=
  match stats0 !! u with Some s => effective_weight (Weight s) | None => 0 end.
Abbreviation W := (total_of captured_weight candidates).

Context (Hnd : NoDup candidates) (Hempty : (""%string ∉ candidates)).
Context (Hne : candidates <> []) (Hknown : forall u, u ∈ candidates -> is_Some (stats0 !! u)).
Context (HW : W < 2 ^ 30).

Lemma captured_weight_pos u : u ∈ candidates -> 1 <= captured_weight u.
Proof.
  intros Hu. unfold captured_weight, effective_weight. destruct (Hknown u Hu) as [s ->].
  case_match; z_bool; lia.
Qed.

Lemma captured_total : 1 <= W < 2 ^ 30.
Proof.
  split; [|exact HW]. pose proof (total_of_len captured_weight candidates captured_weight_pos).
  destruct candidates; [done|simpl in *; lia].
Qed.

Lemma swrr_inv_init :
  swrr_inv candidates captured_weight 0 (fun _ => 0) (Canary_initWeights stats0 Canary_zero).
Proof.
  pose proof captured_total. split; simpl.
  - done.
  - intros u Hu. rewrite lookup_fmap. unfold captured_weight. by destruct (Hknown u Hu) as [s ->].
  - intros u Hu. rewrite lookup_fmap. destruct (Hknown u Hu) as [s ->]. simpl. f_equal. lia.
  - intros u Hu. lia.
  - clear. induction candidates as [|u l IH]; simpl; lia.
Qed.

Lemma swrr_run n k c statss p :
  swrr_inv candidates captured_weight n k c ->
  exists c' us, canary_run c candidates statss p = (c', us) /\ Forall (fun u => u ∈ candidates) us /\
    swrr_inv candidates captured_weight (n + Z.of_nat (length statss)) (fun u => k u + count_chosen u us) c'.
Proof.
  revert n k c. induction statss as [|stats statss IH]; intros n k c Hc.
  - exists c, []. split; [done|]. split; [constructor|].
    destruct Hc as [H1 H2 H3 H4 H5]. unfold count_chosen; simpl. rewrite Z.add_0_r.
    split; try done; intros; rewrite ?Z.add_0_r; auto.
    rewrite <- H5. apply total_of_ext. intros; lia.
  - destruct (swrr_step candidates captured_weight Hnd Hempty captured_weight_pos captured_total
      n k c stats p Hc) as (c1 & b & E1 & Hb & Hc1).
    destruct (IH _ _ _ Hc1) as (c' & us & E2 & Hus & Hc').
    exists c', (b :: us). cbn [canary_run]. rewrite E1, E2. split; [done|].
    split; [by constructor|]. destruct Hc' as [H1 H2 H3 H4 H5].
    cbn [length]. rewrite Nat2Z.inj_succ.
    assert (forall u, k u + count_chosen u (b :: us)
      = k u + (if decide (u = b) then 1 else 0) + count_chosen u us) as Hcnt
      by (intros u; rewrite count_chosen_cons; lia).
    replace (n + Z.succ (Z.of_nat (length statss))) with (n + 1 + Z.of_nat (length statss)) by lia.
    split; [done|done| | |].
    + intros u Hu. rewrite Hcnt. by apply H3.
    + intros u Hu. rewrite Hcnt. by apply H4.
    + rewrite <- H5. apply total_of_ext. intros u _. apply Hcnt.
Qed.

Lemma canary_run_first statss p :
  canary_run Canary_zero candidates (stats0 :: statss) p
  = canary_run (Canary_initWeights stats0 Canary_zero) candidates (stats0 :: statss) p.
Proof. cbn [canary_run]. unfold Canary_Select. by destruct candidates. Qed.

Lemma split_run statss p :
  exists c' us, canary_run Canary_zero candidates (stats0 :: statss) p = (c', us) /\
    Forall (fun u => u ∈ candidates) us /\
    swrr_inv candidates captured_weight (Z.of_nat (S (length statss))) (fun u => count_chosen u us) c'.
Proof.
  rewrite canary_run_first.
  destruct (swrr_run 0 (fun _ => 0) _ (stats0 :: statss) p swrr_inv_init) as (c' & us & E & Hus & Hc).
  exists c', us. done.
Qed.

(** C23. The canary split is exact: with distinct candidates whose captured weights add up to [W],
    over any [m * W] consecutive requests from the first one, whatever the statistics become, every
    candidate is chosen exactly [m] times its weight, and the scheduler is back in its initial state. *)
Theorem canary_split_exact (m : nat) statss priority :
  Z.of_nat (S (length statss)) = Z.of_nat m * W ->
  let r := canary_run Canary_zero candidates (stats0 :: statss) priority in
  forall u, u ∈ candidates ->
    count_chosen u r.2 = Z.of_nat m * captured_weight u /\ currentWeights r.1 !! u = Some 0.
Proof.
  intros Hlen. cbv zeta. destruct (split_run statss priority) as (c' & us & -> & _ & Hc). simpl.
  pose proof captured_total as HW1.
  assert (forall u, u ∈ candidates -> 0 <= Z.of_nat m * captured_weight u + (-1) * count_chosen u us) as Hge.
  { intros u Hu. pose proof (swrr_low _ _ _ _ _ Hc u Hu) as Hl. rewrite Hlen in Hl. nia. }
  assert (total_of (fun u => Z.of_nat m * captured_weight u + (-1) * count_chosen u us) candidates = 0) as Hsum.
  { rewrite total_of_linear, (swrr_sum _ _ _ _ _ Hc). lia. }
  intros u Hu.
  pose proof (total_of_ge _ candidates u Hge Hu) as Hle. rewrite Hsum in Hle.
  specialize (Hge u Hu). split; [lia|].
  rewrite (swrr_cw _ _ _ _ _ Hc u Hu). f_equal. rewrite Hlen.
  replace (count_chosen u us) with (Z.of_nat m * captured_weight u) by lia. lia.
Qed.

(** C24. The canary split is smooth: at every point of the sequence a server has been chosen less than
    one time more than its exact share. *)
Theorem canary_split_smooth statss priority :
  let r := canary_run Canary_zero candidates (stats0 :: statss) priority in
  length r.2 = S (length statss) /\
  forall u, u ∈ candidates ->
    W * count_chosen u r.2 < Z.of_nat (length r.2) * captured_weight u + W.
Proof.
  cbv zeta. destruct (split_run statss priority) as (c' & us & E & _ & Hc). rewrite E. simpl.
  pose proof (canary_run_length Canary_zero candidates (stats0 :: statss) priority) as Hlen.
  rewrite E in Hlen. simpl in Hlen.
  split; [done|]. intros u Hu. rewrite Hlen.
  pose proof (swrr_low _ _ _ _ _ Hc u Hu). lia.
Qed.
End split.

(** ** The interface *)
Lemma canary_loop_best sw candidates cw best bestCW :
  (canary_loop sw candidates cw best bestCW).1.2 = best \/
  (canary_loop sw candidates cw best bestCW).1.2 ∈ candidates.
Proof.
  revert cw best bestCW. induction candidates as [|u l IH]; intros cw best bestCW; [by left|].
  cbn [canary_loop]. case_match.
  - right. destruct (IH (<[u:=wrap64 (default 0 (cw !! u) + default 0 (sw !! u))]> cw) u
      (wrap64 (default 0 (cw !! u) + default 0 (sw !! u)))) as [-> | ?];
      [apply list_elem_of_here|by apply list_elem_of_further].
  - destruct (IH (<[u:=wrap64 (default 0 (cw !! u) + default 0 (sw !! u))]> cw) best bestCW) as [-> | ?];
      [by left|right; by apply list_elem_of_further].
Qed.

#[export] Instance Canary_Sound : AlgorithmSound Canary.
Proof.
  intros c [|c0 rest] stats p; [by left|]. change (algo_Select c) with (Canary_Select c).
  unfold Canary_Select.
  destruct (canary_total _ _ _) as [c1 t]. destruct (t =? 0); [right; apply list_elem_of_here|].
  pose proof (canary_loop_best (serverWeights c1) (c0 :: rest) (currentWeights c1) ""%string
    (Z.shiftl (-1) 30)) as H.
  destruct (canary_loop _ _ _ _ _) as [[cw best] bestCW]. simpl in *. destruct H; auto.
Qed.

(** The states in which the scheduler certainly answers: it is in the middle of a split among exactly
    these candidates. *)
Definition canary_ok (c : Canary) (candidates : list string) (stats : gmap string ServerStats) : Prop :=
  NoDup candidates /\ (""%string ∉ candidates) /\
  exists w n k, (forall u, u ∈ candidates -> 1 <= w u) /\ 1 <= total_of w candidates < 2 ^ 30 /\
    swrr_inv candidates w n k c.

#[export] Instance Canary_Live : AlgorithmLive Canary canary_ok.
Proof.
  intros c candidates stats p _ (Hnd & He & w & n & k & Hw & HW & Hc).
  destruct (swrr_step candidates w Hnd He Hw HW n k c stats p Hc) as (c' & b & E & Hb & _).
  change (algo_Select c) with (Canary_Select c). by rewrite E.
Qed.

(** ** Witnesses: a 3/1 split *)
Definition w_split : gmap string ServerStats :=
  {["a" := w_stat 0 f64_zero 3; "b" := w_stat 0 f64_zero 1]}%string.

Lemma w_split_weights : total_of (captured_weight w_split) ["a"; "b"]%string = 4.
Proof. vm_compute. reflexivity. Qed.

Lemma w_split_known u : u ∈ ["a"; "b"]%string -> is_Some (w_split !! u).
Proof.
  intros [-> | [-> | []%not_elem_of_nil]%elem_of_cons]%elem_of_cons; vm_compute; by eexists.
Qed.

Lemma canary_split_exact_witness :
  let r := canary_run Canary_zero ["a"; "b"]%string (replicate 8 w_split) "LOW" in
  count_chosen "a" r.2 = 6 /\ count_chosen "b" r.2 = 2.
Proof.
  pose proof (canary_split_exact ["a"; "b"]%string w_split ltac:(by apply (bool_decide_unpack _))
    ltac:(by apply (bool_decide_unpack _)) ltac:(done) w_split_known ltac:(rewrite w_split_weights; lia)
    2 (replicate 7 w_split) "LOW" ltac:(rewrite w_split_weights; done)) as H.
  cbv zeta in *. split.
  - apply (H "a"%string). apply (bool_decide_unpack _). by vm_compute.
  - apply (H "b"%string). apply (bool_decide_unpack _). by vm_compute.
Defined.

Lemma canary_split_smooth_witness :
  let r := canary_run Canary_zero ["a"; "b"]%string (replicate 5 w_split) "LOW" in
  4 * count_chosen "b" r.2 < 5 * 1 + 4.
Proof.
  pose proof (canary_split_smooth ["a"; "b"]%string w_split ltac:(by apply (bool_decide_unpack _))
    ltac:(by apply (bool_decide_unpack _)) ltac:(done) w_split_known ltac:(rewrite w_split_weights; lia)
    (replicate 4 w_split) "LOW") as [Hl H].
  cbv zeta in *. rewrite w_split_weights, Hl in H. apply (H "b"%string).
  apply (bool_decide_unpack _). by vm_compute.
Defined.
