(* ===== verification/Selector.v ===== *)
(** * balancer/router.go: choosing a backend for a request

    [Router_Select] filters the servers with the pure test [IsOpen], asks the algorithm, and calls
    [CanSend] on the chosen server only.  It is stated for any implementation of the [Algorithm]
    interface.  [interfere] is what other goroutines do to the breakers between the filtering loop and
    [CanSend]: the identity when the request runs alone.  Proxy.v has the same selection in a world where
    others act at any time. *)
From S2P Require Import Prelude GoFloat Breaker Collector Balancer Canary.
Open Scope Z_scope.

Record Router (A : Type) : Type := mkRouter {
  r_servers : list string;
  r_algo : A;
}.
Arguments mkRouter {A}.
Arguments r_servers {A}.
Arguments r_algo {A}.

Definition NewRouter {A} (servers : list string) (algo : A) : Router A := mkRouter servers algo.

(** A call returns a server or an error, or panics on a nil breaker. *)
Inductive Selection : Type :=
| Selected (url : string)
| NoHealthyServers
| AlgorithmReturnedNone
| ChosenCircuitOpen
| SelectPanic.

Section select.
Context {A : Type} `{!Algorithm A}.

(** The filtering loop; [clock url] is the instant at which [IsOpen] is called on that server. *)
Fixpoint candidates_loop (clock : string -> Z) (excludedMap : gset string)
    (stats : gmap string ServerStats) (breakers : gmap string Breaker)
    (servers : list string) : option (list string) :=
  match servers with
  | [] => Some []
  | url :: rest =>
      if bool_decide (url ∈ excludedMap) then candidates_loop clock excludedMap stats breakers rest
      else
        match stats !! url with
        | None => candidates_loop clock excludedMap stats breakers rest
        | Some s =>
            if IsHealthy s then
              match breakers !! url with
              | None => None
              | Some b =>
                  if negb (Breaker_IsOpen (clock url) b)
                  then cons url <$> candidates_loop clock excludedMap stats breakers rest
                  else candidates_loop clock excludedMap stats breakers rest
              end
            else candidates_loop clock excludedMap stats breakers rest
        end
  end.

Definition Router_Select (clock : string -> Z) (later : Z)
    (interfere : gmap string Breaker -> gmap string Breaker)
    (metrics : Collector) (breakers : gmap string Breaker) (r : Router A)
    (priority : string) (excluded : list string) : Router A * gmap string Breaker * Selection :=
  let stats := Snapshot metrics in
  let excludedMap := list_to_set excluded in
  match candidates_loop clock excludedMap stats breakers (r_servers r) with
  | None => (r, breakers, SelectPanic)
  | Some candidates =>
      if (length candidates =? 0)%nat then (r, breakers, NoHealthyServers)
      else
        let '(algo, chosen) := algo_Select (r_algo r) candidates stats priority in
        let r := mkRouter (r_servers r) algo in
        if bool_decide (chosen = ""%string) then (r, breakers, AlgorithmReturnedNone)
        else
          let breakers := interfere breakers in
          match breakers !! chosen with
          | None => (r, breakers, SelectPanic)
          | Some b =>
              let '(b, ok) := Breaker_CanSend later b in
              let breakers := <[chosen := b]> breakers in
              if negb ok then (r, breakers, ChosenCircuitOpen)
              else (r, breakers, Selected chosen)
          end
  end.

(** A server the request may be sent to. *)
Record eligible (clock : string -> Z) (excluded : list string) (stats : gmap string ServerStats)
    (breakers : gmap string Breaker) (servers : list string) (url : string) : Prop := {
  el_server : url ∈ servers;
  el_not_excluded : url ∉ excluded;
  el_healthy : exists s, stats !! url = Some s /\ IsHealthy s = true;
  el_closed : exists b, breakers !! url = Some b /\ Breaker_IsOpen (clock url) b = false;
}.

(** Every server has a breaker, as the service manager builds them. *)
Definition breakers_total (servers : list string) (breakers : gmap string Breaker) : Prop :=
  forall url, url ∈ servers -> is_Some (breakers !! url).

Lemma candidates_loop_total clock ex stats breakers servers :
  breakers_total servers breakers -> is_Some (candidates_loop clock ex stats breakers servers).
Proof.
  induction servers as [|url rest IH]; intros Hb; [by eexists|]. simpl.
  assert (breakers_total rest breakers) as Hb' by (intros u Hu; apply Hb; by apply list_elem_of_further).
  destruct (IH Hb') as [l ->]. destruct (Hb url (list_elem_of_here _ _)) as [b ->].
  repeat case_match; by eexists.
Qed.

Lemma candidates_loop_elem clock excluded stats breakers servers l :
  candidates_loop clock (list_to_set excluded) stats breakers servers = Some l ->
  forall url, url ∈ l <-> eligible clock excluded stats breakers servers url.
Proof.
  revert l. induction servers as [|u rest IH]; intros l; simpl.
  - intros [= <-] url. split; [by intros ?%not_elem_of_nil|by intros [?%not_elem_of_nil]].
  - assert (forall url, eligible clock excluded stats breakers rest url ->
      eligible clock excluded stats breakers (u :: rest) url) as Hmono
      by (intros url []; split; try done; by apply list_elem_of_further).
    assert (forall url, eligible clock excluded stats breakers (u :: rest) url -> url <> u ->
      eligible clock excluded stats breakers rest url) as Hstrip
      by (intros url [Hin] ?; split; try done; by apply elem_of_cons in Hin as [->|]).
    destruct (bool_decide_reflect (u ∈ (list_to_set excluded : gset string))) as [Hex|Hex];
      [|destruct (stats !! u) as [s|] eqn:Hs; [destruct (IsHealthy s) eqn:Hh;
        [destruct (breakers !! u) as [b|] eqn:Hb; [destruct (Breaker_IsOpen (clock u) b) eqn:Ho|]|]|]];
      simpl; try discriminate.
    1, 2, 4, 5: intros E url; rewrite (IH l E url); (split; [apply Hmono|]);
      intros He; apply Hstrip; [done|]; intros ->;
      destruct He as [_ Hne (s' & Hs' & ?) (b' & Hb' & ?)]; rewrite ?elem_of_list_to_set in Hex; simplify_eq; congruence.
    intros (l' & E & ->)%fmap_Some url. rewrite elem_of_cons, (IH l' E url).
    split; [intros [-> | ?]; [|by apply Hmono]|].
    + split; [apply list_elem_of_here|by rewrite elem_of_list_to_set in Hex| |]; eauto.
    + intros He. destruct (decide (url = u)); [by left|right]. by apply Hstrip.
Qed.

(** Only the instants at which the servers of the list are tested matter. *)
Lemma candidates_loop_clock clock clock' ex stats breakers servers :
  (forall u, u ∈ servers -> clock u = clock' u) ->
  candidates_loop clock ex stats breakers servers = candidates_loop clock' ex stats breakers servers.
Proof.
  induction servers as [|u rest IH]; intros H; cbn [candidates_loop]; [done|].
  rewrite IH by (intros v Hv; apply H; by right). by rewrite (H u) by left.
Qed.
End select.

(** ** Properties *)
Section properties.
Context {A : Type} `{!Algorithm A} `{!AlgorithmSound A}.

(** C3. The router is safe: whatever the algorithm and whatever other requests do to the breakers in
    between, a selected server is one of the service's servers, is not excluded, was healthy in the
    snapshot, had a circuit that was not open when it was tested, and was admitted by its breaker. *)
Theorem router_select_safe clock later interfere metrics breakers (r : Router A) priority excluded
    r' breakers' url :
  Router_Select clock later interfere metrics breakers r priority excluded = (r', breakers', Selected url) ->
  eligible clock excluded (c_servers metrics) breakers (r_servers r) url /\
  exists b, interfere breakers !! url = Some b /\ (Breaker_CanSend later b).2 = true.
Proof.
  unfold Router_Select, Snapshot. intros H.
  destruct (candidates_loop _ _ _ _ _) as [l|] eqn:E; [|done].
  pose proof (candidates_loop_elem _ _ _ _ _ _ E) as Hl.
  destruct (length l =? 0)%nat; [done|].
  pose proof (algo_sound (r_algo r) l (c_servers metrics) priority) as Hs.
  destruct (algo_Select _ _ _ _) as [algo chosen]; simpl in Hs.
  destruct (bool_decide_reflect (chosen = ""%string)) as [|Hne]; [done|].
  destruct (interfere breakers !! chosen) as [b|] eqn:Eb; [|done].
  destruct (Breaker_CanSend later b) as [b' [|]] eqn:Ec; [|done]. simplify_eq/=.
  destruct Hs as [|Hin]; [done|]. split; [by apply Hl|]. exists b. by rewrite Ec.
Qed.

(** C7. The router finds a server when there is one: for a request that runs alone, if some server is
    eligible and the algorithm answers on these candidates, the selection succeeds; in particular the
    chosen server's circuit is never found open. *)
Theorem router_select_complete ok `{!AlgorithmLive A ok} clock later metrics breakers (r : Router A)
    priority excluded u0 :
  breakers_total (r_servers r) breakers -> ""%string ∉ r_servers r ->
  (forall u, clock u <= later) ->
  eligible clock excluded (c_servers metrics) breakers (r_servers r) u0 ->
  (forall l, candidates_loop clock (list_to_set excluded) (c_servers metrics) breakers (r_servers r) = Some l ->
     ok (r_algo r) l (c_servers metrics)) ->
  exists r' breakers' url,
    Router_Select clock later id metrics breakers r priority excluded = (r', breakers', Selected url).
Proof.
  intros Htot Hempty Hclock H0 Hok. unfold Router_Select, Snapshot, id.
  destruct (candidates_loop_total clock (list_to_set excluded) (c_servers metrics) breakers _ Htot) as [l E].
  rewrite E. pose proof (candidates_loop_elem _ _ _ _ _ _ E) as Hl.
  assert (l <> []) as Hne by (intros ->; by apply Hl, not_elem_of_nil in H0).
  destruct (length l =? 0)%nat eqn:Elen; [by apply Nat.eqb_eq, nil_length_inv in Elen|].
  pose proof (algo_live (r_algo r) l (c_servers metrics) priority Hne (Hok l E)) as Hin.
  destruct (algo_Select _ _ _ _) as [algo chosen]; simpl in Hin.
  apply Hl in Hin as [Hs _ _ (b & Hb & Ho)].
  rewrite bool_decide_eq_false_2 by (by intros ->). rewrite Hb.
  destruct (IsOpen_CanSend_agree b (clock chosen) later (Hclock _)) as [Hagree _].
  specialize (Hagree Ho). destruct (Breaker_CanSend later b) as [b' ok']; simpl in Hagree. subst ok'.
  by eexists _, _, _.
Qed.

(** Choosing disturbs nothing else: a request that runs alone changes no breaker but that of the
    server it is sent to, and that one only from open to half-open after its recovery timeout; when no
    server is eligible the answer is the "no healthy servers" error and neither the breakers nor the
    algorithm's state has changed. *)
Theorem router_select_frame clock later metrics breakers (r : Router A) priority excluded :
  breakers_total (r_servers r) breakers ->
  let '(r', breakers', res) := Router_Select clock later id metrics breakers r priority excluded in
  (forall url, breakers' !! url <> breakers !! url ->
     res = Selected url /\ exists b, breakers !! url = Some b /\ b_state b = StateOpen /\
       b_recoveryTimeout b < time_Since later (b_lastFailureTime b) /\
       breakers' !! url = Some (set_state StateHalfOpen b)) /\
  ((forall url, ~ eligible clock excluded (c_servers metrics) breakers (r_servers r) url) ->
     (r', breakers', res) = (r, breakers, NoHealthyServers)).
Proof.
  intros Htot. unfold Router_Select, Snapshot, id.
  destruct (candidates_loop_total clock (list_to_set excluded) (c_servers metrics) breakers _ Htot) as [l E].
  rewrite E. pose proof (candidates_loop_elem _ _ _ _ _ _ E) as Hl.
  destruct (length l =? 0)%nat eqn:Elen; [by split|].
  assert ((forall url, ~ eligible clock excluded (c_servers metrics) breakers (r_servers r) url) -> False) as Hnone.
  { intros H. destruct l as [|x l]; [done|]. apply (H x), Hl, list_elem_of_here. }
  destruct (algo_Select _ _ _ _) as [algo chosen]; simpl.
  destruct (bool_decide_reflect (chosen = ""%string)) as [|Hne]; [by split; [|intros []%Hnone]|].
  destruct (breakers !! chosen) as [b|] eqn:Eb; [|by split; [|intros []%Hnone]].
  unfold Breaker_CanSend. destruct (b_state b) eqn:Es;
    [|destruct (b_recoveryTimeout b <? _) eqn:Et|]; simpl;
    (split; [intros url|intros []%Hnone]); rewrite lookup_insert; case_decide; simplify_eq; try congruence.
  intros _. z_bool. split; [done|]. exists b. by rewrite Es.
Qed.
End properties.

(** ** Witnesses: two servers, one of them down *)
Definition w_collector : Collector :=
  SetHealth 3 "a" false (New 0 ["a"; "b"]%string [] []).
Definition w_breakers : gmap string Breaker :=
  {["a" := NewBreaker 3 100; "b" := NewBreaker 3 100]}%string.
Definition w_router : Router RoundRobin := NewRouter ["a"; "b"]%string (mkRoundRobin 0).

Lemma w_breakers_total : breakers_total (r_servers w_router) w_breakers.
Proof.
  intros u [-> | [-> | H%not_elem_of_nil]%elem_of_cons]%elem_of_cons; [| |done]; vm_compute; by eexists.
Qed.

Lemma w_eligible : eligible (fun _ => 5) [] (c_servers w_collector) w_breakers (r_servers w_router) "b".
Proof.
  split.
  - apply list_elem_of_further, list_elem_of_here.
  - by intros ?%not_elem_of_nil.
  - eexists. split; [by vm_compute|done].
  - eexists. split; [by vm_compute|by vm_compute].
Qed.

Lemma router_select_safe_witness :
  eligible (fun _ => 5) [] (c_servers w_collector) w_breakers (r_servers w_router) "b".
Proof.
  destruct (Router_Select (fun _ => 5) 6 id w_collector w_breakers w_router "LOW" []) as [[r' b'] res] eqn:E.
  assert (res = Selected "b") as Hres by (apply (f_equal snd) in E; vm_compute in E; by subst).
  rewrite Hres in E. exact (proj1 (router_select_safe _ _ _ _ _ _ _ _ _ _ _ E)).
Defined.

Lemma router_select_complete_witness :
  exists r' breakers' url,
    Router_Select (fun _ => 5) 6 id w_collector w_breakers w_router "LOW" [] = (r', breakers', Selected url).
Proof.
  apply (router_select_complete (fun _ _ _ => True) (fun _ => 5) 6 w_collector w_breakers w_router "LOW" [] "b").
  - exact w_breakers_total.
  - by apply (bool_decide_unpack _).
  - lia.
  - exact w_eligible.
  - done.
Defined.

Lemma router_select_frame_witness :
  Router_Select (fun _ => 5) 6 id w_collector w_breakers w_router "LOW" ["b"]%string
  = (w_router, w_breakers, NoHealthyServers).
Proof.
  pose proof (router_select_frame (fun _ => 5) 6 w_collector w_breakers w_router "LOW" ["b"]%string
    w_breakers_total) as H.
  destruct (Router_Select (fun _ => 5) 6 id w_collector w_breakers w_router "LOW" ["b"]%string) as [[r' b'] res].
  destruct H as [_ H]. apply H. intros u [Hin Hex (s & Hs & Hh) _].
  apply elem_of_cons in Hin as [-> | [-> | ?%not_elem_of_nil]%elem_of_cons]; [| |done].
  - vm_compute in Hs. by simplify_eq.
  - apply Hex, list_elem_of_here.
Defined.
