(* ===== verification/RuleSyntax.v ===== *)
(** * The rule language's concrete syntax: parsing inverts printing

    The abstract syntax of a rule, what it means as a matcher, and a printer that writes a rule with the
    parentheses its precedences need.  The theorem of the file: [ParseRule] answers on every string, and
    reads every printed rule back as the matcher its syntax tree means. *)
From S2P Require Import Prelude GoStrings NetIP GoHttp Rule.
Open Scope Z_scope.

Section syntax.
Context {tables : UnicodeTables}.

Inductive Atom : Type :=
| APathPrefix (prefix : bytes)
| APath (path : bytes)
| AMethod (method : bytes)
| AHeader (key value : bytes)
| AClientIP (ipRange : bytes).

Inductive RuleExpr : Type :=
| RAtom (a : Atom)
| RAnd (l r : RuleExpr)
| ROr (l r : RuleExpr).

Definition atom_meaning (a : Atom) : MatcherFunc :=
  match a with
  | APathPrefix s => MatchPathPrefix (of_bytes s)
  | APath s => MatchPath (of_bytes s)
  | AMethod s => MatchMethod (of_bytes s)
  | AHeader k v => MatchHeader (of_bytes k) (of_bytes v)
  | AClientIP s => MatchClientIP (of_bytes s)
  end.

Fixpoint meaning (e : RuleExpr) : MatcherFunc :=
  match e with
  | RAtom a => atom_meaning a
  | RAnd l r => MatchAnd (meaning l) (meaning r)
  | ROr l r => MatchOr (meaning l) (meaning r)
  end.

Definition quoted (s : bytes) : bytes := ch_quote :: s ++ [ch_quote].

Definition atom_name (a : Atom) : bytes :=
  match a with
  | APathPrefix _ => to_bytes "PathPrefix"
  | APath _ => to_bytes "Path"
  | AMethod _ => to_bytes "Method"
  | AHeader _ _ => to_bytes "Header"
  | AClientIP _ => to_bytes "ClientIP"
  end.

Definition atom_args (a : Atom) : bytes :=
  match a with
  | APathPrefix s | APath s | AMethod s | AClientIP s => quoted s
  | AHeader k v => quoted k ++ to_bytes ", " ++ quoted v
  end.

Definition print_atom (a : Atom) : bytes := atom_name a ++ ch_lparen :: atom_args a ++ [ch_rparen].

Definition paren (b : bool) (s : bytes) : bytes := if b then ch_lparen :: s ++ [ch_rparen] else s.

(** Level 0 is an expression, 1 a term, 2 a factor. *)
Fixpoint print (level : nat) (e : RuleExpr) : bytes :=
  match e with
  | RAtom a => print_atom a
  | RAnd l r => paren (1 <? level)%nat (print 1 l ++ to_bytes " && " ++ print 2 r)
  | ROr l r => paren (0 <? level)%nat (print 0 l ++ to_bytes " || " ++ print 1 r)
  end.

Definition print_rule (e : RuleExpr) : string := of_bytes (print 0 e).

(** An argument the quoting can hold: ASCII, not empty, without the quote, and without white space at
    its ends. *)
Definition arg_ok (s : bytes) : bool :=
  is_ascii s && solid_ends s && negb (length s =? 0)%nat && forallb (fun c => negb (Ascii.eqb c ch_quote)) s.

Definition atom_ok (a : Atom) : bool :=
  match a with
  | APathPrefix s | APath s | AMethod s | AClientIP s => arg_ok s
  | AHeader k v => arg_ok k && arg_ok v
  end.

Fixpoint rule_ok (e : RuleExpr) : bool :=
  match e with
  | RAtom a => atom_ok a
  | RAnd l r | ROr l r => rule_ok l && rule_ok r
  end.

(** ** More fuel changes no answer *)
Definition le_out {A} (o o' : outcome A) : Prop := forall r, o = Some r -> o' = Some r.

Lemma le_out_refl {A} (o : outcome A) : le_out o o.
Proof. by intros r. Qed.
#[local] Hint Resolve le_out_refl : core.

Lemma obind_le {A B} (o o' : outcome A) (k k' : A -> outcome B) :
  le_out o o' -> (forall a, le_out (k a) (k' a)) -> le_out (obind o k) (obind o' k').
Proof.
  intros Ho Hk r. destruct o as [[a|e]|]; simpl; [| |done]; rewrite (Ho _ eq_refl); simpl; [apply Hk|done].
Qed.

Lemma parse_loop_le n n' sep combine operand operand' m p :
  (n <= n')%nat -> (forall p, le_out (operand p) (operand' p)) ->
  le_out (parse_loop n sep combine operand m p) (parse_loop n' sep combine operand' m p).
Proof.
  intros Hn Hop. revert n' Hn m p. induction n as [|n IH]; intros n' Hn m p r; [done|].
  destruct n' as [|n']; [lia|]. cbn [parse_loop]. destruct (sep _); [|done].
  apply obind_le; [done|]. intros p'. apply obind_le; [apply Hop|]. intros [rt q]. apply IH. lia.
Qed.

Lemma parseFactor_le E E' p : (forall p, le_out (E p) (E' p)) -> le_out (parseFactor_with E p) (parseFactor_with E' p).
Proof.
  intros HE. unfold parseFactor_with. destruct (tok_Type _); auto.
  apply obind_le; [done|]. intros q. apply obind_le; [apply HE|]. by intros [m p'].
Qed.

Lemma parseExpression_le n n' p : (n <= n')%nat -> le_out (parseExpression n p) (parseExpression n' p).
Proof.
  revert n' p. induction n as [|n IH]; intros n' p Hn r; [done|]. destruct n' as [|n']; [lia|].
  cbn [parseExpression].
  apply obind_le; [|intros [m q]; apply parse_loop_le; [lia|]; intros q'].
  all: apply obind_le; [|intros [m2 q2]; apply parse_loop_le; [lia|]; intros q3].
  all: apply parseFactor_le; intros; apply IH; lia.
Qed.

Lemma ParseRule_fuel_le n n' rule : (n <= n')%nat -> le_out (ParseRule_fuel n rule) (ParseRule_fuel n' rule).
Proof.
  intros Hn. apply obind_le; [done|]. intros p. apply obind_le; [by apply parseExpression_le|].
  by intros [m q].
Qed.

(** ** Arguments *)
Lemma args_loop_quoted s rs args current :
  is_ascii s = true -> forallb (fun c => negb (Ascii.eqb c ch_quote)) s = true ->
  args_loop ((byte <$> s) ++ byte ch_quote :: rs) args current (Some (byte ch_quote)) =
  args_loop rs args (current ++ (byte <$> s)) None.
Proof.
  intros _. revert current. induction s as [|c s IH]; intros current Hq.
  - cbn [fmap list_fmap app args_loop]. by rewrite Z.eqb_refl, app_nil_r.
  - cbn [forallb] in Hq. apply andb_true_iff in Hq as [Hc Hq]. cbn [fmap list_fmap app args_loop].
    destruct (byte c =? byte ch_quote) eqn:E.
    { apply Z.eqb_eq, byte_inj in E as ->. by vm_compute in Hc. }
    rewrite IH by done. by rewrite <- app_assoc.
Qed.

Lemma trimmed_arg s : arg_ok s = true -> of_bytes (TrimSpace (of_runes (byte <$> s))) = of_bytes s.
Proof.
  unfold arg_ok. rewrite !andb_true_iff. intros [[[Ha Hs] _] _].
  by rewrite of_runes_ascii, TrimSpace_solid.
Qed.

(** The separator's space ends up in front of the second argument and is trimmed. *)
Lemma trimmed_spaced_arg s :
  arg_ok s = true -> of_bytes (TrimSpace (of_runes (32 :: (byte <$> s)))) = of_bytes s.
Proof.
  unfold arg_ok. rewrite !andb_true_iff. intros [[[Ha Hs] _] _].
  change (32 :: (byte <$> s)) with (byte <$> (" "%char :: s)). rewrite of_runes_ascii by done.
  transitivity (of_bytes (TrimSpace s)); [done|]. by rewrite TrimSpace_solid.
Qed.

Lemma arg_nonempty s : arg_ok s = true -> exists c s', s = c :: s'.
Proof. unfold arg_ok. rewrite !andb_true_iff. destruct s as [|c s]; [intros [[_ ?] _]; done|by eauto]. Qed.

Lemma is_ascii_app s t : is_ascii (s ++ t) = is_ascii s && is_ascii t.
Proof. apply forallb_app. Qed.

Lemma arg_ascii s : arg_ok s = true -> is_ascii s = true.
Proof. unfold arg_ok. rewrite !andb_true_iff. tauto. Qed.

Lemma arg_noquote s : arg_ok s = true -> forallb (fun c => negb (Ascii.eqb c ch_quote)) s = true.
Proof. unfold arg_ok. rewrite !andb_true_iff. tauto. Qed.

Lemma is_ascii_quoted s : is_ascii (quoted s) = is_ascii s.
Proof. unfold quoted. change (is_ascii (ch_quote :: ?x)) with (is_ascii x). rewrite is_ascii_app. by rewrite andb_true_r. Qed.

(** A text that opens and closes with a quote has solid ends. *)
Lemma solid_ends_quoted s t : solid_ends (ch_quote :: s ++ quoted t) = true.
Proof. cbn [solid_ends]. unfold quoted. by rewrite !app_comm_cons, !app_assoc, List.last_last. Qed.

Lemma solid_ends_quoted1 s : solid_ends (quoted s) = true.
Proof. cbn [solid_ends quoted]. unfold quoted. by rewrite app_comm_cons, List.last_last. Qed.

Lemma solid_ends_two k v : solid_ends (quoted k ++ to_bytes ", " ++ quoted v) = true.
Proof.
  unfold quoted at 1; cbn [app]. rewrite <- app_assoc, (app_assoc [_]), (app_assoc k). apply solid_ends_quoted.
Qed.

Lemma fmap_quoted s : byte <$> quoted s = byte ch_quote :: (byte <$> s) ++ [byte ch_quote].
Proof. unfold quoted. rewrite fmap_cons, fmap_app. done. Qed.

(** A quoted text is read into the current argument. *)
Lemma args_loop_text s rs args current :
  arg_ok s = true ->
  args_loop ((byte <$> quoted s) ++ rs) args current None =
  args_loop rs args (current ++ (byte <$> s)) None.
Proof.
  intros Hs. rewrite fmap_quoted, <- app_comm_cons, <- app_assoc. cbn [args_loop]. cbn.
  by rewrite args_loop_quoted by (by apply arg_ascii || by apply arg_noquote).
Qed.

Lemma args_loop_end args current :
  current <> [] -> args_loop [] args current None = Ok (args ++ [of_bytes (TrimSpace (of_runes current))]).
Proof. by destruct current. Qed.

Lemma arg_runes_nonempty s : arg_ok s = true -> byte <$> s <> [].
Proof. intros (c & s' & ->)%arg_nonempty. done. Qed.

Lemma parse_one s : arg_ok s = true -> parseArgs (quoted s) = Ok [of_bytes s].
Proof.
  intros Hs. unfold parseArgs. rewrite TrimSpace_solid by apply solid_ends_quoted1.
  change (length (quoted s) =? 0)%nat with false. cbv iota. rewrite runes_ascii by (rewrite is_ascii_quoted; by apply arg_ascii).
  rewrite <- (app_nil_r (byte <$> quoted s)), args_loop_text by done.
  rewrite args_loop_end by (by apply arg_runes_nonempty). cbn [app]. by rewrite trimmed_arg.
Qed.

Lemma parse_two k v : arg_ok k = true -> arg_ok v = true ->
  parseArgs (quoted k ++ to_bytes ", " ++ quoted v) = Ok [of_bytes k; of_bytes v].
Proof.
  intros Hk Hv. unfold parseArgs.
  rewrite TrimSpace_solid by apply solid_ends_two.
  change (length (quoted k ++ to_bytes ", " ++ quoted v) =? 0)%nat with false. cbv iota.
  rewrite runes_ascii by (rewrite !is_ascii_app, !is_ascii_quoted, (arg_ascii k), (arg_ascii v) by done; done).
  rewrite !fmap_app, args_loop_text by done.
  rewrite <- (app_nil_r (byte <$> quoted v)).
  transitivity (args_loop ((byte <$> quoted v) ++ []) [of_bytes k] [32] None).
  { by rewrite <- (trimmed_arg k Hk). }
  rewrite args_loop_text, args_loop_end by done. cbn [app]. by rewrite trimmed_spaced_arg.
Qed.

Lemma bytes_suffix_last s c : bytes_suffix (s ++ [c]) [c] = true.
Proof. unfold bytes_suffix. rewrite rev_app_distr. cbn. by rewrite Ascii.eqb_refl. Qed.

(** The slice between the parentheses. *)
Lemma args_slice name args :
  take (length (name ++ ch_lparen :: args ++ [ch_rparen]) - 1 - (length name + 1))
       (drop (length name + 1) (name ++ ch_lparen :: args ++ [ch_rparen])) = args.
Proof.
  rewrite <- drop_drop, drop_app_length. cbn [drop]. rewrite drop_0, length_app. cbn [length]. rewrite length_app. cbn [length].
  replace (_ - 1 - _)%nat with (length args) by lia. apply take_app_length.
Qed.

Lemma createMatcher_print a : atom_ok a = true -> createMatcher (print_atom a) = Ok (atom_meaning a).
Proof.
  intros Ha. unfold createMatcher, print_atom.
  assert (IndexByte (atom_name a ++ ch_lparen :: atom_args a ++ [ch_rparen]) ch_lparen = Some (length (atom_name a)))
    as -> by (generalize (atom_args a); by destruct a).
  rewrite app_comm_cons, app_assoc, bytes_suffix_last. cbn [negb]. rewrite <- app_assoc, <- app_comm_cons.
  rewrite take_app_length, args_slice.
  assert (TrimSpace (atom_args a) = atom_args a) as ->.
  { apply TrimSpace_solid. destruct a; (apply solid_ends_quoted1 || apply solid_ends_two). }
  assert (parseArgs (atom_args a) = Ok match a with
    | APathPrefix s | APath s | AMethod s | AClientIP s => [of_bytes s]
    | AHeader k v => [of_bytes k; of_bytes v] end) as ->.
  { destruct a; [by apply parse_one..| |by apply parse_one]. apply andb_true_iff in Ha as [Hk Hv]. by apply parse_two. }
  by destruct a.
Qed.

(** ** Lexing printed text *)
(** [p] is a parser state just after [next] on a lexer whose remaining input is [s]. *)
Definition reads (p : parser) (s : bytes) : Prop :=
  exists l, lx_rest l = s /\ nextToken l = Ok (p_lex p, p_curTok p).

(** Every lexer with [s] ahead has a next token. *)
Definition readable (s : bytes) : Prop := forall l, lx_rest l = s -> exists r, nextToken l = Ok r.

Lemma next_reads p s :
  lx_rest (p_lex p) = s -> readable s -> exists p', parser_next p = Ok p' /\ reads p' s.
Proof.
  intros Hs Hr. destruct (Hr _ Hs) as [[l t] Hl]. unfold parser_next. rewrite Hl. simpl.
  eexists; split; [done|]. by exists (p_lex p).
Qed.

Lemma skip_none l c s : lx_rest l = c :: s -> IsSpace (byte c) = false -> skipWhitespace l = l.
Proof. intros E Hc. unfold skipWhitespace. rewrite E. cbn [spaces]. rewrite Hc, Nat.add_0_r. by destruct l. Qed.

Lemma skip_one l c s :
  lx_rest l = " "%char :: c :: s -> IsSpace (byte c) = false -> skipWhitespace l = advance 1 l.
Proof. intros E Hc. unfold skipWhitespace. rewrite E. cbn [spaces]. by rewrite Hc. Qed.

Lemma nextToken_end l : lx_rest l = [] -> nextToken l = Ok (l, mkToken TokenEOF []).
Proof.
  intros E. unfold nextToken. assert (skipWhitespace l = l) as ->; [|by rewrite E].
  unfold skipWhitespace. rewrite E, Nat.add_0_r. by destruct l.
Qed.

Lemma nextToken_lparen l s :
  lx_rest l = ch_lparen :: s -> nextToken l = Ok (advance 1 l, mkToken TokenLParen [ch_lparen]).
Proof. intros E. unfold nextToken. by rewrite (skip_none l _ _ E), E by done. Qed.

Lemma nextToken_rparen l s :
  lx_rest l = ch_rparen :: s -> nextToken l = Ok (advance 1 l, mkToken TokenRParen [ch_rparen]).
Proof. intros E. unfold nextToken. by rewrite (skip_none l _ _ E), E by done. Qed.

Lemma nextToken_and l s :
  lx_rest l = to_bytes " && " ++ s ->
  nextToken l = Ok (advance 2 (advance 1 l), mkToken TokenAnd [ch_amp; ch_amp]).
Proof.
  intros E. unfold nextToken. rewrite (skip_one l "&"%char ("&"%char :: " "%char :: s)) by done.
  rewrite lx_rest_advance, E. reflexivity.
Qed.

Lemma nextToken_or l s :
  lx_rest l = to_bytes " || " ++ s ->
  nextToken l = Ok (advance 2 (advance 1 l), mkToken TokenOr [ch_bar; ch_bar]).
Proof.
  intros E. unfold nextToken. rewrite (skip_one l "|"%char ("|"%char :: " "%char :: s)) by done.
  rewrite lx_rest_advance, E. reflexivity.
Qed.

Lemma matcher_scan_in_quotes s rest :
  forallb (fun c => negb (Ascii.eqb c ch_quote)) s = true ->
  matcher_scan (s ++ ch_quote :: rest) false (Some ch_quote) =
  (fun n => length s + 1 + n)%nat <$> matcher_scan rest false None.
Proof.
  induction s as [|c s IH]; intros Hs.
  - cbn [app matcher_scan]. rewrite Ascii.eqb_refl. by destruct (matcher_scan rest false None).
  - cbn [forallb] in Hs. apply andb_true_iff in Hs as [Hc Hs]. apply negb_true_iff in Hc.
    cbn [app matcher_scan]. rewrite Hc, IH by done. by destruct (matcher_scan rest false None).
Qed.

Lemma matcher_scan_quoted s rest :
  arg_ok s = true ->
  matcher_scan (quoted s ++ rest) false None =
  (fun n => length (quoted s) + n)%nat <$> matcher_scan rest false None.
Proof.
  intros Hs. unfold quoted. cbn [app]. rewrite <- app_assoc. cbn [app matcher_scan].
  change (is_quote ch_quote) with true. cbv iota. rewrite matcher_scan_in_quotes by (by apply arg_noquote).
  destruct (matcher_scan rest false None); [|done]. cbn. f_equal. rewrite length_app. simpl. lia.
Qed.

Lemma matcher_scan_rparen rest : matcher_scan (ch_rparen :: rest) false None = Some 1%nat.
Proof. done. Qed.

Lemma matcher_scan_print a rest :
  atom_ok a = true ->
  matcher_scan (print_atom a ++ rest) true None = Some (length (print_atom a)).
Proof.
  intros Ha. unfold print_atom. rewrite <- app_assoc. cbn [app]. rewrite <- app_assoc. cbn [app].
  transitivity ((fun n => length (atom_name a) + 1 + n)%nat <$> matcher_scan (atom_args a ++ ch_rparen :: rest) false None).
  { generalize (atom_args a ++ ch_rparen :: rest). intros X.
    destruct a; cbn; by destruct (matcher_scan X false None). }
  assert (matcher_scan (atom_args a ++ ch_rparen :: rest) false None = Some (length (atom_args a) + 1)%nat) as ->.
  { destruct a; cbn [atom_args]; try (by rewrite matcher_scan_quoted, matcher_scan_rparen by done).
    apply andb_true_iff in Ha as [Hk Hv]. rewrite <- app_assoc, matcher_scan_quoted by done.
    change (matcher_scan ((to_bytes ", " ++ quoted value) ++ ch_rparen :: rest) false None)
      with (S <$> (S <$> matcher_scan (quoted value ++ ch_rparen :: rest) false None)).
    rewrite matcher_scan_quoted, matcher_scan_rparen by done. cbn [fmap option_fmap option_map].
    f_equal. rewrite !length_app. simpl. lia. }
  cbn. f_equal. rewrite length_app. cbn [length]. rewrite length_app. simpl. lia.
Qed.

Lemma nextToken_atom l a s :
  atom_ok a = true -> lx_rest l = print_atom a ++ s ->
  nextToken l = Ok (advance (length (print_atom a)) l, mkToken TokenMatcher (print_atom a)).
Proof.
  intros Ha E. unfold nextToken.
  assert (exists c r, print_atom a ++ s = c :: r /\ IsSpace (byte c) = false /\ IsLetter_latin1 (byte c) = true /\
    Ascii.eqb c ch_lparen = false /\ Ascii.eqb c ch_rparen = false /\ Ascii.eqb c ch_amp = false /\
    Ascii.eqb c ch_bar = false) as (c & r & Hc & Hsp & Hl & H1 & H2 & H3 & H4)
    by (destruct a; eexists _, _; repeat split).
  rewrite (skip_none l c r) by congruence. rewrite E, Hc, H1, H2.
  assert (doubled ch_amp (c :: r) = false) as -> by (destruct r; simpl; by rewrite ?H3).
  assert (doubled ch_bar (c :: r) = false) as -> by (destruct r; simpl; by rewrite ?H4).
  rewrite Hl. unfold readMatcher. rewrite E, matcher_scan_print by done. by rewrite take_app_length.
Qed.

(** ** Reading the tokens of a printed rule *)
(** What may follow a printed factor, and what may follow a whole printed expression. *)
Definition follows_expr (s : bytes) : Prop :=
  s = [] \/ (exists t, s = ch_rparen :: t) \/ (exists t, s = to_bytes " || " ++ t).
Definition follows (s : bytes) : Prop := follows_expr s \/ exists t, s = to_bytes " && " ++ t.

Lemma follows_readable s : follows s -> readable s.
Proof.
  intros [[->|[[t ->]|[t ->]]]|[t ->]] l E; eexists;
    [by apply nextToken_end|by eapply nextToken_rparen|by eapply nextToken_or|by eapply nextToken_and].
Qed.

Lemma print_readable level e s : rule_ok e = true -> readable (print level e ++ s).
Proof.
  revert level s. induction e as [a|x IHx y IHy|x IHx y IHy]; intros level s He; cbn [print rule_ok] in *.
  - intros l E. eexists. by eapply nextToken_atom.
  - apply andb_true_iff in He as [Hx Hy]. unfold paren. case_match.
    + intros l E. eexists. by eapply nextToken_lparen.
    + rewrite <- app_assoc. by apply IHx.
  - apply andb_true_iff in He as [Hx Hy]. unfold paren. case_match.
    + intros l E. eexists. by eapply nextToken_lparen.
    + rewrite <- app_assoc. by apply IHx.
Qed.

(** The token in hand decides; the lexer is past it. *)
Lemma reads_lparen p s : reads p (ch_lparen :: s) -> tok_Type (p_curTok p) = TokenLParen /\ lx_rest (p_lex p) = s.
Proof.
  intros (l & E & Hl). rewrite (nextToken_lparen l s E) in Hl. injection Hl as <- <-.
  by rewrite lx_rest_advance, E.
Qed.

Lemma reads_rparen p s : reads p (ch_rparen :: s) -> tok_Type (p_curTok p) = TokenRParen /\ lx_rest (p_lex p) = s.
Proof.
  intros (l & E & Hl). rewrite (nextToken_rparen l s E) in Hl. injection Hl as <- <-.
  by rewrite lx_rest_advance, E.
Qed.

Lemma reads_and p s : reads p (to_bytes " && " ++ s) ->
  tok_Type (p_curTok p) = TokenAnd /\ lx_rest (p_lex p) = " "%char :: s.
Proof.
  intros (l & E & Hl). rewrite (nextToken_and l s E) in Hl. injection Hl as <- <-.
  by rewrite !lx_rest_advance, E.
Qed.

Lemma reads_or p s : reads p (to_bytes " || " ++ s) ->
  tok_Type (p_curTok p) = TokenOr /\ lx_rest (p_lex p) = " "%char :: s.
Proof.
  intros (l & E & Hl). rewrite (nextToken_or l s E) in Hl. injection Hl as <- <-.
  by rewrite !lx_rest_advance, E.
Qed.

Lemma reads_atom p a s : atom_ok a = true -> reads p (print_atom a ++ s) ->
  p_curTok p = mkToken TokenMatcher (print_atom a) /\ lx_rest (p_lex p) = s.
Proof.
  intros Ha (l & E & Hl). rewrite (nextToken_atom l a s Ha E) in Hl. injection Hl as <- <-.
  by rewrite lx_rest_advance, E, drop_app_length.
Qed.

Lemma reads_end p : reads p [] -> tok_Type (p_curTok p) = TokenEOF.
Proof. intros (l & E & Hl). rewrite (nextToken_end l E) in Hl. by injection Hl as _ <-. Qed.

(** A space before the next token does not matter. *)
Lemma reads_space p s c : IsSpace (byte c) = true -> reads p (c :: s) -> reads p s.
Proof.
  intros Hc (l & E & Hl). exists (advance 1 l). rewrite lx_rest_advance, E. split; [done|].
  rewrite <- Hl. unfold nextToken.
  assert (skipWhitespace (advance 1 l) = skipWhitespace l) as ->; [|done].
  unfold skipWhitespace. rewrite lx_rest_advance, E. cbn [spaces drop]. rewrite Hc. simpl.
  rewrite drop_0. f_equal. lia.
Qed.

Lemma readable_space s : readable s -> readable (" "%char :: s).
Proof.
  intros Hr l E. destruct (Hr (advance 1 l)) as [r Hl]; [by rewrite lx_rest_advance, E|].
  exists r. rewrite <- Hl. unfold nextToken.
  assert (skipWhitespace (advance 1 l) = skipWhitespace l) as ->; [|done].
  unfold skipWhitespace. rewrite lx_rest_advance, E. cbn [spaces drop].
  change (IsSpace (byte " ")) with true. simpl. rewrite drop_0. f_equal. lia.
Qed.

(** After an operator the parser holds the first token of the operand. *)
Lemma next_operand p s :
  lx_rest (p_lex p) = " "%char :: s -> readable s -> exists p', parser_next p = Ok p' /\ reads p' s.
Proof.
  intros E Hr. destruct (next_reads p _ E (readable_space s Hr)) as (p' & Hp & Hread).
  exists p'. split; [done|]. by apply (reads_space _ _ " "%char).
Qed.

(** ** Parsing printed text *)
(** [P] holds of every large enough loop fuel and nesting fuel. *)
Definition eventually (P : nat -> nat -> Prop) : Prop :=
  exists N, forall n m, (N <= n)%nat -> (N <= m)%nat -> P n m.

Lemma eventually_and (P Q R : nat -> nat -> Prop) :
  (forall n m, P n m -> Q n m -> R n m) -> eventually P -> eventually Q -> eventually R.
Proof.
  intros H [N HP] [M HQ]. exists (N `max` M)%nat. intros n m Hn Hm. apply H; [apply HP|apply HQ]; lia.
Qed.

Lemma eventually_diag (P : nat -> nat -> Prop) : eventually P -> eventually (fun _ m => P m m).
Proof. intros [N HP]. exists N. intros n m _ Hm. by apply HP. Qed.

Lemma loop_end sep combine operand m p :
  sep (p_curTok p) = false ->
  eventually (fun n k => parse_loop n sep combine (operand k) m p = Some (Ok (m, p))).
Proof. intros Hs. exists 1%nat. intros [|n] k Hn _; [lia|]. cbn [parse_loop]. by rewrite Hs. Qed.

Lemma loop_step sep combine (operand : nat -> parser -> outcome (MatcherFunc * parser)) m p p1 rt p2 r :
  sep (p_curTok p) = true -> parser_next p = Ok p1 ->
  eventually (fun _ k => operand k p1 = Some (Ok (rt, p2))) ->
  eventually (fun n k => parse_loop n sep combine (operand k) (combine m rt) p2 = Some r) ->
  eventually (fun n k => parse_loop n sep combine (operand k) m p = Some r).
Proof.
  intros Hs Hp1 [N Hop] [M Hl]. exists (S (N `max` M)). intros [|n] k Hn Hk; [lia|].
  cbn [parse_loop]. rewrite Hs, Hp1. cbn [obind]. rewrite (Hop k k) by lia. cbn [obind]. apply Hl; lia.
Qed.

(** What the three levels of the grammar do on printed text: a factor is read whole; a term and an
    expression go on with their operator's loop. *)
Definition reads_factor (e : RuleExpr) : Prop :=
  forall s p, follows s -> reads p (print 2 e ++ s) ->
  exists p', reads p' s /\ eventually (fun _ k => parseFactor k p = Some (Ok (meaning e, p'))).

Definition reads_term (e : RuleExpr) : Prop :=
  forall s p, follows s -> reads p (print 1 e ++ s) ->
  exists p', reads p' s /\ forall r,
    eventually (fun n k => parse_loop n is_and MatchAnd (parseFactor k) (meaning e) p' = Some r) ->
    eventually (fun n k => parseTerm_with n (parseFactor k) p = Some r).

Definition reads_expr (e : RuleExpr) : Prop :=
  forall s p, follows_expr s -> reads p (print 0 e ++ s) ->
  exists p', reads p' s /\ forall r,
    eventually (fun n k => parse_loop n is_or MatchOr (parseTerm k) (meaning e) p' = Some r) ->
    eventually (fun n k => parseExpression_with n (parseTerm k) p = Some r).

Lemma follows_expr_not_and p s : follows_expr s -> reads p s -> is_and (p_curTok p) = false.
Proof.
  intros [->|[[t ->]|[t ->]]] H; unfold is_and;
    [by rewrite (reads_end p H)|by destruct (reads_rparen _ _ H) as [-> _]|by destruct (reads_or _ _ H) as [-> _]].
Qed.

(** A term that is one factor. *)
Lemma factor_is_term e : print 1 e = print 2 e -> reads_factor e -> reads_term e.
Proof.
  intros Hpr HF s p Hs Hp. rewrite Hpr in Hp. destruct (HF s p Hs Hp) as (p' & Hp' & Hev).
  exists p'. split; [done|]. intros r. revert Hev. apply eventually_and. intros n k Hf Hl.
  unfold parseTerm_with. rewrite Hf. exact Hl.
Qed.

(** Before a token that is not an [&&], a term is read whole. *)
Lemma term_whole e s p :
  reads_term e -> follows_expr s -> reads p (print 1 e ++ s) ->
  exists p', reads p' s /\ eventually (fun _ k => parseTerm k p = Some (Ok (meaning e, p'))).
Proof.
  intros HT Hs Hp. destruct (HT s p) as (p' & Hp' & Hr); [by left|done|]. exists p'. split; [done|].
  apply (eventually_diag (fun n k => parseTerm_with n (parseFactor k) p = Some (Ok (meaning e, p')))).
  apply Hr, loop_end. by eapply follows_expr_not_and.
Qed.

Lemma term_is_expr e : print 0 e = print 1 e -> reads_term e -> reads_expr e.
Proof.
  intros Hpr HT s p Hs Hp. rewrite Hpr in Hp. destruct (term_whole e s p HT Hs Hp) as (p' & Hp' & Hev).
  exists p'. split; [done|]. intros r. revert Hev. apply eventually_and. intros n k Hf Hl.
  unfold parseExpression_with. rewrite Hf. exact Hl.
Qed.

(** An expression in parentheses is a factor. *)
Lemma paren_is_factor e :
  print 2 e = ch_lparen :: print 0 e ++ [ch_rparen] -> rule_ok e = true -> reads_expr e -> reads_factor e.
Proof.
  intros Hpr He HE s p Hs Hp. rewrite Hpr in Hp. cbn [app] in Hp. rewrite <- app_assoc in Hp. cbn [app] in Hp.
  destruct (reads_lparen _ _ Hp) as [Ht Hrest].
  destruct (next_reads p _ Hrest (print_readable 0 e _ He)) as (p1 & Hp1 & Hread).
  destruct (HE (ch_rparen :: s) p1) as (p2 & Hp2 & Hr); [right; left; by eexists|done|].
  destruct (reads_rparen _ _ Hp2) as [Ht2 Hrest2].
  destruct (next_reads p2 s Hrest2 (follows_readable s Hs)) as (p3 & Hp3 & Hread3).
  exists p3. split; [done|].
  specialize (Hr (Ok (meaning e, p2))). destruct Hr as [N HN].
  { apply loop_end. unfold is_or. by rewrite Ht2. }
  exists (S N). intros n [|k] _ Hk; [lia|]. unfold parseFactor, parseFactor_with. rewrite Ht, Hp1.
  cbn [obind parseExpression]. change (parseTerm_with k (parseFactor_with (parseExpression k))) with (parseTerm k).
  rewrite HN by lia. cbn [obind]. rewrite Ht2, Hp3. done.
Qed.

Lemma atom_is_factor a : atom_ok a = true -> reads_factor (RAtom a).
Proof.
  intros Ha s p Hs Hp. destruct (reads_atom p a s Ha Hp) as [Ht Hrest].
  destruct (next_reads p s Hrest (follows_readable s Hs)) as (p' & Hp' & Hread).
  exists p'. split; [done|]. exists 0%nat. intros n k _ _. unfold parseFactor, parseFactor_with.
  rewrite Ht. cbn [tok_Type tok_Value]. rewrite createMatcher_print by done. cbn [obind]. by rewrite Hp'.
Qed.

Lemma and_is_term l r : rule_ok r = true -> reads_term l -> reads_factor r -> reads_term (RAnd l r).
Proof.
  intros Hr HTl HFr s p Hs Hp. cbn [print paren Nat.ltb Nat.leb] in Hp. rewrite <- !app_assoc in Hp.
  destruct (HTl (to_bytes " && " ++ print 2 r ++ s) p) as (p1 & Hp1 & Hloop); [right; by eexists|done|].
  destruct (reads_and _ _ Hp1) as [Ht Hrest].
  destruct (next_operand p1 _ Hrest (print_readable 2 r s Hr)) as (p2 & Hp2 & Hread2).
  destruct (HFr s p2 Hs Hread2) as (p3 & Hread3 & Hev). exists p3. split; [done|].
  intros res Hres. apply Hloop. eapply (loop_step is_and MatchAnd parseFactor); [|done..].
  unfold is_and. by rewrite Ht.
Qed.

Lemma or_is_expr l r : rule_ok r = true -> reads_expr l -> reads_term r -> reads_expr (ROr l r).
Proof.
  intros Hr HEl HTr s p Hs Hp. cbn [print paren Nat.ltb Nat.leb] in Hp. rewrite <- !app_assoc in Hp.
  destruct (HEl (to_bytes " || " ++ print 1 r ++ s) p) as (p1 & Hp1 & Hloop); [right; right; by eexists|done|].
  destruct (reads_or _ _ Hp1) as [Ht Hrest].
  destruct (next_operand p1 _ Hrest (print_readable 1 r s Hr)) as (p2 & Hp2 & Hread2).
  destruct (term_whole r s p2 HTr Hs Hread2) as (p3 & Hread3 & Hev). exists p3. split; [done|].
  intros res Hres. apply Hloop. eapply (loop_step is_or MatchOr parseTerm); [|done..].
  unfold is_or. by rewrite Ht.
Qed.

Lemma reads_all e : rule_ok e = true -> reads_factor e /\ reads_term e /\ reads_expr e.
Proof.
  induction e as [a|l IHl r IHr|l IHl r IHr]; cbn [rule_ok]; intros He.
  - pose proof (atom_is_factor a He) as HF. pose proof (factor_is_term (RAtom a) eq_refl HF) as HT.
    split_and!; [done..|]. by apply term_is_expr.
  - pose proof He as [Hl Hr]%andb_true_iff. destruct (IHl Hl) as (_ & HTl & _), (IHr Hr) as (HFr & _ & _).
    pose proof (and_is_term l r Hr HTl HFr) as HT. pose proof (term_is_expr (RAnd l r) eq_refl HT) as HE.
    split_and!; [|done..]. by apply paren_is_factor.
  - pose proof He as [Hl Hr]%andb_true_iff. destruct (IHl Hl) as (_ & _ & HEl), (IHr Hr) as (_ & HTr & _).
    pose proof (or_is_expr l r Hr HEl HTr) as HE. pose proof (paren_is_factor (ROr l r) eq_refl He HE) as HF.
    split_and!; [done| |done]. by apply factor_is_term.
Qed.

Lemma ParseRule_eventually e :
  rule_ok e = true -> exists n, ParseRule_fuel n (print 0 e) = Some (Ok (meaning e)).
Proof.
  intros He. destruct (reads_all e He) as (_ & _ & HE).
  destruct (next_reads (mkParser (mkLexer (print 0 e ++ []) 0) (mkToken TokenEOF [])) (print 0 e ++ []))
    as (p & Hp & Hread); [apply drop_0|by apply print_readable|].
  destruct (HE [] p) as (p' & Hread' & Hr); [by left|done|]. pose proof (reads_end _ Hread') as Heof.
  destruct (Hr (Ok (meaning e, p'))) as [N HN].
  { apply loop_end. unfold is_or. by rewrite Heof. }
  exists (S N). unfold ParseRule_fuel. rewrite <- (app_nil_r (print 0 e)), Hp. cbn [obind parseExpression].
  change (parseTerm_with N (parseFactor_with (parseExpression N))) with (parseTerm N).
  rewrite (HN N N) by lia. cbn [obind]. unfold is_eof. by rewrite Heof.
Qed.

Lemma ParseRule_answers rule : is_Some (ParseRule rule).
Proof. apply ParseRule_fuel_total. lia. Qed.
End syntax.

(** C12. The rule parser answers on every string, whatever its bytes: it returns a matcher or one of its
    errors; the recursion and the loops of the descent end, because every token takes input. *)
Theorem ParseRule_total `{!UnicodeTables} (rule : string) :
  (exists m, ParseRule rule = Some (Ok m)) \/ (exists e, ParseRule rule = Some (Err e)).
Proof. destruct (ParseRule_answers rule) as [[m|e] ->]; eauto. Qed.

(** C11. Round trip: a rule printed from a syntax tree, with parentheses only where the precedence of && over
    || and their left associativity need them, parses to exactly the matcher the tree means. *)
Theorem ParseRule_print `{!UnicodeTables} (e : RuleExpr) :
  rule_ok e = true -> ParseRule (print_rule e) = Some (Ok (meaning e)).
Proof.
  intros He. destruct (ParseRule_eventually e He) as [n Hn].
  destruct (ParseRule_answers (print_rule e)) as [r Hr]. rewrite Hr.
  unfold ParseRule, print_rule in Hr. rewrite to_of_bytes in Hr.
  set (k := (length (print 0 e) + 2)%nat) in Hr.
  apply (ParseRule_fuel_le n (n `max` k)) in Hn; [|lia].
  apply (ParseRule_fuel_le k (n `max` k)) in Hr; [|lia]. congruence.
Qed.

Definition example_tables : UnicodeTables := fun r => r.

Definition example_rule : RuleExpr :=
  RAnd (ROr (RAtom (APathPrefix (to_bytes "/api"))) (RAtom (APath (to_bytes "/health"))))
       (RAtom (AHeader (to_bytes "X-Env") (to_bytes "a, (b)"))).

Lemma ParseRule_print_witness :
  print_rule example_rule = "(PathPrefix('/api') || Path('/health')) && Header('X-Env', 'a, (b)')"%string /\
  @ParseRule example_tables (print_rule example_rule) = Some (Ok (@meaning example_tables example_rule)).
Proof.
  split; [reflexivity|]. apply (@ParseRule_print example_tables example_rule). reflexivity.
Defined.

(** ** Concrete rules *)
Definition request (method path : string) (header : Header) : Request :=
  mkRequest method path path "10.0.0.1:4000" "host" false header [] Background.

Definition answer (rule : string) (req : Request) : option (result RuleError bool) :=
  match @ParseRule example_tables rule with
  | Some (Ok m) => Some (Ok (m req))
  | Some (Err e) => Some (Err e)
  | None => None
  end.

Example parentheses_override_precedence :
  answer "PathPrefix('/api') && (Method('POST') || Method('PUT'))" (request "PUT" "/api/update" ∅) = Some (Ok true) /\
  answer "PathPrefix('/api') && Method('POST') || Method('PUT')" (request "PUT" "/other" ∅) = Some (Ok true).
Proof. split; reflexivity. Qed.

Example missing_parenthesis : answer "PathPrefix('/api'" (request "GET" "/" ∅) = Some (Err (UnterminatedMatcher 0)).
Proof. reflexivity. Qed.

(** An empty quoted last argument is not counted as an argument. *)
Example empty_last_argument :
  answer "Header('X-Debug','')" (request "GET" "/" ∅) = Some (Err (WrongArgumentCount "Header")).
Proof. reflexivity. Qed.
