(* ===== verification/Routes.v ===== *)
(** * router/router.go: the table of routes

    [AddRoute] parses the rule, appends the route and sorts the table with [sort.Slice], which promises
    no stability: the theorems hold for every sort.  A request goes to a matching route of the highest
    priority and, among these, of the longest rule text.  Between matching routes that tie in both, the order
    of the additions decides, which [main] takes from a map. *)
From S2P Require Import Prelude GoSort GoStrings GoHttp Rule RuleSyntax.
Open Scope Z_scope.

Section routes.
(** [H] is the type of compiled handlers. *)
Context {H : Type} {tables : UnicodeTables}.

Record Route : Type := mkRoute {
  rt_Name : string;
  rt_RuleString : string;
  rt_Priority : Z;
  rt_Middlewares : list string;
  rt_Service : string;
  rt_Match : MatcherFunc;
  rt_Handler : H;
}.

Record Manager : Type := mkManager { m_routes : list Route }.

Definition NewManager : Manager := mkManager [].

(** [ParseRule] as the Go function: the [None] of a run out of fuel never happens ([ParseRule_answers]). *)
Definition parse_rule (rule : string) : result RuleError MatcherFunc :=
  default (Err (UnexpectedTokenAtEnd [])) (ParseRule rule).

(** The [less] of [sort.Slice]. *)
Definition route_less (a b : Route) : bool :=
  if rt_Priority a =? rt_Priority b then len (rt_RuleString b) <? len (rt_RuleString a)
  else rt_Priority b <? rt_Priority a.

Definition AddRoute {sort : GoSort Route route_less} (name ruleStr : string) (priority : Z)
    (middlewares : list string) (service : string) (handler : H) (m : Manager)
    : result RuleError Manager :=
  let? matcher := parse_rule ruleStr in
  Ok (mkManager (go_sort route_less
        (m_routes m ++ [mkRoute name ruleStr priority middlewares service matcher handler]))).

(** The routes are visited in order; the first match wins. *)
Definition Manager_Route (m : Manager) (req : Request) : option Route :=
  List.find (fun r => rt_Match r req) (m_routes m).

(** ** A sequence of additions *)
(** A call of [AddRoute]; a call that returns an error leaves the table as it was. *)
Record RouteSpec : Type := mkSpec {
  sp_name : string; sp_rule : string; sp_priority : Z; sp_middlewares : list string;
  sp_service : string; sp_handler : H;
}.

Definition add_spec {sort : GoSort Route route_less} (m : Manager) (s : RouteSpec) : Manager :=
  match AddRoute (sp_name s) (sp_rule s) (sp_priority s) (sp_middlewares s) (sp_service s) (sp_handler s) m with
  | Ok m => m
  | Err _ => m
  end.

Definition add_all {sort : GoSort Route route_less} (specs : list RouteSpec) : Manager :=
  foldl add_spec NewManager specs.

Definition parsed (s : RouteSpec) : option Route :=
  match parse_rule (sp_rule s) with
  | Ok m => Some (mkRoute (sp_name s) (sp_rule s) (sp_priority s) (sp_middlewares s) (sp_service s) m (sp_handler s))
  | Err _ => None
  end.

Definition spec_key (s : RouteSpec) : Z * Z := (sp_priority s, len (sp_rule s)).

Lemma parsed_key s r : parsed s = Some r -> spec_key s = (rt_Priority r, len (rt_RuleString r)).
Proof. unfold parsed. destruct (parse_rule (sp_rule s)); [|done]. by intros [= <-]. Qed.

(** Specifications with distinct keys have no two routes of one rank. *)
Lemma distinct_keys specs r r' :
  NoDup (spec_key <$> specs) -> r ∈ omap parsed specs -> r' ∈ omap parsed specs ->
  rt_Priority r = rt_Priority r' -> len (rt_RuleString r) = len (rt_RuleString r') -> r = r'.
Proof.
  intros Hnd (s & Hs & Hr)%list_elem_of_omap (s' & Hs' & Hr')%list_elem_of_omap Hp Hl.
  pose proof (parsed_key _ _ Hr) as K. pose proof (parsed_key _ _ Hr') as K'.
  apply list_elem_of_lookup in Hs as [i Hi], Hs' as [j Hj].
  assert (i = j) as ->.
  { eapply (NoDup_lookup _ _ _ (spec_key s) Hnd); rewrite list_lookup_fmap; [by rewrite Hi|].
    rewrite Hj. simpl. congruence. }
  congruence.
Qed.

#[global] Instance route_less_swo : StrictWeakOrder route_less.
Proof.
  split; unfold route_less; intros; repeat case_match; z_bool; lia.
Qed.

Lemma add_spec_routes {sort : GoSort Route route_less} m s :
  m_routes (add_spec m s) =
  match parsed s with Some r => go_sort route_less (m_routes m ++ [r]) | None => m_routes m end.
Proof. unfold add_spec, AddRoute, parsed. by destruct (parse_rule (sp_rule s)). Qed.

Lemma add_all_perm {sort : GoSort Route route_less} specs :
  m_routes (add_all specs) ≡ₚ omap parsed specs.
Proof.
  unfold add_all. induction specs as [|s specs IH] using rev_ind; [done|].
  rewrite foldl_app, omap_app. simpl. rewrite add_spec_routes.
  destruct (parsed s); simpl; [by rewrite go_sort_perm, IH|by rewrite app_nil_r].
Qed.

Lemma add_all_sorted {sort : GoSort Route route_less} specs :
  StronglySorted (fun x y => route_less y x = false) (m_routes (add_all specs)).
Proof.
  unfold add_all. induction specs as [|s specs IH] using rev_ind; [constructor|].
  rewrite foldl_app. simpl. rewrite add_spec_routes. destruct (parsed s); [apply (go_sort_strongly route_less)|done].
Qed.

Lemma find_sorted (rs : list Route) (f : Route -> bool) r :
  StronglySorted (fun x y => route_less y x = false) rs -> List.find f rs = Some r ->
  r ∈ rs /\ f r = true /\ forall r', r' ∈ rs -> f r' = true -> route_less r' r = false.
Proof.
  induction 1 as [|x rs Hs IH Hx]; simpl; [done|]. destruct (f x) eqn:E.
  - intros [= ->]. split_and!; [by left|done|]. intros r' [->|Hr']%elem_of_cons _.
    + destruct (route_less r r) eqn:E'; [|done]. pose proof (swo_asym _ _ E'). congruence.
    + by eapply Forall_forall in Hx.
  - intros Hf. destruct (IH Hf) as (Hin & Hr & Hbest). split_and!; [by right|done|].
    intros r' [->|Hr']%elem_of_cons; [congruence|auto].
Qed.

Lemma find_none {A} (f : A -> bool) (l : list A) x : List.find f l = None -> x ∈ l -> f x = false.
Proof. intros Hf Hx. apply (List.find_none _ _ Hf). by apply list_elem_of_In. Qed.

(** Ties in priority and length are the same rank. *)
Lemma route_less_tie a b :
  route_less a b = false -> route_less b a = false ->
  rt_Priority a = rt_Priority b /\ len (rt_RuleString a) = len (rt_RuleString b).
Proof. unfold route_less. intros; repeat case_match; z_bool; lia. Qed.

(** What [Route] answers on a table built by any additions. *)
Definition best_route (added : list Route) (req : Request) (answer : option Route) : Prop :=
  match answer with
  | Some r =>
      r ∈ added /\ rt_Match r req = true /\
      forall r', r' ∈ added -> rt_Match r' req = true ->
        rt_Priority r' < rt_Priority r \/
        rt_Priority r' = rt_Priority r /\ len (rt_RuleString r') <= len (rt_RuleString r)
  | None => forall r, r ∈ added -> rt_Match r req = false
  end.

Lemma route_less_false a b :
  route_less a b = false ->
  rt_Priority a < rt_Priority b \/
  rt_Priority a = rt_Priority b /\ len (rt_RuleString a) <= len (rt_RuleString b).
Proof. unfold route_less. intros; repeat case_match; z_bool; lia. Qed.

Lemma Route_best {sort : GoSort Route route_less} specs req :
  best_route (omap parsed specs) req (Manager_Route (add_all specs) req).
Proof.
  unfold best_route, Manager_Route. destruct (List.find _ _) as [r|] eqn:E.
  - apply find_sorted in E as (Hin & Hm & Hbest); [|by apply add_all_sorted].
    rewrite add_all_perm in Hin. split_and!; [done..|].
    intros r' Hr' Hm'. apply route_less_false, Hbest; [by rewrite add_all_perm|done].
  - intros r Hr. apply (find_none _ _ r E). by rewrite add_all_perm.
Qed.
End routes.
Arguments Route H : clear implicits.
Arguments Manager H : clear implicits.
Arguments RouteSpec H : clear implicits.

(** C13. After any sequence of AddRoute calls (those with a bad rule fail and change nothing), Route answers
    with an added route that matches the request and that no matching route beats: none has a higher
    priority, and none of equal priority a longer rule text.  It answers nil exactly when no added
    route matches. *)
Theorem route_priority {H : Type} {tables : UnicodeTables} {sort : GoSort (Route H) route_less}
    (specs : list (RouteSpec H)) (req : Request) :
  best_route (omap parsed specs) req (Manager_Route (add_all specs) req).
Proof. apply Route_best. Qed.

(** The configuration is a map, read in no fixed order, and the sort is not stable.  Without a tie neither
    matters: when matching routes of equal priority and rule length are the same route, any order of the
    additions and any two sorts send the request to the same route. *)
Theorem route_order_irrelevant {H : Type} {tables : UnicodeTables} (sort1 sort2 : GoSort (Route H) route_less)
    (specs1 specs2 : list (RouteSpec H)) (req : Request) :
  specs1 ≡ₚ specs2 ->
  (forall r r', r ∈ omap parsed specs1 -> r' ∈ omap parsed specs1 ->
     rt_Match r req = true -> rt_Match r' req = true ->
     rt_Priority r = rt_Priority r' -> len (rt_RuleString r) = len (rt_RuleString r') -> r = r') ->
  Manager_Route (add_all (sort := sort1) specs1) req = Manager_Route (add_all (sort := sort2) specs2) req.
Proof.
  intros Hp Huniq.
  assert (omap parsed specs1 ≡ₚ omap parsed specs2) as Hp' by (by rewrite Hp).
  pose proof (Route_best (sort := sort1) specs1 req) as H1. pose proof (Route_best (sort := sort2) specs2 req) as H2.
  unfold best_route in *.
  destruct (Manager_Route (add_all specs1) req) as [r1|], (Manager_Route (add_all specs2) req) as [r2|].
  - destruct H1 as (Hin1 & Hm1 & Hb1), H2 as (Hin2 & Hm2 & Hb2).
    pose proof (Hb1 r2 ltac:(by rewrite Hp') Hm2). pose proof (Hb2 r1 ltac:(by rewrite <- Hp') Hm1).
    f_equal. apply Huniq; [done|by rewrite Hp'|done|done|lia|lia].
  - destruct H1 as (Hin1 & Hm1 & _). rewrite (H2 r1) in Hm1; [done|]. by rewrite <- Hp'.
  - destruct H2 as (Hin2 & Hm2 & _). rewrite (H1 r2) in Hm2; [done|]. by rewrite Hp'.
  - done.
Qed.

Definition example_specs : list (RouteSpec unit) :=
  [ mkSpec "default" "PathPrefix('/')" 1 [] "all-backends" ();
    mkSpec "api" "PathPrefix('/api')" 10 [] "api-backends" ();
    mkSpec "api-payment" "PathPrefix('/api/payment')" 10 [] "payment-backends" () ].

Definition example_sort : GoSort (Route unit) (@route_less unit) :=
  insertion_GoSort route_less (fun x y => swo_asym x y).

(** With a tie the order of the additions decides: of two routers with the same priority and rule, the one
    added first gets every request. *)
Theorem tied_routes_follow_order :
  let req := request "GET" "/api/pay" ∅ in
  let specs := [ mkSpec "blue" "PathPrefix('/api')" 5 [] "blue-backends" ();
                 mkSpec "green" "PathPrefix('/api')" 5 [] "green-backends" () ]%string in
  rt_Name <$> Manager_Route (add_all (tables := example_tables) (sort := example_sort) specs) req = Some "blue"%string /\
  rt_Name <$> Manager_Route (add_all (tables := example_tables) (sort := example_sort) (rev specs)) req = Some "green"%string.
Proof. split; reflexivity. Qed.

Lemma route_order_irrelevant_witness :
  let req := request "GET" "/api/payment/process" ∅ in
  rt_Name <$> Manager_Route (add_all (tables := example_tables) (sort := example_sort) example_specs) req = Some "api-payment"%string /\
  Manager_Route (add_all (tables := example_tables) (sort := example_sort) example_specs) req =
  Manager_Route (add_all (tables := example_tables) (sort := example_sort) (rev example_specs)) req.
Proof.
  split; [reflexivity|].
  apply (route_order_irrelevant (tables := example_tables) example_sort example_sort).
  - apply Permutation_rev.
  - intros r r' Hr Hr' _ _. apply (distinct_keys (tables := example_tables) example_specs); [|done..].
    refine (bool_decide_eq_true_1 _ _). reflexivity.
Defined.
