(* ===== verification/Proxy.v ===== *)
(** * proxy/proxy.go: one attempt at forwarding a request

    The handler at the end of every chain: it classifies the request, asks the router for a backend,
    forwards, records the metrics and copies the response.  Its state is a component of the world; the
    backend's answer comes from [client_Do].  The selection of Selector.v is carried out here in the world:
    between the copy of the statistics, the [IsOpen] calls and [CanSend] other goroutines may act. *)
From S2P Require Import Prelude GoFloat GoSort GoStrings GoHttp Breaker Collector Balancer Canary Selector Logging Env Priority.
Open Scope Z_scope.

(** The fields of proxy.Handler that it shares with its service: router, metrics and breakers. *)
Record Proxy (A : Type) : Type := mkProxy {
  px_router : Router A;
  px_metrics : Collector;
  px_breakers : gmap string Breaker;
  px_maxRetries : Z;
  px_perAttemptTimeout : Z;
}.
Arguments mkProxy {A}.
Arguments px_router {A}.
Arguments px_metrics {A}.
Arguments px_breakers {A}.
Arguments px_maxRetries {A}.
Arguments px_perAttemptTimeout {A}.

Definition proxy_New {A} (r : Router A) (m : Collector) (b : gmap string Breaker)
    (maxRetries perAttemptTimeoutSec : Z) : Proxy A :=
  mkProxy r m b maxRetries (Duration_mul perAttemptTimeoutSec Second).

(** middleware/retry.go: [AttemptFromContext] and [ExcludedFromContext]; middleware/headers.go:
    [RequestIDFromContext]. *)
Definition AttemptFromContext (c : Context) : Z := default 1 (ctx_attempt c).
Definition ExcludedFromContext (c : Context) : list string := default [] (ctx_excluded c).
Definition RequestIDFromContext (c : Context) : string := default ""%string (ctx_requestID c).

(** The client's address as the header middleware left it, or the connection's. *)
Definition req_clientIP (req : Request) : string :=
  let clientIP := Header_Get (req_Header req) "X-Real-IP" in
  if String.eqb clientIP "" then req_RemoteAddr req else clientIP.

(** The three lines the handler logs. *)
Definition proxied_entry (req : Request) (target pri : string) (attempt : Z) (requestID clientIP : string)
    (latencyMs : float64) (serverName : string) (statusCode : Z) : AccessLog :=
  mkAccessLog 0 "" "Request proxied successfully" requestID clientIP (req_Method req) (req_Path req) pri
    serverName target statusCode latencyMs attempt 0 "".

Definition failed_entry (req : Request) (target pri : string) (attempt : Z) (requestID clientIP : string)
    (latencyMs : float64) (err : string) : AccessLog :=
  mkAccessLog 0 "" "Proxy request failed" requestID clientIP (req_Method req) (req_Path req) pri
    "" target 0 latencyMs attempt 0 err.

Definition unavailable_entry (req : Request) (pri requestID clientIP err : string) : AccessLog :=
  mkAccessLog 0 "" "No healthy servers available" requestID clientIP (req_Method req) (req_Path req) pri
    "" "" 0 f64_zero 0 0 err.

Section proxy.
Context {A : Type} `{!Algorithm A} `{!GoSort float64 f64_less}.
Context {W : Type} `{!Env W} `{!Client W} (L : Lens W (Proxy A)).

Definition with_metrics (f : Collector -> Collector) (p : Proxy A) : Proxy A :=
  mkProxy (px_router p) (f (px_metrics p)) (px_breakers p) (px_maxRetries p) (px_perAttemptTimeout p).
Definition update_metrics (f : Collector -> Collector) (w : W) : W := modify L (with_metrics f) w.

Definition milliseconds (d : Z) : Z := Z.quot d Millisecond.

(** The copying loop [w.Header()[k] = vals], and the three headers the proxy adds. *)
Definition write_response (rw : ResponseWriter) (resp : Response) (serverName target : string) (attempt : Z)
    : ResponseWriter :=
  let rw := rw_SetHeaders (resp_Header resp ∪ rw_Header rw) rw in
  let rw := rw_Set "X-Handled-By" serverName rw in
  let rw := rw_Set "X-Backend-URL" target rw in
  let rw := rw_Set "X-Retry-Count" (Itoa (wrap64 (attempt - 1))) rw in
  let rw := rw_WriteHeader (resp_StatusCode resp) rw in
  if (length (resp_Body resp) =? 0)%nat then rw else (rw_Write (resp_Body resp) rw).1.

(** The time left until the context's deadline, if that is sooner than the configured timeout. *)
Definition attempt_timeout (deadline : option Z) (timeout : Z) (w : W) : Z * W :=
  match deadline with
  | Some deadline =>
      let '(now, w) := env_Now w in
      let remaining := time_Sub deadline now in
      (if remaining <? timeout then remaining else timeout, w)
  | None => (timeout, w)
  end.

Definition proxyToBackend (rw : ResponseWriter) (req : Request) (target pri : string) (attempt : Z)
    (requestID clientIP : string) (w : W) : Served W :=
  let w := update_metrics (RecordStart target) w in
  let '(start, w) := env_Now w in
  let '(timeout, w) := attempt_timeout (ctx_deadline (req_ctx req)) (px_perAttemptTimeout (lget L w)) w in
  let '(now, w) := env_Now w in
  let ctx := WithTimeout now timeout (req_ctx req) in
  let url := (target +:+ req_RequestURI req)%string in
  if negb (client_NewRequest_ok (req_Method req) url) then
    let w := update_metrics (RecordEnd target f64_zero false) w in
    mkServed (http_Error "Failed to build proxy request" 500 rw) (req_Header req) (req_Body req) w
  else
    let '(resp, body, w) := client_Do (mkOut (req_Method req) url (req_Header req) (req_Body req) ctx) w in
    let '(now, w) := env_Now w in
    let latencyMs := f64_of_Z (milliseconds (time_Sub now start)) in
    match resp with
    | Err err =>
        let w := update_metrics (RecordEnd target latencyMs false) w in
        let w := env_Error (failed_entry req target pri attempt requestID clientIP latencyMs err) w in
        mkServed (http_Error "Backend server error" 502 rw) (req_Header req) body w
    | Ok resp =>
        let isSuccess := resp_StatusCode resp <? 500 in
        let w := update_metrics (RecordEnd target latencyMs isSuccess) w in
        let w := update_metrics (RecordPriority target pri) w in
        let serverName := GetName target (px_metrics (lget L w)) in
        let rw := write_response rw resp serverName target attempt in
        let w := env_Info (proxied_entry req target pri attempt requestID clientIP latencyMs serverName
                             (resp_StatusCode resp)) w in
        mkServed rw (req_Header req) body w
    end.

(** The text of the selection's error.  [SelectPanic], a nil breaker, cannot happen when every server
    has a breaker ([router_select_complete]); Service.v proves that the manager builds them all. *)
Definition selection_error (s : Selection) : string :=
  match s with
  | NoHealthyServers => "no healthy servers available"
  | AlgorithmReturnedNone => "routing algorithm returned no server"
  | ChosenCircuitOpen => "chosen server circuit is open"
  | _ => ""
  end.

Definition with_algo (algo : A) (p : Proxy A) : Proxy A :=
  mkProxy (mkRouter (r_servers (px_router p)) algo) (px_metrics p) (px_breakers p) (px_maxRetries p)
    (px_perAttemptTimeout p).
Definition set_breaker (url : string) (b : Breaker) (p : Proxy A) : Proxy A :=
  mkProxy (px_router p) (px_metrics p) (<[url := b]> (px_breakers p)) (px_maxRetries p) (px_perAttemptTimeout p).

(** [h.router.Select] on the components the service shares: the selection of Selector.v, call by call.  The
    statistics are copied first; then every [IsOpen] reads the clock and looks at its breaker as it is by
    then, the algorithm keeps its own state, and [CanSend] reads the clock again.  The filtering loop: *)
Fixpoint candidates_in (excludedMap : gset string) (stats : gmap string ServerStats) (servers : list string) (w : W)
    : option (list string) * W :=
  match servers with
  | [] => (Some [], w)
  | url :: rest =>
      if bool_decide (url ∈ excludedMap) then candidates_in excludedMap stats rest w
      else
        match stats !! url with
        | None => candidates_in excludedMap stats rest w
        | Some s =>
            if IsHealthy s then
              let '(now, w) := env_Now w in
              match px_breakers (lget L w) !! url with
              | None => (None, w)
              | Some b =>
                  let '(candidates, w) := candidates_in excludedMap stats rest w in
                  (if negb (Breaker_IsOpen now b) then cons url <$> candidates else candidates, w)
              end
            else candidates_in excludedMap stats rest w
        end
  end.

Definition proxy_select (pri : string) (excluded : list string) (w : W) : Selection * W :=
  let p := lget L w in
  let stats := Snapshot (px_metrics p) in
  let '(candidates, w) := candidates_in (list_to_set excluded) stats (r_servers (px_router p)) w in
  match candidates with
  | None => (SelectPanic, w)
  | Some candidates =>
      if (length candidates =? 0)%nat then (NoHealthyServers, w)
      else
        let '(algo, chosen) := algo_Select (r_algo (px_router (lget L w))) candidates stats pri in
        let w := modify L (with_algo algo) w in
        if bool_decide (chosen = ""%string) then (AlgorithmReturnedNone, w)
        else
          let '(now, w) := env_Now w in
          match px_breakers (lget L w) !! chosen with
          | None => (SelectPanic, w)
          | Some b =>
              let '(b, ok) := Breaker_CanSend now b in
              let w := modify L (set_breaker chosen b) w in
              (if negb ok then ChosenCircuitOpen else Selected chosen, w)
          end
  end.

Definition proxy_ServeHTTP : Handler W := fun rw req w =>
  let requestID := RequestIDFromContext (req_ctx req) in
  let clientIP := req_clientIP req in
  let pri := Classify (req_Path req) (Header_Get (req_Header req) "X-Priority") in
  let attempt := AttemptFromContext (req_ctx req) in
  let excluded := ExcludedFromContext (req_ctx req) in
  let '(sel, w) := proxy_select pri excluded w in
  match sel with
  | Selected target => proxyToBackend rw req target pri attempt requestID clientIP w
  | _ =>
      let rw := http_Error ("All backend servers unavailable: " +:+ selection_error sel)%string 502 rw in
      let w := env_Error (unavailable_entry req pri requestID clientIP (selection_error sel)) w in
      mkServed rw (req_Header req) (req_Body req) w
  end.
End proxy.

(** ** What an attempt does *)
Section effect.
Context {A : Type} `{!Algorithm A} `{!GoSort float64 f64_less}.
Context {W : Type} `{!Env W} `{!Client W} (L : Lens W (Proxy A)) `{!Frame L} `{!ClientFrame L}.

Lemma GetName_update url target f c :
  (forall s, Name (f s) = Name s) -> GetName target (update_server url f c) = GetName target c.
Proof.
  intros Hf. unfold GetName. pose proof (update_server_field Name url target f c Hf) as H.
  destruct (c_servers (update_server url f c) !! target), (c_servers c !! target); simpl in H; congruence.
Qed.

(** The reading of the clock for the remaining time changes nothing else. *)
Lemma attempt_timeout_frame (o : option Z) timeout (w : W) : lget L (attempt_timeout o timeout w).2 = lget L w.
Proof. destruct o; [|done]. unfold attempt_timeout. pose proof (frame_Now (L := L) w). by destruct (env_Now w). Qed.

(** The three ways an attempt ends, with what each does to the shared components. *)
Inductive attempt_effect (rw : ResponseWriter) (target pri : string) (attempt : Z) (p : Proxy A)
    : ResponseWriter -> Proxy A -> Prop :=
| effect_not_built lat :
    attempt_effect rw target pri attempt p (http_Error "Failed to build proxy request" 500 rw)
      (with_metrics (fun c => RecordEnd target lat false (RecordStart target c)) p)
| effect_failed lat :
    attempt_effect rw target pri attempt p (http_Error "Backend server error" 502 rw)
      (with_metrics (fun c => RecordEnd target lat false (RecordStart target c)) p)
| effect_answered lat out w1 resp :
    (client_Do out w1).1.1 = Ok resp ->
    attempt_effect rw target pri attempt p
      (write_response rw resp (GetName target (px_metrics p)) target attempt)
      (with_metrics (fun c => RecordPriority target pri
         (RecordEnd target lat (resp_StatusCode resp <? 500) (RecordStart target c))) p).

Lemma proxyToBackend_effect rw req target pri attempt requestID clientIP w :
  attempt_effect rw target pri attempt (lget L w)
    (sv_w (proxyToBackend L rw req target pri attempt requestID clientIP w))
    (lget L (sv_world (proxyToBackend L rw req target pri attempt requestID clientIP w))).
Proof.
  unfold proxyToBackend, update_metrics. set (p := lget L w). set (w0 := modify L _ w).
  assert (lget L w0 = with_metrics (RecordStart target) p) as H0 by (unfold w0; by rewrite lget_modify).
  pose proof (frame_Now (L := L) w0) as H1. destruct (env_Now w0) as [start w1]; simpl in H1.
  pose proof (attempt_timeout_frame (ctx_deadline (req_ctx req)) (px_perAttemptTimeout (lget L w1)) w1) as H2.
  destruct (attempt_timeout _ _ w1) as [timeout w2]. simpl in H2.
  pose proof (frame_Now (L := L) w2) as H3. destruct (env_Now w2) as [now w3]; simpl in H3.
  destruct (client_NewRequest_ok _ _); simpl.
  - match goal with |- context [client_Do ?out w3] =>
      pose proof (frame_Do (L := L) out w3) as H4; destruct (client_Do out w3) as [[resp body] w4] eqn:Edo end.
    simpl in H4. pose proof (frame_Now (L := L) w4) as H5. destruct (env_Now w4) as [t w5]; simpl in H5.
    assert (lget L w5 = with_metrics (RecordStart target) p) as E by congruence.
    destruct resp as [resp|err]; simpl.
    + rewrite frame_Info, !lget_modify, E.
      match goal with |- context [write_response rw resp ?n target attempt] =>
        assert (n = GetName target (px_metrics p)) as -> end.
      { simpl. unfold RecordPriority, RecordEnd, RecordStart. by rewrite !GetName_update. }
      refine (effect_answered rw target pri attempt p _ _ w3 resp _). by rewrite Edo.
    + rewrite frame_Error, !lget_modify, E. exact (effect_failed rw target pri attempt p _).
  - rewrite !lget_modify. assert (lget L w3 = with_metrics (RecordStart target) p) as -> by congruence.
    exact (effect_not_built rw target pri attempt p _).
Qed.

(** The filtering loop, where nobody else touches the service: that of Selector.v, for the instants at which
    it read the clock. *)
Lemma candidates_in_alone ex stats servers w :
  NoDup servers ->
  lget L (candidates_in L ex stats servers w).2 = lget L w /\
  exists clock, candidates_loop clock ex stats (px_breakers (lget L w)) servers = (candidates_in L ex stats servers w).1.
Proof.
  revert w. induction servers as [|u rest IH]; intros w Hnd; cbn [candidates_in candidates_loop].
  { split; [done|]. by exists (fun _ => 0). }
  apply NoDup_cons in Hnd as [Hu Hnd]. destruct (bool_decide (u ∈ ex)); [by apply IH|].
  destruct (stats !! u) as [s|]; [|by apply IH]. destruct (IsHealthy s); [|by apply IH].
  pose proof (frame_Now (L := L) w) as H1. destruct (env_Now w) as [now w1]; cbn [snd] in H1. rewrite <- H1.
  destruct (px_breakers (lget L w1) !! u) as [b|]; [|split; [done|by exists (fun _ => 0)]].
  destruct (IH w1 Hnd) as [Hw (clock & Hc)]. destruct (candidates_in L ex stats rest w1) as [l w2]. cbn [fst snd] in *.
  split; [done|]. exists (fun v => if decide (v = u) then now else clock v). rewrite decide_True by done.
  rewrite (candidates_loop_clock _ clock) by (intros v Hv; rewrite decide_False; [done|by intros ->]). by rewrite Hc.
Qed.

(** The selection, where nobody else touches the service, is [Router_Select]. *)
Lemma proxy_select_alone pri excluded w :
  let p := lget L w in
  NoDup (r_servers (px_router p)) ->
  exists clock later r bs,
    Router_Select clock later id (px_metrics p) (px_breakers p) (px_router p) pri excluded
      = (r, bs, (proxy_select L pri excluded w).1) /\
    lget L (proxy_select L pri excluded w).2 = mkProxy r (px_metrics p) bs (px_maxRetries p) (px_perAttemptTimeout p).
Proof.
  intros p Hnd. unfold Router_Select, proxy_select. fold p.
  destruct (candidates_in_alone (list_to_set excluded) (Snapshot (px_metrics p)) (r_servers (px_router p)) w Hnd) as [Hw (clock & Hc)].
  fold p in Hw, Hc. exists clock. destruct (candidates_in L _ _ _ w) as [l w1]. cbn [fst snd] in *. rewrite Hc.
  assert (p = mkProxy (px_router p) (px_metrics p) (px_breakers p) (px_maxRetries p) (px_perAttemptTimeout p)) as Hp by by destruct p.
  destruct l as [l|]; [|exists 0; eexists _, _; split; [done|cbn [snd]; by rewrite Hw]].
  destruct (length l =? 0)%nat; [exists 0; eexists _, _; split; [done|cbn [snd]; by rewrite Hw]|]. rewrite Hw.
  destruct (algo_Select _ _ _ _) as [algo chosen]. set (w2 := modify L _ w1).
  assert (lget L w2 = with_algo algo p) as Hw2 by (unfold w2; by rewrite lget_modify, Hw).
  destruct (bool_decide _); [exists 0; eexists _, _; split; [done|cbn [snd]; by rewrite Hw2]|].
  pose proof (frame_Now (L := L) w2) as H2. destruct (env_Now w2) as [now w3]. cbn [snd] in H2. rewrite Hw2 in H2.
  exists now. rewrite H2. cbn [with_algo px_breakers]. unfold id.
  destruct (px_breakers p !! chosen) as [b|]; [|eexists _, _; split; [done|cbn [snd]; by rewrite H2]].
  destruct (Breaker_CanSend now b) as [b' ok].
  destruct ok; cbn [negb fst snd]; (eexists _, _; split; [done|]); by rewrite lget_modify, H2.
Qed.

(** Selecting leaves the metrics and the settings alone. *)
Lemma candidates_in_frame ex stats servers w : lget L (candidates_in L ex stats servers w).2 = lget L w.
Proof.
  revert w. induction servers as [|u rest IH]; intros w; cbn [candidates_in]; [done|].
  repeat case_match; simpl; try by apply IH.
  all: match goal with H : env_Now ?w = _ |- _ => pose proof (frame_Now (L := L) w) as Hf; rewrite H in Hf; cbn [snd] in Hf end.
  all: try done.
  all: match goal with H : candidates_in L _ _ _ ?w = _ |- _ => specialize (IH w); rewrite H in IH; cbn [snd] in IH end.
  all: congruence.
Qed.

Lemma proxy_select_metrics pri excluded w :
  px_metrics (lget L (proxy_select L pri excluded w).2) = px_metrics (lget L w).
Proof.
  unfold proxy_select. pose proof (candidates_in_frame (list_to_set excluded) (Snapshot (px_metrics (lget L w)))
    (r_servers (px_router (lget L w))) w) as H. destruct (candidates_in L _ _ _ w) as [[l|] w1]; cbn [snd] in *; [|by rewrite H].
  destruct (length l =? 0)%nat; [cbn [snd]; by rewrite H|]. destruct (algo_Select _ _ _ _) as [algo chosen]. set (w2 := modify L _ w1).
  assert (px_metrics (lget L w2) = px_metrics (lget L w)) as H2 by (unfold w2; rewrite lget_modify; simpl; by rewrite H).
  destruct (bool_decide _); [exact H2|]. pose proof (frame_Now (L := L) w2) as H3. destruct (env_Now w2) as [now w3]. cbn [snd] in H3.
  destruct (px_breakers _ !! chosen) as [b|]; cbn [snd]; [|by rewrite H3].
  destruct (Breaker_CanSend now b) as [b' ok]. cbn [snd]. rewrite lget_modify. simpl. by rewrite H3.
Qed.
End effect.

(** ** Headers of the proxy's answers *)
Definition backend_url (rw : ResponseWriter) : string := Header_Get (rw_Header rw) "X-Backend-URL".

Lemma http_Error_backend msg code rw : backend_url (http_Error msg code rw) = backend_url rw.
Proof.
  unfold http_Error, backend_url, rw_Set, rw_Del. rewrite rw_Header_Write, rw_Header_WriteHeader.
  rewrite !rw_Header_SetHeaders. rewrite !Header_Get_Set_ne by (vm_compute; discriminate).
  unfold Header_Get, Header_Del. by rewrite lookup_delete_ne by (vm_compute; discriminate).
Qed.

Lemma write_response_header rw resp name target attempt :
  rw_Header (write_response rw resp name target attempt) =
  Header_Set (Header_Set (Header_Set (resp_Header resp ∪ rw_Header rw) "X-Handled-By" name)
    "X-Backend-URL" target) "X-Retry-Count" (Itoa (wrap64 (attempt - 1))).
Proof.
  unfold write_response, rw_Set.
  destruct (length (resp_Body resp) =? 0)%nat; rewrite ?rw_Header_Write, rw_Header_WriteHeader;
    by rewrite !rw_Header_SetHeaders.
Qed.

Lemma write_response_backend rw resp name target attempt :
  backend_url (write_response rw resp name target attempt) = target.
Proof.
  unfold backend_url. rewrite write_response_header, Header_Get_Set_ne by (vm_compute; discriminate).
  apply Header_Get_Set.
Qed.

(** The headers of a backend's answer, over those the middlewares had set. *)
Definition answer_header (h : Header) (resp : Response) (name target : string) (attempt : Z) : Header :=
  Header_Set (Header_Set (Header_Set (resp_Header resp ∪ h) "X-Handled-By" name)
    "X-Backend-URL" target) "X-Retry-Count" (Itoa (wrap64 (attempt - 1))).

Lemma write_response_view head h resp name target attempt :
  informational (resp_StatusCode resp) = false ->
  client_view (write_response (ServerWriter head h None []) resp name target attempt) =
  (resp_StatusCode resp, answer_header h resp name target attempt,
   if bodyAllowedForStatus (resp_StatusCode resp) then body_sent head (resp_Body resp) else []).
Proof.
  intros Hc. unfold write_response, rw_Set. cbn [rw_Header rw_SetHeaders rw_WriteHeader]. rewrite Hc.
  destruct (length (resp_Body resp) =? 0)%nat eqn:E.
  - apply Nat.eqb_eq, nil_length_inv in E. rewrite E. destruct head; cbn; by destruct (bodyAllowedForStatus _).
  - cbn [rw_Write]. by destruct (bodyAllowedForStatus _).
Qed.

Lemma write_response_steps rw resp name target attempt :
  informational (resp_StatusCode resp) = false ->
  rtc writer_step rw (write_response rw resp name target attempt).
Proof.
  intros Hc. unfold write_response, rw_Set.
  do 4 (eapply rtc_l; [apply ws_header|]). eapply rtc_l; [by apply ws_writeHeader|].
  destruct (length (resp_Body resp) =? 0)%nat; [apply rtc_refl|apply rtc_once, ws_write].
Qed.

(** The final answer a client hands to its caller is never an informational one. *)
Definition final_responses (W : Type) `{!Client W} : Prop :=
  forall out (w : W) resp, (client_Do out w).1.1 = Ok resp -> informational (resp_StatusCode resp) = false.

Section interface.
Context {A : Type} `{!Algorithm A} `{!GoSort float64 f64_less}.
Context {W : Type} `{!Env W} `{!Client W} (L : Lens W (Proxy A)).

(** The proxy keeps to the interface of its writer, whatever else happens in the world. *)
Lemma proxyToBackend_steps rw req target pri attempt requestID clientIP w :
  final_responses W ->
  rtc writer_step rw (sv_w (proxyToBackend L rw req target pri attempt requestID clientIP w)).
Proof.
  intros Hfinal. unfold proxyToBackend. destruct (env_Now _) as [start w1].
  destruct (attempt_timeout _ _ w1) as [timeout w2]. destruct (env_Now w2) as [now w3]. destruct (negb _); [by apply http_Error_steps|].
  destruct (client_Do _ w3) as [[[resp|err] body] w4] eqn:Hdo; destruct (env_Now w4) as [now' w5]; cbn [sv_w].
  - apply write_response_steps. eapply (Hfinal _ w3). by rewrite Hdo.
  - by apply http_Error_steps.
Qed.

Lemma proxy_uses_writer : final_responses W -> uses_writer (proxy_ServeHTTP L).
Proof.
  intros Hfinal rw req w. unfold proxy_ServeHTTP. destruct (proxy_select L _ _ w) as [sel w1].
  destruct sel as [target| | | |]; [by apply proxyToBackend_steps|cbn [sv_w]; by apply http_Error_steps..].
Qed.
End interface.

Section properties.
Context {A : Type} `{!Algorithm A} `{!GoSort float64 f64_less}.
Context {W : Type} `{!Env W} `{!Client W} (L : Lens W (Proxy A)) `{!Frame L} `{!ClientFrame L}.

Definition select_of (req : Request) (w : W) : Selection * W :=
  proxy_select L (Classify (req_Path req) (Header_Get (req_Header req) "X-Priority"))
    (ExcludedFromContext (req_ctx req)) w.

(** The request to the backend [target], and the world in which it is sent. *)
Definition outgoing (req : Request) (target : string) (w : W) : OutRequest * W :=
  let w := update_metrics L (RecordStart target) w in
  let '(_, w) := env_Now w in
  let '(timeout, w) := attempt_timeout (ctx_deadline (req_ctx req)) (px_perAttemptTimeout (lget L w)) w in
  let '(now, w) := env_Now w in
  (mkOut (req_Method req) (target +:+ req_RequestURI req)%string (req_Header req) (req_Body req)
     (WithTimeout now timeout (req_ctx req)), w).

(** The outcome of an attempt on [target]: what the client of the proxy made of that request, if it could be
    built. *)
Definition backend_answer (req : Request) (target : string) (w : W) : option (result string Response) :=
  let '(out, w) := outgoing req target w in
  if client_NewRequest_ok (out_Method out) (out_URL out) then Some (client_Do out w).1.1 else None.

Lemma proxyToBackend_writer rw req target pri attempt requestID clientIP w :
  sv_w (proxyToBackend L rw req target pri attempt requestID clientIP w) =
  match backend_answer req target w with
  | None => http_Error "Failed to build proxy request" 500 rw
  | Some (Err _) => http_Error "Backend server error" 502 rw
  | Some (Ok resp) => write_response rw resp (GetName target (px_metrics (lget L w))) target attempt
  end.
Proof.
  unfold proxyToBackend, backend_answer, outgoing, update_metrics. set (p := lget L w). set (w0 := modify L _ w).
  assert (lget L w0 = with_metrics (RecordStart target) p) as H0 by (unfold w0; by rewrite lget_modify).
  pose proof (frame_Now (L := L) w0) as H1. destruct (env_Now w0) as [start w1]; simpl in H1.
  pose proof (attempt_timeout_frame L (ctx_deadline (req_ctx req)) (px_perAttemptTimeout (lget L w1)) w1) as H2.
  destruct (attempt_timeout _ _ w1) as [timeout w2]. simpl in H2.
  pose proof (frame_Now (L := L) w2) as H3. destruct (env_Now w2) as [now w3]; simpl in H3.
  cbn [out_Method out_URL]. destruct (client_NewRequest_ok _ _); [|done]. cbn [negb].
  match goal with |- context [client_Do ?out w3] =>
    pose proof (frame_Do (L := L) out w3) as H4; destruct (client_Do out w3) as [[[resp|err] body] w4] end;
    cbn [fst snd] in *; pose proof (frame_Now (L := L) w4) as H5; destruct (env_Now w4) as [t w5]; cbn [snd sv_w] in *; [|done].
  f_equal. rewrite !lget_modify. assert (lget L w5 = with_metrics (RecordStart target) p) as -> by congruence.
  simpl. unfold RecordPriority, RecordEnd, RecordStart. by rewrite !GetName_update.
Qed.

(** C9. What the client receives, to the last header and byte.  If a backend is selected, the request for it
    can be built and it answers, that answer: its status, its headers over those that middlewares had
    set, the backend's name and URL and the number of earlier attempts, and its body if the status and
    the method allow one.  If it does not answer, a 502 page; if no request can be built, a 500 page; if
    no backend is selected, a 502 page that says why. *)
Theorem proxy_answer head h req w :
  final_responses W ->
  let sv := proxy_ServeHTTP L (ServerWriter head h None []) req w in
  client_view (sv_w sv) =
  match select_of req w with
  | (Selected target, w1) =>
      match backend_answer req target w1 with
      | Some (Ok resp) =>
          (resp_StatusCode resp,
           answer_header h resp (GetName target (px_metrics (lget L w))) target (AttemptFromContext (req_ctx req)),
           if bodyAllowedForStatus (resp_StatusCode resp) then body_sent head (resp_Body resp) else [])
      | Some (Err _) => error_page head "Backend server error" 502 h
      | None => error_page head "Failed to build proxy request" 500 h
      end
  | (sel, _) => error_page head ("All backend servers unavailable: " +:+ selection_error sel)%string 502 h
  end.
Proof.
  intros Hfinal sv. unfold sv, proxy_ServeHTTP.
  pose proof (proxy_select_metrics L (Classify (req_Path req) (Header_Get (req_Header req) "X-Priority"))
    (ExcludedFromContext (req_ctx req)) w) as Hm.
  fold (select_of req w) in *. destruct (select_of req w) as [sel w1]; cbn [snd] in Hm. rewrite <- Hm.
  destruct sel as [target| | | |]; [|by apply http_Error_page..].
  rewrite proxyToBackend_writer. unfold backend_answer. destruct (outgoing req target w1) as [out w2].
  destruct (client_NewRequest_ok _ _); [|by apply http_Error_page].
  destruct (client_Do out w2).1.1 as [resp|err] eqn:E; [|by apply http_Error_page].
  apply write_response_view. by eapply Hfinal.
Qed.

(** C10. The metrics agree with what the client was told.  An attempt on a backend is counted once, as a
    success exactly when the client's status is below 500; the backend's gauge of active connections
    is back where it was; and the statistics of every other server are untouched. *)
Theorem proxy_metrics_match_answer head h req w target w1 s :
  final_responses W ->
  select_of req w = (Selected target, w1) ->
  c_servers (px_metrics (lget L w)) !! target = Some s -> 0 <= ActiveConnections s < maxInt64 ->
  let sv := proxy_ServeHTTP L (ServerWriter head h None []) req w in
  let after := c_servers (px_metrics (lget L (sv_world sv))) in
  (exists s', after !! target = Some s' /\
     ActiveConnections s' = ActiveConnections s /\ TotalRequests s' = wrap64 (TotalRequests s + 1) /\
     if (client_view (sv_w sv)).1.1 <? 500
     then SuccessCount s' = wrap64 (SuccessCount s + 1) /\ FailureCount s' = FailureCount s
     else SuccessCount s' = SuccessCount s /\ FailureCount s' = wrap64 (FailureCount s + 1)) /\
  forall url, url <> target -> after !! url = c_servers (px_metrics (lget L w)) !! url.
Proof.
  intros Hfinal Hsel Hs Hact sv. unfold sv, proxy_ServeHTTP. fold (select_of req w).
  pose proof (proxy_select_metrics L (Classify (req_Path req) (Header_Get (req_Header req) "X-Priority"))
    (ExcludedFromContext (req_ctx req)) w) as Hm. fold (select_of req w) in Hm. rewrite Hsel in *. simpl in Hm.
  pose proof (proxyToBackend_effect L (ServerWriter head h None []) req target
    (Classify (req_Path req) (Header_Get (req_Header req) "X-Priority")) (AttemptFromContext (req_ctx req))
    (RequestIDFromContext (req_ctx req)) (req_clientIP req) w1) as He.
  destruct (proxyToBackend L _ _ _ _ _ _ _ w1) as [rw' hd' bd' w2]. cbn [sv_w sv_world] in *. rewrite <- Hm in *.
  assert (wrap64 (wrap64 (ActiveConnections s + 1) - 1) = ActiveConnections s) as Hgauge.
  { unfold Z.sub. rewrite wrap64_add_l, wrap64_small by (unfold_int; lia). lia. }
  assert ((ActiveConnections s <? 0) = false) as Hpos by lia.
  inversion He as [lat Hrw Hp|lat Hrw Hp|lat out w3 resp Hdo Hrw Hp]; subst rw'; cbn [px_metrics with_metrics].
  3: rewrite write_response_view by (by eapply Hfinal); cbn [fst].
  1, 2: rewrite http_Error_view by done.
  all: unfold RecordPriority, RecordEnd, RecordStart; split;
    [|intros url Hne; rewrite !update_server_lookup; by rewrite !decide_False by done].
  all: rewrite !update_server_lookup, !decide_True, Hs by done; eexists; split; [done|]; simpl;
    rewrite Hgauge, Hpos; repeat case_match; try done.
Qed.
End properties.

(** ** What an attempt logs *)
Section logging.
Context {A : Type} `{!Algorithm A} `{!GoSort float64 f64_less}.
Context {W : Type} `{!Env W} `{!Client W} (L : Lens W (Proxy A)) (G : Lens W Logger) `{!LogFrame G}.
Context (Hapart : apart L G).

Lemma candidates_in_log ex stats servers w : lget G (candidates_in L ex stats servers w).2 = lget G w.
Proof.
  revert w. induction servers as [|u rest IH]; intros w; cbn [candidates_in]; [done|].
  repeat case_match; simpl; try by apply IH.
  all: match goal with H : env_Now ?w = _ |- _ => pose proof (log_Now (G := G) w) as Hf; rewrite H in Hf; cbn [snd] in Hf end.
  all: try done.
  all: match goal with H : candidates_in L _ _ _ ?w = _ |- _ => specialize (IH w); rewrite H in IH; cbn [snd] in IH end.
  all: congruence.
Qed.

Lemma proxy_select_log pri excluded w : lget G (proxy_select L pri excluded w).2 = lget G w.
Proof.
  unfold proxy_select. pose proof (candidates_in_log (list_to_set excluded) (Snapshot (px_metrics (lget L w)))
    (r_servers (px_router (lget L w))) w) as H. destruct (candidates_in L _ _ _ w) as [[l|] w1]; cbn [snd] in *; [|exact H].
  destruct (length l =? 0)%nat; [exact H|]. destruct (algo_Select _ _ _ _) as [algo chosen].
  destruct (bool_decide _); [cbn [snd]; by rewrite apart_modify|]. set (w2 := modify L _ w1).
  assert (lget G w2 = lget G w) as H2 by (unfold w2; by rewrite apart_modify).
  pose proof (log_Now (G := G) w2) as H3. destruct (env_Now w2) as [now w3]. cbn [snd] in H3.
  destruct (px_breakers _ !! chosen) as [b|]; cbn [snd]; [|congruence].
  destruct (Breaker_CanSend now b) as [b' ok]. cbn [snd]. rewrite apart_modify by done. congruence.
Qed.

(** The line of an attempt, by how it ends. *)
Inductive attempt_logged (rw : ResponseWriter) (req : Request) (target pri : string) (attempt : Z) (id ip : string)
    (before : Logger) : ResponseWriter -> Logger -> Prop :=
| logged_not_built :
    client_NewRequest_ok (req_Method req) (target +:+ req_RequestURI req) = false ->
    attempt_logged rw req target pri attempt id ip before (http_Error "Failed to build proxy request" 500 rw) before
| logged_failed now lat err :
    attempt_logged rw req target pri attempt id ip before (http_Error "Backend server error" 502 rw)
      (Error now (failed_entry req target pri attempt id ip lat err) before)
| logged_answered now lat name out w1 resp :
    (client_Do out w1).1.1 = Ok resp ->
    attempt_logged rw req target pri attempt id ip before (write_response rw resp name target attempt)
      (Info now (proxied_entry req target pri attempt id ip lat name (resp_StatusCode resp)) before).

Lemma proxyToBackend_logged rw req target pri attempt id ip w :
  let sv := proxyToBackend L rw req target pri attempt id ip w in
  attempt_logged rw req target pri attempt id ip (lget G w) (sv_w sv) (lget G (sv_world sv)).
Proof.
  unfold proxyToBackend, update_metrics. set (w0 := modify L _ w).
  assert (lget G w0 = lget G w) as H0 by by apply apart_modify. revert H0. generalize w0. clear w0. intros w0 H0.
  pose proof (log_Now (G := G) w0) as H1. destruct (env_Now w0) as [start w1]; simpl in H1.
  assert (lget G (attempt_timeout (ctx_deadline (req_ctx req)) (px_perAttemptTimeout (lget L w1)) w1).2 = lget G w1) as H2.
  { destruct (ctx_deadline (req_ctx req)); [|done]. unfold attempt_timeout.
    pose proof (log_Now (G := G) w1). by destruct (env_Now w1). }
  destruct (attempt_timeout _ _ w1) as [timeout w2]; simpl in H2.
  pose proof (log_Now (G := G) w2) as H3. destruct (env_Now w2) as [now w3]; simpl in H3.
  destruct (client_NewRequest_ok _ _) eqn:Eok; cbn [negb].
  2: { cbn [sv_w sv_world]. rewrite apart_modify by done. assert (lget G w3 = lget G w) as -> by congruence.
       by apply logged_not_built. }
  match goal with |- context [client_Do ?out w3] =>
    pose proof (log_Do (G := G) out w3) as H4; destruct (client_Do out w3) as [[resp body] w4] eqn:Edo end.
  simpl in H4. pose proof (log_Now (G := G) w4) as H5. destruct (env_Now w4) as [t w5]; simpl in H5.
  assert (lget G w5 = lget G w) as E by congruence.
  destruct resp as [resp|err]; cbn [sv_w sv_world].
  - rewrite (log_Info (G := G)), !(apart_modify L G), E by done. eapply logged_answered. by rewrite Edo.
  - rewrite (log_Error (G := G)), (apart_modify L G), E by done. apply logged_failed.
Qed.

(** C38. The log tells of each attempt what the client was told.  An attempt prints one line: an INFO line with
    the target, the attempt's number and the status the client receives when a backend answered, an
    ERROR line with the error when none did or none could be selected, and then the client's status is
    502.  Only a request that cannot be built, answered 500, leaves no trace. *)
Theorem attempt_log_line head h req w :
  final_responses W ->
  let sv := proxy_ServeHTTP L (ServerWriter head h None []) req w in
  let status := (client_view (sv_w sv)).1.1 in
  let before := lget G w in
  let after := lget G (sv_world sv) in
  let id := RequestIDFromContext (req_ctx req) in
  match (select_of L req w).1 with
  | Selected target =>
      (exists now e, after = Info now e before /\ al_Target e = target /\ al_StatusCode e = status /\
         al_RequestID e = id /\ al_ClientIP e = req_clientIP req /\
         al_Attempt e = AttemptFromContext (req_ctx req) /\ backend_url (sv_w sv) = target) \/
      (exists now e, after = Error now e before /\ al_Target e = target /\ status = 502 /\ al_RequestID e = id /\
         al_Attempt e = AttemptFromContext (req_ctx req)) \/
      (after = before /\ status = 500 /\
         client_NewRequest_ok (req_Method req) (target +:+ req_RequestURI req) = false)
  | sel => exists now e, after = Error now e before /\ status = 502 /\ al_RequestID e = id /\
      al_Error e = selection_error sel
  end.
Proof.
  intros Hfinal sv status before after id. unfold status, after, sv, proxy_ServeHTTP. fold (select_of L req w).
  pose proof (proxy_select_log (Classify (req_Path req) (Header_Get (req_Header req) "X-Priority"))
    (ExcludedFromContext (req_ctx req)) w) as Hs. fold (select_of L req w) in Hs.
  destruct (select_of L req w) as [sel w1]. cbn [fst snd] in *.
  destruct sel as [target| | | |]; cbn [sv_w sv_world];
    [|rewrite (log_Error (G := G)), Hs, http_Error_view by done; by eexists _, _..].
  fold id. pose proof (proxyToBackend_logged (ServerWriter head h None []) req target
    (Classify (req_Path req) (Header_Get (req_Header req) "X-Priority")) (AttemptFromContext (req_ctx req))
    id (req_clientIP req) w1) as H. cbv zeta in H. rewrite Hs in H. fold before in H.
  inversion H as [Hno Hrw Hg|now lat err Hrw Hg|now lat name out w3 resp Hdo Hrw Hg].
  - right; right. rewrite http_Error_view; auto.
  - right; left. rewrite http_Error_view by done. by eexists _, _.
  - left. eexists _, _. split; [done|]. rewrite write_response_view by (by eapply Hfinal).
    split_and!; try done. apply write_response_backend.
Qed.
End logging.

(** ** Witnesses: one server, a backend that answers 200 *)
Definition sim_request (method path : string) (ctx : Context) : Request :=
  mkRequest method path path "10.0.0.1:4000" "host" false ∅ [] ctx.

Definition sim_proxy : Proxy RoundRobin :=
  proxy_New (NewRouter ["http://b1"]%string (mkRoundRobin 0)) (New 0 ["http://b1"] ["b1"] [1])%string
    {[ "http://b1"%string := NewBreaker 3 100 ]} 3 5.

Definition sim_world (answer : option Response) : Sim (Proxy RoundRobin) := mkSim 7 sim_proxy (fun _ => answer).

Lemma sim_final S : final_responses (Sim S).
Proof.
  intros out w resp. simpl. destruct (sim_backends w out) as [r|]; [|done].
  destruct (informational (resp_StatusCode r)) eqn:E; [done|]. by intros [= <-].
Qed.

Definition sim_ok : Sim (Proxy RoundRobin) := sim_world (Some (mkResponse 200 ∅ (to_bytes "ok"))).

Lemma proxy_answer_witness :
  client_view (sv_w (proxy_ServeHTTP (sim_lens (Proxy RoundRobin)) (ServerWriter false ∅ None [])
    (sim_request "GET" "/x" Background) sim_ok)) =
  (200, answer_header ∅ (mkResponse 200 ∅ (to_bytes "ok")) "b1" "http://b1" 1, to_bytes "ok").
Proof.
  rewrite (proxy_answer (sim_lens (Proxy RoundRobin)) false ∅ (sim_request "GET" "/x" Background) sim_ok (sim_final _)).
  reflexivity.
Defined.

Lemma proxy_metrics_match_answer_witness :
  let sv := proxy_ServeHTTP (sim_lens (Proxy RoundRobin)) (ServerWriter false ∅ None []) (sim_request "GET" "/x" Background)
              (sim_world None) in
  exists s', c_servers (px_metrics (lget (sim_lens (Proxy RoundRobin)) (sv_world sv))) !! "http://b1"%string = Some s' /\
    ActiveConnections s' = 0 /\ TotalRequests s' = 1.
Proof.
  destruct (proxy_metrics_match_answer (sim_lens (Proxy RoundRobin)) false ∅ (sim_request "GET" "/x" Background)
    (sim_world None) "http://b1"
    (select_of (sim_lens (Proxy RoundRobin)) (sim_request "GET" "/x" Background) (sim_world None)).2
    (New_stats 0 "http://b1" ["b1"] [1])%string) as [(s' & Hs & Ha & Ht & _) _].
  - apply sim_final.
  - reflexivity.
  - reflexivity.
  - split; [discriminate|reflexivity].
  - exists s'. split; [exact Hs|]. split; [exact Ha|exact Ht].
Defined.

Lemma console_final S : final_responses (Console S).
Proof. intros out w resp. apply (sim_final S out (con_sim w)). Qed.

Lemma attempt_log_line_witness :
  exists now e, con_log (sv_world (proxy_ServeHTTP (console_lens (Proxy RoundRobin)) (ServerWriter false ∅ None [])
      (sim_request "GET" "/x" Background) (mkConsole Logger_init sim_ok))) = Info now e Logger_init /\
    al_Target e = "http://b1"%string /\ al_StatusCode e = 200.
Proof.
  pose proof (attempt_log_line (console_lens (Proxy RoundRobin)) (log_lens _) (console_apart _) false ∅
    (sim_request "GET" "/x" Background) (mkConsole Logger_init sim_ok) (console_final _)) as H.
  cbv zeta in H.
  assert ((select_of (console_lens (Proxy RoundRobin)) (sim_request "GET" "/x" Background) (mkConsole Logger_init sim_ok)).1
    = Selected "http://b1") as Hsel by reflexivity.
  rewrite Hsel in H. destruct H as [(now & e & Hlog & Ht & Hst & _)|[(now & e & _ & _ & Hst & _)|(_ & Hst & _)]].
  - exists now, e. split; [exact Hlog|]. split; [exact Ht|]. rewrite Hst. reflexivity.
  - exfalso. vm_compute in Hst. discriminate Hst.
  - exfalso. vm_compute in Hst. discriminate Hst.
Defined.
