(* ===== verification/Monitor.v ===== *)
(** * health/monitor.go: the health checks

    One goroutine per server probes it at its interval.  [check] is a probe's effect on the components a
    service shares between its monitor, its router and its proxy; [Start] and [Stop] are modelled with
    the stop channels they make and close, and the goroutines that select on them.  A goroutine first makes
    its ticker, which panics on an interval that is not positive and so ends the program; that is taken
    when the goroutine is started. *)
From S2P Require Import Prelude GoFloat GoSort GoStrings GoHttp Breaker Collector Balancer Canary Selector Env Config Proxy.
Open Scope Z_scope.

(** [client.Get]: the status of an answer, or an error. *)
Class Prober (W : Type) : Type := probe_Get : string -> Z -> W -> option Z * W.

Section check.
Context {A : Type} `{!GoSort float64 f64_less}.
Context {W : Type} `{!Env W} `{!Prober W} (L : Lens W (Proxy A)).

(** The three calls after a failed probe; [RecordFailure] reads the clock under its mutex.  [None] is the
    panic on a nil breaker. *)
Definition check_down (url : string) (w : W) : option W :=
  let '(now, w) := env_Now w in
  let w := modify L (with_metrics (SetHealth now url false)) w in
  let '(now, w) := env_Now w in
  match px_breakers (lget L w) !! url with
  | None => None
  | Some b =>
      let b := Breaker_RecordFailure now b in
      let w := modify L (set_breaker url b) w in
      let '(now, w) := env_Now w in
      Some (modify L (with_metrics (SetCircuitState now url (Breaker_State b))) w)
  end.

Definition check_up (url : string) (w : W) : option W :=
  let '(now, w) := env_Now w in
  let w := modify L (with_metrics (SetHealth now url true)) w in
  match px_breakers (lget L w) !! url with
  | None => None
  | Some b =>
      let '(b, wasOpen) := Breaker_RecordSuccess b in
      let w := modify L (set_breaker url b) w in
      let w := if wasOpen then modify L (with_metrics (ClearLatencies url)) w else w in
      let '(now, w) := env_Now w in
      Some (modify L (with_metrics (SetCircuitState now url (Breaker_State b))) w)
  end.

Definition check (server : ServerConfig) (w : W) : option W :=
  let timeout := Duration_mul (hc_TimeoutSec (srv_HealthCheck server)) Second in
  let url := (srv_URL server +:+ hc_Path (srv_HealthCheck server))%string in
  let '(resp, w) := probe_Get url timeout w in
  match resp with
  | None => check_down (srv_URL server) w
  | Some status =>
      if negb (status =? hc_ExpectedStatus (srv_HealthCheck server)) then check_down (srv_URL server) w
      else check_up (srv_URL server) w
  end.
End check.

(** ** Start and Stop *)
(** The monitor's fields, and of the runtime the channels made so far, those closed, and the goroutines
    with the channel each selects on. *)
Record Monitor : Type := mkMonitor {
  mon_servers : list ServerConfig;
  mon_stopChs : list nat;
  mon_made : nat;
  mon_closed : gset nat;
  mon_goroutines : list (ServerConfig * nat);
}.

Definition NewMonitor (servers : list ServerConfig) : Monitor := mkMonitor servers [] 0 ∅ [].

(** The ticker of a server's goroutine; [None] is the panic of [NewTicker]. *)
Definition probe_ticker (s : ServerConfig) : option Z := NewTicker (hc_IntervalSec (srv_HealthCheck s)).

Fixpoint start_loop (servers : list ServerConfig) (m : Monitor) : option Monitor :=
  match servers with
  | [] => Some m
  | s :: servers =>
      let ch := mon_made m in
      _ ← probe_ticker s;
      start_loop servers
        (mkMonitor (mon_servers m) (mon_stopChs m ++ [ch]) (S ch) (mon_closed m) (mon_goroutines m ++ [(s, ch)]))
  end.

Definition Monitor_Start (m : Monitor) : option Monitor := start_loop (mon_servers m) m.

(** Closing a closed channel panics: [None]. *)
Fixpoint close_all (chs : list nat) (closed : gset nat) : option (gset nat) :=
  match chs with
  | [] => Some closed
  | ch :: chs => if bool_decide (ch ∈ closed) then None else close_all chs ({[ch]} ∪ closed)
  end.

Definition Monitor_Stop (m : Monitor) : option Monitor :=
  closed ← close_all (mon_stopChs m) (mon_closed m);
  Some (mkMonitor (mon_servers m) [] (mon_made m) closed (mon_goroutines m)).

(** A goroutine returns once its channel is closed; until then it probes at its ticks. *)
Inductive monitor_step : Monitor -> Monitor -> Prop :=
| mstep_start m m' : Monitor_Start m = Some m' -> monitor_step m m'
| mstep_stop m m' : Monitor_Stop m = Some m' -> monitor_step m m'
| mstep_exit m l1 s ch l2 :
    mon_goroutines m = l1 ++ (s, ch) :: l2 -> ch ∈ mon_closed m ->
    monitor_step m (mkMonitor (mon_servers m) (mon_stopChs m) (mon_made m) (mon_closed m) (l1 ++ l2)).

(** Every goroutine probes a server of the monitor, and waits on a channel the monitor still holds or on a
    closed one. *)
Record monitor_inv (m : Monitor) : Prop := {
  mi_nodup : NoDup (mon_stopChs m);
  mi_open : forall ch, ch ∈ mon_stopChs m -> (ch ∉ mon_closed m) /\ (ch < mon_made m)%nat;
  mi_made : forall ch, ch ∈ mon_closed m -> (ch < mon_made m)%nat;
  mi_goroutines : forall s ch, (s, ch) ∈ mon_goroutines m -> ch ∈ mon_stopChs m \/ ch ∈ mon_closed m;
  mi_probes : forall s ch, (s, ch) ∈ mon_goroutines m -> s ∈ mon_servers m;
}.

(** Every server's interval makes a ticker. *)
Definition tickers (servers : list ServerConfig) : Prop := Forall (fun s => is_Some (probe_ticker s)) servers.

#[export] Instance tickers_dec servers : Decision (tickers servers).
Proof. unfold tickers. apply _. Defined.

Lemma start_loop_tickers servers m : is_Some (start_loop servers m) <-> tickers servers.
Proof.
  revert m. induction servers as [|s servers IH]; intros m; cbn [start_loop]; [split; [constructor|by eexists]|].
  unfold tickers. rewrite Forall_cons. destruct (probe_ticker s) as [d|]; cbn [mbind option_bind].
  - rewrite IH. split; [by split; [eexists|]|by intros [_ ?]].
  - split; [by intros [? [=]]|by intros [[? [=]] _]].
Qed.

Lemma start_loop_servers servers m m' : start_loop servers m = Some m' -> mon_servers m' = mon_servers m.
Proof.
  revert m. induction servers as [|s servers IH]; intros m; cbn [start_loop]; [by intros [= <-]|].
  destruct (probe_ticker s); [|done]. cbn [mbind option_bind]. intros H. by rewrite (IH _ H).
Qed.

Lemma start_loop_inv servers m m' :
  start_loop servers m = Some m' -> servers ⊆ mon_servers m -> monitor_inv m -> monitor_inv m'.
Proof.
  revert m. induction servers as [|s servers IH]; intros m; cbn [start_loop]; [by intros [= <-]|].
  destruct (probe_ticker s); [|done]. cbn [mbind option_bind]. intros Hstart Hsub [Hnd Ho Hm Hg Hp].
  apply (IH _ Hstart); [intros s' Hs'; apply Hsub; by right|]. split; simpl.
  - apply NoDup_app. split_and!; [done| |apply NoDup_singleton].
    intros ch Hin ->%list_elem_of_singleton. apply Ho in Hin as [_ ?]. lia.
  - intros ch [Hin| ->%list_elem_of_singleton]%elem_of_app; [apply Ho in Hin as [? ?]; split; [done|lia]|].
    split; [|lia]. intros Hin%Hm. lia.
  - intros ch Hin%Hm. lia.
  - intros s' ch [Hin|[= -> ->]%list_elem_of_singleton]%elem_of_app; rewrite elem_of_app, list_elem_of_singleton;
      [apply Hg in Hin as [|]; auto|auto].
  - intros s' ch [Hin|[= -> ->]%list_elem_of_singleton]%elem_of_app; [by eapply Hp|]. apply Hsub. left.
Qed.

Lemma close_all_ok chs closed :
  NoDup chs -> (forall ch, ch ∈ chs -> ch ∉ closed) -> close_all chs closed = Some (list_to_set (C := gset nat) chs ∪ closed).
Proof.
  revert closed. induction chs as [|ch chs IH]; intros closed Hnd Hopen; simpl; [f_equal; set_solver|].
  apply NoDup_cons in Hnd as [Hnin Hnd]. rewrite bool_decide_eq_false_2 by (apply Hopen; left).
  rewrite IH; [f_equal; set_solver|done|]. intros c Hc. specialize (Hopen c). set_solver.
Qed.

Lemma Monitor_Stop_inv m :
  monitor_inv m -> exists m', Monitor_Stop m = Some m' /\ monitor_inv m' /\
    mon_goroutines m' = mon_goroutines m /\ mon_servers m' = mon_servers m /\
    forall s ch, (s, ch) ∈ mon_goroutines m' -> ch ∈ mon_closed m'.
Proof.
  intros [Hnd Ho Hm Hg Hp]. unfold Monitor_Stop.
  rewrite close_all_ok by (done || (intros ch Hch; by apply Ho)). eexists. split; [done|].
  assert (forall s ch, (s, ch) ∈ mon_goroutines m -> ch ∈ list_to_set (C := gset nat) (mon_stopChs m) ∪ mon_closed m) as Hall
    by (intros s ch Hin; apply Hg in Hin; set_solver).
  split_and!; simpl; [|done|done|done]. split; simpl; [constructor|by intros ch ?%elem_of_nil| | |done].
  - intros ch [Hch%elem_of_list_to_set|Hch]%elem_of_union; [by apply Ho in Hch as []|by apply Hm].
  - intros s ch Hin. right. by eapply Hall.
Qed.

Lemma monitor_step_inv m m' : monitor_step m m' -> monitor_inv m -> monitor_inv m'.
Proof.
  intros [m0 m1 Hs|m0 m1 Hs|m0 l1 s ch l2 Hg Hc] Hinv.
  - by eapply start_loop_inv.
  - destruct (Monitor_Stop_inv m0 Hinv) as (m2 & Hs2 & Hi & _). congruence.
  - destruct Hinv as [Hnd Ho Hm Hgs Hp].
    assert (forall s' ch', (s', ch') ∈ l1 ++ l2 -> (s', ch') ∈ mon_goroutines m0) as Hsub.
    { intros s' ch' Hin. rewrite Hg. apply elem_of_app in Hin. apply elem_of_app. rewrite elem_of_cons. tauto. }
    split; simpl; eauto.
Qed.

Lemma monitor_step_servers m m' : monitor_step m m' -> mon_servers m' = mon_servers m.
Proof.
  intros [m0 m1 Hs|m0 m1 Hs|m0 l1 s ch l2 Hg Hc]; [by eapply start_loop_servers| |done].
  unfold Monitor_Stop in Hs. destruct (close_all _ _); [|done]. by injection Hs as <-.
Qed.

(** *** Winding down: after the one [Start], a monitor is stopped and its goroutines return *)
Inductive monitor_ends : Monitor -> Monitor -> Prop :=
| mend_stop m m' : Monitor_Stop m = Some m' -> monitor_ends m m'
| mend_exit m l1 s ch l2 :
    mon_goroutines m = l1 ++ (s, ch) :: l2 -> ch ∈ mon_closed m ->
    monitor_ends m (mkMonitor (mon_servers m) (mon_stopChs m) (mon_made m) (mon_closed m) (l1 ++ l2)).

Lemma monitor_ends_step m m' : monitor_ends m m' -> monitor_step m m'.
Proof. intros []; [by apply mstep_stop|by eapply mstep_exit]. Qed.

(** Every goroutine that is left finds its channel closed at its next turn. *)
Definition all_closed (m : Monitor) : Prop := forall s ch, (s, ch) ∈ mon_goroutines m -> ch ∈ mon_closed m.

Lemma close_all_grows chs closed closed' : close_all chs closed = Some closed' -> closed ⊆ closed'.
Proof.
  revert closed. induction chs as [|ch chs IH]; intros closed; simpl; [by intros [= <-]|].
  destruct (bool_decide _); [done|]. intros H%IH. set_solver.
Qed.

Lemma all_closed_ends m m' : all_closed m -> monitor_ends m m' -> all_closed m'.
Proof.
  intros Hm Hends. revert Hm. destruct Hends as [m0 m1 Hs|m0 l1 s ch l2 Hg Hc]; intros Hm s' ch'.
  - unfold Monitor_Stop in Hs. destruct (close_all _ _) as [closed|] eqn:E; [|done]. injection Hs as <-. simpl.
    intros H%Hm. by apply (close_all_grows _ _ _ E).
  - intros H. apply (Hm s'). rewrite Hg. simpl in H. rewrite elem_of_app in H |- *. rewrite elem_of_cons. tauto.
Qed.

Lemma monitor_reachable_inv servers m : rtc monitor_step (NewMonitor servers) m -> monitor_inv m.
Proof.
  intros H. assert (monitor_inv (NewMonitor servers)) as H0.
  { split; simpl; [constructor|by intros ch ?%elem_of_nil|by intros ch ?%elem_of_empty|by intros s ch ?%elem_of_nil..]. }
  induction H; eauto using monitor_step_inv.
Qed.

(** Stopping a monitor is safe and complete: after any starts, stops and goroutine exits, in any order,
    Stop closes no channel twice, and leaves every health-check goroutine with a closed channel, on
    which it returns; so no goroutine outlives a hot reload. *)
Theorem monitor_stop_safe servers m :
  rtc monitor_step (NewMonitor servers) m ->
  exists m', Monitor_Stop m = Some m' /\ mon_goroutines m' = mon_goroutines m /\
    forall s ch, (s, ch) ∈ mon_goroutines m' -> ch ∈ mon_closed m'.
Proof.
  intros H%monitor_reachable_inv. destruct (Monitor_Stop_inv m H) as (m' & Hs & _ & Hg & _ & Hc). eauto.
Qed.

Definition w_server : ServerConfig := mkServer "http://b1" "b1" 1 0 (mkHC "/health" 5 2 200).

Lemma monitor_stop_safe_witness :
  exists m1 m2 m', Monitor_Start (NewMonitor [w_server]) = Some m1 /\ Monitor_Start m1 = Some m2 /\
    Monitor_Stop m2 = Some m' /\ length (mon_goroutines m') = 2%nat.
Proof.
  destruct (Monitor_Start (NewMonitor [w_server])) as [m1|] eqn:E1; [|vm_compute in E1; discriminate E1].
  destruct (Monitor_Start m1) as [m2|] eqn:E2.
  - destruct (monitor_stop_safe [w_server] m2) as (m' & Hs & Hg & _).
    + eapply rtc_l; [apply mstep_start; exact E1|]. apply rtc_once. apply mstep_start. exact E2.
    + exists m1, m2, m'. repeat split; [exact E2|exact Hs|]. rewrite Hg.
      vm_compute in E1. injection E1 as <-. vm_compute in E2. injection E2 as <-. reflexivity.
  - exfalso. vm_compute in E1. injection E1 as <-. vm_compute in E2. discriminate E2.
Defined.

(** An interval that is not positive: the goroutine panics. *)
Example negative_interval_panics :
  Monitor_Start (NewMonitor [mkServer "http://b1" "b1" 1 0 (mkHC "/health" (-1) 2 200)]) = None.
Proof. reflexivity. Qed.

(** ** What a probe does *)
Section effect.
Context {A : Type} `{!GoSort float64 f64_less}.
Context {W : Type} `{!Env W} `{!Prober W} (L : Lens W (Proxy A)) `{!Frame L}.
Context (probe_frame : forall url timeout w, lget L (probe_Get url timeout w).2 = lget L w).

(** The statistics of a server after a probe at [time]: health, circuit state and the time of the check are new;
    the latencies are forgotten when the probe ended an outage ([recovered]); the rest stays. *)
Definition probe_stats (up recovered : bool) (state time : string) (s : ServerStats) : ServerStats :=
  {| Name := Name s; URL := URL s; Weight := Weight s; IsHealthy := up;
     AvgLatencyMs := if recovered then f64_zero else AvgLatencyMs s;
     P95LatencyMs := if recovered then f64_zero else P95LatencyMs s;
     ActiveConnections := ActiveConnections s; TotalRequests := TotalRequests s;
     SuccessCount := SuccessCount s; FailureCount := FailureCount s;
     RetryCount := RetryCount s; CircuitState := state;
     HighPriorityCount := HighPriorityCount s; LowPriorityCount := LowPriorityCount s;
     LastChecked := time; recentLatencies := if recovered then [] else recentLatencies s |}.

(** What a probe leaves of the shared components, to the last field. *)
Record probed (url : string) (up : bool) (b b' : Breaker) (p p' : Proxy A) : Prop := {
  pr_breaker : px_breakers p !! url = Some b /\ px_breakers p' = <[url := b']> (px_breakers p) /\
    if up then b' = (Breaker_RecordSuccess b).1 else exists now, b' = Breaker_RecordFailure now b;
  pr_stats : exists now, forall u, c_servers (px_metrics p') !! u =
    if decide (u = url)
    then probe_stats up (up && negb (bool_decide (b_state b = StateClosed))) (Breaker_State b') (format_hms now)
           <$> c_servers (px_metrics p) !! url
    else c_servers (px_metrics p) !! u;
  pr_events : exists now, c_circuitEvents (px_metrics p') =
    match c_servers (px_metrics p) !! url with
    | Some s =>
        if bool_decide (CircuitState s = Breaker_State b') then c_circuitEvents (px_metrics p)
        else push_event 50 (c_circuitEvents (px_metrics p))
               {| ev_ServerName := Name s; ev_ServerURL := url; ev_OldState := CircuitState s;
                  ev_NewState := Breaker_State b'; ev_Timestamp := format_hms now |}
    | None => c_circuitEvents (px_metrics p)
    end;
  pr_rest : px_router p' = px_router p /\ px_maxRetries p' = px_maxRetries p /\
    px_perAttemptTimeout p' = px_perAttemptTimeout p /\
    c_lastSnapshotTime (px_metrics p') = c_lastSnapshotTime (px_metrics p) /\
    c_lastTotalRequests (px_metrics p') = c_lastTotalRequests (px_metrics p) /\
    c_algorithm (px_metrics p') = c_algorithm (px_metrics p);
}.

(** The three calls on the collector: [SetHealth], [ClearLatencies] on a recovery, [SetCircuitState]. *)
Definition probe_metrics (t1 t3 : Z) (url : string) (up recovered : bool) (state : string) (c : Collector) : Collector :=
  let c := SetHealth t1 url up c in
  SetCircuitState t3 url state (if recovered then ClearLatencies url c else c).

Lemma update_server_rest url f c :
  c_lastSnapshotTime (update_server url f c) = c_lastSnapshotTime c /\
  c_lastTotalRequests (update_server url f c) = c_lastTotalRequests c /\ c_algorithm (update_server url f c) = c_algorithm c.
Proof. unfold update_server. by destruct (c_servers c !! url). Qed.

Lemma probe_metrics_effect t1 t3 url up recovered state c :
  let c' := probe_metrics t1 t3 url up recovered state c in
  (forall u, c_servers c' !! u = if decide (u = url)
     then probe_stats up recovered state (format_hms t1) <$> c_servers c !! url else c_servers c !! u) /\
  c_circuitEvents c' = match c_servers c !! url with
    | Some s => if bool_decide (CircuitState s = state) then c_circuitEvents c
                else push_event 50 (c_circuitEvents c)
                  {| ev_ServerName := Name s; ev_ServerURL := url; ev_OldState := CircuitState s;
                     ev_NewState := state; ev_Timestamp := format_hms t3 |}
    | None => c_circuitEvents c
    end /\
  c_lastSnapshotTime c' = c_lastSnapshotTime c /\ c_lastTotalRequests c' = c_lastTotalRequests c /\
  c_algorithm c' = c_algorithm c.
Proof.
  unfold probe_metrics. cbv zeta. set (c1 := SetHealth t1 url up c). set (c2 := if recovered then _ else c1).
  assert ((forall u, c_servers c2 !! u = if decide (url = u)
     then (if recovered then clear_stats else id) ∘ health_stats t1 up <$> c_servers c !! u else c_servers c !! u) /\
    c_circuitEvents c2 = c_circuitEvents c /\ c_lastSnapshotTime c2 = c_lastSnapshotTime c /\
    c_lastTotalRequests c2 = c_lastTotalRequests c /\ c_algorithm c2 = c_algorithm c) as (Hs & He & Hr).
  { unfold c2, c1, ClearLatencies, SetHealth.
    destruct recovered; (split; [intros u; rewrite !update_server_lookup; case_decide; [|done];
      by destruct (c_servers c !! u)|split; [by rewrite !update_server_events|]]).
    - destruct (update_server_rest url clear_stats (update_server url (health_stats t1 up) c)) as (-> & -> & ->).
      apply update_server_rest.
    - apply update_server_rest. }
  split_and!.
  - intros u. rewrite SetCircuitState_lookup, Hs. destruct (decide (url = u)) as [<-|Hne].
    + rewrite decide_True by done. destruct (c_servers c !! url) as [s|]; [|done]. by destruct recovered.
    + by rewrite decide_False.
  - unfold SetCircuitState. rewrite Hs, decide_True by done.
    destruct (c_servers c !! url) as [s|]; [|done]. cbn [fmap option_fmap option_map compose].
    replace (CircuitState ((if recovered then clear_stats else id) (health_stats t1 up s))) with (CircuitState s)
      by by destruct recovered.
    replace (Name ((if recovered then clear_stats else id) (health_stats t1 up s))) with (Name s)
      by by destruct recovered.
    rewrite <- He. by destruct (bool_decide (CircuitState s = state)).
  - rewrite <- (proj1 Hr). unfold SetCircuitState. destruct (c_servers c2 !! url); [|done]. by destruct (negb _).
  - rewrite <- (proj1 (proj2 Hr)). unfold SetCircuitState. destruct (c_servers c2 !! url); [|done]. by destruct (negb _).
  - rewrite <- (proj2 (proj2 Hr)). unfold SetCircuitState. destruct (c_servers c2 !! url); [|done]. by destruct (negb _).
Qed.

Lemma check_down_probed url w b :
  px_breakers (lget L w) !! url = Some b ->
  exists w' b', check_down L url w = Some w' /\ probed url false b b' (lget L w) (lget L w').
Proof.
  intros Hb. unfold check_down.
  pose proof (frame_Now (L := L) w) as H1. destruct (env_Now w) as [t1 w1]; simpl in H1.
  set (w2 := modify L _ w1). pose proof (frame_Now (L := L) w2) as H2. destruct (env_Now w2) as [t2 w3]; simpl in H2.
  assert (px_breakers (lget L w3) !! url = Some b) as ->
    by (rewrite H2; unfold w2; rewrite lget_modify; simpl; by rewrite H1).
  set (w4 := modify L _ w3). pose proof (frame_Now (L := L) w4) as H3. destruct (env_Now w4) as [t3 w5]; simpl in H3.
  set (b' := Breaker_RecordFailure t2 b) in *. eexists _, b'. split; [done|].
  assert (lget L w5 = set_breaker url b' (with_metrics (SetHealth t1 url false) (lget L w))) as E.
  { rewrite H3. unfold w4. rewrite lget_modify, H2. unfold w2. by rewrite lget_modify, H1. }
  rewrite lget_modify, E.
  destruct (probe_metrics_effect t1 t3 url false false (Breaker_State b') (px_metrics (lget L w))) as (Hs & He & Hr).
  split; simpl; [split_and!; [done|done|by exists t2]|by exists t1|by exists t3|done].
Qed.

Lemma check_up_probed url w b :
  px_breakers (lget L w) !! url = Some b ->
  exists w' b', check_up L url w = Some w' /\ probed url true b b' (lget L w) (lget L w').
Proof.
  intros Hb. unfold check_up.
  pose proof (frame_Now (L := L) w) as H1. destruct (env_Now w) as [t1 w1]; simpl in H1.
  rewrite lget_modify. cbn [px_breakers with_metrics]. rewrite H1, Hb.
  destruct (Breaker_RecordSuccess b) as [b1 wasOpen] eqn:Er.
  set (w2 := modify L _ w1). set (w3 := modify L _ w2). set (w4 := if wasOpen then _ else w3).
  pose proof (frame_Now (L := L) w4) as H3. destruct (env_Now w4) as [t3 w5]; simpl in H3.
  eexists _, b1. split; [done|].
  assert (lget L w5 = with_metrics (if wasOpen then ClearLatencies url else id)
    (set_breaker url b1 (with_metrics (SetHealth t1 url true) (lget L w)))) as E.
  { rewrite H3. unfold w4, w3, w2. destruct wasOpen; by rewrite ?lget_modify, ?lget_put, H1. }
  rewrite lget_modify, E.
  assert (wasOpen = true && negb (bool_decide (b_state b = StateClosed)) /\ b1 = (Breaker_RecordSuccess b).1) as [Hw Hb1]
    by (by injection Er as <- <-).
  destruct (probe_metrics_effect t1 t3 url true wasOpen (Breaker_State b1) (px_metrics (lget L w))) as (Hs & He & Hr).
  rewrite Hw in *. split; simpl.
  - split_and!; done.
  - exists t1. intros u. rewrite <- Hs. unfold probe_metrics. by destruct (negb _).
  - exists t3. rewrite <- He. unfold probe_metrics. by destruct (negb _).
  - destruct Hr as (<- & <- & <-). unfold probe_metrics. by destruct (negb _).
Qed.

Lemma check_probed server w b :
  px_breakers (lget L w) !! srv_URL server = Some b ->
  exists w' b', check L server w = Some w' /\
    probed (srv_URL server)
      (bool_decide ((probe_Get (srv_URL server +:+ hc_Path (srv_HealthCheck server))%string
         (Duration_mul (hc_TimeoutSec (srv_HealthCheck server)) Second) w).1
         = Some (hc_ExpectedStatus (srv_HealthCheck server)))) b b' (lget L w) (lget L w').
Proof.
  intros Hb. unfold check. set (url := (srv_URL server +:+ _)%string). set (timeout := Duration_mul _ _).
  pose proof (probe_frame url timeout w) as H1. destruct (probe_Get url timeout w) as [resp w1]; simpl in H1 |- *.
  rewrite <- H1 in *. destruct resp as [status|].
  - destruct (status =? _) eqn:E; simpl; z_bool.
    + rewrite bool_decide_eq_true_2 by congruence. by apply check_up_probed.
    + rewrite bool_decide_eq_false_2 by congruence. by apply check_down_probed.
  - rewrite bool_decide_eq_false_2 by done. by apply check_down_probed.
Qed.
End effect.

(** C22. A probe of a server with a breaker never panics.  The server is marked healthy exactly when the
    probe answered with the expected status; its breaker is reset by a success and counts a failure;
    the circuit state shown in the metrics is the breaker's, and a change of it is logged; the latencies are
    forgotten exactly when a success ends an outage; and nothing else changes, neither the server's
    other figures nor any other server, nor what the service selects with. *)
Theorem monitor_check {A W : Type} `{!GoSort float64 f64_less} `{!Env W} `{!Prober W} (L : Lens W (Proxy A))
    `{!Frame L} (server : ServerConfig) (b : Breaker) (w : W) :
  (forall url timeout w, lget L (probe_Get url timeout w).2 = lget L w) ->
  px_breakers (lget L w) !! srv_URL server = Some b ->
  exists w' b', check L server w = Some w' /\
    probed (srv_URL server)
      (bool_decide ((probe_Get (srv_URL server +:+ hc_Path (srv_HealthCheck server))%string
         (Duration_mul (hc_TimeoutSec (srv_HealthCheck server)) Second) w).1
         = Some (hc_ExpectedStatus (srv_HealthCheck server)))) b b' (lget L w) (lget L w').
Proof. intros Hf Hb. by apply check_probed. Qed.

Definition down_prober : Prober (Sim (Proxy RoundRobin)) := fun _ _ w => (None, w).

Lemma monitor_check_witness :
  exists w', check (Prober0 := down_prober) (sim_lens (Proxy RoundRobin)) w_server (sim_world None) = Some w' /\
    IsHealthy <$> c_servers (px_metrics (lget (sim_lens (Proxy RoundRobin)) w')) !! "http://b1"%string = Some false.
Proof.
  destruct (px_breakers (lget (sim_lens (Proxy RoundRobin)) (sim_world None)) !! "http://b1"%string) as [b|] eqn:Eb;
    [|vm_compute in Eb; discriminate Eb].
  destruct (monitor_check (Prober0 := down_prober) (sim_lens (Proxy RoundRobin)) w_server b (sim_world None))
    as (w' & b' & Hc & Hp).
  - reflexivity.
  - exact Eb.
  - exists w'. split; [exact Hc|]. destruct (pr_stats _ _ _ _ _ _ Hp) as [now H].
    rewrite (H "http://b1"%string). reflexivity.
Defined.
