(* ===== verification/SharedCore.v ===== *)
(** * The components a service shares, under every interleaving

    The router, the collector and the breakers of a service are used at once by its proxy handler, its
    monitor and the circuit breaker middleware.  [core_step] is one call on one of them that holds its
    mutex; [wf_core] is what every such call keeps; and the proxy and the monitor are shown to act by such
    calls alone, so that neither meets a nil breaker. *)
From S2P Require Import Prelude GoFloat GoSort GoStrings GoHttp Breaker Collector Balancer Canary Selector Logging Env.
From S2P Require Import Config Priority Proxy Monitor Stability.
Open Scope Z_scope.

Section core.
Context {A : Type} `{!Algorithm A} `{!GoSort float64 f64_less}.

Inductive core_step (p : Proxy A) : Proxy A -> Prop :=
| step_metrics op : op_ok op -> core_step p (with_metrics (c_exec op) p)
| step_breaker url b b' : px_breakers p !! url = Some b -> core_step p (set_breaker url b' p)
| step_algo candidates stats pri :
    core_step p (with_algo (algo_Select (r_algo (px_router p)) candidates stats pri).1 p).

(** The servers [urls] each have a breaker and an entry in the metrics, and nothing else does. *)
Record wf_core (urls : list string) (p : Proxy A) : Prop := {
  wc_servers : r_servers (px_router p) = urls;
  wc_breakers : forall u, is_Some (px_breakers p !! u) <-> u ∈ urls;
  wc_stats : forall u, is_Some (c_servers (px_metrics p) !! u) <-> u ∈ urls;
  wc_collector : collector_inv (px_metrics p);
}.

Lemma update_server_dom url f c u : is_Some (c_servers (update_server url f c) !! u) <-> is_Some (c_servers c !! u).
Proof. rewrite update_server_lookup. case_decide; [|done]. by rewrite fmap_is_Some. Qed.

Lemma ImportMetrics_dom old c u : is_Some (c_servers (ImportMetrics old c) !! u) <-> is_Some (c_servers c !! u).
Proof.
  rewrite ImportMetrics_lookup. destruct (c_servers c !! u), (old !! u); simpl; split; intros [x Hx]; by eexists.
Qed.

Lemma c_exec_dom op c u : is_Some (c_servers (c_exec op c) !! u) <-> is_Some (c_servers c !! u).
Proof.
  destruct op; simpl; try apply update_server_dom; try done.
  - rewrite SetCircuitState_lookup. case_decide; [|done]. by rewrite fmap_is_Some.
  - apply ImportMetrics_dom.
Qed.

Lemma wf_core_step urls p p' : wf_core urls p -> core_step p p' -> wf_core urls p'.
Proof.
  intros [Hs Hb Hm Hc] Hstep. destruct Hstep as [op Hop|url b b' Hu|candidates stats pri]; split; simpl; try done.
  - intros u. by rewrite c_exec_dom.
  - by apply collector_inv_exec.
  - intros u. rewrite lookup_insert_is_Some', Hb. split; [intros [<-|]; [|done]|by right]. by apply Hb; rewrite Hu.
Qed.

Lemma wf_core_steps urls p p' : wf_core urls p -> rtc core_step p p' -> wf_core urls p'.
Proof. intros H Hs. induction Hs; eauto using wf_core_step. Qed.
End core.

(** ** The handlers act by such calls *)
Section handlers.
Context {A : Type} `{!Algorithm A} `{!GoSort float64 f64_less}.
Context {W : Type} `{!Env W} `{!Client W} (I : W -> Prop) `{!Stable I} (L : Lens W (Proxy A)).
Context (HL : respects I L core_step).

Lemma metrics_keeps op w : op_ok op -> I w -> I (update_metrics L (c_exec op) w).
Proof. intros Hop Hw. apply HL; [done|]. by apply step_metrics. Qed.

(** The filtering loop, among other goroutines; where every server has a breaker it ends with some of them. *)
Lemma candidates_in_keeps ex stats servers w : I w -> I (candidates_in L ex stats servers w).2.
Proof.
  revert w. induction servers as [|u rest IH]; intros w H; cbn [candidates_in]; [done|].
  destruct (bool_decide _); [by apply IH|]. destruct (stats !! u) as [s|]; [|by apply IH].
  destruct (IsHealthy s); [|by apply IH]. stable_clock I. destruct (px_breakers _ !! u); [|done].
  match goal with H : I ?w |- _ => specialize (IH w H) end. by destruct (candidates_in L ex stats rest _).
Qed.

Lemma candidates_in_subset ex stats servers w l w1 :
  candidates_in L ex stats servers w = (Some l, w1) -> forall u, u ∈ l -> u ∈ servers.
Proof.
  revert w l w1. induction servers as [|u rest IH]; intros w l w1; cbn [candidates_in]; [by intros [= <- _]|].
  destruct (bool_decide _); [intros E v Hv; right; by eapply IH|]. destruct (stats !! u) as [s|]; [|intros E v Hv; right; by eapply IH].
  destruct (IsHealthy s); [|intros E v Hv; right; by eapply IH]. destruct (env_Now w) as [now w2].
  destruct (px_breakers _ !! u) as [b|]; [|done]. destruct (candidates_in L ex stats rest w2) as [[l'|] w3] eqn:E; [|by destruct (negb _)].
  destruct (negb _); intros [= <- _] v Hv; [|right; by eapply IH].
  apply elem_of_cons in Hv as [->|Hv]; [left|right; by eapply IH].
Qed.

Lemma candidates_in_total ex stats servers w :
  (forall w u, I w -> u ∈ servers -> is_Some (px_breakers (lget L w) !! u)) -> I w ->
  is_Some (candidates_in L ex stats servers w).1.
Proof.
  revert w. induction servers as [|u rest IH]; intros w Hb H; cbn [candidates_in]; [by eexists|].
  assert (forall w u, I w -> u ∈ rest -> is_Some (px_breakers (lget L w) !! u)) as Hb' by (intros; apply Hb; [done|by right]).
  destruct (bool_decide _); [by apply IH|]. destruct (stats !! u) as [s|]; [|by apply IH].
  destruct (IsHealthy s); [|by apply IH]. stable_clock I.
  match goal with H : I ?w |- _ => destruct (Hb w u H ltac:(left)) as [b ->]; destruct (IH w Hb' H) as [l E] end.
  destruct (candidates_in L ex stats rest _) as [l' w']. cbn [fst] in E. subst l'. destruct (negb _); by eexists.
Qed.

Lemma algo_keeps stats candidates pri w :
  I w -> I (modify L (with_algo (algo_Select (r_algo (px_router (lget L w))) candidates stats pri).1) w).
Proof. intros H. apply HL; [done|]. by eapply step_algo. Qed.

Lemma proxy_select_keeps pri excluded w : I w -> I (proxy_select L pri excluded w).2.
Proof.
  intros H. unfold proxy_select.
  apply (candidates_in_keeps (list_to_set excluded) (Snapshot (px_metrics (lget L w))) (r_servers (px_router (lget L w)))) in H.
  destruct (candidates_in L _ _ _ w) as [[l|] w1]; cbn [snd] in *; [|done]. destruct (length l =? 0)%nat; [done|].
  apply (algo_keeps (Snapshot (px_metrics (lget L w))) l pri) in H. destruct (algo_Select _ _ _ _) as [algo chosen]. cbn [fst] in H.
  destruct (bool_decide _); [done|]. stable_clock I. destruct (px_breakers _ !! chosen) as [b|] eqn:Eb; [|done].
  destruct (Breaker_CanSend _ b) as [b' ok]. cbn [snd]. apply HL; [done|]. by eapply step_breaker.
Qed.

Lemma attempt_timeout_keeps o timeout w : I w -> I (attempt_timeout o timeout w).2.
Proof. intros H. destruct o; [|done]. unfold attempt_timeout. by stable_clock I. Qed.

Lemma proxyToBackend_keeps rw req target pri attempt id ip w :
  I w -> I (sv_world (proxyToBackend L rw req target pri attempt id ip w)).
Proof.
  intros H. unfold proxyToBackend. apply (metrics_keeps (COpRecordStart target)) in H; [|done].
  change (I (update_metrics L (RecordStart target) w)) in H.
  stable_clock I. apply (attempt_timeout_keeps (ctx_deadline (req_ctx req)) (px_perAttemptTimeout (lget L w0))) in H.
  destruct (attempt_timeout _ _ w0) as [timeout w1]. cbn [snd] in H.
  stable_clock I. destruct (negb _); [by apply (metrics_keeps (COpRecordEnd _ _ _))|].
  match goal with H : I ?w |- context [client_Do ?o ?w] => apply (stable_Do (I := I) o) in H;
    destruct (client_Do o w) as [[[resp|err] body] w4]; cbn [snd] in H end; stable_clock I; cbn [sv_world].
  - apply stable_Info, (metrics_keeps (COpRecordPriority _ _)), (metrics_keeps (COpRecordEnd _ _ _)); done.
  - apply stable_Error, (metrics_keeps (COpRecordEnd _ _ _)); done.
Qed.

Lemma proxy_keeps : keeps I (proxy_ServeHTTP L).
Proof.
  intros rw req w H. unfold proxy_ServeHTTP.
  apply (proxy_select_keeps (Classify (req_Path req) (Header_Get (req_Header req) "X-Priority"))
    (ExcludedFromContext (req_ctx req))) in H.
  destruct (proxy_select L _ _ w) as [sel w1]. cbn [snd] in H.
  destruct sel; [by apply proxyToBackend_keeps|by apply stable_Error..].
Qed.

(** A selection in a world where the component is well formed does not panic. *)
Lemma proxy_select_safe `{!AlgorithmSound A} urls pri excluded w :
  (forall w, I w -> wf_core urls (lget L w)) -> I w -> (proxy_select L pri excluded w).1 <> SelectPanic.
Proof.
  intros Hwf H. unfold proxy_select. rewrite (wc_servers _ _ (Hwf w H)).
  assert (forall w u, I w -> u ∈ urls -> is_Some (px_breakers (lget L w) !! u)) as Hb
    by (intros w' u Hw'; by apply (wc_breakers _ _ (Hwf w' Hw'))).
  destruct (candidates_in_total (list_to_set excluded) (Snapshot (px_metrics (lget L w))) urls w Hb H) as [l E].
  apply (candidates_in_keeps (list_to_set excluded) (Snapshot (px_metrics (lget L w))) urls) in H.
  destruct (candidates_in L _ _ urls w) as [l' w1] eqn:Ec. cbn [fst snd] in *. subst l'.
  destruct (length l =? 0)%nat; [done|].
  pose proof (algo_sound (r_algo (px_router (lget L w1))) l (Snapshot (px_metrics (lget L w))) pri) as Hsound.
  apply (algo_keeps (Snapshot (px_metrics (lget L w))) l pri) in H.
  destruct (algo_Select _ _ _ _) as [algo chosen]. cbn [fst snd] in *.
  destruct (bool_decide_reflect (chosen = ""%string)) as [|Hne]; [done|]. stable_clock I.
  assert (chosen ∈ urls) as Hin by (eapply candidates_in_subset; [exact Ec|by destruct Hsound]).
  match goal with H : I ?w |- _ => destruct (Hb w chosen H Hin) as [b ->] end.
  destruct (Breaker_CanSend _ b) as [b' ok]. by destruct ok.
Qed.

(** *** Probes *)
Context `{!Prober W} (Hprobe : forall url timeout w, I w -> I (probe_Get url timeout w).2).

Lemma check_down_keeps urls url w :
  (forall w, I w -> wf_core urls (lget L w)) -> url ∈ urls -> I w ->
  exists w', check_down L url w = Some w' /\ I w'.
Proof.
  intros Hwf Hin H. unfold check_down. stable_clock I.
  apply (metrics_keeps (COpSetHealth z url false)) in H; [|done].
  match type of H with I (update_metrics _ _ ?w) => change (I (modify L (with_metrics (SetHealth z url false)) w)) in H end.
  stable_clock I. destruct (proj2 (wc_breakers _ _ (Hwf _ H) url) Hin) as [b Hb]. rewrite Hb.
  match goal with |- context [modify L ?f ?w] => assert (I (modify L f w)) as H1
    by (apply HL; [done|by eapply step_breaker]) end.
  stable_clock I. eexists. split; [done|]. by apply (metrics_keeps (COpSetCircuitState _ _ _)).
Qed.

Lemma check_up_keeps urls url w :
  (forall w, I w -> wf_core urls (lget L w)) -> url ∈ urls -> I w ->
  exists w', check_up L url w = Some w' /\ I w'.
Proof.
  intros Hwf Hin H. unfold check_up. stable_clock I.
  apply (metrics_keeps (COpSetHealth z url true)) in H; [|done].
  match type of H with I (update_metrics _ _ ?w) => change (I (modify L (with_metrics (SetHealth z url true)) w)) in H end.
  destruct (proj2 (wc_breakers _ _ (Hwf _ H) url) Hin) as [b Hb]. rewrite Hb.
  destruct (Breaker_RecordSuccess b) as [b' wasOpen].
  match goal with |- context [modify L (set_breaker url b') ?w] => assert (I (modify L (set_breaker url b') w)) as H1
    by (apply HL; [done|by eapply step_breaker]) end.
  match goal with |- context [if wasOpen then ?x else ?y] => set (w2 := if wasOpen then x else y) end.
  assert (I w2) as H2 by (unfold w2; destruct wasOpen; [by apply (metrics_keeps (COpClearLatencies _))|done]).
  stable_clock I. eexists. split; [done|]. by apply (metrics_keeps (COpSetCircuitState _ _ _)).
Qed.

Lemma check_keeps urls server w :
  (forall w, I w -> wf_core urls (lget L w)) -> srv_URL server ∈ urls -> I w ->
  exists w', check L server w = Some w' /\ I w'.
Proof.
  intros Hwf Hin H. unfold check.
  match goal with |- context [probe_Get ?u ?t w] => pose proof (Hprobe u t w H) as H1;
    destruct (probe_Get u t w) as [[status|] w1] end; cbn [snd] in H1;
    [destruct (negb _)|]; by eauto using check_down_keeps, check_up_keeps.
Qed.
End handlers.
