(* ===== verification/Service.v ===== *)
(** * service/manager.go: the named services

    A service instance holds a router, a collector and breakers, shared by its monitor and its proxy
    handler: [si_core], the state of Proxy.v.  The manager is the map of the instances.  A loop over the
    map takes the order of its iteration as an argument; [None] is a panic: a nil dereference, or the
    ticker of a monitor's goroutine. *)
From S2P Require Import Prelude GoFloat GoSort GoStrings GoHttp Breaker Collector Balancer Canary Selector Env Config Proxy Monitor.
Open Scope Z_scope.

(** ** getAlgorithm: the value behind the balancer.Algorithm interface *)
Inductive AnyAlgorithm (R : Type) : Type :=
| AlgoRoundRobin (a : RoundRobin)
| AlgoLeastConnections (a : LeastConnections)
| AlgoCanary (a : Canary)
| AlgoWeighted (a : WeightedScore R).
Arguments AlgoRoundRobin {R}.
Arguments AlgoLeastConnections {R}.
Arguments AlgoCanary {R}.
Arguments AlgoWeighted {R}.

Section any_algorithm.
Context {R : Type} `{!Rand R}.

Definition any_Select (a : AnyAlgorithm R) (candidates : list string) (stats : gmap string ServerStats)
    (priority : string) : AnyAlgorithm R * string :=
  match a with
  | AlgoRoundRobin a => let '(a, u) := algo_Select a candidates stats priority in (AlgoRoundRobin a, u)
  | AlgoLeastConnections a => let '(a, u) := algo_Select a candidates stats priority in (AlgoLeastConnections a, u)
  | AlgoCanary a => let '(a, u) := algo_Select a candidates stats priority in (AlgoCanary a, u)
  | AlgoWeighted a => let '(a, u) := algo_Select a candidates stats priority in (AlgoWeighted a, u)
  end.

#[export] Instance AnyAlgorithm_Algorithm : Algorithm (AnyAlgorithm R) := any_Select.

#[export] Instance AnyAlgorithm_Sound : AlgorithmSound (AnyAlgorithm R).
Proof.
  intros [a|a|a|a] candidates stats priority; unfold algo_Select at 1 2; simpl;
    pose proof (algo_sound a candidates stats priority) as H; by destruct (algo_Select a _ _ _).
Qed.

(** Live where the canary is; the other algorithms always are. *)
Definition any_ok (a : AnyAlgorithm R) (candidates : list string) (stats : gmap string ServerStats) : Prop :=
  match a with AlgoCanary a => canary_ok a candidates stats | _ => True end.

#[export] Instance AnyAlgorithm_Live : AlgorithmLive (AnyAlgorithm R) any_ok.
Proof.
  intros [a|a|a|a] candidates stats priority Hne Hok; unfold algo_Select at 1; simpl.
  - pose proof (algo_live a candidates stats priority Hne I). by destruct (algo_Select a _ _ _).
  - pose proof (algo_live a candidates stats priority Hne I). by destruct (algo_Select a _ _ _).
  - pose proof (algo_live a candidates stats priority Hne Hok). by destruct (algo_Select a _ _ _).
  - pose proof (algo_live a candidates stats priority Hne I). by destruct (algo_Select a _ _ _).
Qed.

(** [seed] is the state of the random source at the call. *)
Definition getAlgorithm (seed : R) (name : string) : AnyAlgorithm R :=
  if String.eqb name "roundrobin" then AlgoRoundRobin (mkRoundRobin 0)
  else if String.eqb name "leastconn" then AlgoLeastConnections mkLeastConnections
  else if String.eqb name "canary" then AlgoCanary Canary_zero
  else AlgoWeighted (mkWeightedScore seed).
End any_algorithm.

(** ** Instances and the manager *)
Section service.
Context {R : Type} `{!Rand R} `{!GoSort float64 f64_less}.

Record ServiceInstance : Type := mkInstance {
  si_Name : string;
  si_Config : ServiceConfig;
  si_core : Proxy (AnyAlgorithm R);      (* Collector, Breakers, Router and Handler *)
  si_Monitor : option Monitor;
}.

Record ServiceManager : Type := mkServiceManager {
  sm_instances : gmap string ServiceInstance;
  sm_cfg : Config;
}.

(** The loop over the URLs; [svcCfg.CircuitBreaker] is dereferenced in its body. *)
Fixpoint breakers_loop (cb : option CircuitBreakerConfig) (urls : list string) (bs : gmap string Breaker)
    : option (gmap string Breaker) :=
  match urls with
  | [] => Some bs
  | url :: urls =>
      cb' ← cb;
      breakers_loop cb urls
        (<[url := NewBreaker (cb_Threshold cb') (Duration_mul (cb_RecoveryTimeoutSec cb') Second)]> bs)
  end.

(** The algorithm's name: the canary flag overrides the configured one. *)
Definition service_algorithm (svc : ServiceConfig) : option string :=
  lb ← svc_LoadBalancer svc;
  Some (if svc_Canary svc then "canary"%string else lb_Algorithm lb).

Definition buildInstance (now : Z) (seed : R) (name : string) (svc : ServiceConfig) (cfg : Config)
    : option ServiceInstance :=
  let urls := srv_URL <$> svc_Servers svc in
  let names := srv_Name <$> svc_Servers svc in
  let weights := srv_Weight <$> svc_Servers svc in
  algo ← service_algorithm svc;
  let collector := SetAlgorithm algo (New now urls names weights) in
  breakers ← breakers_loop (svc_CircuitBreaker svc) urls ∅;
  monitor ← (if (0 <? length (svc_Servers svc))%nat
             then Some <$> Monitor_Start (NewMonitor (svc_Servers svc)) else Some None);
  let router := NewRouter urls (getAlgorithm seed algo) in
  Some (mkInstance name svc
    (proxy_New router collector breakers (cfg_MaxRetries cfg) (cfg_PerAttemptTimeoutSec cfg)) monitor).

Fixpoint buildAll (now : string -> Z) (seed : string -> R) (cfg : Config)
    (entries : list (string * ServiceConfig)) (instances : gmap string ServiceInstance)
    : option (gmap string ServiceInstance) :=
  match entries with
  | [] => Some instances
  | (svcName, svc) :: entries =>
      inst ← buildInstance (now svcName) (seed svcName) svcName svc cfg;
      buildAll now seed cfg entries (<[svcName := inst]> instances)
  end.

(** [entries]: the services of [cfg] in the order of the loop; [now] and [seed]: the clock and the
    random source when each is built. *)
Definition service_NewManager (now : string -> Z) (seed : string -> R) (cfg : Config)
    (entries : list (string * ServiceConfig)) : option ServiceManager :=
  instances ← buildAll now seed cfg entries ∅;
  Some (mkServiceManager instances cfg).

Definition GetInstance (name : string) (m : ServiceManager) : option ServiceInstance := sm_instances m !! name.
Definition Instances (m : ServiceManager) : gmap string ServiceInstance := sm_instances m.
Definition GetConfig (m : ServiceManager) : Config := sm_cfg m.

Definition map_core (f : Proxy (AnyAlgorithm R) -> Proxy (AnyAlgorithm R)) (i : ServiceInstance) : ServiceInstance :=
  mkInstance (si_Name i) (si_Config i) (f (si_core i)) (si_Monitor i).
Definition si_Collector (i : ServiceInstance) : Collector := px_metrics (si_core i).
Definition si_Breakers (i : ServiceInstance) : gmap string Breaker := px_breakers (si_core i).

(** [ImportMetrics] from the manager of before a reload ([None] for nil). *)
Definition service_ImportMetrics (oldMgr : option ServiceManager) (m : ServiceManager) : ServiceManager :=
  match oldMgr with
  | None => m
  | Some old =>
      let oldSnaps := (fun i => Snapshot (si_Collector i)) <$> Instances old in
      mkServiceManager
        (map_imap (fun name inst =>
           Some match oldSnaps !! name with
                | Some snap => map_core (with_metrics (ImportMetrics snap)) inst
                | None => inst
                end) (sm_instances m))
        (sm_cfg m)
  end.

(** The nested loops of [GlobalCollector], over the instances in the order [entries]. *)
Fixpoint distinct_servers (servers : list ServerConfig) (seen : gset string) : list ServerConfig :=
  match servers with
  | [] => []
  | s :: servers =>
      if bool_decide (srv_URL s ∈ seen) then distinct_servers servers seen
      else s :: distinct_servers servers ({[srv_URL s]} ∪ seen)
  end.

Definition GlobalCollector (now : Z) (entries : list (string * ServiceInstance)) (m : ServiceManager) : Collector :=
  let servers := distinct_servers (entries ≫= (fun e => svc_Servers (si_Config e.2))) ∅ in
  SetAlgorithm (cfg_Algorithm (sm_cfg m))
    (New now (srv_URL <$> servers) (srv_Name <$> servers) (srv_Weight <$> servers)).

(** The first loop of [DashboardSnap]: every collector's snapshot (which moves its rate window), merged. *)
Fixpoint snap_loop (now : string -> Z) (entries : list (string * ServiceInstance))
    (instances : gmap string ServiceInstance) (allServers : gmap string ServerStats)
    (allEvents : list CircuitEvent) (totalRPS : float64)
    : gmap string ServiceInstance * gmap string ServerStats * list CircuitEvent * float64 :=
  match entries with
  | [] => (instances, allServers, allEvents, totalRPS)
  | (name, inst) :: entries =>
      let '(c, snap) := DashboardSnap (now name) (si_Collector inst) in
      snap_loop now entries (<[name := map_core (with_metrics (fun _ => c)) inst]> instances)
        (ds_Servers snap ∪ allServers) (allEvents ++ ds_CircuitEvents snap) (f64_add totalRPS (ds_GlobalRPS snap))
  end.

Definition service_DashboardSnap (now : string -> Z) (entries : list (string * ServiceInstance)) (m : ServiceManager)
    : ServiceManager * DashboardSnapshot :=
  let '(instances, allServers, allEvents, totalRPS) := snap_loop now entries (sm_instances m) ∅ [] (f64_of_Z 0) in
  let totalReq := sum_totals allServers in
  let totalOK := sum_successes allServers in
  let allEvents := if (50 <? length allEvents)%nat then drop (length allEvents - 50) allEvents else allEvents in
  (mkServiceManager instances (sm_cfg m),
   mkDashboardSnapshot allServers totalRPS totalReq (success_rate totalOK totalReq) (count_healthy allServers)
     (Z.of_nat (size allServers)) (cfg_Algorithm (sm_cfg m)) allEvents).

(** [Stop]: every instance's monitor, if it has one. *)
Definition stop_instance (i : ServiceInstance) : option ServiceInstance :=
  match si_Monitor i with
  | None => Some i
  | Some mon => mon ← Monitor_Stop mon; Some (mkInstance (si_Name i) (si_Config i) (si_core i) (Some mon))
  end.

Fixpoint stop_loop (entries : list (string * ServiceInstance)) (instances : gmap string ServiceInstance)
    : option (gmap string ServiceInstance) :=
  match entries with
  | [] => Some instances
  | (name, i) :: entries => i ← stop_instance i; stop_loop entries (<[name := i]> instances)
  end.

Definition service_Stop (entries : list (string * ServiceInstance)) (m : ServiceManager) : option ServiceManager :=
  instances ← stop_loop entries (sm_instances m);
  Some (mkServiceManager instances (sm_cfg m)).

(** What one instance records about a request its server [url], with breaker [b], answered; [t1] is the
    clock at the failure, [t2] at the change of state. *)
Definition record_on (url : string) (success : bool) (t1 t2 : Z) (b : Breaker) (p : Proxy (AnyAlgorithm R))
    : Proxy (AnyAlgorithm R) :=
  let '(b, p) :=
    if success then
      let '(b, wasOpen) := Breaker_RecordSuccess b in
      (b, if wasOpen then with_metrics (ClearLatencies url) p else p)
    else (Breaker_RecordFailure t1 b, p) in
  with_metrics (SetCircuitState t2 url (Breaker_State b)) (set_breaker url b p).

(** The loop returns at the first instance that has a breaker for the URL. *)
Fixpoint record_loop (url : string) (success : bool) (t1 t2 : Z) (entries : list (string * ServiceInstance))
    (instances : gmap string ServiceInstance) : gmap string ServiceInstance :=
  match entries with
  | [] => instances
  | (name, inst) :: entries =>
      match si_Breakers inst !! url with
      | Some b => <[name := map_core (record_on url success t1 t2 b) inst]> instances
      | None => record_loop url success t1 t2 entries instances
      end
  end.

Definition RecordCircuitBreakerResult (t1 t2 : Z) (entries : list (string * ServiceInstance))
    (url : string) (success : bool) (m : ServiceManager) : ServiceManager :=
  mkServiceManager (record_loop url success t1 t2 entries (sm_instances m)) (sm_cfg m).
End service.
Arguments ServiceInstance R : clear implicits.
Arguments ServiceManager R : clear implicits.

(** ** Lemmas *)
Lemma New_loop_dom i servers names weights m u :
  is_Some (New_loop i servers names weights m !! u) <-> u ∈ servers \/ is_Some (m !! u).
Proof.
  revert i m. induction servers as [|url servers IH]; intros i m; simpl.
  - rewrite elem_of_nil. tauto.
  - rewrite IH, lookup_insert_is_Some', elem_of_cons. intuition congruence.
Qed.

Lemma breakers_loop_spec cb urls bs :
  exists bs', breakers_loop (Some cb) urls bs = Some bs' /\
    forall u, bs' !! u = if decide (u ∈ urls)
                         then Some (NewBreaker (cb_Threshold cb) (Duration_mul (cb_RecoveryTimeoutSec cb) Second))
                         else bs !! u.
Proof.
  revert bs. induction urls as [|url urls IH]; intros bs; cbn [breakers_loop mbind option_bind].
  - exists bs. split; [done|]. intros u. rewrite decide_False; [done|]. apply not_elem_of_nil.
  - destruct (IH (<[url:=NewBreaker (cb_Threshold cb) (Duration_mul (cb_RecoveryTimeoutSec cb) Second)]> bs)) as (bs' & -> & Hbs).
    exists bs'. split; [done|]. intros u. rewrite Hbs. destruct (decide (u ∈ urls)) as [Hin|Hin].
    + by rewrite decide_True by (by right).
    + destruct (decide (u = url)) as [->|Hne].
      * rewrite decide_True by left. apply lookup_insert_eq.
      * rewrite decide_False by (rewrite elem_of_cons; tauto). by apply lookup_insert_ne.
Qed.

(** What a built instance promises to the router, the proxy and the monitor. *)
Record instance_ok {R} `{!Rand R} (name : string) (svc : ServiceConfig) (cfg : Config) (i : ServiceInstance R) : Prop := {
  io_name : si_Name i = name /\ si_Config i = svc;
  io_servers : r_servers (px_router (si_core i)) = srv_URL <$> svc_Servers svc;
  io_breakers : forall url, si_Breakers i !! url =
    if decide (url ∈ srv_URL <$> svc_Servers svc)
    then cb ← svc_CircuitBreaker svc; Some (NewBreaker (cb_Threshold cb) (Duration_mul (cb_RecoveryTimeoutSec cb) Second))
    else None;
  io_stats : forall url, is_Some (c_servers (si_Collector i) !! url) <-> url ∈ srv_URL <$> svc_Servers svc;
  io_algorithm : exists seed algo, service_algorithm svc = Some algo /\
    r_algo (px_router (si_core i)) = getAlgorithm seed algo /\ c_algorithm (si_Collector i) = algo;
  io_monitor : match si_Monitor i with
               | Some mon => monitor_inv mon /\ mon_servers mon = svc_Servers svc
               | None => svc_Servers svc = []
               end;
  io_settings : px_maxRetries (si_core i) = cfg_MaxRetries cfg /\
    px_perAttemptTimeout (si_core i) = Duration_mul (cfg_PerAttemptTimeoutSec cfg) Second;
}.

Section lemmas.
Context {R : Type} `{!Rand R}.

(** The monitor of a service: nothing can fail but the ticker of a server's goroutine. *)
Lemma monitor_of_service servers :
  match (if (0 <? length servers)%nat then Some <$> Monitor_Start (NewMonitor servers) else Some None) with
  | Some (Some mon) => tickers servers /\ monitor_inv mon /\ mon_servers mon = servers
  | Some None => servers = []
  | None => ~ tickers servers
  end.
Proof.
  pose proof (start_loop_tickers servers (NewMonitor servers)) as Ht.
  destruct servers as [|s l] eqn:Es; [done|]. rewrite <- Es in *.
  replace (0 <? length servers)%nat with true by by rewrite Es. unfold Monitor_Start.
  destruct (start_loop (mon_servers (NewMonitor servers)) (NewMonitor servers)) as [m|] eqn:E;
    cbn [fmap option_fmap option_map].
  - split; [by apply Ht; eexists|]. split; [|by apply (start_loop_servers _ _ _ E)].
    eapply (monitor_reachable_inv servers), rtc_once, mstep_start, E.
  - intros [? H]%Ht. cbn in E, H. congruence.
Qed.

Lemma buildInstance_ok now seed name svc cfg :
  service_complete svc ->
  match buildInstance now seed name svc cfg with
  | Some i => tickers (svc_Servers svc) /\ instance_ok name svc cfg i
  | None => ~ tickers (svc_Servers svc)
  end.
Proof.
  intros (lb & hc & cb & El & _ & Ec & _). unfold buildInstance.
  assert (service_algorithm svc = Some (if svc_Canary svc then "canary"%string else lb_Algorithm lb)) as Ea
    by (unfold service_algorithm; by rewrite El).
  rewrite Ea. cbn [mbind option_bind]. rewrite Ec.
  destruct (breakers_loop_spec cb (srv_URL <$> svc_Servers svc) ∅) as (bs & -> & Hbs). cbn [mbind option_bind].
  pose proof (monitor_of_service (svc_Servers svc)) as Hmon.
  destruct (if (0 <? length (svc_Servers svc))%nat then _ else _) as [monitor|]; cbn [mbind option_bind]; [|exact Hmon].
  split; [destruct monitor; [apply Hmon|rewrite Hmon; constructor]|]. split; simpl; try done.
  - intros url. unfold si_Breakers; simpl. rewrite Hbs. case_decide; [by rewrite Ec|apply lookup_empty].
  - intros url. unfold si_Collector; simpl. rewrite New_loop_dom, lookup_empty. split; [|by left].
    intros [|[? ?]]; done.
  - eexists seed, _. by rewrite Ea.
  - destruct monitor as [mon|]; [apply Hmon|done].
Qed.

Lemma buildAll_ok now seed cfg entries acc :
  (forall name svc, (name, svc) ∈ entries -> service_complete svc) -> NoDup entries.*1 ->
  match buildAll now seed cfg entries acc with
  | Some m => (forall name svc, (name, svc) ∈ entries -> tickers (svc_Servers svc)) /\
      (forall name svc, (name, svc) ∈ entries -> exists i, m !! name = Some i /\ instance_ok name svc cfg i) /\
      (forall name, name ∉ entries.*1 -> m !! name = acc !! name)
  | None => exists name svc, (name, svc) ∈ entries /\ ~ tickers (svc_Servers svc)
  end.
Proof.
  revert acc. induction entries as [|[name svc] entries IH]; intros acc Hc Hnd; cbn [buildAll].
  - split_and!; [by intros ?? ?%elem_of_nil..|done].
  - pose proof (buildInstance_ok (now name) (seed name) name svc cfg) as Hb.
    destruct (buildInstance _ _ _ _ _) as [i|]; cbn [mbind option_bind].
    2:{ exists name, svc. split; [left|]. apply Hb, (Hc name). left. }
    destruct Hb as [Ht Hi]; [apply (Hc name); left|]. apply NoDup_cons in Hnd as [Hnin Hnd].
    specialize (IH (<[name:=i]> acc)). destruct (buildAll _ _ _ _ _) as [m|].
    2:{ destruct IH as (n & s & Hn & Hnt); [intros n s ?; apply (Hc n); by right|done|].
        exists n, s. split; [by right|done]. }
    destruct IH as (Hts & Hin & Hout); [intros n s ?; apply (Hc n); by right|done|]. split_and!.
    + intros n s [[= -> ->]|Hns]%elem_of_cons; [done|by apply (Hts n)].
    + intros n s [[= -> ->]|Hns]%elem_of_cons; [|by apply Hin]. exists i. split; [|done].
      rewrite Hout by done. apply lookup_insert_eq.
    + intros n Hn. cbn [fmap list_fmap fst] in Hn. rewrite elem_of_cons in Hn. rewrite Hout by tauto.
      apply lookup_insert_ne. intros ->. tauto.
Qed.

(** The instance whose breakers know a URL; [validate] makes it unique. *)
Definition urls_disjoint (instances : gmap string (ServiceInstance R)) : Prop :=
  forall n1 n2 i1 i2 url, instances !! n1 = Some i1 -> instances !! n2 = Some i2 ->
    is_Some (si_Breakers i1 !! url) -> is_Some (si_Breakers i2 !! url) -> n1 = n2.

Lemma record_loop_none url success t1 t2 entries (instances : gmap string (ServiceInstance R)) :
  (forall n i, (n, i) ∈ entries -> si_Breakers i !! url = None) ->
  record_loop url success t1 t2 entries instances = instances.
Proof.
  induction entries as [|[n i] entries IH]; intros H; simpl; [done|].
  rewrite (H n i) by left. apply IH. intros n' i' Hin. apply (H n'). by right.
Qed.

Lemma record_loop_found url success t1 t2 entries (instances : gmap string (ServiceInstance R)) name inst b :
  (forall n i, (n, i) ∈ entries -> instances !! n = Some i) -> urls_disjoint instances ->
  (name, inst) ∈ entries -> si_Breakers inst !! url = Some b ->
  record_loop url success t1 t2 entries instances = <[name := map_core (record_on url success t1 t2 b) inst]> instances.
Proof.
  intros Hentries Hdisj. induction entries as [|[n i] entries IH]; intros Hin Hb; [by apply elem_of_nil in Hin|].
  cbn [record_loop]. destruct (si_Breakers i !! url) as [b'|] eqn:E.
  - assert (n = name) as ->.
    { eapply (Hdisj n name i inst url); eauto. apply Hentries. left. }
    assert (Some i = Some inst) as [= ->] by (rewrite <- (Hentries name i), <- (Hentries name inst); [done|done|left]).
    congruence.
  - apply elem_of_cons in Hin as [[= -> ->]|Hin]; [congruence|]. apply IH; [|done|done].
    intros n' i' ?. apply Hentries. by right.
Qed.

Lemma record_loop_perm url success t1 t2 e1 e2 (instances : gmap string (ServiceInstance R)) :
  urls_disjoint instances -> e1 ≡ₚ map_to_list instances -> e2 ≡ₚ map_to_list instances ->
  record_loop url success t1 t2 e1 instances = record_loop url success t1 t2 e2 instances.
Proof.
  intros Hd H1 H2.
  assert (forall e, e ≡ₚ map_to_list instances -> forall n i, (n, i) ∈ e <-> instances !! n = Some i) as Hel
    by (intros e He n i; by rewrite He, elem_of_map_to_list).
  destruct (decide (Exists (fun e => is_Some (si_Breakers e.2 !! url)) e1)) as [Hex|Hno].
  - apply Exists_exists in Hex as ([name inst] & Hin & [b Hb]); simpl in Hb.
    pose proof (proj1 (Hel e1 H1 name inst) Hin) as Hi.
    pose proof (proj2 (Hel e2 H2 name inst) Hi) as Hin2.
    rewrite (record_loop_found url success t1 t2 e1 instances name inst b (fun n i => proj1 (Hel e1 H1 n i)) Hd Hin Hb).
    by rewrite (record_loop_found url success t1 t2 e2 instances name inst b (fun n i => proj1 (Hel e2 H2 n i)) Hd Hin2 Hb).
  - apply not_Exists_Forall in Hno; [|intros; apply _]. rewrite Forall_forall in Hno.
    assert (forall n i, instances !! n = Some i -> si_Breakers i !! url = None) as Hnone.
    { intros n i Hi. apply eq_None_not_Some. apply (Hno (n, i)). by apply (Hel e1 H1). }
    rewrite !record_loop_none; [done|intros n i Hin; apply (Hnone n); revert Hin; by apply Hel..].
Qed.

(** ** Stopping *)
(** The monitors are in their invariant and probe the servers of their service. *)
Definition monitors_ok (instances : gmap string (ServiceInstance R)) : Prop :=
  forall n i mon, instances !! n = Some i -> si_Monitor i = Some mon ->
    monitor_inv mon /\ mon_servers mon = svc_Servers (si_Config i).

(** An instance whose monitor was stopped: every goroutine finds its channel closed. *)
Definition stopped (i i' : ServiceInstance R) : Prop :=
  si_Name i' = si_Name i /\ si_Config i' = si_Config i /\ si_core i' = si_core i /\
  match si_Monitor i' with
  | None => si_Monitor i = None
  | Some mon => monitor_inv mon /\ (exists mon0, si_Monitor i = Some mon0 /\ mon_servers mon = mon_servers mon0) /\
      forall s ch, (s, ch) ∈ mon_goroutines mon -> ch ∈ mon_closed mon
  end.

Lemma stop_instance_ok (i : ServiceInstance R) :
  (forall mon, si_Monitor i = Some mon -> monitor_inv mon) -> exists i', stop_instance i = Some i' /\ stopped i i'.
Proof.
  intros H. unfold stop_instance, stopped. destruct (si_Monitor i) as [mon|] eqn:E.
  - destruct (Monitor_Stop_inv mon (H mon eq_refl)) as (mon' & -> & Hinv & _ & Hs & Hg). cbn [mbind option_bind].
    eexists. split; [done|]. split_and!; simpl; eauto.
  - exists i. by rewrite E.
Qed.

Lemma stop_loop_ok entries (instances : gmap string (ServiceInstance R)) :
  NoDup entries.*1 ->
  (forall n i, (n, i) ∈ entries -> forall mon, si_Monitor i = Some mon -> monitor_inv mon) ->
  exists instances', stop_loop entries instances = Some instances' /\
    (forall n i, (n, i) ∈ entries -> exists i', instances' !! n = Some i' /\ stopped i i') /\
    (forall n, n ∉ entries.*1 -> instances' !! n = instances !! n).
Proof.
  revert instances. induction entries as [|[n i] entries IH]; intros instances Hnd Hm; cbn [stop_loop].
  { exists instances. split_and!; [done|by intros ?? ?%elem_of_nil|done]. }
  destruct (stop_instance_ok i) as (i' & -> & Hi'); [apply (Hm n); left|]. cbn [mbind option_bind].
  apply NoDup_cons in Hnd as [Hnin Hnd].
  destruct (IH (<[n:=i']> instances) Hnd) as (instances' & -> & Hin & Hout); [intros n' i1 ?; apply (Hm n'); by right|].
  exists instances'. split_and!; [done| |].
  - intros n' i1 [[= -> ->]|H]%elem_of_cons; [|by apply Hin]. exists i'. split; [|done].
    rewrite Hout by done. apply lookup_insert_eq.
  - intros n' H. cbn [fmap list_fmap fst] in H. rewrite elem_of_cons in H. rewrite Hout by tauto.
    apply lookup_insert_ne. intros ->. tauto.
Qed.

Lemma service_Stop_ok entries (m : ServiceManager R) :
  monitors_ok (sm_instances m) -> entries ≡ₚ map_to_list (sm_instances m) ->
  exists m', service_Stop entries m = Some m' /\
    forall n, option_Forall2 stopped (GetInstance n m) (GetInstance n m').
Proof.
  intros Hm Hp. unfold service_Stop.
  assert (forall n i, (n, i) ∈ entries <-> sm_instances m !! n = Some i) as Hel
    by (intros; by rewrite Hp, elem_of_map_to_list).
  destruct (stop_loop_ok entries (sm_instances m)) as (is' & -> & Hin & Hout).
  - rewrite Hp. apply NoDup_fst_map_to_list.
  - intros n i Hni mon Hmon. by eapply (Hm n i); [apply Hel|].
  - eexists. split; [done|]. intros n. unfold GetInstance; cbn [sm_instances].
    destruct (sm_instances m !! n) as [i|] eqn:E.
    + destruct (Hin n i) as (i' & -> & Hi'); [by apply Hel|]. by constructor.
    + rewrite Hout, E; [constructor|]. intros ([n' i'] & -> & Hn)%list_elem_of_fmap. apply Hel in Hn. simpl in E. congruence.
Qed.
End lemmas.

(** No monitor of the configuration panics. *)
Definition tickers_ok (cfg : Config) : Prop := map_Forall (fun _ svc => tickers (svc_Servers svc)) (cfg_Services cfg).

#[export] Instance tickers_ok_dec cfg : Decision (tickers_ok cfg).
Proof. unfold tickers_ok. apply _. Defined.

Lemma service_NewManager_ok {R : Type} `{!Rand R} (now : string -> Z) (seed : string -> R) (cfg : Config)
    (entries : list (string * ServiceConfig)) :
  config_complete cfg -> entries ≡ₚ map_to_list (cfg_Services cfg) ->
  match service_NewManager now seed cfg entries with
  | Some m => tickers_ok cfg /\
      forall name, match cfg_Services cfg !! name with
                   | Some svc => exists i, GetInstance name m = Some i /\ instance_ok name svc cfg i
                   | None => GetInstance name m = None
                   end
  | None => ~ tickers_ok cfg
  end.
Proof.
  intros Hc Hp. unfold service_NewManager, tickers_ok.
  assert (forall name svc, (name, svc) ∈ entries <-> cfg_Services cfg !! name = Some svc) as Hel
    by (intros name svc; by rewrite Hp, elem_of_map_to_list).
  pose proof (buildAll_ok now seed cfg entries ∅) as Hb.
  destruct (buildAll now seed cfg entries ∅) as [m|]; cbn [mbind option_bind].
  2:{ destruct Hb as (n & s & Hn & Hnt).
      - intros name svc H. apply (cc_services cfg Hc name), Hel, H.
      - rewrite Hp. apply NoDup_fst_map_to_list.
      - intros Hall. apply Hnt, (Hall n), Hel, Hn. }
  destruct Hb as (Hts & Hin & Hout).
  - intros name svc H. apply (cc_services cfg Hc name), Hel, H.
  - rewrite Hp. apply NoDup_fst_map_to_list.
  - split; [intros name svc H; by apply (Hts name), Hel|]. intros name. unfold GetInstance; simpl. destruct (cfg_Services cfg !! name) as [svc|] eqn:E.
    + by apply Hin, Hel.
    + rewrite Hout; [apply lookup_empty|]. intros ([n svc] & -> & Hn)%list_elem_of_fmap. apply Hel in Hn. simpl in E. congruence.
Qed.

(** Validation makes the instances disjoint, which [RecordCircuitBreakerResult] relies on. *)
Lemma built_disjoint {R : Type} `{!Rand R} now seed (cfg : Config) entries (m : ServiceManager R) :
  config_complete cfg -> entries ≡ₚ map_to_list (cfg_Services cfg) ->
  NoDup (entries_urls (map_to_list (cfg_Services cfg))) ->
  service_NewManager now seed cfg entries = Some m -> urls_disjoint (sm_instances m).
Proof.
  intros Hc Hp Hnd Hm n1 n2 i1 i2 url H1 H2 Hu1 Hu2.
  pose proof (service_NewManager_ok now seed cfg entries Hc Hp) as H. rewrite Hm in H. destruct H as [_ H].
  assert (forall n i, GetInstance n m = Some i -> is_Some (si_Breakers i !! url) ->
    exists k svc, map_to_list (cfg_Services cfg) !! k = Some (n, svc) /\ url ∈ service_urls svc) as Hof.
  { intros n i Hi Hu. specialize (H n). destruct (cfg_Services cfg !! n) as [svc|] eqn:E; [|congruence].
    destruct H as (i' & Hi' & Hok). assert (i' = i) as -> by congruence.
    apply elem_of_map_to_list, list_elem_of_lookup in E as [k Hk]. exists k, svc. split; [done|].
    rewrite (io_breakers _ _ _ _ Hok) in Hu. case_decide; [done|by destruct Hu]. }
  destruct (Hof n1 i1 H1 Hu1) as (k1 & svc1 & Hk1 & Hin1), (Hof n2 i2 H2 Hu2) as (k2 & svc2 & Hk2 & Hin2).
  assert (k1 = k2) as -> by (eapply (NoDup_bind_inj (fun e => service_urls e.2)); eauto). congruence.
Qed.

Lemma built_monitors {R : Type} `{!Rand R} now seed (cfg : Config) entries (m : ServiceManager R) :
  config_complete cfg -> entries ≡ₚ map_to_list (cfg_Services cfg) ->
  service_NewManager now seed cfg entries = Some m -> monitors_ok (sm_instances m).
Proof.
  intros Hc Hp Hm n i mon Hi Hmon.
  pose proof (service_NewManager_ok now seed cfg entries Hc Hp) as H. rewrite Hm in H. destruct H as [_ H].
  specialize (H n). unfold GetInstance in H. destruct (cfg_Services cfg !! n) as [svc|]; [|congruence].
  destruct H as (i' & Hi' & Hok). assert (i' = i) as -> by congruence.
  pose proof (io_monitor _ _ _ _ Hok) as Hmo. rewrite Hmon in Hmo. by rewrite (proj2 (io_name _ _ _ _ Hok)).
Qed.

(** C15. Building the manager of a configuration with its defaults filled in dereferences no nil pointer: it
    panics exactly when a server's health-check interval makes no ticker.  The manager has
    exactly the configured services; each has a breaker with the service's settings and an entry in the
    metrics for every one of its servers and for nothing else, the configured algorithm (the canary
    flag wins), and a monitor in a consistent state if it has servers. *)
Theorem service_build {R : Type} `{!Rand R} (now : string -> Z) (seed : string -> R) (cfg : Config)
    (entries : list (string * ServiceConfig)) :
  config_complete cfg -> entries ≡ₚ map_to_list (cfg_Services cfg) ->
  match service_NewManager now seed cfg entries with
  | Some m => tickers_ok cfg /\
      forall name, match cfg_Services cfg !! name with
                   | Some svc => exists i, GetInstance name m = Some i /\ instance_ok name svc cfg i
                   | None => GetInstance name m = None
                   end
  | None => ~ tickers_ok cfg
  end.
Proof. apply service_NewManager_ok. Qed.

(** A request's result is recorded on one server's breaker and metrics, and on which does not depend on
    the order in which Go happens to walk the map of instances, because validation made the URLs of
    different services disjoint. *)
Theorem record_result_deterministic {R : Type} `{!Rand R} (t1 t2 : Z) (url : string) (success : bool)
    (m : ServiceManager R) (e1 e2 : list (string * ServiceInstance R)) :
  urls_disjoint (sm_instances m) -> e1 ≡ₚ map_to_list (sm_instances m) -> e2 ≡ₚ map_to_list (sm_instances m) ->
  RecordCircuitBreakerResult t1 t2 e1 url success m = RecordCircuitBreakerResult t1 t2 e2 url success m.
Proof. intros. unfold RecordCircuitBreakerResult. f_equal. by apply record_loop_perm. Qed.

(** The counters and figures that a reload carries over. *)
Definition same_counters (o s' : ServerStats) : Prop :=
  TotalRequests s' = TotalRequests o /\ SuccessCount s' = SuccessCount o /\
  FailureCount s' = FailureCount o /\ RetryCount s' = RetryCount o /\
  HighPriorityCount s' = HighPriorityCount o /\ LowPriorityCount s' = LowPriorityCount o /\
  AvgLatencyMs s' = AvgLatencyMs o /\ P95LatencyMs s' = P95LatencyMs o.

Lemma ImportMetrics_counters {R : Type} `{!Rand R} (old m : ServiceManager R) (name url : string)
    (i : ServiceInstance R) (s : ServerStats) :
  GetInstance name m = Some i -> c_servers (si_Collector i) !! url = Some s ->
  exists i' s', GetInstance name (service_ImportMetrics (Some old) m) = Some i' /\
    si_Breakers i' = si_Breakers i /\ c_servers (si_Collector i') !! url = Some s' /\
    (Name s' = Name s /\ Weight s' = Weight s /\ IsHealthy s' = IsHealthy s /\ CircuitState s' = CircuitState s /\
     ActiveConnections s' = ActiveConnections s) /\
    match (GetInstance name old ≫= fun o => c_servers (si_Collector o) !! url) with
    | Some o => same_counters o s'
    | None => s' = s
    end.
Proof.
  intros Hi Hs. unfold GetInstance in *. unfold service_ImportMetrics; cbn [sm_instances].
  rewrite map_lookup_imap, Hi, lookup_fmap. unfold Instances. cbn [mbind option_bind].
  destruct (sm_instances old !! name) as [o|] eqn:Eo; cbn [fmap option_fmap option_map mbind option_bind].
  - pose proof (ImportMetrics_lookup (Snapshot (si_Collector o)) (si_Collector i) url) as Hl.
    rewrite Hs in Hl. unfold Snapshot in Hl at 2.
    destruct (c_servers (si_Collector o) !! url) as [os|]; cbn [fmap option_fmap option_map] in Hl;
      (eexists _, _; split; [done|]; split; [done|]; split; [exact Hl|]; by repeat split).
  - by eexists _, s.
Qed.

Lemma import_instances {R : Type} `{!Rand R} (old m : ServiceManager R) n :
  is_Some (GetInstance n (service_ImportMetrics (Some old) m)) <-> is_Some (GetInstance n m).
Proof.
  unfold GetInstance, service_ImportMetrics; cbn [sm_instances]. rewrite map_lookup_imap.
  by destruct (sm_instances m !! n).
Qed.

Lemma import_monitors {R : Type} `{!Rand R} (old m : ServiceManager R) :
  monitors_ok (sm_instances m) -> monitors_ok (sm_instances (service_ImportMetrics (Some old) m)).
Proof.
  intros H n i mon Hi. unfold service_ImportMetrics in Hi; cbn [sm_instances] in Hi. rewrite map_lookup_imap in Hi.
  destruct (sm_instances m !! n) as [i0|] eqn:E; [|done]. cbn [mbind option_bind] in Hi. injection Hi as <-.
  intros Hmon. destruct (_ !! n) in Hmon |- *; by apply (H n i0 mon E).
Qed.

(** A hot reload keeps the history: a server that the old and the new configuration have in the same
    service keeps its request, success, failure, retry and priority counters and its latency figures;
    its weight, health, circuit state and active connections are the new instance's; servers and
    services that are new start from zero. *)
Theorem import_keeps_counters {R : Type} `{!Rand R} (old m : ServiceManager R) (name url : string)
    (i : ServiceInstance R) (s : ServerStats) :
  GetInstance name m = Some i -> c_servers (si_Collector i) !! url = Some s ->
  exists i' s', GetInstance name (service_ImportMetrics (Some old) m) = Some i' /\
    si_Breakers i' = si_Breakers i /\ c_servers (si_Collector i') !! url = Some s' /\
    (Name s' = Name s /\ Weight s' = Weight s /\ IsHealthy s' = IsHealthy s /\ CircuitState s' = CircuitState s /\
     ActiveConnections s' = ActiveConnections s) /\
    match (GetInstance name old ≫= fun o => c_servers (si_Collector o) !! url) with
    | Some o => same_counters o s'
    | None => s' = s
    end.
Proof. apply ImportMetrics_counters. Qed.

(** ** Witnesses *)
#[local] Instance unit_Rand : Rand unit := fun _ => (f64_of_Z 0, tt).

Definition w_config : Config := fill_defaults
  (mkConfig 0 0 [mkServer "http://b1" "b1" 0 0 (mkHC "" 0 0 0)] "roundrobin" 0 0 0 0 0 0 (f64_of_Z 0) 0 0 0 0 ""
     (mkAuth "" "") (mkTLS false "" "" false) (mkCORS [] [] []) false ∅ (mkTimeouts 0 0 0) ∅ ∅ ∅)%string.

Lemma service_build_witness :
  exists m i, service_NewManager (fun _ => 0) (fun _ => tt) w_config (map_to_list (cfg_Services w_config)) = Some m /\
    GetInstance "default" m = Some i /\ si_Breakers i !! "http://b1"%string = Some (NewBreaker 3 (15 * Second)).
Proof.
  pose proof (service_build (fun _ => 0) (fun _ => tt) w_config (map_to_list (cfg_Services w_config))
    (fill_defaults_complete _) (Permutation_refl _)) as Hb.
  destruct (service_NewManager (fun _ => 0) (fun _ => tt) w_config _) as [m|] eqn:Hm.
  2:{ exfalso. apply Hb. refine (bool_decide_eq_true_1 _ _). vm_compute. reflexivity. }
  - destruct Hb as [_ Hi]. specialize (Hi "default"%string). destruct (cfg_Services w_config !! "default"%string) as [svc|] eqn:E.
    + destruct Hi as (i & Hi & Hok). exists m, i. split; [reflexivity|]. split; [exact Hi|].
      rewrite (io_breakers _ _ _ _ Hok). assert (Some svc = cfg_Services w_config !! "default"%string) as Hsvc by (symmetry; exact E).
      vm_compute in Hsvc. injection Hsvc as ->. reflexivity.
    + discriminate E.
Defined.

Definition w_instance (url : string) : ServiceInstance unit :=
  mkInstance url (mkService None None None false [])
    (proxy_New (NewRouter [url] (AlgoRoundRobin (mkRoundRobin 0))) (New 0 [url] [] []) {[ url := NewBreaker 1 100 ]} 3 5) None.
Definition w_manager : ServiceManager unit :=
  mkServiceManager {[ "a" := w_instance "http://a"; "b" := w_instance "http://b" ]}%string w_config.

Lemma w_manager_disjoint : urls_disjoint (sm_instances w_manager).
Proof.
  intros n1 n2 i1 i2 url H1 H2 Hu1 Hu2.
  assert (forall n i, sm_instances w_manager !! n = Some i -> is_Some (si_Breakers i !! url) -> url = ("http://" +:+ n)%string) as H.
  { intros n i Hn Hu. unfold w_manager in Hn; simpl in Hn.
    apply lookup_insert_Some in Hn as [[<- <-]|[_ [<- <-]%lookup_singleton_Some]];
      destruct Hu as [b Hu]; unfold si_Breakers in Hu; simpl in Hu; by apply lookup_singleton_Some in Hu as [<- _]. }
  pose proof (H n1 i1 H1 Hu1) as E1. pose proof (H n2 i2 H2 Hu2) as E2. rewrite E1 in E2. by injection E2.
Qed.

Lemma record_result_deterministic_witness :
  RecordCircuitBreakerResult 0 1 (map_to_list (sm_instances w_manager)) "http://b" false w_manager =
  RecordCircuitBreakerResult 0 1 (rev (map_to_list (sm_instances w_manager))) "http://b" false w_manager.
Proof.
  apply record_result_deterministic.
  - exact w_manager_disjoint.
  - reflexivity.
  - symmetry. apply Permutation_rev.
Defined.

Lemma import_keeps_counters_witness :
  exists i' s', GetInstance "a" (service_ImportMetrics (Some w_manager) w_manager) = Some i' /\
    c_servers (si_Collector i') !! "http://a"%string = Some s' /\ TotalRequests s' = 0.
Proof.
  destruct (import_keeps_counters w_manager w_manager "a" "http://a" (w_instance "http://a")
    (New_stats 0 "http://a" [] [])) as (i' & s' & Hi & _ & Hs & _ & Hc).
  - reflexivity.
  - reflexivity.
  - exists i', s'. split; [exact Hi|]. split; [exact Hs|]. exact (proj1 Hc).
Defined.
