(* ===== verification/Middlewares.v ===== *)
(** * internal/middleware: chaining, and the middlewares without state

    middleware.go ([Chain]), headers.go, cors.go, auth.go and timeout.go.  A middleware maps a handler to
    a handler; what it may do with the request, the writer and the world before and after the next
    handler is all in its definition. *)
From S2P Require Import Prelude GoFloat GoStrings NetIP GoHttp Env Priority.
Open Scope Z_scope.

(** ** middleware.go: Chain *)
Definition Chain {W : Type} (middlewares : list (Middleware W)) : Middleware W :=
  fun final => foldr (fun mw final => mw final) final middlewares.

Lemma Chain_app {W} (l1 l2 : list (Middleware W)) h : Chain (l1 ++ l2) h = Chain l1 (Chain l2 h).
Proof. unfold Chain. apply foldr_app. Qed.

(** ** headers.go *)
Definition hex_char (n : Z) : ascii := to_byte (if n <? 10 then 48 + n else 87 + n).
(** [%02x] of a byte, and [%x] of a byte slice. *)
Definition hex_byte (b : Z) : bytes := [hex_char (b / 16); hex_char (b mod 16)].
Definition hex_bytes (bs : list Z) : bytes := concat (hex_byte <$> bs).

Definition clientIPFromRequest (r : Request) : string :=
  match SplitHostPort (req_RemoteAddr r) with
  | Some (ip, _) => ip
  | None => req_RemoteAddr r
  end.

(** The formatting of [generateRequestID], on the sixteen random bytes. *)
Definition format_request_id (b : list Z) : string :=
  let b := alter (fun x => Z.lor (Z.land x 15) 64) 6%nat b in
  let b := alter (fun x => Z.lor (Z.land x 63) 128) 8%nat b in
  let dash := [to_byte 45] in
  of_bytes (hex_bytes (take 4 b) ++ dash ++ hex_bytes (take 2 (drop 4 b)) ++ dash ++
            hex_bytes (take 2 (drop 6 b)) ++ dash ++ hex_bytes (take 2 (drop 8 b)) ++ dash ++
            hex_bytes (drop 10 b)).

Section stateless.
Context {W : Type} `{!Env W}.

Definition generateRequestID (w : W) : string * W :=
  let '(b, w) := env_RandBytes 16 w in (format_request_id b, w).

Definition RequestHeaders : Middleware W := fun next rw r w =>
  let clientIP := clientIPFromRequest r in
  let h := Header_Set (req_Header r) "X-Real-IP" clientIP in
  let prior := Header_Get h "X-Forwarded-For" in
  let h := if negb (String.eqb prior "") then Header_Set h "X-Forwarded-For" (prior +:+ ", " +:+ clientIP)%string
           else Header_Set h "X-Forwarded-For" clientIP in
  let proto := if req_TLS r then "https"%string else "http"%string in
  let h := Header_Set h "X-Forwarded-Proto" proto in
  let h := if String.eqb (Header_Get h "X-Forwarded-Host") "" then Header_Set h "X-Forwarded-Host" (req_Host r) else h in
  let reqID := Header_Get h "X-Request-ID" in
  let '(reqID, h, w) :=
    if String.eqb reqID "" then
      let '(reqID, w) := generateRequestID w in (reqID, Header_Set h "X-Request-ID" reqID, w)
    else (reqID, h, w) in
  let ctx := WithRequestID reqID (req_ctx r) in
  let rw := rw_Set "X-Request-ID" reqID rw in
  next rw (WithContext ctx (WithHeader h r)) w.

(** ** cors.go *)
Record CORSConfig : Type := mkCORSConfig {
  AllowedOrigins : list string;
  AllowedMethods : list string;
  AllowedHeaders : list string;
  MaxAge : string;
}.

Definition DefaultCORSConfig : CORSConfig :=
  mkCORSConfig ["*"] ["GET"; "POST"; "PUT"; "DELETE"; "OPTIONS"; "PATCH"]
    ["Content-Type"; "Authorization"; "X-Requested-With"; "X-Priority"] "3600".

Definition CORS (cfg : CORSConfig) : Middleware W :=
  let origins := Join (AllowedOrigins cfg) ", " in
  let methods := Join (AllowedMethods cfg) ", " in
  let headers := Join (AllowedHeaders cfg) ", " in
  fun next rw r w =>
    let rw := rw_Set "Access-Control-Allow-Origin" origins rw in
    let rw := rw_Set "Access-Control-Allow-Methods" methods rw in
    let rw := rw_Set "Access-Control-Allow-Headers" headers rw in
    let rw := rw_Set "Access-Control-Max-Age" (MaxAge cfg) rw in
    if String.eqb (req_Method r) "OPTIONS" then mkServed (rw_WriteHeader 204 rw) (req_Header r) (req_Body r) w
    else next rw r w.

(** ** auth.go *)
(** [r.BasicAuth] of net/http over encoding/base64: [base64_value] is the alphabet of StdEncoding. *)
Definition base64_value (c : ascii) : option Z :=
  if in_range 65 90 c then Some (byte c - 65)
  else if in_range 97 122 c then Some (byte c - 71)
  else if in_range 48 57 c then Some (byte c + 4)
  else if byte c =? 43 then Some 62
  else if byte c =? 47 then Some 63
  else None.

Definition pad : ascii := "="%char.

(** Four characters at a time; padding ends the input. *)
Fixpoint base64_groups (l : bytes) : option bytes :=
  match l with
  | [] => Some []
  | c1 :: c2 :: c3 :: c4 :: rest =>
      v1 ← base64_value c1; v2 ← base64_value c2;
      let b1 := to_byte (v1 * 4 + v2 / 16) in
      if Ascii.eqb c3 pad then
        if Ascii.eqb c4 pad && bool_decide (rest = []) then Some [b1] else None
      else
        v3 ← base64_value c3;
        let b2 := to_byte ((v2 mod 16) * 16 + v3 / 4) in
        if Ascii.eqb c4 pad then if bool_decide (rest = []) then Some [b1; b2] else None
        else
          v4 ← base64_value c4;
          more ← base64_groups rest;
          Some (b1 :: b2 :: to_byte ((v3 mod 4) * 64 + v4) :: more)
  | _ => None
  end.

(** [base64.StdEncoding.DecodeString]: line ends are skipped. *)
Definition base64_decode (l : bytes) : option bytes :=
  base64_groups (filter (fun c => negb ((byte c =? 10) || (byte c =? 13)) = true) l).

Definition basic_prefix : bytes := to_bytes "Basic ".

(** [parseBasicAuth]: a case-insensitive scheme, then the text up to the first colon and after it. *)
Definition BasicAuth_of (auth : string) : option (string * string) :=
  let l := to_bytes auth in
  if bool_decide (ascii_lower <$> take 6 l = ascii_lower <$> basic_prefix) then
    c ← base64_decode (drop 6 l);
    i ← IndexByte c (":"%char);
    Some (of_bytes (take i c), of_bytes (drop (S i) c))
  else None.

Definition req_BasicAuth (r : Request) : option (string * string) :=
  let auth := Header_Get (req_Header r) "Authorization" in
  if String.eqb auth "" then None else BasicAuth_of auth.

Definition auth_realm : string :=
  of_bytes (to_bytes "Basic realm=" ++ ["034"%char] ++ to_bytes "Load Balancer Dashboard" ++ ["034"%char]).

Definition unauthorized (rw : ResponseWriter) : ResponseWriter :=
  http_Error "Unauthorized" 401 (rw_Set "WWW-Authenticate" auth_realm rw).

Definition BasicAuth (username password : string) : Middleware W := fun next =>
  if String.eqb username "" || String.eqb password "" then next
  else fun rw r w =>
    match req_BasicAuth r with
    | None => mkServed (unauthorized rw) (req_Header r) (req_Body r) w
    | Some (user, pass) =>
        if negb (String.eqb user username) || negb (String.eqb pass password) then
          mkServed (unauthorized rw) (req_Header r) (req_Body r) w
        else next rw r w
    end.

(** ** timeout.go *)
Definition positive_or (x d : Z) : Z := if x <=? 0 then d else x.

(** The switch on the priority. *)
Definition priority_timeout (highSec mediumSec lowSec : Z) (pri : string) : Z :=
  if String.eqb pri "HIGH" then Duration_mul (positive_or highSec 5) Second
  else if String.eqb pri "MEDIUM" then Duration_mul (positive_or mediumSec 10) Second
  else Duration_mul (positive_or lowSec 20) Second.

Definition NewPriorityTimeout (highSec mediumSec lowSec : Z) : Middleware W := fun next rw r w =>
  let pri := Classify (req_Path r) (Header_Get (req_Header r) "X-Priority") in
  let timeout := priority_timeout highSec mediumSec lowSec pri in
  let '(now, w) := env_Now w in
  let ctx := WithPriority pri (WithTimeout now timeout (req_ctx r)) in
  next rw (WithContext ctx r) w.
End stateless.

Definition PriorityFromContext (c : Context) : string := default ""%string (ctx_priority c).

(** ** Properties of the header enrichment *)
Lemma Header_Get_other (h : Header) (k v k' : string) :
  CanonicalKey k <> k' -> Header_Set h k v !! k' = h !! k'.
Proof. intros H. unfold Header_Set. by apply lookup_insert_ne. Qed.

(** The keys RequestHeaders writes, in canonical form. *)
Definition enriched_keys : list string :=
  ["X-Real-Ip"; "X-Forwarded-For"; "X-Forwarded-Proto"; "X-Forwarded-Host"; "X-Request-Id"]%string.

Lemma Header_Set_frame (h : Header) k v k' :
  CanonicalKey k ∈ enriched_keys -> k' ∉ enriched_keys -> Header_Set h k v !! k' = h !! k'.
Proof. intros Hin Hnin. apply Header_Get_other. intros <-. done. Qed.

Ltac header_get := repeat first [rewrite Header_Get_Set | rewrite Header_Get_Set_ne by (vm_compute; discriminate)].

(** The header, the request id and the world that [RequestHeaders] passes on. *)
Definition enrich {W : Type} `{!Env W} (r : Request) (w : W) : string * Header * W :=
  let clientIP := clientIPFromRequest r in
  let h := Header_Set (req_Header r) "X-Real-IP" clientIP in
  let prior := Header_Get h "X-Forwarded-For" in
  let h := if negb (String.eqb prior "") then Header_Set h "X-Forwarded-For" (prior +:+ ", " +:+ clientIP)%string
           else Header_Set h "X-Forwarded-For" clientIP in
  let h := Header_Set h "X-Forwarded-Proto" (if req_TLS r then "https" else "http")%string in
  let h := if String.eqb (Header_Get h "X-Forwarded-Host") "" then Header_Set h "X-Forwarded-Host" (req_Host r) else h in
  let reqID := Header_Get h "X-Request-ID" in
  if String.eqb reqID "" then
    let '(reqID, w) := generateRequestID w in (reqID, Header_Set h "X-Request-ID" reqID, w)
  else (reqID, h, w).

(** What the next handler may rely on. *)
Record enriched (r : Request) (id : string) (h : Header) : Prop := {
  en_real_ip : Header_Get h "X-Real-IP" = clientIPFromRequest r;
  en_forwarded_for : Header_Get h "X-Forwarded-For" =
    let prior := Header_Get (req_Header r) "X-Forwarded-For" in
    if String.eqb prior "" then clientIPFromRequest r else (prior +:+ ", " +:+ clientIPFromRequest r)%string;
  en_proto : Header_Get h "X-Forwarded-Proto" = if req_TLS r then "https"%string else "http"%string;
  en_host : Header_Get h "X-Forwarded-Host" =
    let given := Header_Get (req_Header r) "X-Forwarded-Host" in
    if String.eqb given "" then req_Host r else given;
  en_id : Header_Get h "X-Request-ID" = id;
  en_id_kept : Header_Get (req_Header r) "X-Request-ID" <> ""%string ->
    id = Header_Get (req_Header r) "X-Request-ID";
  en_others : forall k, k ∉ enriched_keys -> h !! k = req_Header r !! k;
}.

Lemma enrich_enriched {W : Type} `{!Env W} (r : Request) (w : W) :
  let '(id, h, _) := enrich r w in enriched r id h.
Proof.
  unfold enrich. set (ip := clientIPFromRequest r).
  set (h1 := Header_Set (req_Header r) "X-Real-IP" ip).
  assert (Header_Get h1 "X-Forwarded-For" = Header_Get (req_Header r) "X-Forwarded-For") as E1 by (unfold h1; by header_get).
  rewrite E1. set (prior := Header_Get (req_Header r) "X-Forwarded-For").
  set (h2 := if negb (String.eqb prior "") then _ else _).
  assert (h2 = Header_Set h1 "X-Forwarded-For"
    (if String.eqb prior "" then ip else (prior +:+ ", " +:+ ip)%string)) as E2 by (unfold h2; by destruct (String.eqb prior "")).
  clearbody h2. subst h2. set (h3 := Header_Set (Header_Set h1 _ _) "X-Forwarded-Proto" _).
  assert (Header_Get h3 "X-Forwarded-Host" = Header_Get (req_Header r) "X-Forwarded-Host") as E3 by (unfold h3, h1; by header_get).
  rewrite E3. set (given := Header_Get (req_Header r) "X-Forwarded-Host").
  set (h4 := if String.eqb given "" then _ else h3).
  assert (forall k, CanonicalKey k <> "X-Forwarded-Host"%string -> Header_Get h4 k = Header_Get h3 k) as E4.
  { intros k Hk. unfold h4. destruct (String.eqb given ""); [|done]. apply Header_Get_Set_ne. vm_compute CanonicalKey at 1. congruence. }
  assert (Header_Get h4 "X-Forwarded-Host" = if String.eqb given "" then req_Host r else given) as Ehost.
  { unfold h4. destruct (String.eqb_spec given ""); [by header_get|done]. }
  assert (Header_Get h4 "X-Request-ID" = Header_Get (req_Header r) "X-Request-ID") as Eid
    by (rewrite E4 by (vm_compute; discriminate); unfold h3, h1; by header_get).
  assert (forall k, k ∉ enriched_keys -> h4 !! k = req_Header r !! k) as Eoth.
  { intros k Hk. unfold h4, h3, h1. destruct (String.eqb given "");
      rewrite !Header_Set_frame by (try done; vm_compute; set_solver); done. }
  rewrite Eid.
  assert (forall id h, Header_Get h "X-Request-ID" = id ->
    (Header_Get (req_Header r) "X-Request-ID" <> ""%string -> id = Header_Get (req_Header r) "X-Request-ID") ->
    (forall k, CanonicalKey k <> "X-Request-Id"%string -> Header_Get h k = Header_Get h4 k) ->
    (forall k, k ∉ enriched_keys -> h !! k = h4 !! k) -> enriched r id h) as Hfin.
  { intros id h Hid Hkept Hget Hoth. split; try done.
    - rewrite Hget, E4 by (vm_compute; discriminate). unfold h3, h1. by header_get.
    - rewrite Hget, E4 by (vm_compute; discriminate). unfold h3. by header_get.
    - rewrite Hget, E4 by (vm_compute; discriminate). unfold h3. by header_get.
    - rewrite Hget by (vm_compute; discriminate). done.
    - intros k Hk. by rewrite Hoth, Eoth. }
  destruct (String.eqb_spec (Header_Get (req_Header r) "X-Request-ID") "") as [E|Hne].
  - destruct (generateRequestID w) as [id w']. apply Hfin; [by header_get|done| |].
    + intros k Hk. apply Header_Get_Set_ne. vm_compute CanonicalKey at 1. congruence.
    + intros k Hk. apply Header_Set_frame; [vm_compute; set_solver|done].
  - apply Hfin; done.
Qed.

Lemma RequestHeaders_enrich {W : Type} `{!Env W} (next : Handler W) rw r (w : W) :
  RequestHeaders next rw r w =
  let '(id, h, w') := enrich r w in
  next (rw_Set "X-Request-ID" id rw) (WithContext (WithRequestID id (req_ctx r)) (WithHeader h r)) w'.
Proof.
  unfold RequestHeaders, enrich. destruct (String.eqb (Header_Get _ "X-Request-ID") ""); [|done].
  by destruct (generateRequestID w).
Qed.

(** The next handler sees the direct peer's address in X-Real-IP, whatever the client had put there; the
    same address appended to the X-Forwarded-For chain; the scheme and host the client used; one
    request id, the client's if it sent one, in the header, in the context and in the response; and
    every other header as the client sent it. *)
Theorem headers_enrich {W : Type} `{!Env W} (next : Handler W) rw r (w : W) :
  exists id h w', enriched r id h /\
    RequestHeaders next rw r w =
      next (rw_Set "X-Request-ID" id rw) (WithContext (WithRequestID id (req_ctx r)) (WithHeader h r)) w'.
Proof.
  rewrite RequestHeaders_enrich. pose proof (enrich_enriched r w) as H.
  destruct (enrich r w) as [[id h] w']. by exists id, h, w'.
Qed.

(** ** Properties of the timeout *)
(** The next handler runs under a deadline: the request's own or now plus the timeout of its class,
    whichever is earlier.  The timeout of HIGH is its setting or, if that is not positive, five seconds;
    that of LOW its setting or twenty seconds.  No request is of the class MEDIUM, so that setting has
    no effect. *)
Theorem timeout_by_priority {W : Type} `{!Env W} (highSec mediumSec lowSec : Z) (next : Handler W) rw r (w : W) :
  let pri := Classify (req_Path r) (Header_Get (req_Header r) "X-Priority") in
  let limit := Duration_mul (if String.eqb pri "HIGH" then positive_or highSec 5 else positive_or lowSec 20) Second in
  let '(now, w1) := env_Now w in
  (exists r', NewPriorityTimeout highSec mediumSec lowSec next rw r w = next rw r' w1 /\
     ctx_deadline (req_ctx r') = Some (match ctx_deadline (req_ctx r) with
                                       | Some d => Z.min d (now + limit)
                                       | None => now + limit
                                       end) /\
     PriorityFromContext (req_ctx r') = pri /\ req_Header r' = req_Header r) /\
  forall mediumSec', NewPriorityTimeout highSec mediumSec' lowSec next rw r w =
                     NewPriorityTimeout highSec mediumSec lowSec next rw r w.
Proof.
  unfold NewPriorityTimeout. destruct (env_Now w) as [now w1]. unfold priority_timeout.
  destruct (Classify_values (req_Path r) (Header_Get (req_Header r) "X-Priority")) as [-> | ->];
    (split; [eexists; split; [done|]; split; [simpl; by destruct (ctx_deadline (req_ctx r))|done]|done]).
Qed.

(** ** Properties of basic authentication: decoding inverts encoding *)
Definition base64_char (v : Z) : ascii :=
  to_byte (if v <? 26 then 65 + v else if v <? 52 then 71 + v else if v <? 62 then v - 4 else if v =? 62 then 43 else 47).

Fixpoint base64_encode (l : bytes) : bytes :=
  match l with
  | [] => []
  | [a] => [base64_char (byte a / 4); base64_char ((byte a mod 4) * 16); pad; pad]
  | [a; b] => [base64_char (byte a / 4); base64_char ((byte a mod 4) * 16 + byte b / 16);
               base64_char ((byte b mod 16) * 4); pad]
  | a :: b :: c :: l =>
      base64_char (byte a / 4) :: base64_char ((byte a mod 4) * 16 + byte b / 16) ::
      base64_char ((byte b mod 16) * 4 + byte c / 64) :: base64_char (byte c mod 64) :: base64_encode l
  end.

Lemma base64_alphabet :
  forallb (fun v => bool_decide (base64_value (base64_char v) = Some v) && negb (Ascii.eqb (base64_char v) pad) &&
    negb ((byte (base64_char v) =? 10) || (byte (base64_char v) =? 13))) (seqZ 0 64) = true.
Proof. reflexivity. Qed.

Lemma base64_char_ok v :
  0 <= v < 64 -> base64_value (base64_char v) = Some v /\ Ascii.eqb (base64_char v) pad = false /\
    negb ((byte (base64_char v) =? 10) || (byte (base64_char v) =? 13)) = true.
Proof.
  intros Hv. pose proof base64_alphabet as H. rewrite forallb_forall in H.
  specialize (H v ltac:(apply list_elem_of_In, elem_of_seqZ; lia)).
  apply andb_true_iff in H as [[H1 H2]%andb_true_iff H3]. apply bool_decide_eq_true in H1.
  apply negb_true_iff in H2. done.
Qed.

Lemma list3_ind {T} (P : list T -> Prop) :
  P [] -> (forall a, P [a]) -> (forall a b, P [a; b]) -> (forall a b c l, P l -> P (a :: b :: c :: l)) -> forall l, P l.
Proof.
  intros H0 H1 H2 H3. fix IH 1. intros [|a [|b [|c l]]]; [done..|]. apply H3, IH.
Qed.

Ltac sextets :=
  repeat match goal with
  | a : ascii |- _ =>
      lazymatch goal with
      | _ : 0 <= byte a < 256 |- _ => fail
      | _ => pose proof (byte_range a)
      end
  end.

Ltac div_lia := Z.div_mod_to_equations; lia.

Lemma base64_groups_encode l : base64_groups (base64_encode l) = Some l.
Proof.
  induction l as [|a|a b|a b c l IH] using list3_ind; sextets; cbn [base64_encode base64_groups]; [done|..].
  - destruct (base64_char_ok (byte a / 4)) as (-> & _); [div_lia|].
    destruct (base64_char_ok ((byte a mod 4) * 16)) as (-> & _); [div_lia|]. cbn [mbind option_bind].
    rewrite Ascii.eqb_refl. cbn [andb]. rewrite bool_decide_eq_true_2 by done.
    replace (byte a / 4 * 4 + byte a mod 4 * 16 / 16) with (byte a) by div_lia. by rewrite to_byte_byte.
  - destruct (base64_char_ok (byte a / 4)) as (-> & _); [div_lia|].
    destruct (base64_char_ok ((byte a mod 4) * 16 + byte b / 16)) as (-> & _); [div_lia|].
    destruct (base64_char_ok ((byte b mod 16) * 4)) as (-> & -> & _); [div_lia|]. cbn [mbind option_bind].
    rewrite Ascii.eqb_refl, bool_decide_eq_true_2 by done.
    replace (byte a / 4 * 4 + (byte a mod 4 * 16 + byte b / 16) / 16) with (byte a) by div_lia.
    replace ((byte a mod 4 * 16 + byte b / 16) mod 16 * 16 + byte b mod 16 * 4 / 4) with (byte b) by div_lia.
    by rewrite !to_byte_byte.
  - destruct (base64_char_ok (byte a / 4)) as (-> & _); [div_lia|].
    destruct (base64_char_ok ((byte a mod 4) * 16 + byte b / 16)) as (-> & _); [div_lia|].
    destruct (base64_char_ok ((byte b mod 16) * 4 + byte c / 64)) as (-> & -> & _); [div_lia|].
    destruct (base64_char_ok (byte c mod 64)) as (-> & -> & _); [div_lia|]. cbn [mbind option_bind].
    rewrite IH. cbn [mbind option_bind].
    replace (byte a / 4 * 4 + (byte a mod 4 * 16 + byte b / 16) / 16) with (byte a) by div_lia.
    replace ((byte a mod 4 * 16 + byte b / 16) mod 16 * 16 + (byte b mod 16 * 4 + byte c / 64) / 4)
      with (byte b) by div_lia.
    replace ((byte b mod 16 * 4 + byte c / 64) mod 4 * 64 + byte c mod 64) with (byte c) by div_lia.
    by rewrite !to_byte_byte.
Qed.

Lemma base64_encode_clean l :
  filter (fun c => negb ((byte c =? 10) || (byte c =? 13)) = true) (base64_encode l) = base64_encode l.
Proof.
  induction l as [|a|a b|a b c l IH] using list3_ind; sextets; cbn [base64_encode]; [done|..];
    repeat (rewrite filter_cons_True by (first [apply base64_char_ok; div_lia | reflexivity])); by rewrite ?IH.
Qed.

Lemma base64_decode_encode l : base64_decode (base64_encode l) = Some l.
Proof. unfold base64_decode. rewrite base64_encode_clean. apply base64_groups_encode. Qed.

Lemma IndexByte_app l1 c l2 : c ∉ l1 -> IndexByte (l1 ++ c :: l2) c = Some (length l1).
Proof.
  induction l1 as [|a l1 IH]; intros Hc; cbn [app IndexByte length].
  - by rewrite Ascii.eqb_refl.
  - apply not_elem_of_cons in Hc as [Hne Hc]. destruct (Ascii.eqb_spec a c); [congruence|]. by rewrite IH.
Qed.

(** What a client that follows RFC 7617 sends. *)
Definition credentials (user pass : string) : string :=
  of_bytes (basic_prefix ++ base64_encode (to_bytes user ++ ":"%char :: to_bytes pass)).

Lemma BasicAuth_of_credentials user pass :
  ":"%char ∉ to_bytes user -> BasicAuth_of (credentials user pass) = Some (user, pass).
Proof.
  intros Hu. unfold BasicAuth_of, credentials. rewrite to_of_bytes.
  change (take 6 (basic_prefix ++ ?x)) with basic_prefix. change (drop 6 (basic_prefix ++ ?x)) with x.
  rewrite bool_decide_eq_true_2 by done. rewrite base64_decode_encode. cbn [mbind option_bind].
  rewrite IndexByte_app by done. cbn [mbind option_bind]. rewrite take_app_length.
  replace (S (length (to_bytes user))) with (length (to_bytes user) + 1)%nat by lia.
  rewrite <- drop_drop, drop_app_length. cbn [drop]. by rewrite drop_0, !of_to_bytes.
Qed.

Lemma IndexByte_Some l c i : IndexByte l c = Some i -> l = take i l ++ c :: drop (S i) l /\ c ∉ take i l.
Proof.
  revert i. induction l as [|a l IH]; intros i; cbn [IndexByte]; [done|].
  destruct (Ascii.eqb_spec a c) as [->|Hne].
  - intros [= <-]. split; [done|apply not_elem_of_nil].
  - destruct (IndexByte l c) as [j|]; [|done]. intros [= <-]. destruct (IH j eq_refl) as [Hl Hc]. cbn [take drop app].
    split; [by f_equal|]. apply not_elem_of_cons. by split; [congruence|].
Qed.

(** The Authorization header carries exactly these credentials: the scheme "Basic", in any case, and a base64
    text of "user:password".  A user name with a colon can never be carried. *)
Definition authorizes (username password auth : string) : Prop :=
  (":"%char ∉ to_bytes username) /\
  ascii_lower <$> take 6 (to_bytes auth) = ascii_lower <$> basic_prefix /\
  base64_decode (drop 6 (to_bytes auth)) = Some (to_bytes username ++ ":"%char :: to_bytes password).

#[export] Instance authorizes_dec username password auth : Decision (authorizes username password auth).
Proof. unfold authorizes. apply _. Defined.

Lemma BasicAuth_of_iff username password auth :
  BasicAuth_of auth = Some (username, password) <-> authorizes username password auth.
Proof.
  unfold BasicAuth_of, authorizes. split.
  - destruct (bool_decide_reflect (ascii_lower <$> take 6 (to_bytes auth) = ascii_lower <$> basic_prefix)) as [Hp|]; [|done].
    destruct (base64_decode _) as [c|]; [|done]. cbn [mbind option_bind].
    destruct (IndexByte c ":"%char) as [i|] eqn:Ei; [|done]. cbn [mbind option_bind]. intros [= <- <-].
    destruct (IndexByte_Some _ _ _ Ei) as [Hc Hn]. rewrite !to_of_bytes. split_and!; [done|done|by rewrite <- Hc].
  - intros (Hu & Hp & Hd). rewrite bool_decide_eq_true_2 by done. rewrite Hd. cbn [mbind option_bind].
    rewrite IndexByte_app by done. cbn [mbind option_bind]. rewrite take_app_length.
    replace (S (length (to_bytes username))) with (length (to_bytes username) + 1)%nat by lia.
    rewrite <- drop_drop, drop_app_length. cbn [drop]. by rewrite drop_0, !of_to_bytes.
Qed.

(** Standard credentials carry what they are made of. *)
Lemma authorizes_credentials username password user pass :
  ":"%char ∉ to_bytes user ->
  authorizes username password (credentials user pass) <-> user = username /\ pass = password.
Proof.
  intros Hu. rewrite <- BasicAuth_of_iff, BasicAuth_of_credentials by done. split; [by intros [= -> ->]|by intros [-> ->]].
Qed.

(** C32. With credentials configured, a request reaches the next handler exactly when its Authorization header
    carries them.  Any other request, without the header, with another scheme, with a text that is not
    base64 or has no colon, or with other credentials, is answered by a 401 page with a challenge; the
    next handler does not run and the world is as it was.  Credentials sent the standard way are the
    configured ones exactly when user and password are. *)
Theorem basic_auth_exact {W : Type} (username password : string) (next : Handler W) head h r (w : W) :
  username <> ""%string -> password <> ""%string ->
  let auth := Header_Get (req_Header r) "Authorization" in
  let rw := ServerWriter head h None [] in
  let sv := BasicAuth username password next rw r w in
  (if decide (authorizes username password auth) then sv = next rw r w
   else client_view (sv_w sv) = error_page head "Unauthorized" 401 (Header_Set h "WWW-Authenticate" auth_realm) /\
        sv_world sv = w /\ sv_header sv = req_Header r /\ sv_body sv = req_Body r) /\
  forall user pass, ":"%char ∉ to_bytes user -> auth = credentials user pass ->
    (authorizes username password auth <-> user = username /\ pass = password).
Proof.
  intros Hu Hp auth rw sv. split; [|intros user pass Hc ->; by apply authorizes_credentials].
  assert (req_BasicAuth r = Some (username, password) <-> authorizes username password auth) as Hiff.
  { rewrite <- BasicAuth_of_iff. unfold req_BasicAuth. fold auth.
    destruct (String.eqb_spec auth "") as [->|]; [|done]. split; [done|]. by vm_compute. }
  assert (client_view (unauthorized rw) = error_page head "Unauthorized" 401 (Header_Set h "WWW-Authenticate" auth_realm))
    as Hpage by by apply http_Error_page.
  unfold sv, BasicAuth. destruct (String.eqb_spec username ""), (String.eqb_spec password ""); try done. cbn [orb].
  destruct (req_BasicAuth r) as [[user pass]|].
  - destruct (String.eqb_spec user username) as [->|Hn]; [destruct (String.eqb_spec pass password) as [->|Hn]|];
      cbn [negb orb].
    + rewrite decide_True; [done|]. by apply Hiff.
    + rewrite decide_False; [done|]. intros [=]%Hiff. done.
    + rewrite decide_False; [done|]. intros [=]%Hiff. done.
  - rewrite decide_False; [done|]. by intros ?%Hiff.
Qed.

Lemma basic_auth_exact_witness :
  let next : Handler unit := fun rw r w => mkServed (rw_WriteHeader 200 rw) (req_Header r) [] w in
  let request hd := mkRequest "GET" "/" "/" "1.2.3.4:5" "h" false hd [] Background in
  sv_w (BasicAuth "admin" "s3cret" next (ServerWriter false ∅ None [])
    (request (Header_Set ∅ "Authorization" (credentials "admin" "s3cret"))) tt)
  = ServerWriter false ∅ (Some (200, ∅)) [] /\
  (client_view (sv_w (BasicAuth "admin" "s3cret" next (ServerWriter false ∅ None []) (request ∅) tt))).1.1 = 401.
Proof.
  intros next request. split.
  - destruct (basic_auth_exact "admin" "s3cret" next false ∅
      (request (Header_Set ∅ "Authorization" (credentials "admin" "s3cret"))) tt) as [H _]; [discriminate|discriminate|].
    exact (f_equal sv_w H).
  - destruct (basic_auth_exact "admin" "s3cret" next false ∅ (request ∅) tt) as [H _]; [discriminate|discriminate|].
    exact (f_equal (fun v => v.1.1) (proj1 H)).
Defined.
