(* ===== verification/Retry.v ===== *)
(** * middleware/retry.go: retries with exponential backoff

    Each attempt runs the next handler on a buffering writer; the last one is flushed to the client.  The
    file proves what the loop guarantees for every next handler, and what it does not do: the backend
    of a failed attempt is not excluded from the following ones. *)
From S2P Require Import Prelude GoFloat GoStrings GoHttp Logging Env Proxy.
Open Scope Z_scope.

Definition newRetryResponseWriter (w : ResponseWriter) : ResponseWriter := RetryWriter w 200 [] ∅ false.

Definition isRetryable (statusCode : Z) : bool := 500 <=? statusCode.

(** The fields of the buffering writer; the handler it was given to returns a writer of its shape. *)
Definition rt_statusCode (rw : ResponseWriter) : Z :=
  match rw with RetryWriter _ c _ _ _ => c | _ => 200 end.
Definition rt_inner (rw : ResponseWriter) : ResponseWriter :=
  match rw with RetryWriter inner _ _ _ _ => inner | _ => rw end.

(** [Header().Add(k, v)] for every buffered value.  The loop over the map [entries] meets the keys in some
    order; different keys do not interfere. *)
Definition add_header_values (k : string) (vals : list string) (rw : ResponseWriter) : ResponseWriter :=
  foldl (fun rw v => rw_Add k v rw) rw vals.
Definition copy_headers (headers : Header) (rw : ResponseWriter) : ResponseWriter :=
  foldl (fun rw e => add_header_values e.1 e.2 rw) rw (map_to_list headers).

Definition flush (rw : ResponseWriter) : ResponseWriter :=
  match rw with
  | RetryWriter inner c body headers false =>
      let inner := copy_headers headers inner in
      let inner := rw_WriteHeader c inner in
      let inner := if (0 <? length body)%nat then (rw_Write body inner).1 else inner in
      RetryWriter inner c body headers true
  | _ => rw
  end.

Record retryMiddleware : Type := mkRetry { rm_maxAttempts : Z; rm_initialIntervalMs : Z }.

(** The two checks of [NewRetry]. *)
Definition retry_settings (maxAttempts initialIntervalMs : Z) : retryMiddleware :=
  mkRetry (if maxAttempts <=? 0 then 3 else maxAttempts)
    (if initialIntervalMs <=? 0 then 100 else initialIntervalMs).

Section retry.
Context {W : Type} `{!Env W}.

(** [math.Pow(2, n)] of an integer [n] is the power, or the infinity it rounds to. *)
Definition calculateBackoff (rm : retryMiddleware) (attempt : Z) (w : W) : Z * W :=
  let base := f64_mul (f64_of_Z (rm_initialIntervalMs rm)) (f64_of_Z (2 ^ (attempt - 1))) in
  let '(draw, w) := env_Float64 w in
  let jitter := f64_mul (f64_mul draw (f64_lit 25 100)) base in
  (Duration_mul (f64_to_int64 (f64_add base jitter)) Millisecond, w).

(** What the loop ends with: the writer of the last attempt, or the client gone during a backoff. *)
Inductive RetryEnd : Type :=
| Commit (lastWriter : ResponseWriter)
| Disconnected (rw : ResponseWriter).

(** The two lines the loop logs. *)
Definition backoff_entry (r : Request) (requestID : string) (attempt backoff : Z) : AccessLog :=
  mkAccessLog 0 "" "Retry middleware: backoff before retry" requestID "" (req_Method r) (req_Path r) "" "" ""
    0 f64_zero attempt (milliseconds backoff) "".

Definition retrying_entry (r : Request) (requestID : string) (statusCode attempt : Z) : AccessLog :=
  mkAccessLog 0 "" "Retry middleware: got retryable response, retrying" requestID "" (req_Method r) (req_Path r)
    "" "" "" statusCode f64_zero attempt 0 "".

(** The start of an attempt: after the first, the backoff is logged and waited for, unless the client's
    context ends first. *)
Definition await_turn (rm : retryMiddleware) (requestID : string) (attempt : Z) (r : Request) (w : W) : bool * W :=
  if 1 <? attempt then
    let '(backoff, w) := calculateBackoff rm (attempt - 1) w in
    let w := env_Info (backoff_entry r requestID attempt backoff) w in
    select_timer backoff (req_ctx r) w
  else (true, w).

(** The loop, from [attempt] on; [n] is the number of attempts that remain.  The buffering writers wrap the
    same [rw], and the requests of the attempts share the header map and the body of [r]. *)
Fixpoint retry_loop (n : nat) (rm : retryMiddleware) (requestID : string) (next : Handler W) (attempt : Z) (rw : ResponseWriter)
    (r : Request) (w : W) : RetryEnd * Request * W :=
  match n with
  | O => (Disconnected rw, r, w)
  | S n =>
      let '(ready, w) := await_turn rm requestID attempt r w in
      if negb ready then (Disconnected rw, r, w)
      else
        let lastWriter := newRetryResponseWriter rw in
        let ctx := WithAttempt attempt (req_ctx r) in
        let sv := next lastWriter (WithContext ctx r) w in
        let lastWriter := sv_w sv in
        let r := WithBody (sv_body sv) (WithHeader (sv_header sv) r) in
        if negb (isRetryable (rt_statusCode lastWriter)) || (attempt =? rm_maxAttempts rm) then
          (Commit lastWriter, r, sv_world sv)
        else
          (* the list of excluded backends is put into a request that the next turn does not use *)
          let w := env_Info (retrying_entry r requestID (rt_statusCode lastWriter) attempt) (sv_world sv) in
          retry_loop n rm requestID next (attempt + 1) (rt_inner lastWriter) r w
  end.

Definition NewRetry (maxAttempts initialIntervalMs : Z) : Middleware W := fun next rw r w =>
  let rm := retry_settings maxAttempts initialIntervalMs in
  let '(e, r', w) := retry_loop (Z.to_nat (rm_maxAttempts rm)) rm (RequestIDFromContext (req_ctx r)) next 1 rw r w in
  match e with
  | Disconnected rw =>
      mkServed (http_Error "Client disconnected during retry backoff" 504 rw) (req_Header r') (req_Body r') w
  | Commit lastWriter =>
      let lastWriter := rw_Set "X-Attempts" (Itoa (AttemptFromContext (req_ctx r))) lastWriter in
      mkServed (rt_inner (flush lastWriter)) (req_Header r') (req_Body r') w
  end.
End retry.

(** ** Handlers under observation *)
(** What a handler does to a buffering writer stays in the buffer: what lies under it is untouched. *)
Definition buffering (inner rw : ResponseWriter) : Prop :=
  exists c b h, rw = RetryWriter inner c b h false /\ informational c = false.

Lemma buffering_new inner : buffering inner (newRetryResponseWriter inner).
Proof. by eexists _, _, _. Qed.

Lemma buffering_step inner rw rw' : writer_step rw rw' -> buffering inner rw -> buffering inner rw'.
Proof.
  intros Hs (c & b & h & -> & Hc). destruct Hs as [h'|code Hcode|data]; simpl; unfold buffering; eauto 6.
Qed.

Lemma uses_writer_buffered {W} (next : Handler W) inner r w :
  uses_writer next -> buffering inner (sv_w (next (newRetryResponseWriter inner) r w)).
Proof.
  intros H. specialize (H (newRetryResponseWriter inner) r w). revert H. generalize (sv_w (next (newRetryResponseWriter inner) r w)).
  intros rw' H. pose proof (buffering_new inner) as H0. induction H; eauto using buffering_step.
Qed.

(** An answer: status, headers and body; what a buffering writer holds. *)
Definition Answer : Type := Z * Header * bytes.
Definition rt_answer (rw : ResponseWriter) : Answer :=
  match rw with RetryWriter _ c b h _ => (c, h, b) | _ => (200, ∅, []) end.
Definition attempt_answer {W : Type} (sv : Served W) : Answer := rt_answer (sv_w sv).
Definition failed_answer (a : Answer) : Prop := 500 <= a.1.1.

(** Runs a handler and logs each of its answers. *)
Definition observe {W : Type} (next : Handler W) : Handler (list Answer * W) := fun rw r w =>
  let sv := next rw r w.2 in
  mkServed (sv_w sv) (sv_header sv) (sv_body sv) (w.1 ++ [attempt_answer sv], sv_world sv).

Definition lift_world {W T A : Type} (x : T) (o : A * W) : A * (T * W) := (o.1, (x, o.2)).

#[export] Instance Env_log {W T : Type} `{!Env W} : Env (T * W) := {|
  env_Now w := lift_world w.1 (env_Now w.2);
  env_SleepUntil t w := (w.1, env_SleepUntil t w.2);
  env_Choose w := lift_world w.1 (env_Choose w.2);
  env_Float64 w := lift_world w.1 (env_Float64 w.2);
  env_RandBytes n w := lift_world w.1 (env_RandBytes n w.2);
  env_Info e w := (w.1, env_Info e w.2);
  env_Error e w := (w.1, env_Error e w.2);
|}.

Section lemmas.
Context {W : Type} `{!Env W}.

Lemma wait_log {T} rm id attempt (r : Request) (x : T) (w : W) :
  await_turn rm id attempt r (x, w) = lift_world x (await_turn rm id attempt r w).
Proof.
  unfold await_turn. destruct (1 <? attempt); [|done]. unfold calculateBackoff, select_timer; simpl.
  destruct (env_Float64 w) as [draw w1]; simpl. destruct (env_Now _) as [now w2]; simpl.
  destruct (ctx_done_at (req_ctx r)); [|done]. destruct (_ <? _); [done|]. by destruct (_ <? _).
Qed.

(** What a run of the loop from [attempt] on means for the log. *)
Record loop_result (rm : retryMiddleware) (attempt : Z) (ctx : Context) (rw : ResponseWriter) (log : list Answer)
    (e : RetryEnd) (log' : list Answer) : Prop := {
  lr_new : exists new, log' = log ++ new /\
    match e with
    | Commit lw => exists good, new = good ++ [rt_answer lw] /\ Forall failed_answer good /\
        Z.of_nat (length good) + attempt <= rm_maxAttempts rm /\
        (rt_statusCode lw < 500 \/ Z.of_nat (length good) + attempt = rm_maxAttempts rm) /\
        buffering rw lw
    | Disconnected rw' => Forall failed_answer new /\ rw' = rw /\ ctx_done_at ctx <> None /\
        Z.of_nat (length new) + attempt <= rm_maxAttempts rm /\ (attempt = 1 -> new <> [])
    end;
}.

(** Only the end of the client's context cuts a wait short. *)
Lemma await_turn_cut rm id attempt (r : Request) (w : W) :
  (await_turn rm id attempt r w).1 = false -> ctx_done_at (req_ctx r) <> None /\ 1 < attempt.
Proof.
  unfold await_turn. destruct (1 <? attempt) eqn:E; [|done]. z_bool.
  destruct (calculateBackoff rm (attempt - 1) w) as [d w1].
  intros Hf. split; [|lia]. intros Hnone. by rewrite select_timer_fires in Hf.
Qed.

Lemma retry_loop_result n rm id (next : Handler W) attempt rw r log w :
  uses_writer next -> (attempt + Z.of_nat n = rm_maxAttempts rm + 1) -> (1 <= n)%nat -> 1 <= attempt ->
  let '(e, r', w') := retry_loop n rm id (observe next) attempt rw r (log, w) in
  loop_result rm attempt (req_ctx r) rw log e w'.1.
Proof.
  intros Hnext. revert attempt rw r log w. induction n as [|n IH]; intros attempt rw r log w Hn Hpos Hat; [lia|].
  cbn [retry_loop]. rewrite wait_log.
  pose proof (await_turn_cut rm id attempt r w) as Hwait.
  destruct (await_turn rm id attempt r w) as [ready w1]. cbn [lift_world fst snd] in *. destruct ready; cbn [negb].
  2: { destruct (Hwait eq_refl) as [Hd Ha]. split. exists []. split; [by rewrite app_nil_r|].
       split_and!; [constructor|done|done|simpl; lia|lia]. }
  set (req := WithContext _ r).
  assert (observe next (newRetryResponseWriter rw) req (log, w1) =
    let sv := next (newRetryResponseWriter rw) req w1 in
    mkServed (sv_w sv) (sv_header sv) (sv_body sv) (log ++ [attempt_answer sv], sv_world sv)) as -> by done.
  cbv zeta. cbn [sv_w sv_header sv_body sv_world].
  destruct (uses_writer_buffered next rw req w1 Hnext) as (c & b & h & Hlw & Hinf).
  set (sv := next (newRetryResponseWriter rw) req w1) in *.
  destruct (negb (isRetryable (rt_statusCode (sv_w sv))) || (attempt =? rm_maxAttempts rm)) eqn:Estop.
  - split. exists [attempt_answer sv]. split; [done|]. exists []. split_and!; [done|by constructor|simpl; lia| |].
    + apply orb_true_iff in Estop as [E|E]; [left; unfold isRetryable in E; z_bool; lia|right; z_bool; simpl; lia].
    + by exists c, b, h.
  - apply orb_false_iff in Estop as [Eretry Elast]. z_bool. unfold isRetryable in Eretry. z_bool.
    assert (1 <= n)%nat as Hn1 by lia. assert (rt_inner (sv_w sv) = rw) as -> by (by rewrite Hlw).
    assert (failed_answer (attempt_answer sv)) as Hfail
      by (unfold failed_answer, attempt_answer; rewrite Hlw in *; exact Eretry). clearbody sv.
    specialize (IH (attempt + 1) rw (WithBody (sv_body sv) (WithHeader (sv_header sv) r))
      (log ++ [attempt_answer sv])
      (env_Info (retrying_entry (WithBody (sv_body sv) (WithHeader (sv_header sv) r)) id (rt_statusCode (sv_w sv)) attempt)
         (sv_world sv)) ltac:(lia) Hn1 ltac:(lia)).
    destruct (retry_loop n _ _ _ _ _ _ _) as [[e r'] w'].
    destruct IH as [(new & -> & He)]. split. exists (attempt_answer sv :: new). split; [by rewrite <- app_assoc|].
    destruct e as [lw|rw'].
    + destruct He as (good & -> & Hg & Hle & Hend & Hex). exists (attempt_answer sv :: good).
      split_and!; [done|by constructor|cbn [length]; lia|cbn [length]; destruct Hend; [by left|right; lia]|done].
    + destruct He as (Hg & -> & Hd & Hle & _). split_and!; [by constructor|done|done|cbn [length]; lia|done].
Qed.
End lemmas.

(** *** The flush *)
(** The header map after every value of [src] was added. *)
Definition add_values (h : Header) (e : string * list string) : Header := foldl (fun h v => Header_Add h e.1 v) h e.2.
Definition add_headers (src h : Header) : Header := foldl add_values h (map_to_list src).

Lemma add_header_values_server head k vals h :
  add_header_values k vals (ServerWriter head h None []) = ServerWriter head (add_values h (k, vals)) None [].
Proof.
  unfold add_header_values, add_values. revert h. induction vals as [|v vals IH]; intros h; [done|]. apply IH.
Qed.

Lemma copy_headers_server src head h :
  copy_headers src (ServerWriter head h None []) = ServerWriter head (add_headers src h) None [].
Proof.
  unfold copy_headers, add_headers. generalize (map_to_list src). intros l. revert h.
  induction l as [|[k vals] l IH]; intros h; [done|]. cbn [foldl fst snd]. rewrite add_header_values_server. apply IH.
Qed.

(** The values of one key: those there were, then those of the answer. *)
Definition appended (old new : option (list string)) : option (list string) :=
  match new with
  | Some (v :: vs) => Some (default [] old ++ v :: vs)
  | _ => old
  end.

Definition canonical (h : Header) : Prop := forall k, is_Some (h !! k) -> CanonicalKey k = k.

Lemma add_values_lookup h k vals k' :
  CanonicalKey k = k -> add_values h (k, vals) !! k' = if decide (k' = k) then appended (h !! k) (Some vals) else h !! k'.
Proof.
  intros Hk. unfold add_values. cbn [fst snd]. revert h. induction vals as [|v vals IH]; intros h; cbn [foldl].
  { case_decide; [by subst|done]. }
  rewrite IH. unfold Header_Add. rewrite Hk. case_decide as Hd; [|by rewrite lookup_insert_ne].
  rewrite lookup_insert_eq. unfold appended. destruct vals; cbn [default from_option id]; [done|].
  by rewrite <- app_assoc.
Qed.

Lemma add_headers_lookup src h k : canonical src -> add_headers src h !! k = appended (h !! k) (src !! k).
Proof.
  intros Hsrc. unfold add_headers. rewrite <- (list_to_map_to_list src) at 2.
  assert (forall e, e ∈ map_to_list src -> CanonicalKey e.1 = e.1) as Hl
    by (intros [k' vals] H%elem_of_map_to_list; apply Hsrc; by eexists).
  pose proof (NoDup_fst_map_to_list src) as Hnd. revert Hl Hnd. generalize (map_to_list src). intros l. revert h.
  induction l as [|[k' vals] l IH]; intros h Hl Hnd; [done|]. cbn [foldl]. apply NoDup_cons in Hnd as [Hnin Hnd].
  rewrite IH; [|intros e He; apply Hl; by right|done]. cbn [list_to_map foldr uncurry fst snd].
  rewrite add_values_lookup by (apply (Hl (k', vals)); left).
  destruct (decide (k = k')) as [->|Hne]; [|by rewrite lookup_insert_ne].
  rewrite lookup_insert_eq, not_elem_of_list_to_map_1 by done. done.
Qed.

Lemma flush_view v head h c b hd :
  informational c = false ->
  client_view (rt_inner (flush (rw_Set "X-Attempts" v (RetryWriter (ServerWriter head h None []) c b hd false)))) =
  (c, add_headers (Header_Set hd "X-Attempts" v) h, if bodyAllowedForStatus c then body_sent head b else []).
Proof.
  intros Hc. unfold rw_Set; cbn [rw_SetHeaders rw_Header flush rt_inner]. rewrite copy_headers_server.
  cbn [rw_WriteHeader]. rewrite Hc. destruct b as [|a b]; cbn [length Nat.ltb Nat.leb rw_Write client_view].
  - destruct head; by destruct (bodyAllowedForStatus c).
  - by destruct (bodyAllowedForStatus c).
Qed.

(** What the client receives of the answer that is committed. *)
Definition committed (head : bool) (h : Header) (attempt : Z) (a : Answer) : Answer :=
  let '(c, hd, b) := a in
  (c, add_headers (Header_Set hd "X-Attempts" (Itoa attempt)) h, if bodyAllowedForStatus c then body_sent head b else []).

(** C26. What a client of the retry middleware gets, for every next handler.  The next handler ran at least
    once and at most the configured number of times; every answer but the last was a 5xx; the last is
    below 500 or came at the final attempt, and the client gets it: its status, its body and, added to
    the headers that were set before, its headers and X-Attempts.  Nothing of the discarded answers
    reaches the client.  The only other outcome is a 504 page, when its context ended during a backoff
    before the attempts were used up. *)
Theorem retry_commits_last {W : Type} `{!Env W} (maxAttempts ms : Z) (next : Handler W) head h r (w : W) :
  uses_writer next ->
  let limit := rm_maxAttempts (retry_settings maxAttempts ms) in
  let sv := NewRetry maxAttempts ms (observe next) (ServerWriter head h None []) r ([], w) in
  let view := client_view (sv_w sv) in
  let log := (sv_world sv).1 in
  log <> [] /\ Z.of_nat (length log) <= limit /\
  ((exists failed last, log = failed ++ [last] /\ Forall failed_answer failed /\
      (~ failed_answer last \/ Z.of_nat (length log) = limit) /\
      view = committed head h (AttemptFromContext (req_ctx r)) last /\
      (canonical last.1.2 -> forall k, view.1.2 !! k =
         appended (h !! k) (Header_Set last.1.2 "X-Attempts" (Itoa (AttemptFromContext (req_ctx r))) !! k))) \/
   (view = error_page head "Client disconnected during retry backoff" 504 h /\ Forall failed_answer log /\
      ctx_done_at (req_ctx r) <> None /\ Z.of_nat (length log) < limit)).
Proof.
  intros Hnext limit sv. unfold sv, NewRetry. set (rm := retry_settings maxAttempts ms) in *.
  assert (1 <= rm_maxAttempts rm) as Hmax by (unfold rm, retry_settings; simpl; destruct (maxAttempts <=? 0) eqn:E; z_bool; lia).
  pose proof (retry_loop_result (Z.to_nat (rm_maxAttempts rm)) rm (RequestIDFromContext (req_ctx r)) next 1
    (ServerWriter head h None []) r [] w Hnext ltac:(lia) ltac:(lia) ltac:(lia)) as H.
  destruct (retry_loop _ _ _ _ _ _ _ _) as [[e r'] w'] eqn:Eloop. destruct H as [(new & Hlog & He)].
  destruct e as [lw|rw']; cbn [sv_w sv_world]; rewrite Hlog; cbn [app].
  - destruct He as (failed & -> & Hf & Hle & Hend & (c & b & hd & -> & Hc)). cbn [rt_statusCode rt_answer] in *.
    rewrite flush_view by done. rewrite length_app. cbn [length].
    split_and!; [by destruct failed|lia|]. left. exists failed, (c, hd, b).
    split_and!; [done|done|unfold failed_answer; cbn [fst]; lia|done|]. cbn [fst snd]. intros Hcan k.
    apply add_headers_lookup. intros k' Hk'. unfold Header_Set in Hk'.
    apply lookup_insert_is_Some' in Hk' as [<-|Hk']; [by vm_compute|by apply Hcan].
  - destruct He as (Hf & -> & Hd & Hle & Hne). rewrite http_Error_page by done.
    split_and!; [by apply Hne|lia|]. right. split_and!; [done|done|done|lia].
Qed.

(** *** What the attempts do not learn *)
Lemma retry_loop_excluded {W : Type} `{!Env W} n rm id (next1 next2 : Handler W) attempt rw r w :
  (forall rw r' w, ctx_excluded (req_ctx r') = ctx_excluded (req_ctx r) -> next1 rw r' w = next2 rw r' w) ->
  retry_loop n rm id next1 attempt rw r w = retry_loop n rm id next2 attempt rw r w.
Proof.
  revert attempt rw r w. induction n as [|n IH]; intros attempt rw r w Hsame; [done|]. cbn [retry_loop].
  destruct (await_turn rm id attempt r w) as [[] w1]; [|done]. cbn [negb].
  rewrite (Hsame _ (WithContext (WithAttempt attempt (req_ctx r)) r)) by done.
  destruct (negb _ || _); [done|]. by apply IH.
Qed.

(** Every attempt is routed with the list of excluded backends the request came with: two next handlers
    that agree on requests with that list give the same answer through the retry middleware.  So a
    backend that has just failed is not avoided by the next attempt. *)
Theorem retry_never_excludes {W : Type} `{!Env W} (maxAttempts ms : Z) (next1 next2 : Handler W) rw r (w : W) :
  (forall rw r' w, ctx_excluded (req_ctx r') = ctx_excluded (req_ctx r) -> next1 rw r' w = next2 rw r' w) ->
  NewRetry maxAttempts ms next1 rw r w = NewRetry maxAttempts ms next2 rw r w.
Proof. intros H. unfold NewRetry. by rewrite (retry_loop_excluded _ _ _ next1 next2). Qed.

(** ** Witnesses: a backend that fails once and then answers 200; the world counts the calls and keeps the
    bodies received *)
Definition flaky : Handler (Sim (list bytes)) := fun rw r w =>
  let code := if (length (sim_state w) =? 0)%nat then 502 else 200 in
  mkServed (rw_WriteHeader code (rw_Set "X-Backend-URL" "http://b1" rw)) (req_Header r) []
    (mkSim (sim_now w) (sim_state w ++ [req_Body r]) (sim_backends w)).

Lemma flaky_uses_writer : uses_writer flaky.
Proof.
  intros rw r w. simpl. eapply rtc_l; [apply ws_header|]. apply rtc_once, ws_writeHeader.
  by destruct (length (sim_state w)).
Qed.

Definition flaky_world : Sim (list bytes) := mkSim 0 [] (fun _ => None).

Lemma retry_commits_last_witness :
  let sv := NewRetry 3 10 (observe flaky) (ServerWriter false ∅ None []) (sim_request "POST" "/x" Background) ([], flaky_world) in
  (fun a => a.1.1) <$> (sv_world sv).1 = [502; 200] /\ (client_view (sv_w sv)).1.1 = 200.
Proof.
  destruct (retry_commits_last 3 10 flaky false ∅ (sim_request "POST" "/x" Background) flaky_world flaky_uses_writer)
    as (_ & _ & [(failed & a & Hlog & _ & _ & Hview & _)|(_ & _ & Hd & _)]).
  - cbv zeta. split; [reflexivity|]. rewrite Hview.
    assert ((fun a => a.1.1) <$> (failed ++ [a]) = [502] ++ [200]) as Hlog2 by (rewrite <- Hlog; reflexivity).
    rewrite fmap_app in Hlog2. destruct a as [[c hd] b]. exact (proj2 (app_inj_tail _ _ _ _ Hlog2)).
  - exfalso. apply Hd. reflexivity.
Defined.

Lemma retry_never_excludes_witness :
  sv_w (NewRetry 3 10 flaky (ServerWriter false ∅ None []) (sim_request "POST" "/x" Background) flaky_world) =
  sv_w (NewRetry 3 10 (fun rw r w => if decide (ctx_excluded (req_ctx r) = None) then flaky rw r w
                                     else mkServed (rw_WriteHeader 503 rw) ∅ [] w)
          (ServerWriter false ∅ None []) (sim_request "POST" "/x" Background) flaky_world).
Proof.
  refine (f_equal sv_w (retry_never_excludes 3 10 flaky _ _ _ _ _)). intros rw r' w Hex. by rewrite decide_True by exact Hex.
Defined.

(** Two attempts were made, and the response says one; the body of the request was read by the first. *)
Example retry_x_attempts_is_one :
  let sv := NewRetry 3 10 flaky (ServerWriter false ∅ None []) (WithBody (to_bytes "data") (sim_request "POST" "/x" Background))
              flaky_world in
  Header_Get (client_view (sv_w sv)).1.2 "X-Attempts" = "1"%string /\
  sim_state (sv_world sv) = [to_bytes "data"; []].
Proof. split; reflexivity. Qed.
