(* ===== verification/CircuitBreaker.v ===== *)
(** * middleware/circuitbreaker.go: reporting results to the breakers

    The middleware looks at the response of the next handler: the backend it names and its status go to
    the service registry.  In front of the proxy this means that only answers of backends are reported;
    an attempt on which the backend gave no answer is not. *)
From S2P Require Import Prelude GoFloat GoSort GoStrings GoHttp Breaker Collector Balancer Canary Selector Env Priority Proxy.
Open Scope Z_scope.

(** The interface of middleware.go, on a world; [None] is a nil registry. *)
Definition ServiceRegistry (W : Type) : Type := option (string -> bool -> W -> W).

Definition cb_statusCode (rw : ResponseWriter) : Z := match rw with CbRecorder _ c _ => c | _ => 200 end.
Definition cb_inner (rw : ResponseWriter) : ResponseWriter := match rw with CbRecorder inner _ _ => inner | _ => rw end.

Definition NewCircuitBreaker {W : Type} (registry : ServiceRegistry W) : Middleware W := fun next rw r w =>
  let sv := next (CbRecorder rw 200 false) r w in
  let recorder := sv_w sv in
  let backendURL := Header_Get (rw_Header recorder) "X-Backend-URL" in
  if String.eqb backendURL "" then mkServed (cb_inner recorder) (sv_header sv) (sv_body sv) (sv_world sv)
  else
    let w :=
      match registry with
      | Some record => record backendURL (cb_statusCode recorder <? 500) (sv_world sv)
      | None => sv_world sv
      end in
    mkServed (cb_inner recorder) (sv_header sv) (sv_body sv) w.

Section around_proxy.
Context {A : Type} `{!Algorithm A} `{!GoSort float64 f64_less}.
Context {W : Type} `{!Env W} `{!Client W} (L : Lens W (Proxy A)) `{!Frame L} `{!ClientFrame L}.

(** The router never selects the empty URL. *)
Lemma proxy_select_nonempty pri excluded w target w1 :
  proxy_select L pri excluded w = (Selected target, w1) -> target <> ""%string.
Proof.
  unfold proxy_select. destruct (candidates_in L _ _ _ w) as [[l|] w2]; [|by intros [=]].
  destruct (length l =? 0)%nat; [by intros [=]|]. destruct (algo_Select _ _ _ _) as [a chosen].
  destruct (bool_decide_reflect (chosen = ""%string)) as [|Hne]; [by intros [=]|]. destruct (env_Now _) as [now w3].
  destruct (px_breakers _ !! chosen) as [b|]; [|by intros [=]].
  destruct (Breaker_CanSend now b) as [b' []]; simpl; [|by intros [=]]. by intros [= <- _].
Qed.

Lemma write_response_cb rw c resp name target attempt :
  cb_statusCode (write_response (CbRecorder rw c false) resp name target attempt) = resp_StatusCode resp.
Proof.
  unfold write_response, rw_Set. cbn [rw_SetHeaders rw_Header rw_WriteHeader].
  destruct (length (resp_Body resp) =? 0)%nat; [done|]. cbn [rw_Write].
  by destruct (rw_Write (resp_Body resp) _).
Qed.

Lemma backend_url_cb rw c b : backend_url (CbRecorder rw c b) = backend_url rw.
Proof. done. Qed.

(** The world after the middleware, from the proxy's answer. *)
Lemma NewCircuitBreaker_world record next rw r (w : W) :
  let sv := next (CbRecorder rw 200 false) r w in
  sv_world (NewCircuitBreaker (Some record) next rw r w) =
  if String.eqb (backend_url (sv_w sv)) "" then sv_world sv
  else record (backend_url (sv_w sv)) (cb_statusCode (sv_w sv) <? 500) (sv_world sv).
Proof. unfold NewCircuitBreaker, backend_url. cbv zeta. by destruct (String.eqb _ ""). Qed.

Lemma breaker_hears record rw r (w : W) :
  backend_url rw = ""%string ->
  let before := sv_world (proxy_ServeHTTP L (CbRecorder rw 200 false) r w) in
  sv_world (NewCircuitBreaker (Some record) (proxy_ServeHTTP L) rw r w) =
  match select_of L r w with
  | (Selected target, w1) =>
      match backend_answer L r target w1 with
      | Some (Ok resp) => record target (resp_StatusCode resp <? 500) before
      | _ => before
      end
  | _ => before
  end.
Proof.
  intros Hrw before. rewrite NewCircuitBreaker_world. fold before. unfold proxy_ServeHTTP. fold (select_of L r w).
  destruct (select_of L r w) as [sel w1] eqn:Esel.
  destruct sel as [target| | | |]; [|cbn [sv_w]; by rewrite http_Error_backend, backend_url_cb, Hrw..].
  rewrite proxyToBackend_writer by done.
  destruct (backend_answer L r target w1) as [[resp|err]|]; [|by rewrite http_Error_backend, backend_url_cb, Hrw..].
  rewrite write_response_backend, write_response_cb. destruct (String.eqb_spec target "") as [->|]; [|done].
  exfalso. by eapply proxy_select_nonempty.
Qed.
End around_proxy.

(** C30. In front of the proxy, the circuit breaker middleware reports to the registry exactly the answers of
    backends: once when the selected backend answers, as a failure exactly when the status is a 5xx, and
    not at all when there is no answer (no backend selected, no request built, connections refused,
    timeouts): then the world is the one the proxy left. *)
Theorem breaker_hears_only_answers {A : Type} `{!Algorithm A} `{!GoSort float64 f64_less} {W : Type} `{!Env W} `{!Client W}
    (L : Lens W (Proxy A)) `{!Frame L} `{!ClientFrame L} (record : string -> bool -> W -> W) rw r (w : W) :
  backend_url rw = ""%string ->
  let before := sv_world (proxy_ServeHTTP L (CbRecorder rw 200 false) r w) in
  sv_world (NewCircuitBreaker (Some record) (proxy_ServeHTTP L) rw r w) =
  match select_of L r w with
  | (Selected target, w1) =>
      match backend_answer L r target w1 with
      | Some (Ok resp) => record target (resp_StatusCode resp <? 500) before
      | _ => before
      end
  | _ => before
  end.
Proof. apply breaker_hears; assumption. Qed.

Definition count_record (url : string) (ok : bool) (w : Sim (Proxy RoundRobin)) : Sim (Proxy RoundRobin) :=
  modify (sim_lens (Proxy RoundRobin)) (fun p => mkProxy (px_router p) (px_metrics p) ∅ (px_maxRetries p) (px_perAttemptTimeout p)) w.

(** A run on a dead backend leaves the breaker as it was; the answer of a live one is reported. *)
Lemma breaker_hears_only_answers_witness :
  let run answer := NewCircuitBreaker (Some count_record) (proxy_ServeHTTP (sim_lens (Proxy RoundRobin)))
    (ServerWriter false ∅ None []) (sim_request "GET" "/x" Background) (sim_world answer) in
  let alone answer := proxy_ServeHTTP (sim_lens (Proxy RoundRobin)) (CbRecorder (ServerWriter false ∅ None []) 200 false)
    (sim_request "GET" "/x" Background) (sim_world answer) in
  sv_world (run None) = sv_world (alone None) /\
  sv_world (run (Some (mkResponse 503 ∅ []))) = count_record "http://b1" false (sv_world (alone (Some (mkResponse 503 ∅ [])))).
Proof.
  assert (backend_url (ServerWriter false ∅ None []) = ""%string) as Hb by reflexivity. split.
  - rewrite (breaker_hears_only_answers (sim_lens (Proxy RoundRobin)) count_record (ServerWriter false ∅ None [])
      (sim_request "GET" "/x" Background) (sim_world None) Hb). reflexivity.
  - rewrite (breaker_hears_only_answers (sim_lens (Proxy RoundRobin)) count_record (ServerWriter false ∅ None [])
      (sim_request "GET" "/x" Background) (sim_world (Some (mkResponse 503 ∅ []))) Hb). reflexivity.
Defined.
