(* ===== verification/RateLimit.v ===== *)
(** * middleware/ratelimit.go: per-client rate limiting

    The token bucket is golang.org/x/time/rate, outside the repository: [RateLib] is its interface.  The
    file proves that every client has a limiter to itself: its decisions are those of one limiter fed
    with its own requests, whatever the other clients do. *)
From S2P Require Import Prelude GoFloat GoStrings NetIP GoHttp Env.
Open Scope Z_scope.

Class RateLib (Lim : Type) : Type := {
  rate_NewLimiter : float64 -> Z -> Lim;
  rate_Allow : Z -> Lim -> Lim * bool;      (* limiter.Allow() at an instant *)
}.

Fixpoint until_comma (l : bytes) : bytes :=
  match l with
  | [] => []
  | c :: l => if byte c =? 44 then [] else c :: until_comma l
  end.

Definition extractIP (r : Request) : string :=
  let ip := Header_Get (req_Header r) "X-Real-IP" in
  if negb (String.eqb ip "") then ip
  else
    let xff := Header_Get (req_Header r) "X-Forwarded-For" in
    if negb (String.eqb xff "") then of_bytes (until_comma (to_bytes xff))
    else
      match SplitHostPort (req_RemoteAddr r) with
      | Some (ip, _) => ip
      | None => req_RemoteAddr r
      end.

Section ratelimit.
Context {Lim : Type} `{!RateLib Lim}.

Record ipLimiter : Type := mkIpLimiter { il_limiter : Lim; il_lastSeen : Z }.

Record PerIPRateLimiter : Type := mkRateLimiter {
  rl_limiters : gmap string ipLimiter;
  rl_rps : float64;
  rl_burst : Z;
}.

Definition NewPerIPRateLimiter (rps : float64) (burst : Z) : PerIPRateLimiter := mkRateLimiter ∅ rps burst.

(** The entry of an address, made if it is not there, with its last access set. *)
Definition getLimiter (now : Z) (ip : string) (rl : PerIPRateLimiter) : PerIPRateLimiter * Lim :=
  match rl_limiters rl !! ip with
  | Some entry =>
      (mkRateLimiter (<[ip := mkIpLimiter (il_limiter entry) now]> (rl_limiters rl)) (rl_rps rl) (rl_burst rl),
       il_limiter entry)
  | None =>
      let limiter := rate_NewLimiter (rl_rps rl) (rl_burst rl) in
      (mkRateLimiter (<[ip := mkIpLimiter limiter now]> (rl_limiters rl)) (rl_rps rl) (rl_burst rl), limiter)
  end.

(** [limiter.Allow()] through the pointer the map holds. *)
Definition allow_ip (now : Z) (ip : string) (limiter : Lim) (rl : PerIPRateLimiter) : PerIPRateLimiter * bool :=
  let '(limiter, ok) := rate_Allow now limiter in
  (mkRateLimiter (alter (fun e => mkIpLimiter limiter (il_lastSeen e)) ip (rl_limiters rl)) (rl_rps rl) (rl_burst rl), ok).

(** One tick of [cleanup]. *)
Definition cleanup_tick (now : Z) (rl : PerIPRateLimiter) : PerIPRateLimiter :=
  mkRateLimiter
    (filter (fun e => (5 * Minute <? time_Since now (il_lastSeen e.2)) = false) (rl_limiters rl)) (rl_rps rl) (rl_burst rl).

Definition rateLimit {W : Type} `{!Env W} (L : Lens W PerIPRateLimiter) : Middleware W := fun next rw r w =>
  let ip := extractIP r in
  let '(now, w) := env_Now w in
  let '(rl, limiter) := getLimiter now ip (lget L w) in
  let w := lput L rl w in
  let '(now, w) := env_Now w in
  let '(rl, ok) := allow_ip now ip limiter (lget L w) in
  let w := lput L rl w in
  if negb ok then
    mkServed (http_Error "Too Many Requests" 429 (rw_Set "Retry-After" "1" rw)) (req_Header r) (req_Body r) w
  else next rw r w.

(** ** Events on a limiter: requests of an address, and cleanup ticks *)
Inductive LimitEvent : Type :=
| EvRequest (ip : string) (seen allowed : Z)   (* the clock at getLimiter and at Allow *)
| EvCleanup (now : Z).

Definition limit_step (e : LimitEvent) (rl : PerIPRateLimiter) : PerIPRateLimiter * option (string * bool) :=
  match e with
  | EvRequest ip t1 t2 =>
      let '(rl, limiter) := getLimiter t1 ip rl in
      let '(rl, ok) := allow_ip t2 ip limiter rl in (rl, Some (ip, ok))
  | EvCleanup t => (cleanup_tick t rl, None)
  end.

(** The decisions on the requests of one address, in order. *)
Fixpoint decisions (ip : string) (es : list LimitEvent) (rl : PerIPRateLimiter) : list bool :=
  match es with
  | [] => []
  | e :: es =>
      let '(rl, out) := limit_step e rl in
      match out with
      | Some (ip', ok) => if String.eqb ip' ip then ok :: decisions ip es rl else decisions ip es rl
      | None => decisions ip es rl
      end
  end.

(** A limiter for one address alone: nothing, or a bucket and its last access. *)
Fixpoint dedicated (rps : float64) (burst : Z) (ip : string) (es : list LimitEvent) (st : option ipLimiter) : list bool :=
  match es with
  | [] => []
  | EvRequest ip' t1 t2 :: es =>
      if String.eqb ip' ip then
        let limiter := match st with Some e => il_limiter e | None => rate_NewLimiter rps burst end in
        let '(limiter, ok) := rate_Allow t2 limiter in
        ok :: dedicated rps burst ip es (Some (mkIpLimiter limiter t1))
      else dedicated rps burst ip es st
  | EvCleanup t :: es =>
      dedicated rps burst ip es
        (e ← st; if 5 * Minute <? time_Since t (il_lastSeen e) then None else Some e)
  end.

Lemma decisions_dedicated ip es rl :
  decisions ip es rl = dedicated (rl_rps rl) (rl_burst rl) ip es (rl_limiters rl !! ip).
Proof.
  revert rl. induction es as [|[ip' t1 t2|t] es IH]; intros rl; [done|..]; cbn [decisions limit_step dedicated].
  - unfold getLimiter. destruct (String.eqb_spec ip' ip) as [->|Hne].
    + destruct (rl_limiters rl !! ip) as [entry|] eqn:E; unfold allow_ip; cbn [rl_limiters rl_rps rl_burst];
        destruct (rate_Allow t2 _) as [lim ok]; rewrite String.eqb_refl; f_equal; rewrite IH; cbn [rl_limiters rl_rps rl_burst];
        by rewrite lookup_alter_eq, lookup_insert_eq.
    + destruct (rl_limiters rl !! ip') as [entry|] eqn:E; unfold allow_ip; cbn [rl_limiters rl_rps rl_burst];
        destruct (rate_Allow t2 _) as [lim ok]; destruct (String.eqb_spec ip' ip); try done;
        rewrite IH; cbn [rl_limiters rl_rps rl_burst]; by rewrite lookup_alter_ne, lookup_insert_ne.
  - rewrite IH. unfold cleanup_tick; cbn [rl_limiters rl_rps rl_burst]. f_equal.
    destruct (rl_limiters rl !! ip) as [e|] eqn:E; simpl.
    + destruct (5 * Minute <? _) eqn:Et.
      * apply map_lookup_filter_None. right. intros e' He'. simpl. simplify_eq. by rewrite Et.
      * by apply map_lookup_filter_Some.
    + apply map_lookup_filter_None. by left.
Qed.

(** The middleware is a request event, and the next handler or a 429. *)
Lemma rateLimit_step {W : Type} `{!Env W} (L : Lens W PerIPRateLimiter) `{!Frame L} next rw r w :
  exists t1 t2 w',
    let '(rl, out) := limit_step (EvRequest (extractIP r) t1 t2) (lget L w) in
    lget L w' = rl /\
    exists ok, out = Some (extractIP r, ok) /\
      rateLimit L next rw r w =
        if ok then next rw r w'
        else mkServed (http_Error "Too Many Requests" 429 (rw_Set "Retry-After" "1" rw)) (req_Header r) (req_Body r) w'.
Proof.
  unfold rateLimit, limit_step. pose proof (frame_Now (L := L) w) as H1. destruct (env_Now w) as [t1 w1]; simpl in H1.
  rewrite H1. destruct (getLimiter t1 (extractIP r) (lget L w)) as [rl lim] eqn:Eg.
  pose proof (frame_Now (L := L) (lput L rl w1)) as H2. destruct (env_Now (lput L rl w1)) as [t2 w2]; simpl in H2.
  rewrite H2, lget_put. exists t1, t2. rewrite Eg. destruct (allow_ip t2 (extractIP r) lim rl) as [rl' ok].
  exists (lput L rl' w2). split; [apply lget_put|]. exists ok. split; [done|]. by destruct ok.
Qed.
End ratelimit.
Arguments PerIPRateLimiter Lim : clear implicits.

(** C31. Clients do not share a budget: over any history of requests from any addresses and of cleanup ticks,
    the decisions on one address's requests are those of a limiter that sees its requests only (and is
    forgotten by a cleanup after five minutes without one). *)
Theorem rate_limit_isolated {Lim : Type} `{!RateLib Lim} (rps : float64) (burst : Z) (ip : string) (es : list LimitEvent) :
  decisions ip es (NewPerIPRateLimiter rps burst) =
  dedicated rps burst ip (List.filter (fun e => match e with EvRequest ip' _ _ => String.eqb ip' ip | EvCleanup _ => true end) es) None.
Proof.
  rewrite decisions_dedicated. cbn [NewPerIPRateLimiter rl_rps rl_burst rl_limiters]. rewrite lookup_empty.
  generalize (@None (@ipLimiter Lim)). induction es as [|[ip' t1 t2|t] es IH]; intros st; [done|..]; simpl.
  - destruct (String.eqb ip' ip) eqn:E; [|done]. simpl. rewrite E. destruct (rate_Allow t2 _). by rewrite IH.
  - apply IH.
Qed.
