(* ===== verification/AccessLog.v ===== *)
(** * middleware/accesslog.go: one line per request

    The middleware wraps the writer in a recorder, runs the next handler, and appends an entry.  The log
    file is a component of the world when it could be opened.  An entry holds the instant and the latency
    as numbers; their formatting and the JSON encoding are left out. *)
From S2P Require Import Prelude GoFloat GoStrings NetIP GoHttp Env Proxy RateLimit.
Open Scope Z_scope.

Record accessLogEntry : Type := mkEntry {
  ae_Timestamp : Z;
  ae_RequestID : string;
  ae_ClientIP : string;
  ae_Method : string;
  ae_Path : string;
  ae_Priority : string;
  ae_BackendName : string;
  ae_BackendURL : string;
  ae_StatusCode : Z;
  ae_LatencyMs : float64;
  ae_Attempts : Z;
  ae_BytesSent : Z;
}.

Fixpoint scan_digits (l : bytes) (acc : Z) (seen : bool) : option Z :=
  match l with
  | c :: l' => if is_digit c then scan_digits l' (acc * 10 + (byte c - 48)) true else if seen then Some acc else None
  | [] => if seen then Some acc else None
  end.

(** [fmt.Sscanf(s, "%d", &n)]: white space, a sign, digits; an error when there is none or on overflow. *)
Definition Sscanf_d (s : string) : option Z :=
  let l := trim_left (to_bytes s) in
  let '(neg, l) :=
    match l with
    | c :: l' => if byte c =? 45 then (true, l') else if byte c =? 43 then (false, l') else (false, l)
    | [] => (false, l)
    end in
  n ← scan_digits l 0 false;
  let n := if neg then - n else n in
  if (minInt64 <=? n) && (n <=? maxInt64) then Some n else None.

Definition microseconds (d : Z) : Z := Z.quot d 1000.

Definition sr_statusCode (rw : ResponseWriter) : Z := match rw with StatusRecorder _ c _ _ => c | _ => 200 end.
Definition sr_bytes (rw : ResponseWriter) : Z := match rw with StatusRecorder _ _ n _ => n | _ => 0 end.
Definition sr_inner (rw : ResponseWriter) : ResponseWriter := match rw with StatusRecorder inner _ _ _ => inner | _ => rw end.

Section accesslog.
Context {W : Type} `{!Env W}.

(** The entry for a request whose handling took from [start] to [finish]; [r] is the request the
    middleware was given, whose header map the handlers may have changed. *)
Definition log_entry (start finish stamp : Z) (r : Request) (recorder : ResponseWriter) : accessLogEntry :=
  let h := rw_Header recorder in
  let attemptsStr := Header_Get h "X-Attempts" in
  let attempts := if negb (String.eqb attemptsStr "") then default 0 (Sscanf_d attemptsStr) else 0 in
  mkEntry stamp (RequestIDFromContext (req_ctx r)) (extractIP r) (req_Method r) (req_Path r)
    (Header_Get (req_Header r) "X-Priority") (Header_Get h "X-Handled-By") (Header_Get h "X-Backend-URL")
    (sr_statusCode recorder)
    (f64_div (f64_of_Z (microseconds (time_Sub finish start))) (f64_of_Z 1000)) attempts (sr_bytes recorder).

(** [logger]: the file, [None] when it could not be opened. *)
Definition NewAccessLog (logger : option (Lens W (list accessLogEntry))) : Middleware W := fun next rw r w =>
  let '(start, w) := env_Now w in
  let sv := next (StatusRecorder rw 200 0 false) r w in
  let recorder := sv_w sv in
  let '(finish, w) := env_Now (sv_world sv) in
  let '(stamp, w) := env_Now w in
  let entry := log_entry start finish stamp (WithHeader (sv_header sv) r) recorder in
  let w := match logger with Some L => modify L (fun l => l ++ [entry]) w | None => w end in
  mkServed (sr_inner recorder) (sv_header sv) (sv_body sv) w.
End accesslog.

(** ** The recorder agrees with the connection *)
(** What the recorder over the server's writer knows: the status once something was sent, and the bytes it
    was told were written; nothing of them is sent in answer to a HEAD. *)
Definition recorder_ok (head : bool) (rw : ResponseWriter) : Prop :=
  exists h sent body c n wr, rw = StatusRecorder (ServerWriter head h sent body) c n wr /\
    (if head then body = [] else n = wrap64 (Z.of_nat (length body))) /\
    match sent with
    | Some (c', _) => wr = true /\ c' = c
    | None => wr = false /\ c = 200 /\ n = 0 /\ body = []
    end.

Lemma recorder_bytes (head : bool) n (body data : bytes) :
  (if head then body = [] else n = wrap64 (Z.of_nat (length body))) ->
  if head then body ++ body_sent head data = []
  else wrap64 (n + Z.of_nat (length data)) = wrap64 (Z.of_nat (length (body ++ body_sent head data))).
Proof.
  destruct head; cbn [body_sent]; [by intros ->|]. intros ->. rewrite wrap64_add_l, length_app. f_equal. lia.
Qed.

Lemma recorder_ok_step (head : bool) rw rw' : writer_step rw rw' -> recorder_ok head rw -> recorder_ok head rw'.
Proof.
  intros Hs (h & sent & body & c & n & wr & -> & Hn & Hst). destruct Hs as [h'|code Hcode|data].
  - by exists h', sent, body, c, n, wr.
  - cbn [rw_WriteHeader]. destruct sent as [[c' h0]|].
    + destruct Hst as [-> ->]. by exists h, (Some (c, h0)), body, c, n, true.
    + destruct Hst as (-> & -> & -> & ->). rewrite Hcode. by exists h, (Some (code, h)), [], code, 0, true.
  - pose proof (recorder_bytes head n body data Hn) as Hb. cbn [rw_Write]. destruct sent as [[c' h0]|].
    + destruct Hst as [-> ->]. destruct (bodyAllowedForStatus c); cbn [fst].
      * by exists h, (Some (c, h0)), (body ++ body_sent head data), c, (wrap64 (n + Z.of_nat (length data))), true.
      * exists h, (Some (c, h0)), body, c, (wrap64 (n + 0)), true. split_and!; try done.
        destruct head; [done|]. rewrite Hn, wrap64_add_l. f_equal. lia.
    + destruct Hst as (-> & -> & -> & ->). cbn [fst].
      by exists h, (Some (200, h)), ([] ++ body_sent head data), 200, (wrap64 (0 + Z.of_nat (length data))), true.
Qed.

Lemma recorder_ok_uses_writer {W : Type} (next : Handler W) head h r w :
  uses_writer next -> recorder_ok head (sv_w (next (StatusRecorder (ServerWriter head h None []) 200 0 false) r w)).
Proof.
  intros H. specialize (H (StatusRecorder (ServerWriter head h None []) 200 0 false) r w). revert H.
  generalize (sv_w (next (StatusRecorder (ServerWriter head h None []) 200 0 false) r w)). intros rw' H.
  assert (recorder_ok head (StatusRecorder (ServerWriter head h None []) 200 0 false)) as H0
    by (exists h, None, [], 200, 0, false; by destruct head).
  induction H; eauto using recorder_ok_step.
Qed.

(** One entry for the request, after what the handler behind did to the log, and in agreement with what
    the client received: the status, and the length of the body (as a 64-bit integer).  A HEAD is answered
    without a body, whatever is counted for it. *)
Definition logs_once {W : Type} `{!Env W} (L : Lens W (list accessLogEntry)) (next : Handler W) (h : Header)
    (r : Request) (w : W) : Prop :=
  let sv := NewAccessLog (Some L) next (connection r h) r w in
  let behind := next (StatusRecorder (connection r h) 200 0 false) r (env_Now w).2 in
  exists entry,
    lget L (sv_world sv) = lget L (sv_world behind) ++ [entry] /\
    ae_StatusCode entry = (client_view (sv_w sv)).1.1 /\
    (if String.eqb (req_Method r) "HEAD" then (client_view (sv_w sv)).2 = []
     else ae_BytesSent entry = wrap64 (Z.of_nat (length (client_view (sv_w sv)).2))) /\
    ae_Method entry = req_Method r /\ ae_Path entry = req_Path r.

(** For every handler behind it, the access log gets exactly one entry per request, after the handler is
    done. *)
Lemma NewAccessLog_entry {W : Type} `{!Env W} (L : Lens W (list accessLogEntry)) `{!Frame L} (next : Handler W) h r (w : W) :
  uses_writer next -> logs_once L next h r w.
Proof.
  intros Hnext. unfold logs_once, NewAccessLog, connection. set (head := String.eqb (req_Method r) "HEAD").
  destruct (env_Now w) as [start w0]; cbn [snd].
  pose proof (recorder_ok_uses_writer next head h r w0 Hnext) as (h' & sent & body & c & n & wr & Hrw & Hn & Hst).
  set (s := next (StatusRecorder (ServerWriter head h None []) 200 0 false) r w0) in *.
  pose proof (frame_Now (L := L) (sv_world s)) as H1. destruct (env_Now (sv_world s)) as [finish w1]; simpl in H1.
  pose proof (frame_Now (L := L) w1) as H2. destruct (env_Now w1) as [stamp w2]; simpl in H2.
  cbn [sv_world sv_w]. rewrite lget_modify. eexists. split; [by rewrite H2, H1|].
  unfold log_entry; cbn [ae_StatusCode ae_BytesSent ae_Method ae_Path].
  rewrite Hrw. cbn [sr_statusCode sr_bytes sr_inner client_view].
  destruct sent as [[c' h0]|]; cbn [fst snd].
  - by destruct Hst as [_ ->].
  - by destruct Hst as (_ & -> & -> & ->).
Qed.
