(* ===== verification/Builder.v ===== *)
(** * middleware/middleware.go: the builder of configured middlewares

    [Build] answers from its cache, else from the named configuration, else from the legacy names.  What
    it builds is represented by the constructor call it makes ([Built]); a rate limiter gets a number of
    its own, since its state lives as long as the middleware.  Decoding a middleware's JSON into the
    struct of its type is the interface [JSONDecoder]; an absent configuration is empty input, on which
    json.Unmarshal fails.  A null entry of the map of middlewares is a nil pointer, which
    [buildFromConfig] dereferences: [NilMiddleware] marks that panic, and [build_panics] finds it. *)
From S2P Require Import Prelude GoFloat GoStrings GoHttp Env Config Middlewares Retry.
Open Scope Z_scope.

Record rateLimitConfig : Type := mkRateLimitConfig { rlc_RequestsPerSecond : float64; rlc_Burst : Z }.
Record basicAuthConfig : Type := mkBasicAuthConfig { bac_Username : string; bac_Password : string }.
Record retryConfig : Type := mkRetryConfig { rtc_Attempts : Z; rtc_InitialIntervalMs : Z }.
Record accessLogConfig : Type := mkAccessLogConfig { alc_FilePath : string }.
Record timeoutMwConfig : Type := mkTimeoutMwConfig { tmc_HighSec : Z; tmc_MediumSec : Z; tmc_LowSec : Z }.
Record circuitBreakerConfig : Type := mkCircuitBreakerConfig { cbc_Threshold : Z; cbc_RecoveryTimeoutSec : Z }.
Record corsConfigJSON : Type := mkCorsConfigJSON {
  ccj_AllowedOrigins : list string; ccj_AllowedMethods : list string; ccj_AllowedHeaders : list string }.

Class JSONDecoder : Type := {
  json_rateLimit : string -> option rateLimitConfig;
  json_basicAuth : string -> option basicAuthConfig;
  json_retry : string -> option retryConfig;
  json_accessLog : string -> option accessLogConfig;
  json_timeout : string -> option timeoutMwConfig;
  json_circuitBreaker : string -> option circuitBreakerConfig;
  json_cors : string -> option corsConfigJSON;
}.

(** The middleware an answer of the builder stands for. *)
Inductive Built : Type :=
| BuiltRateLimit (id : nat) (rps : float64) (burst : Z)
| BuiltBasicAuth (username password : string)
| BuiltRetry (attempts initialIntervalMs : Z)
| BuiltAccessLog (filePath : string)
| BuiltHeaders
| BuiltTimeout (highSec mediumSec lowSec : Z)
| BuiltCircuitBreaker
| BuiltCORS (cfg : Middlewares.CORSConfig).

Inductive BuildError : Type :=
| ParsingConfig (type name : string)
| UnknownType (type name : string)
| UnknownLegacy (name : string)
| NilMiddleware (name : string)   (* not an error: the nil dereference on a null entry *)
| BuildingMiddleware (name : string) (e : BuildError).

(** The answer is not an error that is returned: the program panicked. *)
Fixpoint build_panics (e : BuildError) : bool :=
  match e with
  | NilMiddleware _ => true
  | BuildingMiddleware _ e => build_panics e
  | _ => false
  end.

(** The cache, and the number of rate limiters made so far. *)
Record Builder : Type := mkBuilder {
  bd_cfg : Config;
  bd_cache : gmap string Built;
  bd_limiters : nat;
}.

Definition NewBuilder (cfg : Config) : Builder := mkBuilder cfg ∅ 0.

Definition or_else (l d : list string) : list string := if (0 <? length l)%nat then l else d.

(** [DefaultCORSConfig] with the lists that are given. *)
Definition cors_over (origins methods headers : list string) : Middlewares.CORSConfig :=
  mkCORSConfig (or_else origins (AllowedOrigins DefaultCORSConfig)) (or_else methods (AllowedMethods DefaultCORSConfig))
    (or_else headers (AllowedHeaders DefaultCORSConfig)) (MaxAge DefaultCORSConfig).

Section builder.
Context {decoder : JSONDecoder}.

(** [json.Unmarshal(mwCfg.Config, &cfg)], with the error of the type. *)
Definition unmarshal {A : Type} (decode : string -> option A) (type name : string) (raw : option string) : result BuildError A :=
  match raw ≫= decode with
  | Some a => Ok a
  | None => Err (ParsingConfig type name)
  end.

Definition buildFromConfig (name : string) (mw : option MiddlewareConfig) (b : Builder)
    : result BuildError (Built * Builder) :=
  let cfg := bd_cfg b in
  let? mw := match mw with Some mw => Ok mw | None => Err (NilMiddleware name) end in
  let raw := mc_Config mw in
  let type := mc_Type mw in
  if String.eqb type "rateLimit" then
    let? c := unmarshal json_rateLimit type name raw in
    let rps := dflt_f (rlc_RequestsPerSecond c) (cfg_RateLimitRPS cfg) in
    let burst := dflt (rlc_Burst c) (cfg_RateLimitBurst cfg) in
    Ok (BuiltRateLimit (bd_limiters b) rps burst, mkBuilder cfg (bd_cache b) (S (bd_limiters b)))
  else if String.eqb type "basicAuth" then
    let? c := unmarshal json_basicAuth type name raw in
    Ok (BuiltBasicAuth (bac_Username c) (bac_Password c), b)
  else if String.eqb type "retry" then
    let? c := unmarshal json_retry type name raw in
    Ok (BuiltRetry (dflt (rtc_Attempts c) (cfg_MaxRetries cfg))
          (dflt (rtc_InitialIntervalMs c) (cfg_RetryBackoffMs cfg)), b)
  else if String.eqb type "accessLog" then
    let? c := unmarshal json_accessLog type name raw in
    Ok (BuiltAccessLog (dflt_s (alc_FilePath c) (cfg_AccessLogPath cfg)), b)
  else if String.eqb type "headers" then Ok (BuiltHeaders, b)
  else if String.eqb type "timeout" then
    let? c := unmarshal json_timeout type name raw in
    Ok (BuiltTimeout (dflt (tmc_HighSec c) (tm_HighSec (cfg_Timeouts cfg)))
          (dflt (tmc_MediumSec c) (tm_MediumSec (cfg_Timeouts cfg)))
          (dflt (tmc_LowSec c) (tm_LowSec (cfg_Timeouts cfg))), b)
  else if String.eqb type "circuitBreaker" then
    let? c := unmarshal json_circuitBreaker type name raw in
    (* the threshold and the timeout are defaulted and then not used *)
    let _ := mkCircuitBreakerConfig (dflt (cbc_Threshold c) (cfg_BreakerThreshold cfg))
               (dflt (cbc_RecoveryTimeoutSec c) (cfg_BreakerTimeoutSec cfg)) in
    Ok (BuiltCircuitBreaker, b)
  else if String.eqb type "cors" then
    let? c := unmarshal json_cors type name raw in
    Ok (BuiltCORS (cors_over (ccj_AllowedOrigins c) (ccj_AllowedMethods c) (ccj_AllowedHeaders c)), b)
  else Err (UnknownType type name).

Definition buildLegacy (name : string) (b : Builder) : result BuildError (Built * Builder) :=
  let cfg := bd_cfg b in
  if String.eqb name "rate-limit" then
    Ok (BuiltRateLimit (bd_limiters b) (cfg_RateLimitRPS cfg) (cfg_RateLimitBurst cfg),
        mkBuilder cfg (bd_cache b) (S (bd_limiters b)))
  else if String.eqb name "headers" then Ok (BuiltHeaders, b)
  else if String.eqb name "cors" then
    Ok (BuiltCORS (cors_over (co_AllowedOrigins (cfg_CORS cfg)) (co_AllowedMethods (cfg_CORS cfg))
          (co_AllowedHeaders (cfg_CORS cfg))), b)
  else if String.eqb name "basic-auth" then
    Ok (BuiltBasicAuth (da_Username (cfg_DashboardAuth cfg)) (da_Password (cfg_DashboardAuth cfg)), b)
  else if String.eqb name "access-log" then Ok (BuiltAccessLog (cfg_AccessLogPath cfg), b)
  else if String.eqb name "retry" then Ok (BuiltRetry (cfg_MaxRetries cfg) (cfg_RetryBackoffMs cfg), b)
  else if String.eqb name "timeout" then
    Ok (BuiltTimeout (tm_HighSec (cfg_Timeouts cfg)) (tm_MediumSec (cfg_Timeouts cfg)) (tm_LowSec (cfg_Timeouts cfg)), b)
  else Err (UnknownLegacy name).

Definition Build (name : string) (b : Builder) : result BuildError (Built * Builder) :=
  match bd_cache b !! name with
  | Some mw => Ok (mw, b)
  | None =>
      let? (mw, b) :=
        match cfg_Middlewares (bd_cfg b) !! name with
        | Some mwCfg => buildFromConfig name mwCfg b
        | None => buildLegacy name b
        end in
      Ok (mw, mkBuilder (bd_cfg b) (<[name := mw]> (bd_cache b)) (bd_limiters b))
  end.

(** [BuildChain], and [ResolveMiddlewares] of entrypoint.go, which is the same loop. *)
Fixpoint BuildChain (names : list string) (b : Builder) : result BuildError (list Built * Builder) :=
  match names with
  | [] => Ok ([], b)
  | name :: names =>
      match Build name b with
      | Err e => Err (BuildingMiddleware name e)
      | Ok (mw, b) =>
          let? (mws, b) := BuildChain names b in
          Ok (mw :: mws, b)
      end
  end.
Definition ResolveMiddlewares := BuildChain.
End builder.

(** ** Instances and names *)
Section lemmas.
Context {decoder : JSONDecoder}.

(** A construction leaves the cache alone and numbers a rate limiter freshly. *)
Definition fresh_built (b : Builder) (mw : Built) (b' : Builder) : Prop :=
  bd_cache b' = bd_cache b /\ bd_cfg b' = bd_cfg b /\
  ((bd_limiters b' = bd_limiters b /\ forall id r x, mw <> BuiltRateLimit id r x) \/
   (bd_limiters b' = S (bd_limiters b) /\ exists r x, mw = BuiltRateLimit (bd_limiters b) r x)).

Lemma fresh_same b mw : (forall id r x, mw <> BuiltRateLimit id r x) -> fresh_built b mw b.
Proof. intros H. split_and!; [done|done|]. by left. Qed.

Lemma fresh_limiter b r x :
  fresh_built b (BuiltRateLimit (bd_limiters b) r x) (mkBuilder (bd_cfg b) (bd_cache b) (S (bd_limiters b))).
Proof. split_and!; [done|done|]. right. eauto. Qed.

Ltac built :=
  repeat match goal with
  | |- context [if String.eqb ?a ?b then _ else _] => destruct (String.eqb a b)
  | |- context [unmarshal ?d ?t ?n ?r] => destruct (unmarshal d t n r); cbn [result_bind]
  end; intros [=]; subst; first [apply fresh_limiter | by apply fresh_same].

Lemma buildFromConfig_fresh name mw b m b' : buildFromConfig name mw b = Ok (m, b') -> fresh_built b m b'.
Proof. unfold buildFromConfig. destruct mw; [|done]. cbn [result_bind]. built. Qed.

Lemma buildLegacy_fresh name b m b' : buildLegacy name b = Ok (m, b') -> fresh_built b m b'.
Proof. unfold buildLegacy. built. Qed.

(** Every cached rate limiter has its own number, below the counter. *)
Definition cache_inv (b : Builder) : Prop :=
  forall n1 n2 id r1 x1 r2 x2,
    bd_cache b !! n1 = Some (BuiltRateLimit id r1 x1) ->
    (id < bd_limiters b)%nat /\ (bd_cache b !! n2 = Some (BuiltRateLimit id r2 x2) -> n1 = n2).

Lemma Build_spec name b m b' :
  cache_inv b -> Build name b = Ok (m, b') ->
  cache_inv b' /\ bd_cache b ⊆ bd_cache b' /\ bd_cache b' !! name = Some m /\ bd_cfg b' = bd_cfg b.
Proof.
  intros Hinv. unfold Build. destruct (bd_cache b !! name) as [mw|] eqn:Ec; [by intros [= <- <-]|].
  intros H.
  assert (exists b1, fresh_built b m b1 /\ b' = mkBuilder (bd_cfg b1) (<[name:=m]> (bd_cache b1)) (bd_limiters b1))
    as (b1 & (Hcache & Hcfg & Hfresh) & ->).
  { destruct (cfg_Middlewares (bd_cfg b) !! name) as [mwCfg|].
    - destruct (buildFromConfig name mwCfg b) as [[mw b1]|] eqn:E; [|done]. simpl in H. injection H as <- <-.
      exists b1. split; [by eapply buildFromConfig_fresh|done].
    - destruct (buildLegacy name b) as [[mw b1]|] eqn:E; [|done]. simpl in H. injection H as <- <-.
      exists b1. split; [by eapply buildLegacy_fresh|done]. }
  rewrite Hcache. split_and!; cbn [bd_cache bd_cfg bd_limiters]; [|by apply insert_subseteq|apply lookup_insert_eq|done].
  intros n1 n2 id r1 x1 r2 x2; cbn [bd_cache bd_limiters]. rewrite !lookup_insert.
  destruct Hfresh as [[-> Hno]|[-> (r & x & ->)]].
  - case_decide as D1; [intros [= ->]; by destruct (Hno id r1 x1)|]. intros H1.
    destruct (Hinv n1 n2 id r1 x1 r2 x2 H1) as [Hlt Heq]. split; [done|].
    case_decide as D2; [intros [= ->]; by destruct (Hno id r2 x2)|done].
  - case_decide as D1; [intros [= <- <- <-]|intros H1; destruct (Hinv n1 n2 id r1 x1 r2 x2 H1) as [Hlt Heq]].
    + split; [lia|]. case_decide as D2; [congruence|]. intros H2. destruct (Hinv n2 n1 _ r2 x2 r x H2) as [Hlt _]. lia.
    + split; [lia|]. case_decide as D2; [intros [= <- <- <-]; lia|done].
Qed.

Lemma BuildChain_spec names b mws b' :
  cache_inv b -> BuildChain names b = Ok (mws, b') ->
  cache_inv b' /\ bd_cache b ⊆ bd_cache b' /\ Forall2 (fun n m => bd_cache b' !! n = Some m) names mws.
Proof.
  revert b mws b'. induction names as [|name names IH]; intros b mws b' Hinv; cbn [BuildChain].
  - intros [= <- <-]. split_and!; [done|done|constructor].
  - destruct (Build name b) as [[m b1]|e] eqn:E; [|done].
    destruct (Build_spec name b m b1 Hinv E) as (Hinv1 & Hsub1 & Hm & _).
    destruct (BuildChain names b1) as [[ms b2]|e] eqn:E2; [|done]. simpl. intros [= <- <-].
    destruct (IH b1 ms b2 Hinv1 E2) as (Hinv2 & Hsub2 & Hall).
    split_and!; [done|by etrans|]. constructor; [by eapply lookup_weaken|done].
Qed.

(** ** Which names can be built *)
(** Whether a name can be built is a matter of the configuration alone. *)
Definition buildable (cfg : Config) (name : string) : bool := is_Ok (Build name (NewBuilder cfg)).

Ltac both_built :=
  repeat match goal with
  | |- context [if String.eqb ?a ?b then _ else _] => destruct (String.eqb a b)
  | |- context [unmarshal ?d ?t ?n ?r] => destruct (unmarshal d t n r); cbn [result_bind]
  end; done.

Lemma buildFromConfig_indep name mw b b' :
  bd_cfg b = bd_cfg b' -> is_Ok (buildFromConfig name mw b) = is_Ok (buildFromConfig name mw b').
Proof. intros H. unfold buildFromConfig. rewrite H. destruct mw; [|done]. cbn [result_bind]. both_built. Qed.

Lemma buildLegacy_indep name b b' :
  bd_cfg b = bd_cfg b' -> is_Ok (buildLegacy name b) = is_Ok (buildLegacy name b').
Proof. intros H. unfold buildLegacy. rewrite H. both_built. Qed.

Definition cache_buildable (b : Builder) : Prop :=
  forall n, is_Some (bd_cache b !! n) -> buildable (bd_cfg b) n = true.

Lemma Build_indep name b :
  cache_buildable b -> is_Ok (Build name b) = buildable (bd_cfg b) name.
Proof.
  intros Hb. unfold Build. destruct (bd_cache b !! name) as [m|] eqn:E; [symmetry; apply Hb; by rewrite E|].
  unfold buildable, Build. cbn [NewBuilder bd_cache bd_cfg]. rewrite lookup_empty.
  destruct (cfg_Middlewares (bd_cfg b) !! name) as [mw|].
  - pose proof (buildFromConfig_indep name mw b (NewBuilder (bd_cfg b)) eq_refl) as H.
    by destruct (buildFromConfig name mw b) as [[]|], (buildFromConfig name mw (NewBuilder _)) as [[]|].
  - pose proof (buildLegacy_indep name b (NewBuilder (bd_cfg b)) eq_refl) as H.
    by destruct (buildLegacy name b) as [[]|], (buildLegacy name (NewBuilder _)) as [[]|].
Qed.

(** What is kept while a configuration's middlewares are built. *)
Record builder_inv (cfg : Config) (b : Builder) : Prop := {
  bo_inv : cache_inv b;
  bo_cfg : bd_cfg b = cfg;
  bo_buildable : cache_buildable b;
}.

Lemma NewBuilder_ok cfg : builder_inv cfg (NewBuilder cfg).
Proof.
  split; [intros n1 n2 id r1 x1 r2 x2; simpl; by rewrite lookup_empty|done|].
  intros n [m Hm]. simpl in Hm. by rewrite lookup_empty in Hm.
Qed.

Lemma Build_cache name b m b' :
  Build name b = Ok (m, b') -> forall n, is_Some (bd_cache b' !! n) -> n = name \/ is_Some (bd_cache b !! n).
Proof.
  unfold Build. destruct (bd_cache b !! name) as [mw|] eqn:Ec; [intros [= <- <-]; by right|].
  intros H n Hn.
  assert (exists b1, bd_cache b1 = bd_cache b /\ bd_cache b' = <[name:=m]> (bd_cache b1)) as (b1 & E1 & E2).
  { destruct (cfg_Middlewares (bd_cfg b) !! name) as [mwCfg|].
    - destruct (buildFromConfig name mwCfg b) as [[mw b1]|] eqn:E; [|done]. simpl in H. injection H as <- <-.
      exists b1. split; [by eapply buildFromConfig_fresh|done].
    - destruct (buildLegacy name b) as [[mw b1]|] eqn:E; [|done]. simpl in H. injection H as <- <-.
      exists b1. split; [by eapply buildLegacy_fresh|done]. }
  rewrite E2, E1 in Hn. apply lookup_insert_is_Some' in Hn as [->|?]; auto.
Qed.

Lemma Build_keeps_ok cfg name b m b' : builder_inv cfg b -> Build name b = Ok (m, b') -> builder_inv cfg b'.
Proof.
  intros [Hinv <- Hb] H. destruct (Build_spec name b m b' Hinv H) as (Hinv' & _ & _ & Hcfg).
  split; [done|done|]. intros n Hn. rewrite Hcfg.
  destruct (Build_cache name b m b' H n Hn) as [->|Hn']; [|by apply Hb].
  rewrite <- (Build_indep name b Hb). by rewrite H.
Qed.

(** The chain can be built exactly when each of its names can. *)
Lemma BuildChain_ok cfg names b :
  builder_inv cfg b ->
  match BuildChain names b with
  | Ok (_, b') => builder_inv cfg b' /\ Forall (fun n => buildable cfg n = true) names
  | Err _ => Exists (fun n => buildable cfg n = false) names
  end.
Proof.
  revert b. induction names as [|name names IH]; intros b Hb; cbn [BuildChain]; [by split|].
  pose proof (Build_indep name b (bo_buildable _ _ Hb)) as Hi. rewrite (bo_cfg _ _ Hb) in Hi.
  destruct (Build name b) as [[m b1]|e] eqn:E; [|by constructor].
  pose proof (Build_keeps_ok cfg name b m b1 Hb E) as Hb1. specialize (IH b1 Hb1).
  destruct (BuildChain names b1) as [[ms b2]|e]; cbn [result_bind].
  - destruct IH as [? ?]. split; [done|]. by constructor.
  - by right.
Qed.

(** *** Where building panics: at a null entry of the configuration *)
Definition null_middleware (cfg : Config) (name : string) : Prop := cfg_Middlewares cfg !! name = Some None.

#[export] Instance null_middleware_dec cfg name : Decision (null_middleware cfg name).
Proof.
  unfold null_middleware, Decision.
  destruct (cfg_Middlewares cfg !! name) as [[m|]|]; [right; discriminate|by left|right; discriminate].
Defined.


Lemma buildFromConfig_panics name mw b e :
  buildFromConfig name mw b = Err e -> build_panics e = true -> mw = None.
Proof.
  destruct mw as [mw|]; [|done]. intros H Hp. exfalso. revert H.
  unfold buildFromConfig; cbn [result_bind].
  repeat match goal with
  | |- context [if String.eqb ?a ?b then _ else _] => destruct (String.eqb a b)
  | |- context [unmarshal ?d ?t ?n ?r] => unfold unmarshal; destruct (r ≫= d); cbn [result_bind]
  end; intros H; by inversion H; subst.
Qed.

Lemma buildLegacy_panics name b e : buildLegacy name b = Err e -> build_panics e = false.
Proof.
  unfold buildLegacy.
  repeat match goal with |- context [if String.eqb ?a ?b then _ else _] => destruct (String.eqb a b) end;
    intros H; by inversion H.
Qed.

Lemma Build_panics name b e :
  Build name b = Err e -> build_panics e = true -> null_middleware (bd_cfg b) name.
Proof.
  unfold Build, null_middleware. destruct (bd_cache b !! name); [done|].
  destruct (cfg_Middlewares (bd_cfg b) !! name) as [mw|].
  - destruct (buildFromConfig name mw b) as [[m b']|e'] eqn:E; [done|]. intros [= <-] Hp.
    by rewrite (buildFromConfig_panics name mw b e' E Hp).
  - destruct (buildLegacy name b) as [[m b']|e'] eqn:E; [done|]. intros [= <-] Hp.
    apply buildLegacy_panics in E. congruence.
Qed.

Lemma BuildChain_panics cfg names b e :
  builder_inv cfg b -> BuildChain names b = Err e -> build_panics e = true -> Exists (null_middleware cfg) names.
Proof.
  revert b. induction names as [|name names IH]; intros b Hb; cbn [BuildChain]; [done|].
  destruct (Build name b) as [[m b1]|e'] eqn:E.
  - destruct (BuildChain names b1) as [[ms b2]|e1] eqn:Ec; cbn [result_bind]; [done|]. intros [= <-] Hp.
    right. by eapply (IH b1), Hp; [eapply Build_keeps_ok|].
  - intros [= <-] Hp. left. rewrite <- (bo_cfg _ _ Hb). by eapply Build_panics.
Qed.

(** A null entry cannot be built. *)
Lemma null_not_buildable cfg name : null_middleware cfg name -> buildable cfg name = false.
Proof. intros H. unfold buildable, Build. cbn [NewBuilder bd_cache bd_cfg]. by rewrite lookup_empty, H. Qed.
End lemmas.

(** C34. A chain is built in the order of its names.  Every use of a name is the same middleware instance, so
    requests that pass it on different routes draw on the same rate limits; and rate limiters of different
    names are different instances, which share nothing. *)
Theorem build_chain_instances {decoder : JSONDecoder} (cfg : Config) (names : list string) (mws : list Built) (b : Builder) :
  BuildChain names (NewBuilder cfg) = Ok (mws, b) ->
  length mws = length names /\
  forall i j n1 n2 m1 m2,
    names !! i = Some n1 -> names !! j = Some n2 -> mws !! i = Some m1 -> mws !! j = Some m2 ->
    (n1 = n2 -> m1 = m2) /\
    (forall id1 id2 r1 r2 x1 x2, m1 = BuiltRateLimit id1 r1 x1 -> m2 = BuiltRateLimit id2 r2 x2 ->
       n1 <> n2 -> id1 <> id2).
Proof.
  intros H. destruct (BuildChain_spec names (NewBuilder cfg) mws b) as (Hinv & _ & Hall); [|done|].
  { intros n1 n2 id r1 x1 r2 x2; simpl. by rewrite lookup_empty. }
  split; [symmetry; by eapply Forall2_length|]. intros i j n1 n2 m1 m2 Hn1 Hn2 Hm1 Hm2.
  pose proof (Forall2_lookup_lr _ _ _ _ _ _ Hall Hn1 Hm1) as C1. pose proof (Forall2_lookup_lr _ _ _ _ _ _ Hall Hn2 Hm2) as C2.
  split; [congruence|]. intros id1 id2 r1 r2 x1 x2 -> -> Hne ->. apply Hne. by eapply Hinv.
Qed.

Definition example_decoder : JSONDecoder := {|
  json_rateLimit _ := Some (mkRateLimitConfig (f64_of_Z 0) 0);
  json_basicAuth _ := None;
  json_retry _ := Some (mkRetryConfig 0 0);
  json_accessLog _ := None;
  json_timeout _ := None;
  json_circuitBreaker s := Some (mkCircuitBreakerConfig (len s) 1);
  json_cors _ := None;
|}.

Definition example_config : Config := fill_defaults
  (mkConfig 0 0 [] "" 0 0 0 0 0 0 (f64_of_Z 0) 0 0 0 0 "" (mkAuth "" "") (mkTLS false "" "" false) (mkCORS [] [] []) false
     {[ "limit-a" := Some (mkMiddleware "rateLimit" (Some "{}")); "breaker" := Some (mkMiddleware "circuitBreaker" (Some "{}"));
        "bare-retry" := Some (mkMiddleware "retry" None); "nothing" := None ]}
     (mkTimeouts 0 0 0) ∅ ∅ ∅)%string.

Lemma build_chain_instances_witness :
  exists b, @BuildChain example_decoder ["limit-a"; "rate-limit"; "limit-a"]%string (NewBuilder example_config) =
    Ok ([BuiltRateLimit 0 (f64_of_Z 100) 200; BuiltRateLimit 1 (f64_of_Z 100) 200; BuiltRateLimit 0 (f64_of_Z 100) 200], b) /\
    0%nat <> 1%nat.
Proof.
  destruct (@BuildChain example_decoder ["limit-a"; "rate-limit"; "limit-a"]%string (NewBuilder example_config))
    as [[mws b]|e] eqn:E; [|discriminate E].
  assert (mws = [BuiltRateLimit 0 (f64_of_Z 100) 200; BuiltRateLimit 1 (f64_of_Z 100) 200; BuiltRateLimit 0 (f64_of_Z 100) 200])
    as -> by (vm_compute in E; injection E as <- _; reflexivity).
  exists b. split; [reflexivity|].
  destruct (@build_chain_instances example_decoder _ _ _ _ E) as [_ H].
  destruct (H 0%nat 1%nat _ _ _ _ eq_refl eq_refl eq_refl eq_refl) as [_ Hne].
  apply (Hne _ _ _ _ _ _ eq_refl eq_refl). discriminate.
Defined.

(** The settings of a circuitBreaker entry make no difference; an entry without any is refused. *)
Lemma circuitBreaker_settings_ignored {decoder : JSONDecoder} name raw raw' b :
  is_Some (json_circuitBreaker raw) -> is_Some (json_circuitBreaker raw') ->
  buildFromConfig name (Some (mkMiddleware "circuitBreaker" (Some raw))) b =
  buildFromConfig name (Some (mkMiddleware "circuitBreaker" (Some raw'))) b.
Proof. intros [c H] [c' H']. unfold buildFromConfig, unmarshal. simpl. by rewrite H, H'. Qed.

Example missing_settings_refused :
  @Build example_decoder "bare-retry" (NewBuilder example_config) = Err (ParsingConfig "retry" "bare-retry").
Proof. reflexivity. Qed.

Example null_middleware_panics :
  exists e, @BuildChain example_decoder ["headers"; "nothing"]%string (NewBuilder example_config) = Err e /\
    build_panics e = true.
Proof. by eexists. Qed.
