(* ===== verification/Hub.v ===== *)
(** * dashboard/hub.go: snapshot history, broadcast and the REST endpoints

    The snapshot provider is the interface of the file, as a class.  A WebSocket connection is a name and
    what was written to it; [writable] says on which connections a write succeeds.  The encoding of
    snapshots as JSON is an argument. *)
From S2P Require Import Prelude GoFloat GoStrings GoHttp Env Config Collector.
Open Scope Z_scope.

(** The interface: a snapshot moves the provider's rate window. *)
Class SnapshotProvider (P : Type) : Type := {
  provider_DashboardSnap : P -> DashboardSnapshot * P;
  provider_GetConfig : P -> Config;
}.

Definition historySize : nat := 120.

(** What is sent to a WebSocket client. *)
Inductive Message : Type :=
| HistoryMsg (data : list DashboardSnapshot)
| TickMsg (data : DashboardSnapshot).

Section hub.
Context {P : Type} `{!SnapshotProvider P}.

(** [hub_clients]: the connections, each with the messages written to it. *)
Record Hub : Type := mkHub {
  hub_provider : P;
  hub_clients : gmap nat (list Message);
  hub_history : list DashboardSnapshot;
}.

Definition NewHub (provider : P) : Hub := mkHub provider ∅ [].

Definition SetProvider (p : P) (h : Hub) : Hub := mkHub p (hub_clients h) (hub_history h).

(** A new connection gets the history, if there is any, and is registered. *)
Definition HandleWS (conn : nat) (h : Hub) : Hub :=
  let sent := if (0 <? length (hub_history h))%nat then [HistoryMsg (hub_history h)] else [] in
  mkHub (hub_provider h) (<[conn := sent]> (hub_clients h)) (hub_history h).

(** The reading goroutine of a connection ends. *)
Definition disconnect (conn : nat) (h : Hub) : Hub :=
  mkHub (hub_provider h) (delete conn (hub_clients h)) (hub_history h).

Definition push_history (snap : DashboardSnapshot) (l : list DashboardSnapshot) : list DashboardSnapshot :=
  let l := l ++ [snap] in
  if (historySize <? length l)%nat then drop (length l - historySize) l else l.

(** One turn of the broadcast loop. *)
Definition broadcast_tick (writable : nat -> bool) (h : Hub) : Hub :=
  let '(snap, p) := provider_DashboardSnap (hub_provider h) in
  mkHub p
    (map_imap (fun conn sent => if writable conn then Some (sent ++ [TickMsg snap]) else None) (hub_clients h))
    (push_history snap (hub_history h)).

(** ** The REST endpoints *)
(** The JSON documents they answer with. *)
Inductive Document : Type :=
| DocSnapshot (s : DashboardSnapshot)
| DocHistory (l : list DashboardSnapshot)
| DocConfig (c : Config)
| DocHealth (status : string) (healthy_count total_count : Z).

Context (encode : Document -> bytes).

Definition json_headers (rw : ResponseWriter) : ResponseWriter :=
  rw_Set "Access-Control-Allow-Origin" "*" (rw_Set "Content-Type" "application/json" rw).

Definition HandleAPIMetrics : ResponseWriter -> Hub -> ResponseWriter * Hub := fun rw h =>
  let '(snap, p) := provider_DashboardSnap (hub_provider h) in
  ((rw_Write (encode (DocSnapshot snap)) (json_headers rw)).1, mkHub p (hub_clients h) (hub_history h)).

Definition HandleAPIHistory : ResponseWriter -> Hub -> ResponseWriter * Hub := fun rw h =>
  ((rw_Write (encode (DocHistory (hub_history h))) (json_headers rw)).1, h).

Definition HandleAPIConfig : ResponseWriter -> Hub -> ResponseWriter * Hub := fun rw h =>
  ((rw_Write (encode (DocConfig (provider_GetConfig (hub_provider h)))) (json_headers rw)).1, h).

Definition HandleAPIHealth : ResponseWriter -> Hub -> ResponseWriter * Hub := fun rw h =>
  let '(snap, p) := provider_DashboardSnap (hub_provider h) in
  let h := mkHub p (hub_clients h) (hub_history h) in
  let rw := json_headers rw in
  if 0 <? ds_HealthyCount snap then
    ((rw_Write (encode (DocHealth "healthy" (ds_HealthyCount snap) (ds_TotalCount snap))) (rw_WriteHeader 200 rw)).1, h)
  else
    ((rw_Write (encode (DocHealth "unhealthy" 0 (ds_TotalCount snap))) (rw_WriteHeader 503 rw)).1, h).

(** ** A run of the hub *)
Inductive HubEvent : Type :=
| HubTick (writable : nat -> bool)
| HubConnect (conn : nat)
| HubDisconnect (conn : nat)
| HubSetProvider (p : P).

Definition hub_step (h : Hub) (e : HubEvent) : Hub :=
  match e with
  | HubTick writable => broadcast_tick writable h
  | HubConnect conn => HandleWS conn h
  | HubDisconnect conn => disconnect conn h
  | HubSetProvider p => SetProvider p h
  end.

(** The snapshots the ticks of a run take, in order. *)
Fixpoint tick_snapshots (h : Hub) (es : list HubEvent) : list DashboardSnapshot :=
  match es with
  | [] => []
  | e :: es =>
      match e with
      | HubTick _ => (provider_DashboardSnap (hub_provider h)).1 :: tick_snapshots (hub_step h e) es
      | _ => tick_snapshots (hub_step h e) es
      end
  end.

Lemma push_history_last_n snap l : push_history snap (last_n historySize l) = last_n historySize (l ++ [snap]).
Proof.
  rewrite <- last_n_push by (unfold historySize; lia). unfold push_history. set (l' := last_n historySize l ++ [snap]).
  destruct (historySize <? length l')%nat eqn:E; [done|]. apply Nat.ltb_ge in E. unfold last_n.
  by replace (length l' - historySize)%nat with 0%nat by lia.
Qed.

Lemma history_run l h es :
  hub_history h = last_n historySize l ->
  hub_history (foldl hub_step h es) = last_n historySize (l ++ tick_snapshots h es).
Proof.
  revert l h. induction es as [|e es IH]; intros l h Hh; simpl; [by rewrite app_nil_r|].
  destruct e as [writable|conn|conn|p]; try by apply IH.
  rewrite cons_middle, app_assoc. apply IH. simpl. unfold broadcast_tick.
  destruct (provider_DashboardSnap (hub_provider h)) as [snap p]. simpl. rewrite Hh. apply push_history_last_n.
Qed.
End hub.
Arguments Hub P : clear implicits.
Arguments HubEvent P : clear implicits.

(** C36. The history is the last 120 snapshots taken by the broadcast, in order, whatever clients connect and
    disconnect and whatever providers are swapped in by reloads; and a client that connects is sent
    exactly this history. *)
Theorem history_is_last_120 {P : Type} `{!SnapshotProvider P} (p : P) (es : list (HubEvent P)) (conn : nat) :
  let h := foldl hub_step (NewHub p) es in
  hub_history h = last_n 120 (tick_snapshots (NewHub p) es) /\
  hub_clients (HandleWS conn h) !! conn =
    Some (if decide (tick_snapshots (NewHub p) es = []) then []
          else [HistoryMsg (last_n 120 (tick_snapshots (NewHub p) es))]).
Proof.
  intros h. assert (hub_history h = last_n 120 (tick_snapshots (NewHub p) es)) as Hh by by apply (history_run []).
  split; [done|]. unfold HandleWS; cbn [hub_clients]. rewrite lookup_insert_eq, Hh. f_equal.
  destruct (tick_snapshots (NewHub p) es) as [|s l] eqn:E; [done|].
  rewrite decide_False by done. unfold last_n. rewrite length_drop. cbn [length].
  destruct (Nat.ltb_spec 0 (S (length l) - (S (length l) - 120))); [done|lia].
Qed.

(** The health endpoint answers 200 when at least one backend is healthy in a fresh snapshot and 503
    otherwise. *)
Theorem health_endpoint {P : Type} `{!SnapshotProvider P} (encode : Document -> bytes) (head : bool) (hd : Header)
    (h : Hub P) :
  (client_view (HandleAPIHealth encode (ServerWriter head hd None []) h).1).1.1 =
  if 0 <? ds_HealthyCount (provider_DashboardSnap (hub_provider h)).1 then 200 else 503.
Proof.
  unfold HandleAPIHealth. destruct (provider_DashboardSnap (hub_provider h)) as [snap p]; cbn [fst].
  by destruct (0 <? ds_HealthyCount snap).
Qed.
