(* ===== verification/HotReload.v ===== *)
(** * hotreload/watcher.go: the debounced reload

    The event loop with its timer, on what it receives and when.  [None] for the pending deadline is a nil
    or fired timer.  A timer whose deadline has come before something is received has fired.  The fsnotify
    library is behind [Fsnotify]. *)
From S2P Require Import Prelude.
Open Scope Z_scope.

(** The library's watcher [FW], a handle that is changed in place. *)
Class Fsnotify (FW : Type) : Type := {
  fs_NewWatcher : result string FW;
  fs_Add : string -> FW -> option string * FW;   (* an error, or none *)
  fs_Close : FW -> FW;
}.

(** fsnotify's operations, as a set of flags. *)
Record FsEvent : Type := mkFsEvent {
  ev_Create : bool; ev_Write : bool; ev_Remove : bool; ev_Rename : bool; ev_Chmod : bool;
}.

Definition debounce : Z := 300 * Millisecond.

(** The timer, the instants at which [onReload] was called, and those at which the watch is re-added. *)
Record WatcherState : Type := mkWatcher {
  wt_timer : option Z;
  wt_reloads : list Z;
  wt_readds : list Z;
}.

Definition watcher_init : WatcherState := mkWatcher None [] [].

(** Time passes to [now]: a timer that is due runs [onReload]. *)
Definition expire (now : Z) (s : WatcherState) : WatcherState :=
  match wt_timer s with
  | Some d => if d <=? now then mkWatcher None (wt_reloads s ++ [d]) (wt_readds s) else s
  | None => s
  end.

(** [resetTimer]: stops the pending timer and starts a new one. *)
Definition resetTimer (now : Z) (s : WatcherState) : WatcherState :=
  mkWatcher (Some (now + debounce)) (wt_reloads s) (wt_readds s).

(** The body of the loop for an event. *)
Definition handle_event (now : Z) (e : FsEvent) (s : WatcherState) : WatcherState :=
  let s := if ev_Write e || ev_Create e then resetTimer now s else s in
  if ev_Remove e || ev_Rename e then
    resetTimer now (mkWatcher (wt_timer s) (wt_reloads s) (wt_readds s ++ [now + 100 * Millisecond]))
  else s.

(** What the select takes: an event or an error, a closed channel of the library, or the closed [done]. *)
Inductive Input : Type :=
| Event (e : FsEvent)
| EventsClosed
| WatchError (err : string)
| ErrorsClosed
| Done.

(** [run], from the inputs it takes, with their instants. *)
Fixpoint run (inputs : list (Z * Input)) (s : WatcherState) : WatcherState :=
  match inputs with
  | [] => s
  | (now, input) :: rest =>
      let s := expire now s in
      match input with
      | Event e => run rest (handle_event now e s)
      | WatchError _ => run rest s
      | EventsClosed | ErrorsClosed | Done => s
      end
  end.

(** ** NewWatcher and Stop *)
Section watcher.
Context {FW : Type} `{!Fsnotify FW}.

Record Watcher : Type := mkWatcherHandle {
  w_watcher : FW;
  w_path : string;
  w_done : bool;        (* the channel is closed *)
  w_loop : WatcherState;
}.

(** The watcher, or an error; and the library's handle if one was made and given up. *)
Definition NewWatcher (path : string) : result string Watcher * option FW :=
  match fs_NewWatcher with
  | Err e => (Err e, None)
  | Ok fw =>
      let '(err, fw) := fs_Add path fw in
      match err with
      | Some e => (Err e, Some (fs_Close fw))
      | None => (Ok (mkWatcherHandle fw path false watcher_init), None)
      end
  end.

(** [None] is the panic of closing the channel a second time. *)
Definition Stop (w : Watcher) : option Watcher :=
  if w_done w then None else Some (mkWatcherHandle (fs_Close (w_watcher w)) (w_path w) true (w_loop w)).

(** The loop takes what it receives. *)
Definition receive (inputs : list (Z * Input)) (w : Watcher) : Watcher :=
  mkWatcherHandle (w_watcher w) (w_path w) (w_done w) (run inputs (w_loop w)).
End watcher.
Arguments Watcher : clear implicits.

(** The watcher's state once everything due has fired. *)
Definition settle (s : WatcherState) : WatcherState :=
  match wt_timer s with Some d => mkWatcher None (wt_reloads s ++ [d]) (wt_readds s) | None => s end.

(** An event that concerns the contents of the file. *)
Definition relevant (e : FsEvent) : bool := ev_Write e || ev_Create e || ev_Remove e || ev_Rename e.

(** The bursts of a history: the instants of the relevant events not followed within the delay by another. *)
Fixpoint burst_ends (ts : list Z) : list Z :=
  match ts with
  | [] => []
  | t :: ts' =>
      match ts' with
      | [] => [t]
      | t' :: _ => if t + debounce <=? t' then t :: burst_ends ts' else burst_ends ts'
      end
  end.

(** The events the loop handles, up to the input that ends it. *)
Fixpoint handled (inputs : list (Z * Input)) : list (Z * FsEvent) :=
  match inputs with
  | (t, Event e) :: rest => (t, e) :: handled rest
  | (_, WatchError _) :: rest => handled rest
  | _ => []
  end.

Definition relevant_times (es : list (Z * FsEvent)) : list Z := (List.filter (fun e => relevant e.2) es).*1.

(** The events alone. *)
Fixpoint watcher_run (es : list (Z * FsEvent)) (s : WatcherState) : WatcherState :=
  match es with
  | [] => s
  | (t, e) :: es => watcher_run es (handle_event t e (expire t s))
  end.

Lemma settle_expire t s : settle (expire t s) = settle s.
Proof. unfold settle, expire. destruct (wt_timer s) as [d|] eqn:E; [|by rewrite E]. destruct (d <=? t); simpl; [done|by rewrite E]. Qed.

Lemma expire_expire t t' s : t <= t' -> expire t' (expire t s) = expire t' s.
Proof.
  intros Ht. unfold expire. destruct (wt_timer s) as [d|] eqn:E; [|by rewrite E].
  destruct (d <=? t) eqn:Ed; cbn [wt_timer]; [|by rewrite E]. z_bool. by rewrite (proj2 (Z.leb_le d t')) by lia.
Qed.

(** Time passing before the first event makes no difference. *)
Lemma watcher_run_expire t es s :
  Forall (fun t' => t <= t') (es.*1) -> settle (watcher_run es (expire t s)) = settle (watcher_run es s).
Proof.
  destruct es as [|[t' e] es]; [intros _; apply settle_expire|]. intros [Ht _]%Forall_cons. cbn [watcher_run].
  by rewrite expire_expire.
Qed.

Lemma handled_times inputs P : Forall P (inputs.*1) -> Forall P ((handled inputs).*1).
Proof.
  induction inputs as [|[t i] inputs IH]; [done|]. rewrite fmap_cons. intros [Ht Hi]%Forall_cons.
  destruct i; cbn [handled]; [|by constructor|by apply IH|by constructor..].
  rewrite fmap_cons. constructor; [done|by apply IH].
Qed.

Lemma handled_sorted inputs : StronglySorted Z.le (inputs.*1) -> StronglySorted Z.le ((handled inputs).*1).
Proof.
  induction inputs as [|[t i] inputs IH]; [done|]. rewrite fmap_cons. intros [Hs Ht]%StronglySorted_inv.
  destruct i; cbn [handled]; [|by constructor|by apply IH|by constructor..].
  rewrite fmap_cons. constructor; [by apply IH|by apply handled_times].
Qed.

(** Errors change nothing, and the input that ends the loop leaves the timer running. *)
Lemma run_handled inputs s :
  StronglySorted Z.le (inputs.*1) -> settle (run inputs s) = settle (watcher_run (handled inputs) s).
Proof.
  revert s. induction inputs as [|[t i] inputs IH]; intros s; [done|].
  rewrite fmap_cons. intros [Hs Ht]%StronglySorted_inv.
  destruct i; cbn [run handled watcher_run]; [by apply IH|apply settle_expire| |apply settle_expire..].
  rewrite IH by done. by apply watcher_run_expire, handled_times.
Qed.

Lemma handle_event_timer now e s :
  wt_timer (handle_event now e s) = (if relevant e then Some (now + debounce) else wt_timer s) /\
  wt_reloads (handle_event now e s) = wt_reloads s.
Proof. unfold handle_event, relevant. by destruct (ev_Write e), (ev_Create e), (ev_Remove e), (ev_Rename e). Qed.

(** The reloads from a state whose timer was set at [t0], if it is pending. *)
Lemma watcher_run_reloads es s :
  StronglySorted Z.le (es.*1) ->
  match wt_timer s with
  | None => wt_reloads (settle (watcher_run es s)) = wt_reloads s ++ ((fun t => t + debounce) <$> burst_ends (relevant_times es))
  | Some d => forall t0, d = t0 + debounce -> Forall (fun t => t0 <= t) (es.*1) ->
      wt_reloads (settle (watcher_run es s)) =
      wt_reloads s ++ ((fun t => t + debounce) <$> burst_ends (t0 :: relevant_times es))
  end.
Proof.
  revert s. induction es as [|[t e] es IH]; intros s Hsorted.
  - cbn [watcher_run]. unfold settle. destruct (wt_timer s) as [d|]; simpl; [by intros t0 -> _|by rewrite app_nil_r].
  - cbn [watcher_run]. rewrite fmap_cons in Hsorted. apply StronglySorted_inv in Hsorted as [Hs Hall]. cbn [fst] in Hall.
    set (s1 := expire t s). destruct (handle_event_timer t e s1) as [Ht Hr].
    specialize (IH (handle_event t e s1) Hs). rewrite Ht, Hr in IH.
    assert (forall u l, relevant_times ((t, u) :: l) = if relevant u then t :: relevant_times l else relevant_times l) as Hrel
      by (intros u l; unfold relevant_times; simpl; by destruct (relevant u)).
    rewrite Hrel. destruct (wt_timer s) as [d|] eqn:Ed.
    + intros t0 -> Hge. rewrite fmap_cons in Hge. apply Forall_cons in Hge as [Ht0 Hge]. cbn [fst] in Ht0.
      unfold s1, expire in *. rewrite Ed in *. destruct (t0 + debounce <=? t) eqn:Edue; cbn [wt_timer wt_reloads] in *.
      * destruct (relevant e).
        -- rewrite (IH t eq_refl Hall). cbn [burst_ends]. rewrite Edue. by rewrite fmap_cons, <- app_assoc.
        -- rewrite IH, <- app_assoc. f_equal. simpl. destruct (relevant_times es) as [|t' ts] eqn:Ets; [done|].
           assert (t <= t') as Ht'.
           { rewrite Forall_forall in Hall. apply Hall.
             assert (t' ∈ relevant_times es) as Hin by (rewrite Ets; left).
             unfold relevant_times in Hin. apply list_elem_of_fmap in Hin as (x & -> & Hx).
             apply list_elem_of_In, filter_In in Hx as [Hx _]. apply list_elem_of_fmap. exists x.
             split; [done|by apply list_elem_of_In]. }
           z_bool. by rewrite (proj2 (Z.leb_le (t0 + debounce) t')) by lia.
      * rewrite Ed in IH. destruct (relevant e).
        -- rewrite (IH t eq_refl Hall). cbn [burst_ends]. by rewrite Edue.
        -- apply IH; [done|exact Hge].
    + unfold s1, expire in *. rewrite Ed in *. destruct (relevant e); [by apply IH|by rewrite Ed in IH].
Qed.

(** C37. Debouncing: of whatever the loop receives, in the order of the times, a reload follows exactly the
    relevant events (write, create, remove, rename) that no other relevant event follows within 300 ms,
    and it runs 300 ms after them; a burst of events causes one reload, none is lost, an error of the
    watch does no harm, and what comes after the loop has ended is ignored.  A reload that is pending when the
    loop ends still runs, also when it ends because of [Stop]. *)
Theorem reload_once_per_burst {FW : Type} `{!Fsnotify FW} path (w : Watcher FW) inputs :
  (NewWatcher path).1 = Ok w -> StronglySorted Z.le (inputs.*1) ->
  wt_reloads (settle (w_loop (receive inputs w))) =
  (fun t => t + debounce) <$> burst_ends (relevant_times (handled inputs)).
Proof.
  unfold NewWatcher. destruct (fs_NewWatcher (FW := FW)) as [fw|e]; [|by intros [=]].
  destruct (fs_Add path fw) as [[e|] fw']; [by intros [=]|].
  intros [= <-] Hs. cbn [receive w_loop]. rewrite run_handled by done.
  exact (watcher_run_reloads (handled inputs) watcher_init (handled_sorted _ Hs)).
Qed.

Definition ev_write : FsEvent := mkFsEvent false true false false false.
Definition ev_remove : FsEvent := mkFsEvent false false true false false.
Definition ev_chmod : FsEvent := mkFsEvent false false false false true.

(** A library that watches what it is told to. *)
Definition listing_fsnotify : Fsnotify (list string) := {|
  fs_NewWatcher := Ok [];
  fs_Add path l := (None, path :: l);
  fs_Close _ := [];
|}.

(** An editor that removes and rewrites the file, a later change of its mode, and a last write just before
    the watcher is stopped. *)
Definition example_inputs : list (Z * Input) :=
  [(0, Event ev_remove); (50 * Millisecond, Event ev_write); (60 * Millisecond, WatchError "overflow");
   (900 * Millisecond, Event ev_chmod); (1000 * Millisecond, Event ev_write); (1001 * Millisecond, Done);
   (1500 * Millisecond, Event ev_write)].

Lemma reload_once_per_burst_witness :
  wt_reloads (settle (run example_inputs watcher_init)) = [350 * Millisecond; 1300 * Millisecond].
Proof.
  pose proof (reload_once_per_burst (Fsnotify0 := listing_fsnotify) "config.json"
    (mkWatcherHandle ["config.json"%string] "config.json" false watcher_init) example_inputs eq_refl
    ltac:(repeat constructor; discriminate)) as H.
  cbn [receive w_loop] in H. rewrite H. reflexivity.
Defined.
