(* ===== verification/EntryPoint.v ===== *)
(** * entrypoint/entrypoint.go: named listeners

    An entrypoint wraps its handler in its middleware chain; the manager starts and shuts down all of them.
    The HTTP server is outside: what [Start] asks of it is [ListenCall], and whether a server's shutdown
    succeeds is an argument.  A loop over the map takes the order of its iteration. *)
From S2P Require Import Prelude GoFloat GoStrings GoHttp Config Middlewares.
Open Scope Z_scope.

Section entrypoint.
Context {W : Type}.

Record EntryPoint : Type := mkEP {
  ep_Name : string;
  ep_Config : EntryPointConfig;
  ep_handler : Handler W;
}.

(** [New]: the chain is applied when there is one. *)
Definition entrypoint_New (name : string) (cfg : EntryPointConfig) (handler : Handler W) (middlewares : list (Middleware W))
    : EntryPoint :=
  mkEP name cfg (if (0 <? length middlewares)%nat then Chain middlewares handler else handler).

(** What the goroutine of [Start] calls. *)
Inductive ListenCall : Type :=
| ListenAndServe (addr : string)
| ListenAndServeTLS (addr certFile keyFile : string).

Definition entrypoint_Start (ep : EntryPoint) : ListenCall :=
  match ep_TLS (ep_Config ep) with
  | Some tls =>
      if String.eqb (ep_Protocol (ep_Config ep)) "https" then
        ListenAndServeTLS (ep_Address (ep_Config ep)) (dflt_s (tls_CertFile tls) "server.crt")
          (dflt_s (tls_KeyFile tls) "server.key")
      else ListenAndServe (ep_Address (ep_Config ep))
  | None => ListenAndServe (ep_Address (ep_Config ep))
  end.

(** How a server's [ListenAndServe] returns, never without an error, and what the goroutine of [Start] sends
    on its channel then. *)
Inductive ServeEnd : Type :=
| ServerClosed
| ServeFailed (err : string).

Definition serve_result (e : ServeEnd) : option string :=
  match e with ServerClosed => None | ServeFailed err => Some err end.

(** [Shutdown], over the outcome of [http.Server.Shutdown]; the failure is logged and returned. *)
Definition entrypoint_Shutdown (server_Shutdown : EntryPoint -> option string) (ep : EntryPoint) : option string :=
  match server_Shutdown ep with Some err => Some err | None => None end.

(** The manager; the entrypoints whose server was started are the keys of [errChans]. *)
Record EPManager : Type := mkEPManager {
  em_entrypoints : gmap string EntryPoint;
  em_errChans : gmap string ListenCall;
}.

Definition entrypoint_NewManager : EPManager := mkEPManager ∅ ∅.

Definition Register (ep : EntryPoint) (m : EPManager) : EPManager :=
  mkEPManager (<[ep_Name ep := ep]> (em_entrypoints m)) (em_errChans m).

Definition entrypoint_Get (name : string) (m : EPManager) : option EntryPoint := em_entrypoints m !! name.

(** The names in the order of the loop: they are not sorted. *)
Definition Names (entries : list (string * EntryPoint)) : list string := entries.*1.

Definition StartAll (m : EPManager) : EPManager :=
  mkEPManager (em_entrypoints m) ((entrypoint_Start <$> em_entrypoints m) ∪ em_errChans m).

(** Every shutdown runs in its goroutine; the errors are collected. *)
Definition ShutdownAll (shutdown : EntryPoint -> option string) (entries : list (string * EntryPoint))
    : option (list (string * string)) :=
  let errs := omap (fun e => (fun err => (e.1, err)) <$> entrypoint_Shutdown shutdown e.2) entries in
  if (0 <? length errs)%nat then Some errs else None.

(** A chain set up as one entrypoint is the composition of its middlewares, the first outermost. *)
Lemma entrypoint_chain name cfg h mws rw r w :
  ep_handler (entrypoint_New name cfg h mws) rw r w = Chain mws h rw r w.
Proof. unfold entrypoint_New. cbn [ep_handler]. by destruct mws. Qed.

Lemma ShutdownAll_errors shutdown entries :
  match ShutdownAll shutdown entries with
  | None => forall name ep, (name, ep) ∈ entries -> shutdown ep = None
  | Some errs => errs <> [] /\
      forall name err, (name, err) ∈ errs <-> exists ep, (name, ep) ∈ entries /\ shutdown ep = Some err
  end.
Proof.
  assert (forall ep, entrypoint_Shutdown shutdown ep = shutdown ep) as Hsd
    by (intros ep; unfold entrypoint_Shutdown; by destruct (shutdown ep)).
  unfold ShutdownAll. set (errs := omap _ entries).
  assert (forall name err, (name, err) ∈ errs <-> exists ep, (name, ep) ∈ entries /\ shutdown ep = Some err) as H.
  { intros name err. unfold errs. rewrite list_elem_of_omap. split.
    - intros ([n ep] & Hin & (e & He & [= -> ->])%fmap_Some). rewrite Hsd in He. eauto.
    - intros (ep & Hin & He). exists (name, ep). split; [done|]. simpl. by rewrite Hsd, He. }
  destruct (0 <? length errs)%nat eqn:E.
  - split; [|done]. intros E'. rewrite E' in E. done.
  - intros name ep Hin. destruct (shutdown ep) as [err|] eqn:Es; [|done]. exfalso.
    assert ((name, err) ∈ errs) as Hbad by (apply H; eauto). apply Nat.ltb_ge in E.
    destruct errs; [by apply elem_of_nil in Hbad|simpl in E; lia].
Qed.
End entrypoint.
