(* ===== verification/App.v ===== *)
(** * cmd/loadbalancer/main.go: the application

    [appState] ties the components together: [initialize] builds the services and the route table,
    [app_ServeHTTP] dispatches a request, [reload] replaces everything from a configuration.  A route's
    handler is represented by its service's name and the middlewares built for it; [interpret] is the
    middleware such a value stands for.  The state of a service lives in its instance and the state of a
    rate limiter under its number, both in the [appState], which is a component of the world.  [None] is a
    panic of [initialize]: over a null router, a null middleware that a router lists, or a ticker. *)
From S2P Require Import Prelude GoFloat GoSort GoStrings NetIP GoHttp Breaker Collector Balancer Canary Selector Env.
From S2P Require Import Config Proxy Monitor Service Rule RuleSyntax Routes Middlewares Retry CircuitBreaker RateLimit AccessLog Builder.
Open Scope Z_scope.

(** A component of a component. *)
Definition compose_lens {W S T : Type} (A : Lens W S) (B : Lens S T) : Lens W T.
Proof.
  refine (mkLens (fun w => lget B (lget A w)) (fun t w => lput A (lput B t (lget A w)) w) _).
  abstract (intros; by rewrite !lget_put).
Defined.

#[export] Instance compose_Frame {W S T} `{!Env W} (A : Lens W S) (B : Lens S T) `{!Frame A} : Frame (compose_lens A B).
Proof.
  split; intros; simpl;
    rewrite ?frame_Now, ?frame_SleepUntil, ?frame_Choose, ?frame_Float64, ?frame_RandBytes, ?frame_Info, ?frame_Error; done.
Qed.
#[export] Instance compose_ClientFrame {W S T} `{!Client W} (A : Lens W S) (B : Lens S T) `{!ClientFrame A} :
  ClientFrame (compose_lens A B).
Proof. intros req w. simpl. by rewrite frame_Do. Qed.

(** The handler of a route: the service it ends at and the chain in front of it. *)
Record RouteHandler : Type := mkRouteHandler { rh_service : string; rh_middlewares : list Built }.

Inductive InitError : Type :=
| UnknownService (router service : string)
| MiddlewareResolution (router : string) (e : BuildError)
| AddingRouter (router : string) (e : RuleError).

Section app.
Context {R : Type} `{!Rand R} {Lim : Type} `{!RateLib Lim}.

Record appState : Type := mkApp {
  as_cfg : Config;
  as_svcMgr : ServiceManager R;
  as_routerMgr : Manager RouteHandler;
  as_limiters : gmap nat (PerIPRateLimiter Lim);
}.

(** *** Building *)
Section building.
Context {tables : UnicodeTables} {decoder : JSONDecoder} {sort : GoSort (Route RouteHandler) route_less}.

(** The loop over the routers, which returns at the first error with the routes added so far in place.
    [None] is the panic at a null entry, the router's or that of a middleware it lists. *)
Fixpoint add_routers (entries : list (string * option RouterConfig)) (svcMgr : ServiceManager R) (mwBuilder : Builder)
    (routerMgr : Manager RouteHandler) : option (Manager RouteHandler * option InitError) :=
  match entries with
  | [] => Some (routerMgr, None)
  | (rtName, rtCfg) :: entries =>
      rtCfg ← rtCfg;
      match GetInstance (rc_Service rtCfg) svcMgr with
      | None => Some (routerMgr, Some (UnknownService rtName (rc_Service rtCfg)))
      | Some _ =>
          match ResolveMiddlewares (rc_Middlewares rtCfg) mwBuilder with
          | Err e => if build_panics e then None else Some (routerMgr, Some (MiddlewareResolution rtName e))
          | Ok (middlewares, mwBuilder) =>
              match AddRoute rtName (rc_Rule rtCfg) (rc_Priority rtCfg) (rc_Middlewares rtCfg) (rc_Service rtCfg)
                      (mkRouteHandler (rc_Service rtCfg) middlewares) routerMgr with
              | Err e => Some (routerMgr, Some (AddingRouter rtName e))
              | Ok routerMgr => add_routers entries svcMgr mwBuilder routerMgr
              end
          end
      end
  end.

(** [initialize], on a state whose [cfg] its callers have set to [cfg]; [None] is a panic.
    [services] and [routers] are the entries of the configuration's maps in the order of the loops. *)
Definition initialize (now : string -> Z) (seed : string -> R) (services : list (string * ServiceConfig))
    (routers : list (string * option RouterConfig)) (cfg : Config) : option (appState * option InitError) :=
  svcMgr ← service_NewManager now seed cfg services;
  '(routerMgr, err) ← add_routers routers svcMgr (NewBuilder cfg) NewManager;
  Some (mkApp cfg svcMgr routerMgr ∅, err).

Inductive ReloadError : Type :=
| ParseConfig (e : ConfigError)
| Initialize (e : InitError).

(** What a reload leaves: the state, the old manager once it is stopped, the manager given to the dashboard
    if it got that far, the error. *)
Record Reloaded : Type := mkReloaded {
  rl_state : appState;
  rl_stopped : option (ServiceManager R);
  rl_provider : option (ServiceManager R);
  rl_error : option ReloadError;
}.

(** [load]: what [Load] made of the file; [running]: the instances being stopped, in the order of the loop
    of [Stop].  [None] is a panic. *)
Definition reload (load : option (result ConfigError Config)) (now : string -> Z) (seed : string -> R)
    (running : list (string * ServiceInstance R))
    (services : Config -> list (string * ServiceConfig)) (routers : Config -> list (string * option RouterConfig))
    (s : appState) : option Reloaded :=
  load ← load;
  match load with
  | Err e => Some (mkReloaded s None None (Some (ParseConfig e)))
  | Ok newCfg =>
      oldSvcMgr ← service_Stop running (as_svcMgr s);
      '(s, err) ← initialize now seed (services newCfg) (routers newCfg) newCfg;
      match err with
      | Some e => Some (mkReloaded s (Some oldSvcMgr) None (Some (Initialize e)))
      | None =>
          let svcMgr := service_ImportMetrics (Some oldSvcMgr) (as_svcMgr s) in
          Some (mkReloaded (mkApp newCfg svcMgr (as_routerMgr s) (as_limiters s)) (Some oldSvcMgr) (Some svcMgr) None)
      end
  end.
End building.

(** *** Serving *)
(** Where the router, collector and breakers of a service live: in its instance. *)
Definition empty_instance (name : string) : ServiceInstance R :=
  mkInstance name (mkService None None None false [])
    (proxy_New (NewRouter [] (AlgoRoundRobin (mkRoundRobin 0))) (New 0 [] [] []) ∅ 0 0) None.

Definition put_core (name : string) (p : Proxy (AnyAlgorithm R)) (s : appState) : appState :=
  let inst := default (empty_instance name) (GetInstance name (as_svcMgr s)) in
  mkApp (as_cfg s)
    (mkServiceManager (<[name := map_core (fun _ => p) inst]> (sm_instances (as_svcMgr s))) (sm_cfg (as_svcMgr s)))
    (as_routerMgr s) (as_limiters s).

Definition core_lens (name : string) : Lens appState (Proxy (AnyAlgorithm R)).
Proof.
  refine (mkLens (fun s => si_core (default (empty_instance name) (GetInstance name (as_svcMgr s)))) (put_core name) _).
  abstract (intros p s; unfold GetInstance; simpl; by rewrite lookup_insert_eq).
Defined.

(** Where the buckets of a rate limiter live; it is made with its rate and burst. *)
Definition limiter_lens (id : nat) (rps : float64) (burst : Z) : Lens appState (PerIPRateLimiter Lim).
Proof.
  refine (mkLens (fun s => default (NewPerIPRateLimiter rps burst) (as_limiters s !! id))
    (fun rl s => mkApp (as_cfg s) (as_svcMgr s) (as_routerMgr s) (<[id := rl]> (as_limiters s))) _).
  abstract (intros rl s; simpl; by rewrite lookup_insert_eq).
Defined.

Context `{!GoSort float64 f64_less} {W : Type} `{!Env W} `{!Client W} (A : Lens W appState).
(** The access log files that could be opened. *)
Context (open_log : string -> option (Lens W (list accessLogEntry))).

Definition service_handler (name : string) : Handler W := proxy_ServeHTTP (compose_lens A (core_lens name)).

(** The service manager as the registry of the circuitBreaker middleware; [order] is the order in which
    the loop meets the instances. *)
Definition registry (order : gmap string (ServiceInstance R) -> list (string * ServiceInstance R))
    : ServiceRegistry W :=
  Some (fun url success w =>
    let '(t1, w) := env_Now w in
    let '(t2, w) := env_Now w in
    modify A (fun s =>
      mkApp (as_cfg s)
        (RecordCircuitBreakerResult t1 t2 (order (sm_instances (as_svcMgr s))) url success (as_svcMgr s))
        (as_routerMgr s) (as_limiters s)) w).

Context (order : gmap string (ServiceInstance R) -> list (string * ServiceInstance R)).

(** The middleware of a built value, given where its limiter's buckets are and the registry. *)
Definition interpret_with (limiters : nat -> float64 -> Z -> Lens W (PerIPRateLimiter Lim))
    (registry : ServiceRegistry W) (b : Built) : Middleware W :=
  match b with
  | BuiltRateLimit id rps burst => rateLimit (limiters id rps burst)
  | BuiltBasicAuth username password => BasicAuth username password
  | BuiltRetry attempts initialIntervalMs => NewRetry attempts initialIntervalMs
  | BuiltAccessLog filePath => NewAccessLog (if String.eqb filePath "" then None else open_log filePath)
  | BuiltHeaders => RequestHeaders
  | BuiltTimeout highSec mediumSec lowSec => NewPriorityTimeout highSec mediumSec lowSec
  | BuiltCircuitBreaker => NewCircuitBreaker registry
  | BuiltCORS cfg => CORS cfg
  end.

Definition interpret : Built -> Middleware W :=
  interpret_with (fun id rps burst => compose_lens A (limiter_lens id rps burst)) (registry order).

(** [finalHandler]: the chain is applied when there is one. *)
Definition route_handler (rh : RouteHandler) : Handler W :=
  if (0 <? length (rh_middlewares rh))%nat
  then Chain (interpret <$> rh_middlewares rh) (service_handler (rh_service rh))
  else service_handler (rh_service rh).

Definition app_ServeHTTP : Handler W := fun rw req w =>
  let s := lget A w in
  match Manager_Route (as_routerMgr s) req with
  | Some route => route_handler (rt_Handler route) rw req w
  | None =>
      match GetInstance "default" (as_svcMgr s) with
      | Some _ => service_handler "default" rw req w
      | None => mkServed (http_Error "No matching service" 502 rw) (req_Header req) (req_Body req) w
      end
  end.
End app.
Arguments appState R Lim : clear implicits.

(** ** What initialize builds *)
Section initialize_lemmas.
Context {R : Type} `{!Rand R} {Lim : Type} `{!RateLib Lim}.
Context {tables : UnicodeTables} {decoder : JSONDecoder} {sort : GoSort (Route RouteHandler) route_less}.

(** A router entry that can be added. *)
Definition router_ok (cfg : Config) (rc : RouterConfig) : Prop :=
  is_Some (cfg_Services cfg !! rc_Service rc) /\
  Forall (fun n => buildable cfg n = true) (rc_Middlewares rc) /\
  is_Ok (parse_rule (rc_Rule rc)) = true.

(** An entry of the map of routers that can be added: there is a router, and it can. *)
Definition entry_ok (cfg : Config) (e : string * option RouterConfig) : Prop :=
  exists rc, e.2 = Some rc /\ router_ok cfg rc.

(** The entries at which initialize panics: null, or listing a middleware whose entry is null. *)
Definition router_nil (cfg : Config) (o : option RouterConfig) : Prop :=
  match o with
  | None => True
  | Some rc => Exists (null_middleware cfg) (rc_Middlewares rc)
  end.

#[export] Instance router_nil_dec cfg o : Decision (router_nil cfg o).
Proof. destruct o; simpl; apply _. Defined.

(** A configuration that starts without a panic: no router is null or lists a null middleware, and every
    health check has a ticker. *)
Definition runnable (cfg : Config) : Prop :=
  tickers_ok cfg /\ map_Forall (fun _ o => ~ router_nil cfg o) (cfg_Routers cfg).

#[export] Instance runnable_dec cfg : Decision (runnable cfg).
Proof. unfold runnable. apply _. Defined.

(** The middlewares [mws] are the ones built under [names]. *)
Definition instances_of (built : gmap string Built) (names : list string) (mws : list Built) : Prop :=
  Forall2 (fun n m => built !! n = Some m) names mws.

(** The call of [AddRoute] for a router entry. *)
Definition spec_for (built : gmap string Built) (e : string * option RouterConfig) (s : RouteSpec RouteHandler) : Prop :=
  exists rc mws, e.2 = Some rc /\ instances_of built (rc_Middlewares rc) mws /\
    s = mkSpec e.1 (rc_Rule rc) (rc_Priority rc) (rc_Middlewares rc) (rc_Service rc)
          (mkRouteHandler (rc_Service rc) mws).

(** The table that adding the entries, in their order, makes of another. *)
Definition table_of (entries : list (string * option RouterConfig)) (rm rm' : Manager RouteHandler) : Prop :=
  exists specs built, Forall2 (spec_for built) entries specs /\ rm' = foldl add_spec rm specs.

Lemma instances_of_mono built built' names mws :
  built ⊆ built' -> instances_of built names mws -> instances_of built' names mws.
Proof. intros Hsub H. eapply Forall2_impl; [exact H|]. intros n m Hn. exact (lookup_weaken _ _ _ _ Hn Hsub). Qed.

(** What the loop makes of the entries it gets through, with the builder at the end. *)
Definition added (cfg : Config) (b : Builder) (l : list (string * option RouterConfig))
    (rm rm' : Manager RouteHandler) : Prop :=
  exists specs b', rm' = foldl add_spec rm specs /\ bd_cache b ⊆ bd_cache b' /\
    Forall2 (spec_for (bd_cache b')) l specs /\ Forall (entry_ok cfg) l.

Lemma added_table cfg b l rm rm' : added cfg b l rm rm' -> table_of l rm rm' /\ Forall (entry_ok cfg) l.
Proof. intros (specs & b' & -> & _ & Hs & Hok). split; [by exists specs, (bd_cache b')|done]. Qed.

Lemma add_routers_ok cfg (mgr : ServiceManager R) entries b rm :
  builder_inv cfg b -> (forall n, is_Some (GetInstance n mgr) <-> is_Some (cfg_Services cfg !! n)) ->
  match add_routers entries mgr b rm with
  | Some (rm', None) => added cfg b entries rm rm'
  | Some (rm', Some _) => exists l name rc rest, entries = l ++ (name, Some rc) :: rest /\
      added cfg b l rm rm' /\ ~ router_ok cfg rc
  | None => Exists (fun e => router_nil cfg e.2) entries
  end.
Proof.
  intros Hb Hmgr. revert b rm Hb. induction entries as [|[name [rc|]] entries IH]; intros b rm Hb; cbn [add_routers].
  { exists [], b. split_and!; [done|done|constructor|constructor]. }
  2: { by left. }
  cbn [mbind option_bind].
  assert (added cfg b [] rm rm) as Hnil by (exists [], b; split_and!; [done|done|constructor|constructor]).
  pose proof (Hmgr (rc_Service rc)) as Hsvc.
  destruct (GetInstance (rc_Service rc) mgr) as [i|].
  2: { exists [], name, rc, entries. split_and!; [done|done|]. intros (Hs & _). apply Hsvc in Hs. by destruct Hs. }
  unfold ResolveMiddlewares. pose proof (BuildChain_ok cfg (rc_Middlewares rc) b Hb) as Hc.
  destruct (BuildChain (rc_Middlewares rc) b) as [[mws b1]|e] eqn:Ech.
  2: { destruct (build_panics e) eqn:Hp; [left; by eapply BuildChain_panics|].
       exists [], name, rc, entries. split_and!; [done|done|]. intros (_ & Hall & _).
       apply Exists_exists in Hc as (n & Hn & Hf).
       rewrite Forall_forall in Hall. specialize (Hall n Hn). cbn in *. congruence. }
  destruct Hc as [Hb1 Hall].
  destruct (BuildChain_spec (rc_Middlewares rc) b mws b1 (bo_inv _ _ Hb) Ech) as (_ & Hsub & Hmws).
  set (s := mkSpec name (rc_Rule rc) (rc_Priority rc) (rc_Middlewares rc) (rc_Service rc)
              (mkRouteHandler (rc_Service rc) mws)).
  assert (add_spec rm s = match AddRoute name (rc_Rule rc) (rc_Priority rc) (rc_Middlewares rc) (rc_Service rc)
            (mkRouteHandler (rc_Service rc) mws) rm with Ok m => m | Err _ => rm end) as Hs by done.
  assert (is_Ok (AddRoute name (rc_Rule rc) (rc_Priority rc) (rc_Middlewares rc) (rc_Service rc)
            (mkRouteHandler (rc_Service rc) mws) rm) = is_Ok (parse_rule (rc_Rule rc))) as Hp
    by (unfold AddRoute; by destruct (parse_rule (rc_Rule rc))).
  destruct (AddRoute _ _ _ _ _ _ rm) as [rm1|e].
  2: { exists [], name, rc, entries. split_and!; [done|done|]. intros (_ & _ & Hok). cbn in *. congruence. }
  assert (forall l rm', added cfg b1 l rm1 rm' -> added cfg b ((name, Some rc) :: l) rm rm') as Hadd.
  { intros l rm' (specs & b' & -> & Hsub' & Hspecs & Hoks). exists (s :: specs), b'. split_and!.
    - cbn [foldl]. by rewrite Hs.
    - by etrans.
    - constructor; [|done]. exists rc, mws. split_and!; [done| |done]. eapply instances_of_mono; [done|]. exact Hmws.
    - constructor; [|done]. exists rc. split; [done|]. split_and!; [by apply Hsvc|done|by rewrite <- Hp]. }
  specialize (IH b1 rm1 Hb1).
  destruct (add_routers entries mgr b1 rm1) as [[rm' [err|]]|]; [|by apply Hadd|by right].
  destruct IH as (d & n & rc' & rest & -> & Hd & Hno). exists ((name, Some rc) :: d), n, rc', rest.
  split_and!; [done|by apply Hadd|done].
Qed.

Lemma instances_configured now (seed : string -> R) cfg services (m : ServiceManager R) :
  config_complete cfg -> services ≡ₚ map_to_list (cfg_Services cfg) ->
  service_NewManager now seed cfg services = Some m ->
  forall n, is_Some (GetInstance n m) <-> is_Some (cfg_Services cfg !! n).
Proof.
  intros Hc Hp Hm n. pose proof (service_NewManager_ok now seed cfg services Hc Hp) as H. rewrite Hm in H.
  destruct H as [_ H]. specialize (H n). destruct (cfg_Services cfg !! n).
  - destruct H as (i & -> & _). done.
  - by rewrite H.
Qed.

(** Every entry of the routers can be added. *)
Definition routers_ok (cfg : Config) : Prop :=
  forall name o, cfg_Routers cfg !! name = Some o -> exists rc, o = Some rc /\ router_ok cfg rc.

(** What is built, whole or in part. *)
Definition initialized (cfg : Config) (mgr : ServiceManager R) (routers : list (string * option RouterConfig))
    (err : option InitError) (st : appState R Lim) : Prop :=
  as_cfg st = cfg /\ as_svcMgr st = mgr /\ as_limiters st = ∅ /\
  match err with
  | None => table_of routers NewManager (as_routerMgr st) /\ routers_ok cfg
  | Some _ => exists added name rc rest, routers = added ++ (name, Some rc) :: rest /\
      table_of added NewManager (as_routerMgr st) /\ ~ router_ok cfg rc
  end.

Lemma routers_runnable cfg : tickers_ok cfg -> routers_ok cfg -> runnable cfg.
Proof.
  intros Ht Hr. split; [done|]. intros name o Ho. destruct (Hr name o Ho) as (rc & -> & _ & Hall & _). simpl.
  intros (n & Hn & Hnull)%Exists_exists. rewrite Forall_forall in Hall. specialize (Hall n Hn).
  apply null_not_buildable in Hnull. cbn in *. congruence.
Qed.

Lemma initialize_ok now (seed : string -> R) services routers cfg :
  config_complete cfg ->
  services ≡ₚ map_to_list (cfg_Services cfg) -> routers ≡ₚ map_to_list (cfg_Routers cfg) ->
  match initialize (Lim := Lim) now seed services routers cfg with
  | Some (st, err) => exists mgr, service_NewManager now seed cfg services = Some mgr /\
      initialized cfg mgr routers err st
  | None => ~ runnable cfg
  end.
Proof.
  intros Hc Hs Hr. unfold initialize. pose proof (service_NewManager_ok now seed cfg services Hc Hs) as Ht.
  destruct (service_NewManager now seed cfg services) as [mgr|] eqn:Hm; cbn [mbind option_bind]; [|by intros [? _]].
  pose proof (add_routers_ok cfg mgr routers (NewBuilder cfg) NewManager (NewBuilder_ok cfg)
    (instances_configured _ _ _ _ _ Hc Hs Hm)) as H.
  assert (forall name o, (name, o) ∈ routers <-> cfg_Routers cfg !! name = Some o) as Hel
    by (intros; by rewrite Hr, elem_of_map_to_list).
  destruct (add_routers routers mgr (NewBuilder cfg) NewManager) as [[rm [err|]]|]; cbn [mbind option_bind].
  - exists mgr. unfold initialized. split_and!; [done..|]. destruct H as (d & name & rc & rest & Hd & Hadd & Hno).
    exists d, name, rc, rest. split_and!; [done| |done]. by apply added_table in Hadd as [? _].
  - exists mgr. unfold initialized. split_and!; [done..| |]; apply added_table in H as [Htab Hoks]; [done|].
    intros name o Hin. apply Hel in Hin. rewrite Forall_forall in Hoks. apply (Hoks (name, o) Hin).
  - intros [_ Hno]. apply Exists_exists in H as ([name o] & Hin & Hnil). by apply (Hno name o), Hnil; apply Hel.
Qed.

(** A complete configuration is accepted exactly when its routers are in order and its health checks have
    tickers, and then it is runnable. *)
Lemma initialize_iff now (seed : string -> R) services routers cfg :
  config_complete cfg ->
  services ≡ₚ map_to_list (cfg_Services cfg) -> routers ≡ₚ map_to_list (cfg_Routers cfg) ->
  (exists st, initialize (Lim := Lim) now seed services routers cfg = Some (st, None)) <->
  tickers_ok cfg /\ routers_ok cfg.
Proof.
  intros Hc Hs Hr. pose proof (initialize_ok now seed services routers cfg Hc Hs Hr) as H.
  pose proof (service_NewManager_ok now seed cfg services Hc Hs) as Ht.
  destruct (initialize now seed services routers cfg) as [[st err]|].
  - destruct H as (mgr & Hm & _ & _ & _ & H). rewrite Hm in Ht. destruct Ht as [Ht _]. destruct err as [e|].
    + split; [by intros [? [=]]|]. intros [_ Hok]. exfalso. destruct H as (d & name & rc & rest & -> & _ & Hno).
      apply Hno. destruct (Hok name (Some rc)) as (rc' & [= ->] & ?); [|done].
      apply elem_of_map_to_list. rewrite <- Hr. apply elem_of_app. right. left.
    + destruct H as [_ Hok]. split; [done|by eexists].
  - split; [by intros [? [=]]|]. intros [? ?]. exfalso. by apply H, routers_runnable.
Qed.
End initialize_lemmas.

(** ** Which router gets a request *)
Section dispatch.
Context {R : Type} `{!Rand R} {Lim : Type} `{!RateLib Lim}.
Context {tables : UnicodeTables} {decoder : JSONDecoder} {sort : GoSort (Route RouteHandler) route_less}.

(** The rule of a router entry holds of the request. *)
Definition rule_matches (rc : RouterConfig) (req : Request) : Prop :=
  exists m, parse_rule (rc_Rule rc) = Ok m /\ m req = true.

(** No matching entry is better: higher priority, or equal priority and a longer rule. *)
Definition router_wins (cfg : Config) (req : Request) (name : string) (rc : RouterConfig) : Prop :=
  cfg_Routers cfg !! name = Some (Some rc) /\ rule_matches rc req /\
  forall name' rc', cfg_Routers cfg !! name' = Some (Some rc') -> rule_matches rc' req ->
    rc_Priority rc' < rc_Priority rc \/
    rc_Priority rc' = rc_Priority rc /\ len (rc_Rule rc') <= len (rc_Rule rc).

Lemma spec_parsed built name rc s :
  spec_for built (name, Some rc) s -> is_Ok (parse_rule (rc_Rule rc)) = true ->
  exists m mws, parse_rule (rc_Rule rc) = Ok m /\ instances_of built (rc_Middlewares rc) mws /\
    parsed s = Some (mkRoute name (rc_Rule rc) (rc_Priority rc) (rc_Middlewares rc) (rc_Service rc) m
                       (mkRouteHandler (rc_Service rc) mws)).
Proof.
  intros (rc' & mws & [= <-] & Hmws & ->) Hok. unfold parsed. cbn [sp_rule fst].
  destruct (parse_rule (rc_Rule rc)) as [m|]; [|done]. by exists m, mws.
Qed.

(** The routes of a table built from the entries are the entries. *)
Lemma table_routes cfg built routers specs :
  routers ≡ₚ map_to_list (cfg_Routers cfg) -> Forall2 (spec_for built) routers specs -> routers_ok cfg ->
  (forall r, r ∈ omap parsed specs -> exists name rc m mws,
     cfg_Routers cfg !! name = Some (Some rc) /\ parse_rule (rc_Rule rc) = Ok m /\ instances_of built (rc_Middlewares rc) mws /\
     r = mkRoute name (rc_Rule rc) (rc_Priority rc) (rc_Middlewares rc) (rc_Service rc) m
           (mkRouteHandler (rc_Service rc) mws)) /\
  (forall name rc m, cfg_Routers cfg !! name = Some (Some rc) -> parse_rule (rc_Rule rc) = Ok m ->
     exists r, r ∈ omap parsed specs /\ rt_Match r = m /\ rt_Priority r = rc_Priority rc /\ rt_RuleString r = rc_Rule rc).
Proof.
  intros Hr Hspecs Hoks.
  assert (forall name o, (name, o) ∈ routers <-> cfg_Routers cfg !! name = Some o) as Hel
    by (intros; by rewrite Hr, elem_of_map_to_list).
  assert (forall name rc, cfg_Routers cfg !! name = Some (Some rc) -> router_ok cfg rc) as Hok
    by (intros name rc H; by destruct (Hoks name _ H) as (? & [= <-] & ?)).
  split.
  - intros r (s & Hs & Hp)%list_elem_of_omap. apply list_elem_of_lookup in Hs as [i Hi].
    destruct (Forall2_lookup_r _ _ _ _ _ Hspecs Hi) as ([name o] & He & Hspec).
    apply list_elem_of_lookup_2, Hel in He. destruct (Hoks name o He) as (rc & -> & Hrc).
    destruct (spec_parsed _ _ _ _ Hspec) as (m & mws & Hm & Hmws & Hp'); [apply Hrc|].
    exists name, rc, m, mws. split_and!; [done|done|done|congruence].
  - intros name rc m Hin Hm. pose proof (proj2 (Hel name _) Hin) as He. apply list_elem_of_lookup in He as [i Hi].
    destruct (Forall2_lookup_l _ _ _ _ _ Hspecs Hi) as (s & Hs & Hspec).
    destruct (spec_parsed _ _ _ _ Hspec) as (m' & mws & Hm' & _ & Hp); [apply (Hok name rc Hin)|].
    cbn [fst snd] in *. eexists. split.
    { apply list_elem_of_omap. exists s. split; [by eapply list_elem_of_lookup_2|exact Hp]. }
    cbn. split_and!; [congruence|done|done].
Qed.

Lemma Route_wins cfg built routers specs req :
  routers ≡ₚ map_to_list (cfg_Routers cfg) -> Forall2 (spec_for built) routers specs -> routers_ok cfg ->
  match Manager_Route (add_all specs) req with
  | Some r => exists name rc mws, router_wins cfg req name rc /\ instances_of built (rc_Middlewares rc) mws /\
      rt_Handler r = mkRouteHandler (rc_Service rc) mws
  | None => forall name rc, cfg_Routers cfg !! name = Some (Some rc) -> ~ rule_matches rc req
  end.
Proof.
  intros Hr Hspecs Hoks. destruct (table_routes cfg built routers specs Hr Hspecs Hoks) as [Hto Hfrom].
  pose proof (Route_best specs req) as Hb. unfold best_route in Hb.
  destruct (Manager_Route (add_all specs) req) as [r|].
  - destruct Hb as (Hin & Hm & Hbest). destruct (Hto r Hin) as (name & rc & m & mws & Hrc & Hp & Hmws & ->).
    exists name, rc, mws. split_and!; [|done|done]. split_and!; [done|by exists m|].
    intros name' rc' Hrc' (m' & Hp' & Hm'). destruct (Hfrom name' rc' m' Hrc' Hp') as (r' & Hin' & <- & <- & <-).
    by apply Hbest.
  - intros name rc Hrc (m & Hp & Hm). destruct (Hfrom name rc m Hrc Hp) as (r & Hin & <- & _). by rewrite Hb in Hm.
Qed.

(** A state that serves the configuration another was built for: requests change what the services and
    the limiters hold, not which there are. *)
Definition same_tables (s s' : appState R Lim) : Prop :=
  as_routerMgr s' = as_routerMgr s /\
  forall n, is_Some (GetInstance n (as_svcMgr s')) <-> is_Some (GetInstance n (as_svcMgr s)).

Lemma put_core_tables name p (s : appState R Lim) :
  is_Some (GetInstance name (as_svcMgr s)) -> same_tables s (put_core name p s).
Proof.
  intros H. split; [done|]. intros n. unfold put_core, GetInstance. cbn [as_svcMgr sm_instances].
  rewrite lookup_insert_is_Some'. unfold GetInstance in H. split; [intros [<-|]; done|by right].
Qed.
End dispatch.

Section claims.
Context {R : Type} `{!Rand R} {Lim : Type} `{!RateLib Lim} `{!GoSort float64 f64_less}.
Context {tables : UnicodeTables} {decoder : JSONDecoder} {sort : GoSort (Route RouteHandler) route_less}.
Context {W : Type} `{!Env W} `{!Client W} (A : Lens W (appState R Lim)).
Context (open_log : string -> option (Lens W (list accessLogEntry))).
Context (order : gmap string (ServiceInstance R) -> list (string * ServiceInstance R)).

Lemma route_handler_chain rh rw req w :
  route_handler A open_log order rh rw req w =
  Chain (interpret A open_log order <$> rh_middlewares rh) (service_handler A (rh_service rh)) rw req w.
Proof. unfold route_handler. by destruct (rh_middlewares rh). Qed.

(** C1. End to end, once the configuration is accepted: a request goes to a router that matches it and that
    no matching router beats (priority, then length of the rule), through the middlewares listed for
    it, in order, to the backend selection of its service; every use of a middleware name, on whatever
    route, is one instance.  With no matching router it goes to the service "default" if it is
    configured, and is answered 502 otherwise. *)
Theorem app_dispatch now (seed : string -> R) services routers cfg st :
  config_complete cfg ->
  services ≡ₚ map_to_list (cfg_Services cfg) -> routers ≡ₚ map_to_list (cfg_Routers cfg) ->
  initialize now seed services routers cfg = Some (st, None) ->
  exists built : gmap string Built, forall req w, same_tables st (lget A w) ->
    (exists name rc mws, router_wins cfg req name rc /\ is_Some (cfg_Services cfg !! rc_Service rc) /\
       instances_of built (rc_Middlewares rc) mws /\
       forall rw, app_ServeHTTP A open_log order rw req w =
         Chain (interpret A open_log order <$> mws) (service_handler A (rc_Service rc)) rw req w) \/
    ((forall name rc, cfg_Routers cfg !! name = Some (Some rc) -> ~ rule_matches rc req) /\
     forall rw, app_ServeHTTP A open_log order rw req w =
       match cfg_Services cfg !! "default"%string with
       | Some _ => service_handler A "default" rw req w
       | None => mkServed (http_Error "No matching service" 502 rw) (req_Header req) (req_Body req) w
       end).
Proof.
  intros Hc Hs Hr Hinit. pose proof (initialize_ok (Lim := Lim) now seed services routers cfg Hc Hs Hr) as H.
  rewrite Hinit in H. destruct H as (mgr & Hmgr & _ & Hsvc & _ & (specs & built & Hspecs & Hrm) & Hoks).
  exists built. intros req w [Htab Hinst].
  pose proof (Route_wins cfg built routers specs req Hr Hspecs Hoks) as Hroute.
  unfold app_ServeHTTP. rewrite Htab, Hrm. fold (add_all specs). destruct (Manager_Route (add_all specs) req) as [r|].
  - left. destruct Hroute as (name & rc & mws & Hwins & Hmws & ->). exists name, rc, mws. split_and!; [done| |done|].
    + destruct Hwins as (Hrc & _). by destruct (Hoks name _ Hrc) as (? & [= <-] & ? & _).
    + intros rw. apply route_handler_chain.
  - right. split; [done|]. intros rw. rewrite Hsvc in Hinst.
    pose proof (Hinst "default"%string) as Hd. rewrite (instances_configured _ _ _ _ _ Hc Hs Hmgr) in Hd.
    destruct (GetInstance "default" (as_svcMgr (lget A w))), (cfg_Services cfg !! "default"%string); try done.
    + destruct (proj1 Hd ltac:(done)); done.
    + destruct (proj2 Hd ltac:(done)); done.
Qed.
End claims.

Section reload_claims.
Context {R : Type} `{!Rand R} {Lim : Type} `{!RateLib Lim}.
Context {tables : UnicodeTables} {decoder : JSONDecoder} {sort : GoSort (Route RouteHandler) route_less}.

(** Whether a configuration is accepted does not depend on the order in which its maps are walked:
    initialize gets through without a panic and returns no error exactly when every health check has a
    ticker and every router is there, names a configured service and lists middlewares that can be built, and
    its rule parses.  And it panics only over a null entry or a ticker. *)
Theorem initialize_accepts now (seed : string -> R) services routers cfg :
  config_complete cfg ->
  services ≡ₚ map_to_list (cfg_Services cfg) -> routers ≡ₚ map_to_list (cfg_Routers cfg) ->
  ((exists st, initialize (Lim := Lim) now seed services routers cfg = Some (st, None)) <->
     tickers_ok cfg /\ routers_ok cfg) /\
  (initialize (Lim := Lim) now seed services routers cfg = None -> ~ runnable cfg).
Proof.
  intros Hc Hs Hr. split; [by apply initialize_iff|].
  pose proof (initialize_ok (Lim := Lim) now seed services routers cfg Hc Hs Hr) as H. intros E. by rewrite E in H.
Qed.

(** *** Hot reload *)
(** Every service of [m] was stopped; [m'] is the same manager then. *)
Definition all_stopped (m m' : ServiceManager R) : Prop :=
  forall n, option_Forall2 stopped (GetInstance n m) (GetInstance n m').

(** A server that both configurations have in the same service carries its counters over. *)
Definition counters_kept (cfg : Config) (m m' : ServiceManager R) : Prop :=
  forall n url i o svc, GetInstance n m = Some i -> c_servers (si_Collector i) !! url = Some o ->
    cfg_Services cfg !! n = Some svc -> url ∈ service_urls svc ->
    exists i' s', GetInstance n m' = Some i' /\ c_servers (si_Collector i') !! url = Some s' /\ same_counters o s'.

Lemma import_counters_kept now (seed : string -> R) cfg services (m old mgr : ServiceManager R) :
  config_complete cfg -> services ≡ₚ map_to_list (cfg_Services cfg) ->
  service_NewManager now seed cfg services = Some mgr -> all_stopped m old ->
  counters_kept cfg m (service_ImportMetrics (Some old) mgr).
Proof.
  intros Hc Hs Hmgr Hold n url i o svc Hi Ho Hsvc Hurl.
  pose proof (service_NewManager_ok now seed cfg services Hc Hs) as H. rewrite Hmgr in H. destruct H as [_ H].
  specialize (H n). rewrite Hsvc in H. destruct H as (i1 & Hi1 & Hok).
  destruct (proj2 (io_stats _ _ _ _ Hok url) Hurl) as [s1 Hs1].
  destruct (ImportMetrics_counters old mgr n url i1 s1 Hi1 Hs1) as (i' & s' & Hi' & _ & Hs' & _ & Hcount).
  exists i', s'. split_and!; [done|done|].
  specialize (Hold n). rewrite Hi in Hold. inversion Hold as [? i0 Hst Ei Ei0|]; subst.
  rewrite <- Ei0 in Hcount. destruct Hst as (_ & _ & Hcore & _).
  cbn [mbind option_bind] in Hcount. unfold si_Collector in *. by rewrite Hcore, Ho in Hcount.
Qed.

(** What a reload from a file that loads leaves. *)
Record reload_result (cfg : Config) now (seed : string -> R) services routers (s : appState R Lim)
    (r : Reloaded (R := R) (Lim := Lim)) : Prop := {
  re_cfg : as_cfg (rl_state r) = cfg;
  re_limiters : as_limiters (rl_state r) = ∅;
  re_monitors : monitors_ok (sm_instances (as_svcMgr (rl_state r)));
  re_instances : forall n, is_Some (GetInstance n (as_svcMgr (rl_state r))) <-> is_Some (cfg_Services cfg !! n);
  re_managers : exists old mgr, rl_stopped r = Some old /\ all_stopped (as_svcMgr s) old /\
    service_NewManager now seed cfg services = Some mgr /\
    as_svcMgr (rl_state r) = match rl_error r with None => service_ImportMetrics (Some old) mgr | Some _ => mgr end;
  re_outcome : match rl_error r with
    | None => routers_ok cfg /\ table_of routers NewManager (as_routerMgr (rl_state r)) /\
        rl_provider r = Some (as_svcMgr (rl_state r)) /\ counters_kept cfg (as_svcMgr s) (as_svcMgr (rl_state r))
    | Some _ => (exists added name rc rest, routers = added ++ (name, Some rc) :: rest /\ ~ router_ok cfg rc /\
        table_of added NewManager (as_routerMgr (rl_state r))) /\ rl_provider r = None
    end;
}.

Lemma reload_ok load now (seed : string -> R) running services routers (s : appState R Lim) :
  monitors_ok (sm_instances (as_svcMgr s)) -> running ≡ₚ map_to_list (sm_instances (as_svcMgr s)) ->
  (forall cfg, load = Some (Ok cfg) -> config_complete cfg /\
     services cfg ≡ₚ map_to_list (cfg_Services cfg) /\ routers cfg ≡ₚ map_to_list (cfg_Routers cfg)) ->
  match load, reload load now seed running services routers s with
  | None, r => r = None
  | Some (Err e), r => r = Some (mkReloaded s None None (Some (ParseConfig e)))
  | Some (Ok cfg), None => ~ runnable cfg
  | Some (Ok cfg), Some r => reload_result cfg now seed (services cfg) (routers cfg) s r
  end.
Proof.
  intros Hmon Hrun Hload. unfold reload. destruct load as [[cfg|e]|]; cbn [mbind option_bind]; [|done..].
  destruct (Hload cfg eq_refl) as (Hc & Hs & Hr).
  destruct (service_Stop_ok running (as_svcMgr s) Hmon Hrun) as (old & -> & Hold). cbn [mbind option_bind].
  pose proof (initialize_ok (Lim := Lim) now seed (services cfg) (routers cfg) cfg Hc Hs Hr) as H.
  destruct (initialize now seed (services cfg) (routers cfg) cfg) as [[st err]|]; cbn [mbind option_bind]; [|done].
  destruct H as (mgr & Hmgr & Hcfg & Hsvc & Hlim & Herr).
  pose proof (instances_configured now seed cfg _ mgr Hc Hs Hmgr) as Hinst.
  pose proof (built_monitors now seed cfg _ mgr Hc Hs Hmgr) as Hmons.
  destruct err as [e|]; split; cbn [rl_state rl_error rl_provider rl_stopped as_cfg as_svcMgr as_routerMgr as_limiters];
    rewrite ?Hsvc; try done.
  - by exists old, mgr.
  - destruct Herr as (d & name & rc & rest & Hd & Ht & Hno). split; [|done]. by exists d, name, rc, rest.
  - by apply import_monitors.
  - intros n. by rewrite import_instances.
  - by exists old, mgr.
  - destruct Herr as [Ht Hoks]. split_and!; [done..|]. by eapply import_counters_kept.
Qed.

(** C35. What a reload leaves.  A file at which Load panics ends the program; one that does not load changes
    nothing.  One that loads replaces the state in every case, unless a null entry or a ticker panics: the
    old services are stopped and the new ones are those of the new configuration.  If its routers are
    all in order, the route table is the one they make, every server kept in its service keeps its
    counters and the dashboard follows the new services.  If one is not, an error is returned and yet
    the new services are running, with fresh counters, behind the routes of the routers before the
    first that is not, and the dashboard still shows the stopped services: the old configuration is
    gone. *)
Theorem reload_outcomes load now (seed : string -> R) running services routers (s : appState R Lim) :
  monitors_ok (sm_instances (as_svcMgr s)) -> running ≡ₚ map_to_list (sm_instances (as_svcMgr s)) ->
  (forall cfg, load = Some (Ok cfg) -> config_complete cfg /\
     services cfg ≡ₚ map_to_list (cfg_Services cfg) /\ routers cfg ≡ₚ map_to_list (cfg_Routers cfg)) ->
  match load, reload load now seed running services routers s with
  | None, r => r = None
  | Some (Err e), r => r = Some (mkReloaded s None None (Some (ParseConfig e)))
  | Some (Ok cfg), None => ~ runnable cfg
  | Some (Ok cfg), Some r => reload_result cfg now seed (services cfg) (routers cfg) s r
  end.
Proof. apply reload_ok. Qed.
End reload_claims.

(** ** Witnesses: one service, one router *)
#[local] Instance app_Rand : Rand unit := fun _ => (f64_of_Z 0, tt).
#[local] Instance app_RateLib : RateLib nat := {|
  rate_NewLimiter _ burst := Z.to_nat burst;
  rate_Allow _ tokens := (pred tokens, (0 <? tokens)%nat);
|}.

Definition app_sort : GoSort (Route RouteHandler) route_less :=
  insertion_GoSort route_less (fun x y => swo_asym x y).

Definition app_router (service : string) : RouterConfig :=
  mkRouter "PathPrefix('/api')" 10 ["headers"; "rate-limit"]%string service.

Definition app_config (service : string) : Config := fill_defaults
  (mkConfig 0 0 [mkServer "http://b1" "b1" 0 0 (mkHC "" 0 0 0)] "roundrobin" 0 0 0 0 0 0 (f64_of_Z 0) 0 0 0 0 ""
     (mkAuth "" "") (mkTLS false "" "" false) (mkCORS [] [] []) false ∅ (mkTimeouts 0 0 0)
     ∅ {[ "api" := Some (app_router service) ]} ∅)%string.

Definition app_initialize (service : string) : option (appState unit nat * option InitError) :=
  initialize (tables := example_tables) (decoder := example_decoder) (sort := app_sort)
    (fun _ => 0) (fun _ => tt) (map_to_list (cfg_Services (app_config service)))
    (map_to_list (cfg_Routers (app_config service))) (app_config service).

Lemma app_router_only service name rc :
  cfg_Routers (app_config service) !! name = Some rc -> rc = Some (app_router service).
Proof.
  intros H.
  change (({[ "api"%string := Some (app_router service) ]} : gmap string (option RouterConfig)) !! name = Some rc) in H.
  by apply lookup_singleton_Some in H as [_ <-]. Qed.

Lemma app_dispatch_witness :
  exists st, app_initialize "default" = Some (st, None) /\
    forall w : Sim (appState unit nat), same_tables st (lget (sim_lens _) w) ->
      exists mws, length mws = 2%nat /\ forall rw,
        app_ServeHTTP (sim_lens _) (fun _ => None) map_to_list rw (request "GET" "/api/x" ∅) w =
        Chain (interpret (sim_lens _) (fun _ => None) map_to_list <$> mws) (service_handler (sim_lens _) "default")
          rw (request "GET" "/api/x" ∅) w.
Proof.
  assert (snd <$> app_initialize "default" = Some None) as He by (vm_compute; reflexivity).
  destruct (app_initialize "default") as [[st err]|] eqn:Einit; [|discriminate He].
  cbn in He. injection He as ->. exists st. split; [reflexivity|].
  destruct (app_dispatch (tables := example_tables) (decoder := example_decoder) (sort := app_sort)
    (sim_lens (appState unit nat)) (fun _ => None) map_to_list (fun _ => 0) (fun _ => tt)
    (map_to_list (cfg_Services (app_config "default"))) (map_to_list (cfg_Routers (app_config "default")))
    (app_config "default") st) as [built H].
  - apply fill_defaults_complete.
  - reflexivity.
  - reflexivity.
  - exact Einit.
  - intros w Hw. destruct (H (request "GET" "/api/x" ∅) w Hw) as [(name & rc & mws & (Hrc & _) & _ & Hmws & Hserve)|[Hno _]].
    + apply app_router_only in Hrc. injection Hrc as ->. exists mws. split; [|exact Hserve].
      symmetry. exact (Forall2_length _ _ _ Hmws).
    + exfalso. apply (Hno "api"%string (app_router "default")); [reflexivity|].
      destruct (parse_rule (tables := example_tables) (rc_Rule (app_router "default"))) as [m|e] eqn:Em;
        [|vm_compute in Em; discriminate Em].
      exists m. split; [exact Em|].
      assert (default false ((fun r => match r with Ok f => Some (f (request "GET" "/api/x" ∅)) | Err _ => None end)
        (parse_rule (tables := example_tables) (rc_Rule (app_router "default")))) = true) as Hm by (vm_compute; reflexivity).
      rewrite Em in Hm. exact Hm.
Defined.

Lemma initialize_accepts_witness :
  forall st, app_initialize "nobody" <> Some (st, None).
Proof.
  intros st Hst.
  destruct (initialize_accepts (Lim := nat) (tables := example_tables) (decoder := example_decoder) (sort := app_sort)
    (fun _ => 0) (fun _ => tt) (map_to_list (cfg_Services (app_config "nobody")))
    (map_to_list (cfg_Routers (app_config "nobody"))) (app_config "nobody")) as [Hiff _].
  - apply fill_defaults_complete.
  - reflexivity.
  - reflexivity.
  - destruct (proj1 Hiff (ex_intro _ st Hst)) as [_ Hoks].
    destruct (Hoks "api"%string (Some (app_router "nobody")) eq_refl) as (rc & E & [svc Hsvc] & _).
    injection E as <-. discriminate Hsvc.
Defined.

(** A null router ends the program, and so does a router that lists a null middleware. *)
Example null_router_panics :
  add_routers (tables := example_tables) (decoder := example_decoder) (sort := app_sort)
    [("api"%string, None)] w_manager (NewBuilder example_config) NewManager = None /\
  add_routers (tables := example_tables) (decoder := example_decoder) (sort := app_sort)
    [("api"%string, Some (mkRouter "PathPrefix('/api')" 10 ["nothing"]%string "a"))] w_manager
    (NewBuilder example_config) NewManager = None.
Proof. split; reflexivity. Qed.

(** The configuration that names an unknown service is refused, and is the one in force. *)
Definition app_state : appState unit nat := mkApp (app_config "default") w_manager NewManager ∅.

Lemma reload_outcomes_witness :
  exists r, reload (tables := example_tables) (decoder := example_decoder) (sort := app_sort)
      (Some (Ok (app_config "nobody"))) (fun _ => 0) (fun _ => tt) (map_to_list (sm_instances w_manager))
      (fun cfg => map_to_list (cfg_Services cfg)) (fun cfg => map_to_list (cfg_Routers cfg)) app_state = Some r /\
    as_cfg (rl_state r) = app_config "nobody" /\ rl_error r <> None /\ rl_provider r = None.
Proof.
  pose proof (reload_outcomes (tables := example_tables) (decoder := example_decoder) (sort := app_sort)
    (Some (Ok (app_config "nobody"))) (fun _ => 0) (fun _ => tt) (map_to_list (sm_instances w_manager))
    (fun cfg => map_to_list (cfg_Services cfg)) (fun cfg => map_to_list (cfg_Routers cfg)) app_state) as H.
  assert (monitors_ok (sm_instances w_manager)) as Hmon.
  { intros n i mon Hi Hmon. exfalso. unfold w_manager in Hi. cbn [sm_instances] in Hi.
    apply lookup_insert_Some in Hi as [[_ <-]|[_ [_ <-]%lookup_singleton_Some]]; discriminate Hmon. }
  specialize (H Hmon (Permutation_refl _)).
  assert (runnable (app_config "nobody")) as Hrun by (refine (bool_decide_eq_true_1 _ _); vm_compute; reflexivity).
  cbn beta iota in H. destruct (reload (Some _) _ _ _ _ _ app_state) as [r|] eqn:Hr.
  2: { exfalso. refine (H _ Hrun).
       intros cfg E. injection E as <-. split; [apply fill_defaults_complete|]. split; reflexivity. }
  destruct H as [Hcfg _ _ _ _ Hout].
  - intros cfg E. injection E as <-. split; [apply fill_defaults_complete|]. split; reflexivity.
  - exists r. split; [reflexivity|]. split; [exact Hcfg|]. destruct (rl_error r) as [e|].
    + destruct Hout as (_ & Hp). split; [discriminate|exact Hp].
    + destruct Hout as (Hoks & _). exfalso.
      destruct (Hoks "api"%string (Some (app_router "nobody")) eq_refl) as (rc & E & [svc Hsvc] & _).
      injection E as <-. discriminate Hsvc.
Defined.
