(* ===== verification/Pipeline.v ===== *)
(** * Every handler of the program, composed

    Each middleware reaches its writer only through the interface of [http.ResponseWriter] when the next
    handler does ([uses_writer], the interface of GoHttp.v), and the proxy does.  So any chain of built
    middlewares in front of the application does, and what is proved of a middleware for every next
    handler holds of the composed program. *)
From S2P Require Import Prelude GoFloat GoSort GoStrings NetIP GoHttp Collector Selector Balancer Canary Env Stability Config Proxy SharedCore Service.
From S2P Require Import RuleSyntax Routes Middlewares Retry CircuitBreaker RateLimit AccessLog Builder App.
Open Scope Z_scope.

(** A middleware that keeps to the interface. *)
Definition keeps_interface {W : Type} (mw : Middleware W) : Prop :=
  forall next, uses_writer next -> uses_writer (mw next).

Lemma chain_keeps {W : Type} (mws : list (Middleware W)) :
  Forall keeps_interface mws -> keeps_interface (Chain mws).
Proof.
  intros H next Hnext. induction H as [|mw mws Hmw _ IH]; [done|]. by apply Hmw.
Qed.

(** ** The wrappers pass their calls on *)
Lemma cb_step inner c wr rw' :
  writer_step (CbRecorder inner c wr) rw' -> exists inner' c' wr', rw' = CbRecorder inner' c' wr' /\ writer_step inner inner'.
Proof.
  intros H. inversion H as [h E|code Hcode E|data E]; subst; simpl.
  - do 3 eexists. split; [done|]. constructor.
  - do 3 eexists. split; [done|]. by constructor.
  - destruct (rw_Write data inner) as [inner' n] eqn:E. do 3 eexists. split; [done|].
    replace inner' with (rw_Write data inner).1 by (by rewrite E). constructor.
Qed.

Lemma status_step inner c n wr rw' :
  writer_step (StatusRecorder inner c n wr) rw' ->
  exists inner' c' n' wr', rw' = StatusRecorder inner' c' n' wr' /\ writer_step inner inner'.
Proof.
  intros H. inversion H as [h E|code Hcode E|data E]; subst; simpl.
  - do 4 eexists. split; [done|]. constructor.
  - do 4 eexists. split; [done|]. by constructor.
  - destruct (rw_Write data inner) as [inner' m] eqn:E. do 4 eexists. split; [done|].
    replace inner' with (rw_Write data inner).1 by (by rewrite E). constructor.
Qed.

Lemma cb_steps rw rw' :
  rtc writer_step rw rw' -> forall inner c wr, rw = CbRecorder inner c wr -> rtc writer_step inner (cb_inner rw').
Proof.
  induction 1 as [rw|rw rw1 rw' Hstep _ IH]; intros inner c wr ->; [done|].
  destruct (cb_step _ _ _ _ Hstep) as (inner1 & c1 & wr1 & -> & Hs). eapply rtc_l; [done|]. by eapply IH.
Qed.

Lemma status_steps rw rw' :
  rtc writer_step rw rw' -> forall inner c n wr, rw = StatusRecorder inner c n wr -> rtc writer_step inner (sr_inner rw').
Proof.
  induction 1 as [rw|rw rw1 rw' Hstep _ IH]; intros inner c n wr ->; [done|].
  destruct (status_step _ _ _ _ _ Hstep) as (inner1 & c1 & n1 & wr1 & -> & Hs). eapply rtc_l; [done|]. by eapply IH.
Qed.

Lemma set_steps k v rw : rtc writer_step rw (rw_Set k v rw).
Proof. apply rtc_once, ws_header. Qed.

(** ** The retry loop *)
Lemma copy_headers_steps headers rw : rtc writer_step rw (copy_headers headers rw).
Proof.
  unfold copy_headers. generalize (map_to_list headers). intros l. revert rw.
  induction l as [|[k vals] l IH]; intros rw; [done|]. cbn [foldl fst snd].
  etrans; [|apply IH]. unfold add_header_values. clear. revert rw.
  induction vals as [|v vals IH]; intros rw; [done|]. cbn [foldl]. etrans; [apply rtc_once, ws_header|apply IH].
Qed.

Lemma flush_steps inner rw :
  buffering inner rw -> rtc writer_step inner (rt_inner (flush rw)).
Proof.
  intros (c & b & h & -> & Hc). cbn [flush rt_inner].
  etrans; [apply (copy_headers_steps h)|]. etrans; [apply rtc_once, ws_writeHeader, Hc|].
  destruct (0 <? length b)%nat; [apply rtc_once, ws_write|done].
Qed.

Section loop.
Context {W : Type} `{!Env W}.

(** Until the flush the client's writer is not touched. *)
Lemma retry_loop_writer n rm id (next : Handler W) attempt rw r w :
  uses_writer next ->
  match (retry_loop n rm id next attempt rw r w).1.1 with
  | Commit lw => buffering rw lw
  | Disconnected rw' => rw' = rw
  end.
Proof.
  intros Hnext. revert attempt r w. induction n as [|n IH]; intros attempt r w; [done|]. cbn [retry_loop].
  destruct (await_turn rm id attempt r w) as [ready w1]. destruct (negb ready); [done|].
  set (req := WithContext _ r).
  pose proof (uses_writer_buffered next rw req w1 Hnext) as Hb.
  destruct (negb _ || _); [done|].
  destruct Hb as (c & b & h & -> & _). cbn [rt_inner]. apply IH.
Qed.

Lemma retry_keeps attempts ms : keeps_interface (NewRetry (W := W) attempts ms).
Proof.
  intros next Hnext rw r w. unfold NewRetry.
  pose proof (retry_loop_writer (Z.to_nat (rm_maxAttempts (retry_settings attempts ms))) (retry_settings attempts ms)
    (RequestIDFromContext (req_ctx r)) next 1 rw r w Hnext) as H.
  destruct (retry_loop _ _ _ _ _ _ _ _) as [[e r'] w']. cbn [fst] in H. destruct e as [lw|rw']; cbn [sv_w].
  - apply flush_steps. eapply buffering_step; [apply ws_header|exact H].
  - subst. by apply http_Error_steps.
Qed.

(** ** The other middlewares *)
Lemma headers_keeps : keeps_interface (W := W) RequestHeaders.
Proof.
  intros next Hnext rw r w. rewrite RequestHeaders_enrich. destruct (enrich r w) as [[id h] w'].
  etrans; [apply set_steps|apply Hnext].
Qed.

Lemma cors_keeps cfg : keeps_interface (W := W) (CORS cfg).
Proof.
  intros next Hnext rw r w. unfold CORS. do 4 (etrans; [apply set_steps|]).
  destruct (String.eqb _ _); [by apply rtc_once, ws_writeHeader|apply Hnext].
Qed.

Lemma auth_keeps username password : keeps_interface (W := W) (BasicAuth username password).
Proof.
  intros next Hnext rw r w. unfold BasicAuth. destruct (_ || _); [apply Hnext|].
  destruct (req_BasicAuth r) as [[user pass]|]; [destruct (_ || _); [|apply Hnext]|];
    (etrans; [apply set_steps|by apply http_Error_steps]).
Qed.

Lemma timeout_keeps high medium low : keeps_interface (W := W) (NewPriorityTimeout high medium low).
Proof. intros next Hnext rw r w. unfold NewPriorityTimeout. destruct (env_Now w). apply Hnext. Qed.

Lemma breaker_keeps (registry : ServiceRegistry W) : keeps_interface (NewCircuitBreaker registry).
Proof.
  intros next Hnext rw r w. unfold NewCircuitBreaker.
  pose proof (cb_steps _ _ (Hnext (CbRecorder rw 200 false) r w) rw 200 false eq_refl) as H.
  by destruct (String.eqb _ _).
Qed.

Lemma accesslog_keeps logger : keeps_interface (W := W) (NewAccessLog logger).
Proof.
  intros next Hnext rw r w. unfold NewAccessLog. destruct (env_Now w) as [start w0].
  pose proof (status_steps _ _ (Hnext (StatusRecorder rw 200 0 false) r w0) rw 200 0 false eq_refl) as H.
  destruct (env_Now (sv_world _)) as [finish w1]. by destruct (env_Now w1) as [stamp w2].
Qed.

Lemma ratelimit_keeps {Lim : Type} `{!RateLib Lim} (L : Lens W (PerIPRateLimiter Lim)) : keeps_interface (rateLimit L).
Proof.
  intros next Hnext rw r w. unfold rateLimit. destruct (env_Now w) as [now w0].
  destruct (getLimiter _ _ _) as [rl limiter]. destruct (env_Now _) as [now' w1].
  destruct (allow_ip _ _ _ _) as [rl' ok]. destruct (negb ok); [|apply Hnext].
  cbn [sv_w]. etrans; [apply set_steps|by apply http_Error_steps].
Qed.
End loop.

(** ** Invariants of the world *)
Section invariants.
Context {W : Type} `{!Env W} `{!Client W} (I : W -> Prop) `{!Stable I}.

Ltac clock := stable_clock I.

Lemma await_turn_keeps rm id attempt r w : I w -> I (await_turn rm id attempt r w).2.
Proof.
  intros H. unfold await_turn. destruct (1 <? attempt); [|done]. unfold calculateBackoff.
  apply stable_Float64 in H. destruct (env_Float64 w) as [draw w1]. by apply select_timer_stable, stable_Info.
Qed.

Lemma retry_loop_keeps n rm id next attempt rw r w :
  keeps I next -> I w -> I (retry_loop n rm id next attempt rw r w).2.
Proof.
  intros Hnext. revert attempt rw r w. induction n as [|n IH]; intros attempt rw r w H; [done|]. cbn [retry_loop].
  pose proof (await_turn_keeps rm id attempt r w H) as H1.
  destruct (await_turn rm id attempt r w) as [ready w1]. cbn [snd] in H1. destruct (negb ready); [done|].
  destruct (negb _ || _); [by apply Hnext|]. by apply IH, stable_Info, Hnext.
Qed.

Lemma keeps_retry attempts ms next : keeps I next -> keeps I (NewRetry attempts ms next).
Proof.
  intros Hnext rw r w H. unfold NewRetry.
  pose proof (retry_loop_keeps (Z.to_nat (rm_maxAttempts (retry_settings attempts ms))) (retry_settings attempts ms)
    (RequestIDFromContext (req_ctx r)) next 1 rw r w Hnext H) as H1.
  by destruct (retry_loop _ _ _ _ _ _ _ _) as [[[lw|rw'] r'] w'].
Qed.

Lemma keeps_headers next : keeps I next -> keeps I (RequestHeaders next).
Proof.
  intros Hnext rw r w H. unfold RequestHeaders, generateRequestID.
  destruct (String.eqb (Header_Get _ "X-Request-ID") ""); [|by apply Hnext].
  apply (stable_RandBytes 16) in H. destruct (env_RandBytes 16 w) as [b w1]. by apply Hnext.
Qed.

Lemma keeps_cors cfg next : keeps I next -> keeps I (CORS cfg next).
Proof. intros Hnext rw r w H. unfold CORS. destruct (String.eqb _ _); [done|by apply Hnext]. Qed.

Lemma keeps_auth username password next : keeps I next -> keeps I (BasicAuth username password next).
Proof.
  intros Hnext rw r w H. unfold BasicAuth. destruct (_ || _); [by apply Hnext|].
  destruct (req_BasicAuth r) as [[user pass]|]; [destruct (_ || _)|]; try done. by apply Hnext.
Qed.

Lemma keeps_timeout high medium low next : keeps I next -> keeps I (NewPriorityTimeout high medium low next).
Proof. intros Hnext rw r w H. unfold NewPriorityTimeout. clock. by apply Hnext. Qed.

Lemma keeps_accesslog logger next :
  (forall L, logger = Some L -> insensitive I L) -> keeps I next -> keeps I (NewAccessLog logger next).
Proof.
  intros HL Hnext rw r w H. unfold NewAccessLog. clock.
  match goal with H : I ?w |- _ => pose proof (Hnext (StatusRecorder rw 200 0 false) r w H) as H1 end.
  destruct (env_Now (sv_world _)) as [finish w1] eqn:E. apply stable_Now in H1. rewrite E in H1. cbn [snd] in H1.
  clock. cbn [sv_world]. destruct logger as [L|]; [|done]. by apply HL.
Qed.

Lemma keeps_breaker (registry : ServiceRegistry W) next :
  (forall record url ok w, registry = Some record -> I w -> I (record url ok w)) ->
  keeps I next -> keeps I (NewCircuitBreaker registry next).
Proof.
  intros Hrec Hnext rw r w H. unfold NewCircuitBreaker. pose proof (Hnext (CbRecorder rw 200 false) r w H) as H1.
  destruct (String.eqb _ _); [done|]. destruct registry as [record|]; [|done]. cbn [sv_world]. by apply Hrec.
Qed.

Lemma keeps_ratelimit {Lim : Type} `{!RateLib Lim} (L : Lens W (PerIPRateLimiter Lim)) next :
  insensitive I L -> keeps I next -> keeps I (rateLimit L next).
Proof.
  intros HL Hnext rw r w H. unfold rateLimit. clock. destruct (getLimiter _ _ _) as [rl limiter].
  match goal with H : I ?w |- _ => apply (HL rl) in H end. clock.
  destruct (allow_ip _ _ _ _) as [rl' ok].
  match goal with H : I ?w |- _ => apply (HL rl') in H end. destruct (negb ok); [done|by apply Hnext].
Qed.

End invariants.

(** ** The application *)
Section application.
Context {R : Type} `{!Rand R} {Lim : Type} `{!RateLib Lim} `{!GoSort float64 f64_less}.
Context {W : Type} `{!Env W} `{!Client W} (A : Lens W (appState R Lim)).
Context (open_log : string -> option (Lens W (list accessLogEntry))).
Context (order : gmap string (ServiceInstance R) -> list (string * ServiceInstance R)).

Lemma interpret_with_keeps limiters (reg : ServiceRegistry W) b :
  keeps_interface (interpret_with (Lim := Lim) open_log limiters reg b).
Proof.
  destruct b; simpl;
    [apply ratelimit_keeps|apply auth_keeps|apply retry_keeps|apply accesslog_keeps|apply headers_keeps
    |apply timeout_keeps|apply breaker_keeps|apply cors_keeps].
Qed.

Lemma interpret_keeps b : keeps_interface (interpret A open_log order b).
Proof. apply interpret_with_keeps. Qed.

(** What a built middleware does to the world, given what its limiter and its registry do. *)
Lemma keeps_interpret_with (I : W -> Prop) `{!Stable I} limiters (reg : ServiceRegistry W) b next :
  (forall id rps burst, insensitive I (limiters id rps burst)) ->
  (forall record url ok w, reg = Some record -> I w -> I (record url ok w)) ->
  (forall path L, open_log path = Some L -> insensitive I L) ->
  keeps I next -> keeps I (interpret_with (Lim := Lim) open_log limiters reg b next).
Proof.
  intros Hlim Hreg Hlog Hnext. destruct b; simpl.
  - by apply keeps_ratelimit.
  - by apply keeps_auth.
  - by apply keeps_retry.
  - apply keeps_accesslog; [done| |done]. intros L. destruct (String.eqb _ _); [done|]. apply Hlog.
  - by apply keeps_headers.
  - by apply keeps_timeout.
  - by apply keeps_breaker.
  - by apply keeps_cors.
Qed.

Lemma built_chain_keeps mws : keeps_interface (Chain (interpret A open_log order <$> mws)).
Proof. apply chain_keeps, Forall_fmap, Forall_true. intros b. apply interpret_keeps. Qed.

Lemma service_uses_writer name : final_responses W -> uses_writer (service_handler A name).
Proof. apply proxy_uses_writer. Qed.

Lemma app_uses_writer : final_responses W -> uses_writer (app_ServeHTTP A open_log order).
Proof.
  intros Hfinal rw req w. unfold app_ServeHTTP. destruct (Manager_Route _ req) as [route|].
  - rewrite route_handler_chain. by apply built_chain_keeps, service_uses_writer.
  - destruct (GetInstance _ _); [by apply service_uses_writer|by apply http_Error_steps].
Qed.

(** *** Requests change no table *)
Section tables.
Context (Horder : forall instances, order instances ≡ₚ map_to_list instances).
Context (st : appState R Lim).

Definition serves (w : W) : Prop := same_tables st (lget A w).

Context `{!Stable serves}.
Context (Hlog : forall path L, open_log path = Some L -> insensitive serves L).

Lemma same_tables_trans (s1 s2 s3 : appState R Lim) : same_tables s1 s2 -> same_tables s2 s3 -> same_tables s1 s3.
Proof. intros [H1 H2] [H3 H4]. split; [congruence|]. intros n. by rewrite H4. Qed.

Lemma limiter_insensitive id rps burst : insensitive serves (compose_lens A (limiter_lens id rps burst)).
Proof. intros rl w [Hr Hi]. unfold serves. simpl. by rewrite lget_put. Qed.

Lemma core_insensitive name :
  is_Some (GetInstance name (as_svcMgr st)) -> insensitive serves (compose_lens A (core_lens name)).
Proof.
  intros Hname p w H. unfold serves. simpl. rewrite lget_put. eapply same_tables_trans; [exact H|].
  apply put_core_tables. by apply H.
Qed.

Lemma record_loop_dom url success t1 t2 entries (instances : gmap string (ServiceInstance R)) n :
  (forall n i, (n, i) ∈ entries -> instances !! n = Some i) ->
  is_Some (record_loop url success t1 t2 entries instances !! n) <-> is_Some (instances !! n).
Proof.
  induction entries as [|[n' i] entries IH]; intros H; simpl; [done|].
  destruct (si_Breakers i !! url).
  - rewrite lookup_insert_is_Some'. split; [intros [<-|]; [|done]|by right]. rewrite (H n' i); [done|left].
  - apply IH. intros n'' i' Hin. apply H. by right.
Qed.

Lemma registry_keeps record url ok w : registry A order = Some record -> serves w -> serves (record url ok w).
Proof.
  intros [= <-] H. apply (stable_Now (I := serves)) in H. destruct (env_Now w) as [t1 w1]. cbn [snd] in H.
  apply (stable_Now (I := serves)) in H. destruct (env_Now w1) as [t2 w2]. cbn [snd] in H.
  unfold serves. rewrite lget_modify. eapply same_tables_trans; [exact H|]. split; [done|].
  intros n. unfold GetInstance; simpl. apply record_loop_dom. intros n' i. by rewrite Horder, elem_of_map_to_list.
Qed.

Lemma interpret_keeps_tables b next : keeps serves next -> keeps serves (interpret A open_log order b next).
Proof.
  intros Hnext. apply keeps_interpret_with; try done.
  - apply limiter_insensitive.
  - intros record url ok w. apply registry_keeps.
Qed.

Lemma service_keeps_tables name :
  is_Some (GetInstance name (as_svcMgr st)) -> keeps serves (service_handler A name).
Proof. intros H. exact (proxy_keeps serves _ (insensitive_respects _ _ _ (core_insensitive name H))). Qed.

Lemma chain_keeps_tables mws next :
  keeps serves next -> keeps serves (Chain (interpret A open_log order <$> mws) next).
Proof. intros Hnext. induction mws as [|b mws IH]; [done|]. by apply interpret_keeps_tables. Qed.
End tables.

(** C33. The access log of an entrypoint is right about the whole program, HEAD requests aside.  Put in front
    of any chain of built middlewares over the application, in any state and whatever the environment
    does, it gets one entry per request, with the status that the client received and, unless the request
    is a HEAD, the number of body bytes that it received.  To a HEAD nothing is sent, whatever the entry
    counts. *)
Theorem program_access_log (L : Lens W (list accessLogEntry)) `{!Frame L} mws h r w :
  final_responses W ->
  logs_once L (Chain (interpret A open_log order <$> mws) (app_ServeHTTP A open_log order)) h r w.
Proof. intros Hfinal. apply NewAccessLog_entry; [done|]. by apply built_chain_keeps, app_uses_writer. Qed.

Section routing.
Context {tables : UnicodeTables} {decoder : JSONDecoder} {sort : GoSort (Route RouteHandler) route_less}.

(** Serving changes no table.  Once a configuration is accepted, a request, whatever it is and however the
    requests of other clients are interleaved with it, leaves the route table and the set of services as
    they are: the hypothesis under which requests are dispatched holds for good. *)
Theorem requests_keep_routing now (seed : string -> R) services routers cfg st `{!Stable (serves st)} :
  config_complete cfg ->
  services ≡ₚ map_to_list (cfg_Services cfg) -> routers ≡ₚ map_to_list (cfg_Routers cfg) ->
  (forall instances, order instances ≡ₚ map_to_list instances) ->
  (forall path L, open_log path = Some L -> insensitive (serves st) L) ->
  initialize now seed services routers cfg = Some (st, None) ->
  keeps (serves st) (app_ServeHTTP A open_log order).
Proof.
  intros Hc Hs Hr Horder Hlog Hinit rw req w Hw.
  pose proof (initialize_ok (Lim := Lim) now seed services routers cfg Hc Hs Hr) as H.
  rewrite Hinit in H. destruct H as (mgr & Hmgr & _ & Hmgr' & _ & (specs & built & Hspecs & Hrm) & Hoks).
  pose proof (Route_wins cfg built routers specs req Hr Hspecs Hoks) as Hroute.
  pose proof (instances_configured _ _ _ _ _ Hc Hs Hmgr) as Hinst.
  rewrite <- Hmgr' in Hinst.
  unfold app_ServeHTTP. pose proof Hw as [Htab Hdom]. rewrite Htab, Hrm. fold (add_all specs).
  destruct (Manager_Route (add_all specs) req) as [r|].
  - destruct Hroute as (name & rc & mws & (Hrc & _) & _ & ->). rewrite route_handler_chain.
    refine (chain_keeps_tables Horder _ Hlog mws _ (service_keeps_tables _ _ _) rw req w Hw).
    apply Hinst. by destruct (Hoks name _ Hrc) as (? & [= <-] & ? & _).
  - specialize (Hdom "default"%string). destruct (GetInstance "default" (as_svcMgr (lget A w))); [|done].
    refine (service_keeps_tables _ _ _ rw req w Hw). by apply Hdom.
Qed.
End routing.
End application.

(** ** A witness: no router, no default service *)
#[local] Instance pipeline_Rand : Rand unit := fun _ => (f64_of_Z 0, tt).
#[local] Instance pipeline_RateLib : RateLib nat := app_RateLib.

Definition pair_fst {S T : Type} : Lens (S * T) S := mkLens fst (fun s p => (s, p.2)) (fun s p => eq_refl).
Definition pair_snd {S T : Type} : Lens (S * T) T := mkLens snd (fun t p => (p.1, t)) (fun t p => eq_refl).

Definition w_app : Lens (Sim (appState unit nat * list accessLogEntry)) (appState unit nat) :=
  compose_lens (sim_lens _) pair_fst.
Definition w_log : Lens (Sim (appState unit nat * list accessLogEntry)) (list accessLogEntry) :=
  compose_lens (sim_lens _) pair_snd.
Definition w_world : Sim (appState unit nat * list accessLogEntry) := mkSim 5 (app_state, []) (fun _ => None).

Lemma program_access_log_witness :
  exists entry, lget w_log (sv_world (NewAccessLog (Some w_log)
      (Chain (interpret w_app (fun _ => None) map_to_list <$> [BuiltHeaders; BuiltRateLimit 0 (f64_of_Z 1) 2])
         (app_ServeHTTP w_app (fun _ => None) map_to_list))
      (connection (sim_request "GET" "/x" Background) ∅) (sim_request "GET" "/x" Background) w_world)) = [entry] /\
    ae_StatusCode entry = 502.
Proof.
  destruct (program_access_log w_app (fun _ => None) map_to_list w_log [BuiltHeaders; BuiltRateLimit 0 (f64_of_Z 1) 2]
    ∅ (sim_request "GET" "/x" Background) w_world (sim_final _)) as (entry & Hlog & Hst & _).
  exists entry. split.
  - rewrite Hlog. reflexivity.
  - rewrite Hst. reflexivity.
Defined.

(** The entry of a HEAD that finds no service counts the twenty bytes of a page that is not sent. *)
Example head_bytes_counted :
  let sv := NewAccessLog (Some w_log) (app_ServeHTTP w_app (fun _ => None) map_to_list)
    (connection (sim_request "HEAD" "/x" Background) ∅) (sim_request "HEAD" "/x" Background) w_world in
  ae_BytesSent <$> lget w_log (sv_world sv) = [20] /\ (client_view (sv_w sv)).2 = [].
Proof. split; reflexivity. Qed.

Lemma requests_keep_routing_witness :
  exists st, app_initialize "default" = Some (st, None) /\
    forall rw req w, same_tables st (lget w_app w) ->
      same_tables st (lget w_app (sv_world (app_ServeHTTP w_app (fun _ => Some w_log) map_to_list rw req w))).
Proof.
  assert (snd <$> app_initialize "default" = Some None) as He by (vm_compute; reflexivity).
  destruct (app_initialize "default") as [[st err]|] eqn:Einit; [|discriminate He].
  cbn in He. injection He as ->. exists st. split; [reflexivity|].
  pose proof (frame_Stable w_app (same_tables st)) as Hstable.
  exact (requests_keep_routing (tables := example_tables) (decoder := example_decoder) (sort := app_sort)
    w_app (fun _ => Some w_log) map_to_list (fun _ => 0) (fun _ => tt)
    (map_to_list (cfg_Services (app_config "default"))) (map_to_list (cfg_Routers (app_config "default")))
    (app_config "default") st (fill_defaults_complete _) (reflexivity _) (reflexivity _) (fun _ => reflexivity _)
    (fun _ L E => match E in _ = o return match o with Some L => insensitive (serves w_app st) L | None => True end with
                  | eq_refl => fun l w H => H end) Einit).
Defined.
