(* ===== verification/Isolation.v ===== *)
(** * Which backends a request can reach

    The handlers send requests only where the proxy of a service sends them: to a URL of that service.  The
    way to say so of a function on the world is that its result does not depend on what any other URL
    would answer: two clients that agree on the URLs of the service make the same of every request, as
    long as an invariant [I] of the world, kept by everybody, says which servers the service has.  A
    middleware hands this from the next handler to its own ([congruent]). *)
From S2P Require Import Prelude GoFloat GoSort GoStrings NetIP GoHttp Breaker Collector Balancer Canary Selector Logging Env.
From S2P Require Import Stability Config Priority Proxy Monitor SharedCore Service RuleSyntax Routes Middlewares Retry.
From S2P Require Import CircuitBreaker RateLimit AccessLog Builder App Pipeline.
Open Scope Z_scope.

Section agreement.
Context {W : Type} `{!Env W} `{!Client W} (I : W -> Prop) `{!Stable I}.

Definition agree_on (h1 h2 : Handler W) : Prop := forall rw r w, I w -> h1 rw r w = h2 rw r w.

Definition congruent (mw : Middleware W) : Prop :=
  forall next1 next2, keeps I next1 -> agree_on next1 next2 -> agree_on (mw next1) (mw next2).

Lemma retry_loop_agree n rm id next1 next2 attempt rw r w :
  keeps I next1 -> agree_on next1 next2 -> I w ->
  retry_loop n rm id next1 attempt rw r w = retry_loop n rm id next2 attempt rw r w.
Proof.
  intros Hk Ha. revert attempt rw r w. induction n as [|n IH]; intros attempt rw r w H; [done|]. cbn [retry_loop].
  pose proof (await_turn_keeps I rm id attempt r w H) as H1.
  destruct (await_turn rm id attempt r w) as [[] w1]; cbn [snd negb] in *; [|done].
  rewrite <- (Ha _ _ _ H1). destruct (negb _ || _); [done|]. by apply IH, stable_Info, Hk.
Qed.

Lemma congruent_retry attempts ms : congruent (NewRetry attempts ms).
Proof. intros n1 n2 Hk Ha rw r w H. unfold NewRetry. by rewrite (retry_loop_agree _ _ _ n1 n2). Qed.

Lemma congruent_headers : congruent RequestHeaders.
Proof.
  intros n1 n2 Hk Ha rw r w H. unfold RequestHeaders, generateRequestID.
  destruct (String.eqb (Header_Get _ "X-Request-ID") ""); [|by apply Ha].
  apply (stable_RandBytes 16) in H. destruct (env_RandBytes 16 w) as [b w1]. by apply Ha.
Qed.

Lemma congruent_cors cfg : congruent (CORS cfg).
Proof. intros n1 n2 Hk Ha rw r w H. unfold CORS. destruct (String.eqb _ _); [done|by apply Ha]. Qed.

Lemma congruent_auth username password : congruent (BasicAuth username password).
Proof.
  intros n1 n2 Hk Ha rw r w H. unfold BasicAuth. destruct (_ || _); [by apply Ha|].
  destruct (req_BasicAuth r) as [[user pass]|]; [destruct (_ || _)|]; try done. by apply Ha.
Qed.

Lemma congruent_timeout high medium low : congruent (NewPriorityTimeout high medium low).
Proof. intros n1 n2 Hk Ha rw r w H. unfold NewPriorityTimeout. stable_clock I. by apply Ha. Qed.

Lemma congruent_accesslog logger : congruent (NewAccessLog logger).
Proof. intros n1 n2 Hk Ha rw r w H. unfold NewAccessLog. stable_clock I. by rewrite Ha. Qed.

Lemma congruent_breaker (registry : ServiceRegistry W) : congruent (NewCircuitBreaker registry).
Proof. intros n1 n2 Hk Ha rw r w H. unfold NewCircuitBreaker. by rewrite Ha. Qed.

Lemma congruent_ratelimit {Lim : Type} `{!RateLib Lim} (L : Lens W (PerIPRateLimiter Lim)) :
  insensitive I L -> congruent (rateLimit L).
Proof.
  intros HL n1 n2 Hk Ha rw r w H. unfold rateLimit. stable_clock I. destruct (getLimiter _ _ _) as [rl limiter].
  match goal with H : I ?w |- _ => apply (HL rl) in H end. stable_clock I.
  destruct (allow_ip _ _ _ _) as [rl' ok].
  match goal with H : I ?w |- _ => apply (HL rl') in H end. destruct (negb ok); [done|by apply Ha].
Qed.

Lemma congruent_interpret {R : Type} `{!Rand R} {Lim : Type} `{!RateLib Lim} open_log
    (limiters : nat -> float64 -> Z -> Lens W (PerIPRateLimiter Lim)) (reg : ServiceRegistry W) b :
  (forall id rps burst, insensitive I (limiters id rps burst)) ->
  congruent (interpret_with open_log limiters reg b).
Proof.
  intros Hlim. destruct b; simpl.
  - by apply congruent_ratelimit.
  - apply congruent_auth.
  - apply congruent_retry.
  - apply congruent_accesslog.
  - apply congruent_headers.
  - apply congruent_timeout.
  - apply congruent_breaker.
  - apply congruent_cors.
Qed.
End agreement.

(** ** The proxy *)
(** The requests to the servers [urls] of a service. *)
Definition addressed_to (urls : list string) (url : string) : Prop :=
  exists target uri, target ∈ urls /\ url = (target +:+ uri)%string.

(** Two clients that do the same with every request to [urls]. *)
Record same_backends {W : Type} (urls : list string) (c1 c2 : Client W) : Prop := {
  sb_build : forall method url, addressed_to urls url ->
    client_NewRequest_ok (Client := c1) method url = client_NewRequest_ok (Client := c2) method url;
  sb_do : forall out w, addressed_to urls (out_URL out) -> client_Do (Client := c1) out w = client_Do (Client := c2) out w;
}.

Section proxy.
Context {A : Type} `{!Algorithm A, !AlgorithmSound A} `{!GoSort float64 f64_less}.
Context {W : Type} `{!Env W} (c1 c2 : Client W) (I : W -> Prop) `{!Stable (Client0 := c1) I} (L : Lens W (Proxy A)).

(** What is selected is a server of the service. *)
Lemma proxy_select_in urls pri excluded w target :
  (forall w, I w -> r_servers (px_router (lget L w)) = urls) -> I w ->
  (proxy_select L pri excluded w).1 = Selected target -> target ∈ urls.
Proof.
  intros Hurls H. unfold proxy_select. rewrite (Hurls w H).
  destruct (candidates_in L _ _ urls w) as [[l|] w1] eqn:E; [|done]. destruct (length l =? 0)%nat; [done|].
  pose proof (algo_sound (r_algo (px_router (lget L w1))) l (Snapshot (px_metrics (lget L w))) pri) as Hsound.
  destruct (algo_Select _ _ _ _) as [a chosen]. destruct (bool_decide_reflect (chosen = ""%string)) as [|Hne]; [done|].
  destruct (env_Now _) as [now w2]. destruct (px_breakers _ !! chosen) as [b|]; [|done].
  destruct (Breaker_CanSend now b) as [b' []]; simpl; [|done].
  intros [= <-]. eapply candidates_in_subset; [exact E|by destruct Hsound].
Qed.

Lemma proxy_agree urls :
  (forall w, I w -> r_servers (px_router (lget L w)) = urls) -> same_backends urls c1 c2 ->
  agree_on I (proxy_ServeHTTP (Client0 := c1) L) (proxy_ServeHTTP (Client0 := c2) L).
Proof.
  intros Hurls [Hb Hd] rw req w H. unfold proxy_ServeHTTP.
  pose proof (proxy_select_in urls (Classify (req_Path req) (Header_Get (req_Header req) "X-Priority"))
    (ExcludedFromContext (req_ctx req)) w) as Hin.
  destruct (proxy_select L _ _ w) as [sel w1]. cbn [fst] in Hin. destruct sel as [target| | | |]; try done.
  specialize (Hin target Hurls H eq_refl).
  assert (forall uri, addressed_to urls (target +:+ uri)%string) as Haddr by (intros uri; by exists target, uri).
  unfold proxyToBackend. destruct (env_Now _) as [start w2]. destruct (attempt_timeout _ _ w2) as [timeout w3].
  destruct (env_Now w3) as [now w4]. rewrite Hb by apply Haddr. destruct (negb _); [done|].
  by rewrite Hd by apply Haddr.
Qed.
End proxy.
