(* ===== verification/ConfigDiff.v ===== *)
(** * cmd/loadbalancer/main.go: what a reload reports as changed

    [logConfigDiff] compares two configurations and logs a line per difference; a line is represented by
    what it says.  The loops range over maps: the order of the lines is the order of [map_to_list]. *)
From S2P Require Import Prelude GoFloat GoStrings Config.
Open Scope Z_scope.

Inductive ConfigChange : Type :=
| AddedService (service : string) (servers : Z)
| AddedServer (service server url : string)
| ChangedWeight (service server : string) (old new : Z)
| RemovedServer (service server url : string)
| ChangedInterval (service : string) (old new : Z)
| ChangedCanary (service : string) (old new : bool)
| RemovedService (service : string).

(** The servers by URL; the last of two with one URL stays. *)
Definition by_url (servers : list ServerConfig) : gmap string ServerConfig :=
  foldl (fun m srv => <[srv_URL srv := srv]> m) ∅ servers.

Definition diff_new_server (name : string) (oldURLs : gmap string ServerConfig) (e : string * ServerConfig)
    : list ConfigChange :=
  match oldURLs !! e.1 with
  | None => [AddedServer name (srv_Name e.2) e.1]
  | Some o => if negb (srv_Weight o =? srv_Weight e.2) then [ChangedWeight name (srv_Name e.2) (srv_Weight o) (srv_Weight e.2)]
              else []
  end.

Definition diff_old_server (name : string) (newURLs : gmap string ServerConfig) (e : string * ServerConfig)
    : list ConfigChange :=
  match newURLs !! e.1 with
  | None => [RemovedServer name (srv_Name e.2) e.1]
  | Some _ => []
  end.

Definition diff_interval (name : string) (old new : option HealthCheckConfig) : list ConfigChange :=
  match old, new with
  | Some o, Some n =>
      if negb (hc_IntervalSec o =? hc_IntervalSec n) then [ChangedInterval name (hc_IntervalSec o) (hc_IntervalSec n)] else []
  | _, _ => []
  end.

(** The body of the loop for a service that existed. *)
Definition diff_service (name : string) (oldSvc newSvc : ServiceConfig) : list ConfigChange :=
  let oldURLs := by_url (svc_Servers oldSvc) in
  let newURLs := by_url (svc_Servers newSvc) in
  (map_to_list newURLs ≫= diff_new_server name oldURLs) ++
  (map_to_list oldURLs ≫= diff_old_server name newURLs) ++
  diff_interval name (svc_HealthCheck oldSvc) (svc_HealthCheck newSvc) ++
  (if negb (Bool.eqb (svc_Canary oldSvc) (svc_Canary newSvc))
   then [ChangedCanary name (svc_Canary oldSvc) (svc_Canary newSvc)] else []).

Definition diff_new_service (old : gmap string ServiceConfig) (e : string * ServiceConfig) : list ConfigChange :=
  match old !! e.1 with
  | None => [AddedService e.1 (Z.of_nat (length (svc_Servers e.2)))]
  | Some oldSvc => diff_service e.1 oldSvc e.2
  end.

Definition diff_old_service (new : gmap string ServiceConfig) (e : string * ServiceConfig) : list ConfigChange :=
  match new !! e.1 with
  | None => [RemovedService e.1]
  | Some _ => []
  end.

Definition logConfigDiff (old new : Config) : list ConfigChange :=
  (map_to_list (cfg_Services new) ≫= diff_new_service (cfg_Services old)) ++
  (map_to_list (cfg_Services old) ≫= diff_old_service (cfg_Services new)).

(** ** What no line means *)
Lemma bind_nil {A B} (f : A -> list B) (l : list A) : l ≫= f = [] <-> forall x, x ∈ l -> f x = [].
Proof.
  induction l as [|x l IH]; cbn [mbind list_bind]; [split; [by intros _ ? ?%elem_of_nil|done]|].
  split.
  - intros [Hx Hl]%app_nil y [->|Hy]%elem_of_cons; [done|]. by apply IH.
  - intros H. rewrite H by left. apply IH. intros y Hy. apply H. by right.
Qed.

Lemma map_bind_nil {A B} (f : string * A -> list B) (m : gmap string A) :
  map_to_list m ≫= f = [] <-> forall k x, m !! k = Some x -> f (k, x) = [].
Proof.
  rewrite bind_nil. split; [intros H k x Hk; by apply H, elem_of_map_to_list|].
  intros H [k x] Hk. by apply H, elem_of_map_to_list.
Qed.

(** Two versions of a service that differ in nothing the log looks at. *)
Definition same_service (oldSvc newSvc : ServiceConfig) : Prop :=
  (forall url, option_Forall2 (fun o n => srv_Weight o = srv_Weight n)
     (by_url (svc_Servers oldSvc) !! url) (by_url (svc_Servers newSvc) !! url)) /\
  (forall o n, svc_HealthCheck oldSvc = Some o -> svc_HealthCheck newSvc = Some n -> hc_IntervalSec o = hc_IntervalSec n) /\
  svc_Canary oldSvc = svc_Canary newSvc.

Lemma diff_servers_nil name (om nm : gmap string ServerConfig) :
  (map_to_list nm ≫= diff_new_server name om = [] /\ map_to_list om ≫= diff_old_server name nm = []) <->
  forall url, option_Forall2 (fun o n => srv_Weight o = srv_Weight n) (om !! url) (nm !! url).
Proof.
  rewrite !map_bind_nil. unfold diff_new_server, diff_old_server. cbn [fst snd]. split.
  - intros [Hn Ho] url. specialize (Hn url). specialize (Ho url).
    destruct (om !! url) as [o|], (nm !! url) as [n|].
    + specialize (Hn n eq_refl). constructor. destruct (srv_Weight o =? srv_Weight n) eqn:E; [by z_bool|done].
    + by specialize (Ho o eq_refl).
    + by specialize (Hn n eq_refl).
    + constructor.
  - intros H. split; intros url x Hx; specialize (H url); rewrite Hx in H; inversion H as [o n Hw|]; subst; [|done].
    by rewrite Hw, Z.eqb_refl.
Qed.

Lemma diff_service_nil name oldSvc newSvc : diff_service name oldSvc newSvc = [] <-> same_service oldSvc newSvc.
Proof.
  unfold diff_service, same_service. rewrite !app_nil, <- (diff_servers_nil name).
  assert (diff_interval name (svc_HealthCheck oldSvc) (svc_HealthCheck newSvc) = [] <->
    forall o n, svc_HealthCheck oldSvc = Some o -> svc_HealthCheck newSvc = Some n -> hc_IntervalSec o = hc_IntervalSec n) as ->.
  { unfold diff_interval. destruct (svc_HealthCheck oldSvc) as [o|], (svc_HealthCheck newSvc) as [n|]; try done.
    destruct (hc_IntervalSec o =? hc_IntervalSec n) eqn:E; z_bool; simpl.
    - split; [|done]. intros _ ?? [= <-] [= <-]. done.
    - split; [done|]. intros H. by specialize (H o n eq_refl eq_refl). }
  assert ((if negb (Bool.eqb (svc_Canary oldSvc) (svc_Canary newSvc)) then [ChangedCanary name (svc_Canary oldSvc) (svc_Canary newSvc)]
           else []) = [] <-> svc_Canary oldSvc = svc_Canary newSvc) as ->
    by (destruct (svc_Canary oldSvc), (svc_Canary newSvc); done).
  tauto.
Qed.

(** The reload log is silent exactly when nothing it watches changed: the same services, in each the same
    backend URLs with the same weights, the same probe interval and the same canary flag. *)
Theorem config_diff_silent (old new : Config) :
  logConfigDiff old new = [] <->
  forall name, option_Forall2 same_service (cfg_Services old !! name) (cfg_Services new !! name).
Proof.
  unfold logConfigDiff. rewrite app_nil, !map_bind_nil. unfold diff_new_service, diff_old_service. cbn [fst snd]. split.
  - intros [Hn Ho] name. specialize (Hn name). specialize (Ho name).
    destruct (cfg_Services old !! name) as [o|], (cfg_Services new !! name) as [n|].
    + constructor. by apply (diff_service_nil name), Hn.
    + by specialize (Ho o eq_refl).
    + by specialize (Hn n eq_refl).
    + constructor.
  - intros H. split; intros name x Hx; specialize (H name); rewrite Hx in H; inversion H as [o n Hs|]; subst; [|done].
    by apply diff_service_nil.
Qed.

Example diff_weight :
  diff_service "api"
    (mkService None None None false [mkServer "http://b1" "b1" 1 0 (mkHC "" 0 0 0); mkServer "http://b2" "b2" 1 0 (mkHC "" 0 0 0)])
    (mkService None None None true [mkServer "http://b1" "b1" 5 0 (mkHC "" 0 0 0)]) =
  [ChangedWeight "api" "b1" 1 5; RemovedServer "api" "b2" "http://b2"; ChangedCanary "api" false true].
Proof. reflexivity. Qed.
