(* ===== verification/ServeMux.v ===== *)
(** * net/http: the request multiplexer, as the program uses it

    The patterns of the program are paths without a trailing slash, which match exactly, and "/", which
    matches the rest.  A request whose path is not in its clean form is redirected to it.  Paths are taken
    as decoded; the redirection itself is an argument. *)
From S2P Require Import Prelude GoStrings GoHttp Logging Env Stability.
Open Scope Z_scope.

(** The elements of a path. *)
Fixpoint path_elems (l cur : bytes) : list bytes :=
  match l with
  | [] => [rev cur]
  | c :: l => if Ascii.eqb c "/" then rev cur :: path_elems l [] else path_elems l (c :: cur)
  end.

(** [path.Clean] of a rooted path: the stack of its elements, the last first. *)
Fixpoint clean_stack (elems stack : list bytes) : list bytes :=
  match elems with
  | [] => stack
  | e :: elems =>
      if bool_decide (e = [] \/ e = ["."%char]) then clean_stack elems stack
      else if bool_decide (e = ["."%char; "."%char]) then clean_stack elems (tail stack)
      else clean_stack elems (e :: stack)
  end.

Definition rooted (elems : list bytes) : bytes := concat ((fun e => "/"%char :: e) <$> elems).

(** [cleanPath]: [path.Clean], and a trailing slash is kept. *)
Definition cleanPath (path : string) : string :=
  let l := to_bytes path in
  let clean := rooted (rev (clean_stack (path_elems l []) [])) in
  match clean with
  | [] => "/"%string
  | _ => of_bytes (if bool_decide (last l = Some "/"%char) then clean ++ ["/"%char] else clean)
  end.

Fixpoint assoc {H : Type} (key : string) (l : list (string * H)) : option H :=
  match l with
  | [] => None
  | (k, h) :: l => if String.eqb key k then Some h else assoc key l
  end.

Definition mux_find {H : Type} (routes : list (string * H)) (path : string) : option H :=
  match assoc path routes with Some h => Some h | None => assoc "/" routes end.

Definition mux_ServeHTTP {W : Type} (redirect : string -> Handler W) (routes : list (string * Handler W)) : Handler W :=
  fun rw req w =>
    let path := req_Path req in
    if negb (String.eqb (req_Method req) "CONNECT") && negb (String.eqb (cleanPath path) path)
    then redirect (cleanPath path) rw req w
    else match mux_find routes path with
         | Some h => h rw req w
         | None => mkServed (http_Error "404 page not found" 404 rw) (req_Header req) (req_Body req) w
         end.

Lemma assoc_elem {H} key (l : list (string * H)) h : assoc key l = Some h -> (key, h) ∈ l.
Proof.
  induction l as [|[k h'] l IH]; simpl; [done|]. destruct (String.eqb_spec key k) as [->|].
  - intros [= ->]. left.
  - intros Hl. right. by apply IH.
Qed.

Lemma mux_find_elem {H} (routes : list (string * H)) path h : mux_find routes path = Some h -> exists p, (p, h) ∈ routes.
Proof.
  unfold mux_find. destruct (assoc path routes) as [h'|] eqn:E.
  - intros [= <-]. exists path. by apply assoc_elem.
  - intros H1. exists "/"%string. by apply assoc_elem.
Qed.

Lemma mux_keeps {W} `{!Env W} `{!Client W} (I : W -> Prop) redirect (routes : list (string * Handler W)) :
  (forall path, keeps I (redirect path)) -> (forall p h, (p, h) ∈ routes -> keeps I h) ->
  keeps I (mux_ServeHTTP redirect routes).
Proof.
  intros Hred Hroutes rw req w Hw. unfold mux_ServeHTTP. destruct (_ && _); [by apply Hred|].
  destruct (mux_find routes (req_Path req)) as [h|] eqn:E; [|done].
  destruct (mux_find_elem routes _ h E) as [p Hp]. by apply (Hroutes p h).
Qed.

Example cleanPath_ex :
  (cleanPath "/a/../api//metrics/", cleanPath "/ws", cleanPath "", cleanPath "/../.", cleanPath "stats")
  = ("/api/metrics/", "/ws", "/", "/", "/stats")%string.
Proof. reflexivity. Qed.
