(* ===== verification/Process.v ===== *)
(** * cmd/loadbalancer/main.go: the running program

    Every call of [initialize] makes new objects: services, routes, limiters.  They are kept here by
    generation, because the program holds pointers to several at once: [appState] to the last one built,
    the dashboard to the last one that a reload completed, the middlewares of the entrypoints to the first,
    and a request that is being served to the one it was dispatched by.  A reload adds a generation and
    stops the monitors of the one before it; nothing else of an old generation is touched.

    The atomic operations on this state, and what holds of all the states they reach, are in Running.v. *)
From S2P Require Import Prelude GoFloat GoSort GoStrings NetIP GoHttp Breaker Collector Balancer Canary Selector Logging Env.
From S2P Require Import Stability Config Proxy Monitor SharedCore Service RuleSyntax Routes Middlewares CircuitBreaker RateLimit.
From S2P Require Import ServeMux AccessLog Builder Hub App Pipeline.
Open Scope Z_scope.

Section process.
Context {R : Type} `{!Rand R} {Lim : Type} `{!RateLib Lim} `{!GoSort float64 f64_less}.

Record Process : Type := mkProcess {
  ps_gens : gmap nat (appState R Lim);
  ps_cur : nat;                                    (* the fields of appState *)
  ps_hub : Hub nat;                                (* its provider is a generation *)
  ps_epLimiters : gmap nat (PerIPRateLimiter Lim); (* of the entrypoints' middlewares *)
}.

(** What a pointer to no generation would show; no reachable state has one. *)
Definition no_config : Config :=
  mkConfig 0 0 [] "" 0 0 0 0 0 0 f64_zero 0 0 0 0 "" (mkAuth "" "") (mkTLS false "" "" false) (mkCORS [] [] [])
    false ∅ (mkTimeouts 0 0 0) ∅ ∅ ∅.
Definition no_app : appState R Lim := mkApp no_config (mkServiceManager ∅ no_config) NewManager ∅.

Definition generation (g : nat) (p : Process) : appState R Lim := default no_app (ps_gens p !! g).
Definition set_generation (g : nat) (s : appState R Lim) (p : Process) : Process :=
  mkProcess (<[g := s]> (ps_gens p)) (ps_cur p) (ps_hub p) (ps_epLimiters p).

Definition gen_lens (g : nat) : Lens Process (appState R Lim).
Proof.
  refine (mkLens (generation g) (set_generation g) _).
  abstract (intros s p; unfold generation; simpl; by rewrite lookup_insert_eq).
Defined.

Definition set_epLimiter (id : nat) (rl : PerIPRateLimiter Lim) (p : Process) : Process :=
  mkProcess (ps_gens p) (ps_cur p) (ps_hub p) (<[id := rl]> (ps_epLimiters p)).

Definition epLimiter_lens (id : nat) (rps : float64) (burst : Z) : Lens Process (PerIPRateLimiter Lim).
Proof.
  refine (mkLens (fun p => default (NewPerIPRateLimiter rps burst) (ps_epLimiters p !! id)) (set_epLimiter id) _).
  abstract (intros rl p; simpl; by rewrite lookup_insert_eq).
Defined.

Definition with_svcMgr (m : ServiceManager R) (s : appState R Lim) : appState R Lim :=
  mkApp (as_cfg s) m (as_routerMgr s) (as_limiters s).

(** The order in which a loop meets the instances of a manager. *)
Context (order : gmap string (ServiceInstance R) -> list (string * ServiceInstance R)).

(** A snapshot of generation [g] at the time [now]: it moves the rate windows of its collectors. *)
Definition snapshot_gen (now : string -> Z) (g : nat) (gens : gmap nat (appState R Lim))
    : gmap nat (appState R Lim) * DashboardSnapshot :=
  match gens !! g with
  | Some s =>
      let '(m, snap) := service_DashboardSnap now (order (sm_instances (as_svcMgr s))) (as_svcMgr s) in
      (<[g := with_svcMgr m s]> gens, snap)
  | None => (gens, (service_DashboardSnap now [] (as_svcMgr no_app)).2)
  end.

(** ** The dashboard's provider is a pointer to a service manager *)
Record Pointer : Type := mkPointer {
  pt_gen : nat;
  pt_gens : gmap nat (appState R Lim);
  pt_now : string -> Z;
}.

#[export] Instance Pointer_provider : SnapshotProvider Pointer := {|
  provider_DashboardSnap q :=
    let '(gens, snap) := snapshot_gen (pt_now q) (pt_gen q) (pt_gens q) in
    (snap, mkPointer (pt_gen q) gens (pt_now q));
  provider_GetConfig q := GetConfig (as_svcMgr (default no_app (pt_gens q !! pt_gen q)));
|}.

(** The hub with what its pointer reaches, and back. *)
Definition hub_view (now : string -> Z) (p : Process) : Hub Pointer :=
  mkHub (mkPointer (hub_provider (ps_hub p)) (ps_gens p) now) (hub_clients (ps_hub p)) (hub_history (ps_hub p)).
Definition hub_store (h : Hub Pointer) (p : Process) : Process :=
  mkProcess (pt_gens (hub_provider h)) (ps_cur p)
    (mkHub (pt_gen (hub_provider h)) (hub_clients h) (hub_history h)) (ps_epLimiters p).

(** ** The reload callback *)
Section reloading.
Context {tables : UnicodeTables} {decoder : JSONDecoder} {sort : GoSort (Route RouteHandler) route_less}.
Context (services : Config -> list (string * ServiceConfig)) (routers : Config -> list (string * option RouterConfig)).

(** [state.reload(path, hub)]: [s.cfg], [s.svcMgr] and [s.routerMgr] are overwritten as soon as the file has
    loaded, the hub's provider only at the end.  [None] is a panic, in [Load] ([load] is [None]) or after it. *)
Definition proc_reload (load : option (result ConfigError Config)) (now : string -> Z) (seed : string -> R) (p : Process)
    : option (Process * option ReloadError) :=
  s ← ps_gens p !! ps_cur p;
  r ← reload load now seed (order (sm_instances (as_svcMgr s))) services routers s;
  match rl_stopped r with
  | None => Some (p, rl_error r)
  | Some old =>
      let next := S (ps_cur p) in
      let hub := match rl_provider r with Some _ => SetProvider next (ps_hub p) | None => ps_hub p end in
      Some (mkProcess (<[next := rl_state r]> (<[ps_cur p := with_svcMgr old s]> (ps_gens p))) next hub
              (ps_epLimiters p), rl_error r)
  end.
End reloading.

(** [state.svcMgr.Stop()] at the end of main. *)
Definition proc_stop (p : Process) : option Process :=
  s ← ps_gens p !! ps_cur p;
  m ← service_Stop (order (sm_instances (as_svcMgr s))) (as_svcMgr s);
  Some (set_generation (ps_cur p) (with_svcMgr m s) p).

(** ** Handlers *)
Context {W : Type} `{!Env W} `{!Client W} (P : Lens W Process).
Context (open_log : string -> option (Lens W (list accessLogEntry))).

(** [appState.ServeHTTP] reads the fields under the lock and goes on with what it found. *)
Definition state_ServeHTTP : Handler W := fun rw req w =>
  app_ServeHTTP (compose_lens P (gen_lens (ps_cur (lget P w)))) open_log order rw req w.

(** The middlewares of an entrypoint, built at start-up: their registry is the first service manager. *)
Definition ep_interpret : Built -> Middleware W :=
  interpret_with open_log (fun id rps burst => compose_lens P (epLimiter_lens id rps burst))
    (registry (compose_lens P (gen_lens 0)) order).

(** *** The dashboard *)
(** The encoder, the page, the redirection of the multiplexer and the upgrade of a connection are outside. *)
Context (encode : Document -> bytes) (encode_snapshot : DashboardSnapshot -> result string bytes).
Context (serve_page : Handler W) (redirect : string -> Handler W).
Context (upgrade : ResponseWriter -> Request -> W -> ResponseWriter * option nat * W).

(** A handler of the hub; one reading of the clock stands for those of a snapshot. *)
Definition hub_handler (f : ResponseWriter -> Hub Pointer -> ResponseWriter * Hub Pointer) : Handler W := fun rw req w =>
  let '(now, w) := env_Now w in
  let '(rw, h) := f rw (hub_view (fun _ => now) (lget P w)) in
  mkServed rw (req_Header req) (req_Body req) (modify P (hub_store h) w).

(** [hub.HandleWS]: a connection that cannot be upgraded is left to the upgrader's answer. *)
Definition hub_HandleWS : Handler W := fun rw req w =>
  let '(rw, conn, w) := upgrade rw req w in
  mkServed rw (req_Header req) (req_Body req)
    match conn with
    | None => w
    | Some conn => modify P (fun p => hub_store (HandleWS conn (hub_view (fun _ => 0) p)) p) w
    end.

(** The handler of /stats, a closure of main. *)
Definition stats_ServeHTTP : Handler W := fun rw req w =>
  let '(now, w) := env_Now w in
  let rw := rw_Set "Content-Type" "application/json" rw in
  let p := lget P w in
  let '(gens, snap) := snapshot_gen (fun _ => now) (ps_cur p) (ps_gens p) in
  let w := lput P (mkProcess gens (ps_cur p) (ps_hub p) (ps_epLimiters p)) w in
  let rw := match encode_snapshot snap with
            | Ok data => (rw_Write data rw).1
            | Err err => http_Error err 500 rw
            end in
  mkServed rw (req_Header req) (req_Body req) w.

(** The multiplexer of the dashboard entrypoint. *)
Definition dash_mux : Handler W :=
  mux_ServeHTTP redirect
    [("/", serve_page);
     ("/ws", hub_HandleWS);
     ("/api/metrics", hub_handler (HandleAPIMetrics encode));
     ("/api/history", hub_handler (HandleAPIHistory encode));
     ("/api/health", hub_handler (HandleAPIHealth encode));
     ("/api/config", hub_handler (HandleAPIConfig encode));
     ("/stats", stats_ServeHTTP)]%string.

(** The handler behind an entrypoint's middlewares. *)
Definition entry_handler (epName : string) : Handler W :=
  if String.eqb epName "dashboard" then dash_mux else state_ServeHTTP.

(** ** The background loops *)
(** A tick of a health-check goroutine of a generation. *)
Definition probe_at `{!Prober W} (g : nat) (name : string) (server : ServerConfig) (w : W) : option W :=
  check (compose_lens (compose_lens P (gen_lens g)) (core_lens name)) server w.

(** A tick of the broadcast. *)
Definition hub_tick (writable : nat -> bool) (w : W) : W :=
  let '(now, w) := env_Now w in
  modify P (fun p => hub_store (broadcast_tick writable (hub_view (fun _ => now) p)) p) w.

(** The end of a WebSocket connection. *)
Definition hub_disconnect (conn : nat) (w : W) : W :=
  modify P (fun p => hub_store (disconnect conn (hub_view (fun _ => 0) p)) p) w.
End process.
Arguments Process R Lim : clear implicits.
Arguments Pointer R Lim : clear implicits.
