(* ===== verification/Running.v ===== *)
(** * What holds of every state of the running program

    [proc_step]: one operation on the state of Process.v.  [wf_proc]: in every generation each service has
    a breaker and statistics for exactly its servers, the routes are in order and lead to services there
    are, and the pointers point to generations there are.  The steps keep it; every handler and every
    background loop takes such steps only; so in no reachable state does any of them meet a nil pointer,
    and a request is served by the generation that was in force when it came. *)
From S2P Require Import Prelude GoFloat GoSort GoStrings NetIP GoHttp Breaker Collector Balancer Canary Selector Logging Env.
From S2P Require Import Stability Config Proxy Monitor SharedCore Service Rule RuleSyntax Routes Middlewares CircuitBreaker.
From S2P Require Import RateLimit ServeMux AccessLog Builder Hub App Pipeline Isolation Process.
Open Scope Z_scope.

Section steps.
Context {R : Type} `{!Rand R} {Lim : Type} `{!RateLib Lim} `{!GoSort float64 f64_less}.

(** ** Generations over time *)
(** An instance is used, by calls on its components and on its monitor. *)
Record inst_evolves (i i' : ServiceInstance R) : Prop := {
  ie_name : si_Name i' = si_Name i;
  ie_config : si_Config i' = si_Config i;
  ie_core : rtc core_step (si_core i) (si_core i');
  ie_monitor : option_Forall2 (rtc monitor_ends) (si_Monitor i) (si_Monitor i');
}.

(** A generation is used: its services and its limiters, and nothing else of it. *)
Record app_evolves (s s' : appState R Lim) : Prop := {
  ae_cfg : as_cfg s' = as_cfg s;
  ae_smcfg : sm_cfg (as_svcMgr s') = sm_cfg (as_svcMgr s);
  ae_routes : as_routerMgr s' = as_routerMgr s;
  ae_instances : forall n, option_Forall2 inst_evolves (GetInstance n (as_svcMgr s)) (GetInstance n (as_svcMgr s'));
}.

#[export] Instance inst_evolves_preorder : PreOrder inst_evolves.
Proof.
  split.
  - intros i. split; [done|done|done|]. by destruct (si_Monitor i); constructor.
  - intros i1 i2 i3 [H1 H2 H3 H4] [H5 H6 H7 H8]. split; [congruence|congruence|by etrans|].
    destruct H4 as [m1 m2 Hm|]; inversion H8; subst; constructor. by etrans.
Qed.

#[export] Instance app_evolves_preorder : PreOrder app_evolves.
Proof.
  split.
  - intros s. split; [done..|]. intros n. by destruct (GetInstance n (as_svcMgr s)); constructor.
  - intros s1 s2 s3 [H1 H2 H3 H4] [H5 H6 H7 H8]. split; [congruence..|]. intros n. specialize (H4 n). specialize (H8 n).
    destruct H4 as [i1 i2 Hi|]; inversion H8; subst; constructor. by etrans.
Qed.

Lemma inst_evolves_core (i : ServiceInstance R) f :
  rtc core_step (si_core i) (f (si_core i)) -> inst_evolves i (map_core f i).
Proof. intros H. split; simpl; [done|done|done|]. by destruct (si_Monitor i); constructor. Qed.

(** One instance is replaced by what it has become. *)
Lemma app_evolves_insert name i i' (s : appState R Lim) lims :
  GetInstance name (as_svcMgr s) = Some i -> inst_evolves i i' ->
  app_evolves s (mkApp (as_cfg s) (mkServiceManager (<[name := i']> (sm_instances (as_svcMgr s))) (sm_cfg (as_svcMgr s)))
                   (as_routerMgr s) lims).
Proof.
  intros Hi Hev. split; [done..|]. intros n. unfold GetInstance in *; simpl.
  destruct (decide (n = name)) as [->|Hne]; [rewrite lookup_insert_eq, Hi; by constructor|].
  rewrite lookup_insert_ne by done. by destruct (sm_instances (as_svcMgr s) !! n); constructor.
Qed.

Lemma put_core_evolves name i p (s : appState R Lim) :
  GetInstance name (as_svcMgr s) = Some i -> core_step (si_core i) p -> app_evolves s (put_core name p s).
Proof.
  intros Hi Hstep. unfold put_core. rewrite Hi. cbn [default from_option id].
  eapply app_evolves_insert; [done|]. apply inst_evolves_core. by apply rtc_once.
Qed.

(** What the circuit breaker middleware reports is recorded by calls on one service's components. *)
Lemma record_on_steps url ok t1 t2 b (p : Proxy (AnyAlgorithm R)) :
  px_breakers p !! url = Some b -> rtc core_step p (record_on url ok t1 t2 b p).
Proof.
  intros Hb. unfold record_on. set (b' := if ok then (Breaker_RecordSuccess b).1 else Breaker_RecordFailure t1 b).
  assert (forall p' : Proxy (AnyAlgorithm R), px_breakers p' = px_breakers p -> rtc core_step p p' ->
    rtc core_step p (with_metrics (SetCircuitState t2 url (Breaker_State b')) (set_breaker url b' p'))) as H.
  { intros p' Hp' Hs. etrans; [exact Hs|]. eapply rtc_l; [eapply (step_breaker p' url b); by rewrite Hp'|].
    apply rtc_once. by apply (step_metrics _ (COpSetCircuitState t2 url (Breaker_State b'))). }
  unfold b' in H. destruct ok; [|by apply H]. destruct (Breaker_RecordSuccess b) as [b1 wasOpen]; cbn [fst] in H.
  destruct wasOpen; apply H; try done. apply rtc_once. by apply (step_metrics p (COpClearLatencies url)).
Qed.

Lemma record_evolves t1 t2 entries url ok (s : appState R Lim) :
  (forall n i, (n, i) ∈ entries -> GetInstance n (as_svcMgr s) = Some i) ->
  app_evolves s (with_svcMgr (RecordCircuitBreakerResult t1 t2 entries url ok (as_svcMgr s)) s).
Proof.
  intros Hentries. unfold RecordCircuitBreakerResult, with_svcMgr.
  assert (forall l, (forall n i, (n, i) ∈ l -> GetInstance n (as_svcMgr s) = Some i) ->
    app_evolves s (mkApp (as_cfg s) (mkServiceManager (record_loop url ok t1 t2 l (sm_instances (as_svcMgr s)))
      (sm_cfg (as_svcMgr s))) (as_routerMgr s) (as_limiters s))) as H; [|by apply H].
  clear. induction l as [|[n i] l IH]; intros Hl; cbn [record_loop].
  - destruct s as [c [insts mc] r ls]; simpl. reflexivity.
  - destruct (si_Breakers i !! url) as [b|] eqn:Eb; [|apply IH; intros n' i' Hin; apply Hl; by right].
    eapply app_evolves_insert; [apply Hl; left|]. apply inst_evolves_core. by apply record_on_steps.
Qed.

(** Replacing an instance leaves the others as a loop will find them. *)
Lemma entries_after_insert name (i i1 : ServiceInstance R) entries (instances : gmap string (ServiceInstance R)) :
  name ∉ entries.*1 -> (forall n j, (n, j) ∈ (name, i) :: entries -> instances !! n = Some j) ->
  forall n j, (n, j) ∈ entries -> <[name := i1]> instances !! n = Some j.
Proof.
  intros Hnin Hin n j H. rewrite lookup_insert_ne; [apply Hin; by right|]. intros <-. apply Hnin.
  apply list_elem_of_fmap. by exists (name, j).
Qed.

(** A snapshot moves the rate windows of the collectors. *)
Lemma snap_loop_instances now entries (instances : gmap string (ServiceInstance R)) all evs rps n :
  NoDup entries.*1 -> (forall n i, (n, i) ∈ entries -> instances !! n = Some i) ->
  option_Forall2 inst_evolves (instances !! n) ((snap_loop now entries instances all evs rps).1.1.1 !! n).
Proof.
  revert instances all evs rps. induction entries as [|[name i] entries IH]; intros instances all evs rps Hnd Hin; cbn [snap_loop].
  { cbn [fst]. by destruct (instances !! n); constructor. }
  apply NoDup_cons in Hnd as [Hnin Hnd].
  destruct (DashboardSnap (now name) (si_Collector i)) as [c snap] eqn:Ed.
  assert (inst_evolves i (map_core (with_metrics (fun _ => c)) i)) as Hi.
  { apply inst_evolves_core, rtc_once. replace c with (DashboardSnap (now name) (si_Collector i)).1 by (by rewrite Ed).
    exact (step_metrics (si_core i) (COpDashboardSnap (now name)) I). }
  match goal with |- context [snap_loop now entries ?m ?a ?e ?r] => specialize (IH m a e r Hnd) end.
  specialize (IH (entries_after_insert name i _ entries instances Hnin Hin)). destruct (decide (n = name)) as [->|Hne].
  - rewrite lookup_insert_eq in IH. rewrite (Hin name i) by left. inversion IH as [? i2 Hev E1 E2|]; subst. constructor.
    by etrans.
  - by rewrite lookup_insert_ne in IH by done.
Qed.

Lemma snapshot_evolves now entries (s : appState R Lim) :
  entries ≡ₚ map_to_list (sm_instances (as_svcMgr s)) ->
  app_evolves s (with_svcMgr (service_DashboardSnap now entries (as_svcMgr s)).1 s).
Proof.
  intros Hp. unfold service_DashboardSnap.
  assert (forall n, option_Forall2 inst_evolves (sm_instances (as_svcMgr s) !! n)
    ((snap_loop now entries (sm_instances (as_svcMgr s)) ∅ [] (f64_of_Z 0)).1.1.1 !! n)) as H.
  { intros n. apply snap_loop_instances; [rewrite Hp; apply NoDup_fst_map_to_list|].
    intros n' i. by rewrite Hp, elem_of_map_to_list. }
  destruct (snap_loop _ _ _ _ _ _) as [[[instances all] evs] rps]. by split.
Qed.

(** Stopping a manager moves its monitors only. *)
Lemma stop_loop_evolves entries instances' (instances : gmap string (ServiceInstance R)) n :
  NoDup entries.*1 -> (forall n i, (n, i) ∈ entries -> instances !! n = Some i) ->
  stop_loop entries instances = Some instances' ->
  option_Forall2 inst_evolves (instances !! n) (instances' !! n).
Proof.
  revert instances. induction entries as [|[name i] entries IH]; intros instances Hnd Hin; cbn [stop_loop].
  { intros [= <-]. by destruct (instances !! n); constructor. }
  apply NoDup_cons in Hnd as [Hnin Hnd]. destruct (stop_instance i) as [i1|] eqn:Ei; [|done]. cbn [mbind option_bind].
  intros Hloop. assert (inst_evolves i i1) as Hev.
  { unfold stop_instance in Ei. destruct (si_Monitor i) as [mon|] eqn:Em; [|by injection Ei as <-].
    destruct (Monitor_Stop mon) as [mon1|] eqn:Es; [|done]. injection Ei as <-. split; simpl; [done..|].
    rewrite Em. constructor. by apply rtc_once, mend_stop. }
  specialize (IH (<[name:=i1]> instances) Hnd (entries_after_insert name i i1 entries instances Hnin Hin) Hloop).
  destruct (decide (n = name)) as [->|Hne]; [|by rewrite lookup_insert_ne in IH by done].
  rewrite (Hin name i) by left. rewrite lookup_insert_eq in IH. inversion IH as [? i2 H12 E1 E2|]; subst.
  constructor. by etrans.
Qed.

Lemma stop_evolves entries m (s : appState R Lim) :
  entries ≡ₚ map_to_list (sm_instances (as_svcMgr s)) -> service_Stop entries (as_svcMgr s) = Some m ->
  app_evolves s (with_svcMgr m s).
Proof.
  intros Hp. unfold service_Stop. destruct (stop_loop _ _) as [insts|] eqn:E; [|done]. intros [= <-].
  split; [done..|]. intros n. unfold GetInstance; simpl. eapply stop_loop_evolves; [| |exact E].
  - rewrite Hp. apply NoDup_fst_map_to_list.
  - intros n' i. by rewrite Hp, elem_of_map_to_list.
Qed.
End steps.

(** ** Well-formed generations *)
Section wf.
Context {R : Type} `{!Rand R} {Lim : Type} `{!RateLib Lim} `{!GoSort float64 f64_less}.

(** A service's components know its servers, and its monitor probes them. *)
Record wf_instance (name : string) (i : ServiceInstance R) : Prop := {
  wi_core : wf_core (service_urls (si_Config i)) (si_core i);
  wi_monitor : forall mon, si_Monitor i = Some mon ->
    monitor_inv mon /\ mon_servers mon = svc_Servers (si_Config i);
}.

Record wf_app (s : appState R Lim) : Prop := {
  wa_instances : forall n i, GetInstance n (as_svcMgr s) = Some i -> wf_instance n i;
  wa_configured : forall n, si_Config <$> GetInstance n (as_svcMgr s) = cfg_Services (as_cfg s) !! n;
  wa_config : sm_cfg (as_svcMgr s) = as_cfg s;
  wa_disjoint : NoDup (entries_urls (map_to_list (cfg_Services (as_cfg s))));
  wa_routes : forall r, r ∈ m_routes (as_routerMgr s) -> is_Some (GetInstance (rh_service (rt_Handler r)) (as_svcMgr s));
  wa_sorted : StronglySorted (fun x y => route_less y x = false) (m_routes (as_routerMgr s));
}.

(** The health checks of a generation have been told to stop. *)
Definition checks_stopped (s : appState R Lim) : Prop :=
  forall n i mon, GetInstance n (as_svcMgr s) = Some i -> si_Monitor i = Some mon -> all_closed mon.

Lemma checks_stopped_evolves s s' : checks_stopped s -> app_evolves s s' -> checks_stopped s'.
Proof.
  intros Hs [_ _ _ Hev] n i' mon' Hi' Hmon'. specialize (Hev n). rewrite Hi' in Hev.
  inversion Hev as [i ? Hii E E'|]; subst. pose proof (ie_monitor _ _ Hii) as Hm. rewrite Hmon' in Hm.
  inversion Hm as [mon ? Hsteps Em E'|]; subst. pose proof (Hs n i mon (eq_sym E) (eq_sym Em)) as H.
  clear -H Hsteps. induction Hsteps; eauto using all_closed_ends.
Qed.

Lemma wf_instance_evolves name i i' : wf_instance name i -> inst_evolves i i' -> wf_instance name i'.
Proof.
  intros [Hc Hm] [_ Hcfg Hcore Hmon]. split; rewrite Hcfg.
  - by eapply wf_core_steps.
  - intros mon' Hmon'. rewrite Hmon' in Hmon. inversion Hmon as [mon mon1 Hsteps E E1|]; subst.
    destruct (Hm mon (eq_sym E)) as [Hinv Hs]. clear -Hinv Hs Hsteps. revert Hinv Hs.
    induction Hsteps as [m|m m1 m2 H1 _ IH]; [done|]. intros Hinv Hs.
    apply monitor_ends_step in H1. apply IH; [by eapply monitor_step_inv|by rewrite (monitor_step_servers _ _ H1)].
Qed.

Lemma wf_app_evolves s s' : wf_app s -> app_evolves s s' -> wf_app s'.
Proof.
  intros [Hi Hc Hcfg Hd Hr Hs] [E1 E2 E3 Hev].
  assert (forall n i', GetInstance n (as_svcMgr s') = Some i' ->
    exists i, GetInstance n (as_svcMgr s) = Some i /\ inst_evolves i i') as Hback.
  { intros n i' H. specialize (Hev n). rewrite H in Hev. inversion Hev as [i ? Hii E E'|]; subst. by exists i. }
  split; rewrite ?E1, ?E2, ?E3; try done.
  - intros n i' H. destruct (Hback n i' H) as (i & Hin & Hii). by eapply wf_instance_evolves; [apply Hi|].
  - intros n. rewrite <- Hc. specialize (Hev n). destruct Hev as [i i' Hii|]; [|done]. simpl. f_equal. apply Hii.
  - intros r Hin. apply Hr in Hin as [i Hin]. specialize (Hev (rh_service (rt_Handler r))). rewrite Hin in Hev.
    inversion Hev; subst. by eexists.
Qed.

(** *** What initialize and a reload build *)
Context {tables : UnicodeTables} {decoder : JSONDecoder} {sort : GoSort (Route RouteHandler) route_less}.

Lemma instance_ok_wf name svc cfg (i : ServiceInstance R) :
  service_complete svc -> collector_inv (si_Collector i) -> instance_ok name svc cfg i -> wf_instance name i.
Proof.
  intros Hsvc Hinv [[Hn Hc] Hs Hb Hst _ Hm _]. destruct Hsvc as (lb & hc & cb & _ & _ & Ec & _). split; rewrite Hc.
  - split; [done| |done|done]. intros u. fold (si_Breakers i). rewrite Hb, Ec. unfold service_urls.
    case_decide; cbn [mbind option_bind]; split; try done.
  - intros mon Hmon. by rewrite Hmon in Hm.
Qed.

Lemma buildInstance_collector now seed name svc cfg (i : ServiceInstance R) :
  buildInstance now seed name svc cfg = Some i -> collector_inv (si_Collector i).
Proof.
  unfold buildInstance. destruct (service_algorithm svc) as [algo|]; [|done]. cbn [mbind option_bind].
  destruct (breakers_loop _ _ _); [|done]. cbn [mbind option_bind].
  destruct (if (0 <? length (svc_Servers svc))%nat then _ else _); [|done]. cbn [mbind option_bind].
  intros [= <-]. unfold si_Collector; cbn.
  apply (collector_inv_exec (COpSetAlgorithm algo)); [done|]. apply collector_inv_New.
Qed.

Lemma buildAll_collectors now seed cfg entries acc (m : gmap string (ServiceInstance R)) :
  buildAll now seed cfg entries acc = Some m -> (forall n i, acc !! n = Some i -> collector_inv (si_Collector i)) ->
  forall n i, m !! n = Some i -> collector_inv (si_Collector i).
Proof.
  revert acc. induction entries as [|[name svc] entries IH]; intros acc; cbn [buildAll]; [by intros [= <-]|].
  destruct (buildInstance _ _ _ _ _) as [i0|] eqn:Ei; [|done]. cbn [mbind option_bind]. intros Hall Hacc.
  eapply IH; [exact Hall|]. intros n i. destruct (decide (n = name)) as [->|Hne].
  - rewrite lookup_insert_eq. intros [= <-]. by eapply buildInstance_collector.
  - rewrite lookup_insert_ne by done. apply Hacc.
Qed.

(** The table an aborted loop leaves is a table too. *)
Lemma add_routers_table entries (mgr : ServiceManager R) b rm :
  let ok (rm : Manager RouteHandler) :=
    (forall r, r ∈ m_routes rm -> is_Some (GetInstance (rh_service (rt_Handler r)) mgr)) /\
    StronglySorted (fun x y => route_less y x = false) (m_routes rm) in
  ok rm -> forall rm' err, add_routers entries mgr b rm = Some (rm', err) -> ok rm'.
Proof.
  intros ok. revert b rm. induction entries as [|[name [rc|]] entries IH]; intros b rm Hok rm' err; cbn [add_routers];
    [by intros [= <- _]| |done]. cbn [mbind option_bind].
  destruct (GetInstance (rc_Service rc) mgr) as [i|] eqn:Ei; [|by intros [= <- _]].
  destruct (ResolveMiddlewares _ _) as [[mws b1]|e]; [|destruct (build_panics e); [done|by intros [= <- _]]].
  unfold AddRoute. destruct (parse_rule (rc_Rule rc)) as [m|e]; [|by intros [= <- _]]. cbn [result_bind]. apply IH.
  split; cbn [m_routes].
  - intros r. rewrite go_sort_perm, elem_of_app, list_elem_of_singleton. intros [Hr| ->]; [by apply Hok|]. simpl.
    rewrite Ei. by eexists.
  - apply (go_sort_strongly route_less).
Qed.

Lemma built_wf now seed cfg services (mgr : ServiceManager R) :
  valid_config cfg -> services ≡ₚ map_to_list (cfg_Services cfg) ->
  service_NewManager now seed cfg services = Some mgr ->
  (forall n i, GetInstance n mgr = Some i -> wf_instance n i) /\
  (forall n, si_Config <$> GetInstance n mgr = cfg_Services cfg !! n) /\ sm_cfg mgr = cfg.
Proof.
  intros [Hc Hd] Hp Hm. pose proof (service_NewManager_ok now seed cfg services Hc Hp) as H. rewrite Hm in H.
  destruct H as [_ H]. split_and!.
  - intros n i Hi. specialize (H n). destruct (cfg_Services cfg !! n) as [svc|] eqn:Es; [|congruence].
    destruct H as (i' & Hi' & Hok). assert (i' = i) as -> by congruence.
    apply (instance_ok_wf n svc cfg); [by apply (cc_services cfg Hc n)| |done].
    unfold service_NewManager in Hm. destruct (buildAll now seed cfg services ∅) as [insts|] eqn:Eb; [|done].
    injection Hm as <-. eapply buildAll_collectors; [exact Eb|by intros ? ? ?%lookup_empty_Some|exact Hi].
  - intros n. specialize (H n). destruct (cfg_Services cfg !! n) as [svc|]; [|by rewrite H].
    destruct H as (i & -> & Hok). simpl. f_equal. apply (io_name _ _ _ _ Hok).
  - unfold service_NewManager in Hm. destruct (buildAll _ _ _ _ _); [|done]. by injection Hm as <-.
Qed.

Lemma initialize_wf now seed services routers cfg (s : appState R Lim) err :
  valid_config cfg -> services ≡ₚ map_to_list (cfg_Services cfg) ->
  initialize (Lim := Lim) now seed services routers cfg = Some (s, err) -> wf_app s /\ as_cfg s = cfg /\ as_limiters s = ∅.
Proof.
  intros Hv Hp. unfold initialize.
  destruct (service_NewManager now seed cfg services) as [mgr|] eqn:Hm; [|done]. cbn [mbind option_bind].
  pose proof (add_routers_table routers mgr (NewBuilder cfg) NewManager) as Ht. cbv zeta in Ht.
  destruct (add_routers _ _ _ _) as [[rm err']|]; [|done]. cbn [mbind option_bind]. intros [= <- <-]. split; [|done].
  destruct (built_wf now seed cfg services mgr Hv Hp Hm) as (H1 & H2 & H3).
  destruct (Ht) with (rm' := rm) (err := err') as [Hr Hs]; [split; [by intros r ?%elem_of_nil|constructor]|done|].
  destruct Hv. by split.
Qed.

(** What a reload imports are calls on the new collectors. *)
Lemma import_evolves (old : ServiceManager R) (s : appState R Lim) :
  (forall n i, GetInstance n old = Some i -> collector_inv (si_Collector i)) ->
  app_evolves s (with_svcMgr (service_ImportMetrics (Some old) (as_svcMgr s)) s).
Proof.
  intros Hold. split; [done..|]. intros n. unfold GetInstance, service_ImportMetrics; simpl. rewrite map_lookup_imap.
  destruct (sm_instances (as_svcMgr s) !! n) as [i|]; [|constructor]. cbn [mbind option_bind]. constructor.
  rewrite lookup_fmap. unfold Instances. destruct (sm_instances old !! n) as [o|] eqn:Eo; cbn [fmap option_fmap option_map]; [|done].
  apply inst_evolves_core, rtc_once.
  refine (step_metrics (si_core i) (COpImportMetrics (Snapshot (si_Collector o))) _).
  intros url st Hst. destruct (Hold n o Eo) as [Hm _]. destruct (Hm url st Hst). done.
Qed.

Lemma wf_monitors_ok s : wf_app s -> monitors_ok (sm_instances (as_svcMgr s)).
Proof. intros H n i mon Hi Hmon. by apply (wi_monitor n i (wa_instances s H n i Hi)). Qed.

Lemma stopped_closed (s : appState R Lim) (m : ServiceManager R) :
  (forall n, option_Forall2 stopped (GetInstance n (as_svcMgr s)) (GetInstance n m)) -> checks_stopped (with_svcMgr m s).
Proof.
  intros H n i mon Hi Hmon. specialize (H n). cbn [as_svcMgr with_svcMgr] in Hi. rewrite Hi in H.
  inversion H as [i0 ? Hst E E'|]; subst. destruct Hst as (_ & _ & _ & Hm). rewrite Hmon in Hm. exact (proj2 (proj2 Hm)).
Qed.

(** What a reload of a well-formed state leaves, old and new, is well formed. *)
Record reload_leaves (cfg : Config) (s : appState R Lim) (r : Reloaded (R := R) (Lim := Lim)) : Prop := {
  rv_old : exists old, rl_stopped r = Some old /\ app_evolves s (with_svcMgr old s) /\ checks_stopped (with_svcMgr old s);
  rv_new : wf_app (rl_state r) /\ as_cfg (rl_state r) = cfg /\ as_limiters (rl_state r) = ∅;
  rv_provider : is_Some (rl_provider r) <-> rl_error r = None;
}.

Lemma reload_wf cfg now seed running services routers (s : appState R Lim) r :
  wf_app s -> running ≡ₚ map_to_list (sm_instances (as_svcMgr s)) ->
  valid_config cfg -> services cfg ≡ₚ map_to_list (cfg_Services cfg) ->
  reload (Some (Ok cfg)) now seed running services routers s = Some r -> reload_leaves cfg s r.
Proof.
  intros Hwf Hrun Hv Hp. unfold reload. cbn [mbind option_bind].
  destruct (service_Stop_ok running (as_svcMgr s) (wf_monitors_ok s Hwf) Hrun) as (old & Hstop & Hstopped).
  assert (checks_stopped (with_svcMgr old s)) as Hclosed by by eapply stopped_closed.
  pose proof (stop_evolves running old s Hrun Hstop) as Hold. rewrite Hstop. cbn [mbind option_bind].
  destruct (initialize now seed (services cfg) (routers cfg) cfg) as [[s' err]|] eqn:Ei; [|done]. cbn [mbind option_bind].
  destruct (initialize_wf now seed (services cfg) (routers cfg) cfg s' err Hv Hp Ei) as (Hs' & Hcfg & Hlim).
  destruct err as [e|]; intros [= <-]; split; cbn [rl_stopped rl_state rl_provider rl_error]; try done.
  - by exists old.
  - by exists old.
  - split; [|done]. rewrite <- Hcfg. eapply wf_app_evolves; [exact Hs'|]. apply import_evolves.
    intros n i Hi. apply (wc_collector _ _ (wi_core n i (wa_instances _ (wf_app_evolves _ _ Hwf Hold) n i Hi))).
Qed.

(** A reload panics only as [Load] does or when the configuration is not runnable. *)
Lemma reload_returns load now seed running services routers (s : appState R Lim) :
  wf_app s -> running ≡ₚ map_to_list (sm_instances (as_svcMgr s)) ->
  (forall cfg, load = Some (Ok cfg) -> config_complete cfg /\ services cfg ≡ₚ map_to_list (cfg_Services cfg) /\
     routers cfg ≡ₚ map_to_list (cfg_Routers cfg)) ->
  reload load now seed running services routers s = None ->
  load = None \/ exists cfg, load = Some (Ok cfg) /\ ~ runnable cfg.
Proof.
  intros Hwf Hrun Hload Hr. pose proof (reload_ok load now seed running services routers s (wf_monitors_ok s Hwf) Hrun Hload) as H.
  destruct load as [[cfg|e]|]; [rewrite Hr in H; by eauto|congruence|by left].
Qed.
End wf.

(** ** The running program *)
Section running.
Context {R : Type} `{!Rand R} {Lim : Type} `{!RateLib Lim} `{!GoSort float64 f64_less}.
Context {tables : UnicodeTables} {decoder : JSONDecoder} {sort : GoSort (Route RouteHandler) route_less}.
(** The orders in which the loops over maps meet their entries. *)
Context (order : gmap string (ServiceInstance R) -> list (string * ServiceInstance R)).
Context (services : Config -> list (string * ServiceConfig)) (routers : Config -> list (string * option RouterConfig)).
Context (Horder : forall m, order m ≡ₚ map_to_list m).
Context (Hservices : forall cfg, services cfg ≡ₚ map_to_list (cfg_Services cfg)).

(** What is done to one generation, by the requests, probes and snapshots that hold a pointer to it: a call on
    the components of a service, a use of a rate limiter, a result that the circuit breaker middleware
    reports, a snapshot for the dashboard or for /stats, and the stop of its health checks, whose
    goroutines then return. *)
Inductive app_op (s : appState R Lim) : appState R Lim -> Prop :=
| op_core name i p :
    GetInstance name (as_svcMgr s) = Some i -> core_step (si_core i) p -> app_op s (put_core name p s)
| op_limiter id rl :
    app_op s (mkApp (as_cfg s) (as_svcMgr s) (as_routerMgr s) (<[id := rl]> (as_limiters s)))
| op_record t1 t2 url ok :
    app_op s (with_svcMgr (RecordCircuitBreakerResult t1 t2 (order (sm_instances (as_svcMgr s))) url ok (as_svcMgr s)) s)
| op_snapshot now :
    app_op s (with_svcMgr (service_DashboardSnap now (order (sm_instances (as_svcMgr s))) (as_svcMgr s)).1 s)
| op_stop m :
    service_Stop (order (sm_instances (as_svcMgr s))) (as_svcMgr s) = Some m -> app_op s (with_svcMgr m s)
| op_exit name i mon l1 server ch l2 :
    GetInstance name (as_svcMgr s) = Some i -> si_Monitor i = Some mon ->
    mon_goroutines mon = l1 ++ (server, ch) :: l2 -> ch ∈ mon_closed mon ->
    app_op s (with_svcMgr (mkServiceManager
      (<[name := mkInstance (si_Name i) (si_Config i) (si_core i)
           (Some (mkMonitor (mon_servers mon) (mon_stopChs mon) (mon_made mon) (mon_closed mon) (l1 ++ l2)))]>
         (sm_instances (as_svcMgr s))) (sm_cfg (as_svcMgr s))) s).

(** None of these touches the routes, the configuration or which services and servers there are. *)
Lemma app_op_evolves s s' : app_op s s' -> app_evolves s s'.
Proof.
  intros [name i p Hi Hp|id rl|t1 t2 url ok|now|m Hm|name i mon l1 server ch l2 Hi Hmon Hg Hc].
  - by eapply put_core_evolves.
  - split; [done..|]. intros n. cbn [as_svcMgr]. by destruct (GetInstance n (as_svcMgr s)); constructor.
  - apply record_evolves. intros n i. by rewrite Horder, elem_of_map_to_list.
  - by apply snapshot_evolves.
  - eapply stop_evolves; [apply Horder|exact Hm].
  - eapply app_evolves_insert; [exact Hi|]. split; cbn [si_Name si_Config si_core si_Monitor]; [done..|].
    rewrite Hmon. constructor. apply rtc_once. by eapply mend_exit.
Qed.

(** One operation: on a generation or on a limiter of an entrypoint; the hub's clients or history change; or
    the configuration is reloaded. *)
Inductive proc_step (p : Process R Lim) : Process R Lim -> Prop :=
| proc_generation g s s' :
    ps_gens p !! g = Some s -> app_op s s' -> proc_step p (set_generation g s' p)
| proc_limiter id rl : proc_step p (set_epLimiter id rl p)
| proc_clients clients history :
    proc_step p (mkProcess (ps_gens p) (ps_cur p) (mkHub (hub_provider (ps_hub p)) clients history) (ps_epLimiters p))
| proc_reloaded load now seed p' err :
    (forall cfg, load = Some (Ok cfg) -> valid_config cfg) ->
    proc_reload order services routers load now seed p = Some (p', err) -> proc_step p p'.

(** The generations up to the last one exist and are well formed, the dashboard points to one of them, and
    only the last one's health checks go on. *)
Record wf_proc (p : Process R Lim) : Prop := {
  wp_gens : forall g, is_Some (ps_gens p !! g) <-> (g <= ps_cur p)%nat;
  wp_apps : forall g s, ps_gens p !! g = Some s -> wf_app s;
  wp_hub : (hub_provider (ps_hub p) <= ps_cur p)%nat;
  wp_stopped : forall g s, ps_gens p !! g = Some s -> (g < ps_cur p)%nat -> checks_stopped s;
}.

(** A program that has just started. *)
Lemma initial_wf (s : appState R Lim) : wf_app s -> wf_proc (mkProcess {[ 0%nat := s ]} 0 (NewHub 0%nat) ∅).
Proof.
  intros Hs. split; simpl; [| |done|lia].
  - intros g. destruct (decide (g = 0%nat)) as [->|Hne].
    + rewrite lookup_singleton_eq. split; [lia|by eexists].
    + rewrite lookup_singleton_ne by done. split; [by intros [? [=]]|lia].
  - intros g s1 [_ <-]%lookup_singleton_Some. done.
Qed.

Lemma wf_generation p g : wf_proc p -> (g <= ps_cur p)%nat ->
  exists s, ps_gens p !! g = Some s /\ generation g p = s /\ wf_app s.
Proof.
  intros Hp Hg. destruct (proj2 (wp_gens p Hp g) Hg) as [s Hs]. exists s. unfold generation. rewrite Hs.
  split_and!; [done..|]. by eapply wp_apps.
Qed.

(** What a reload of a configuration that loads leaves, whether it succeeds or fails at a router. *)
Record reloaded (p : Process R Lim) (cfg : Config) (err : option ReloadError) (p' : Process R Lim) : Prop := {
  re_cur : ps_cur p' = S (ps_cur p);
  re_new : exists s, ps_gens p' !! S (ps_cur p) = Some s /\ wf_app s /\ as_cfg s = cfg /\ as_limiters s = ∅;
  re_old : exists s s', ps_gens p !! ps_cur p = Some s /\ ps_gens p' !! ps_cur p = Some s' /\ app_evolves s s' /\
    checks_stopped s';
  re_older : forall g, g <> ps_cur p -> g <> S (ps_cur p) -> ps_gens p' !! g = ps_gens p !! g;
  re_epLimiters : ps_epLimiters p' = ps_epLimiters p;
  re_hub : hub_provider (ps_hub p') = match err with None => S (ps_cur p) | Some _ => hub_provider (ps_hub p) end;
}.

Lemma proc_reload_outcome load now seed (p : Process R Lim) :
  wf_proc p -> (forall cfg, load = Some (Ok cfg) -> valid_config cfg) ->
  match load, proc_reload order services routers load now seed p with
  | None, r => r = None
  | Some (Err e), r => r = Some (p, Some (ParseConfig e))
  | Some (Ok cfg), Some (p', err) => reloaded p cfg err p'
  | Some (Ok cfg), None => True
  end.
Proof.
  intros Hp Hload. destruct (wf_generation p (ps_cur p) Hp ltac:(done)) as (s & Hs & _ & Hwf).
  unfold proc_reload. rewrite Hs. cbn [mbind option_bind]. destruct load as [[cfg|e]|]; [|done..].
  destruct (reload _ _ _ _ _ _ s) as [r|] eqn:Hr; [|done]. cbn [mbind option_bind].
  destruct (reload_wf cfg now seed _ services routers s r Hwf (Horder _) (Hload cfg eq_refl) (Hservices cfg) Hr)
    as [(old & Hold & Hev & Hclosed) (Hwf' & Hcfg & Hlim) Hprov].
  rewrite Hold. split; cbn [ps_cur ps_gens ps_hub ps_epLimiters].
  - done.
  - eexists. rewrite lookup_insert_eq. by split_and!.
  - eexists s, _. rewrite lookup_insert_ne, lookup_insert_eq by lia. by split_and!.
  - intros g H1 H2. by rewrite !lookup_insert_ne by congruence.
  - done.
  - destruct (rl_error r), (rl_provider r); try done.
    + by specialize (proj1 Hprov (ex_intro _ _ eq_refl)).
    + by destruct (proj2 Hprov eq_refl).
Qed.

(** The only reloads that do not return are those whose file makes [Load] or [initialize] panic. *)
Lemma proc_reload_returns (Hrouters : forall cfg, routers cfg ≡ₚ map_to_list (cfg_Routers cfg)) load now seed (p : Process R Lim) :
  wf_proc p -> (forall cfg, load = Some (Ok cfg) -> valid_config cfg) ->
  proc_reload order services routers load now seed p = None ->
  load = None \/ exists cfg, load = Some (Ok cfg) /\ ~ runnable cfg.
Proof.
  intros Hp Hload. destruct (wf_generation p (ps_cur p) Hp ltac:(done)) as (s & Hs & _ & Hwf).
  unfold proc_reload. rewrite Hs. cbn [mbind option_bind].
  destruct (reload load _ _ _ _ _ s) as [r|] eqn:Hr; cbn [mbind option_bind]; [by destruct (rl_stopped r)|]. intros _.
  eapply reload_returns; [done| |intros cfg E; split_and!; [by apply Hload|done..]|exact Hr]. apply Horder.
Qed.

(** *** The steps keep the program well formed *)
Lemma wf_proc_step p p' : wf_proc p -> proc_step p p' -> wf_proc p'.
Proof.
  intros Hp Hstep. destruct Hstep as [g s s' Hg Hev%app_op_evolves|id rl|clients history|load now seed p' err Hload Hr].
  - destruct Hp as [Hg1 Ha Hh Hst]. split; simpl; [|intros g' s2|done|intros g' s2].
    + intros g'. rewrite lookup_insert_is_Some', Hg1. split; [intros [<-|]; [|done]|by right]. by apply Hg1; rewrite Hg.
    + destruct (decide (g' = g)) as [->|Hne]; [rewrite lookup_insert_eq|rewrite lookup_insert_ne by done; apply Ha].
      intros [= <-]. eapply wf_app_evolves; [by eapply Ha|done].
    + destruct (decide (g' = g)) as [->|Hne]; [rewrite lookup_insert_eq|rewrite lookup_insert_ne by done; apply Hst].
      intros [= <-] Hlt. eapply checks_stopped_evolves; [by eapply Hst|done].
  - by destruct Hp.
  - by destruct Hp.
  - pose proof (proc_reload_outcome load now seed p Hp Hload) as Hout.
    destruct load as [[cfg|e]|]; rewrite Hr in Hout; [|by injection Hout as -> _|done].
    destruct Hout as [Hcur (s' & Hs' & Hwf & _) (s & s1 & Hs & Hs1 & Hev & Hclosed) Holder _ Hhub].
    destruct Hp as [Hg Ha Hh Hst].
    split; rewrite ?Hcur.
    + intros g. destruct (decide (g = S (ps_cur p))) as [->|]; [rewrite Hs'; split; [done|by eexists]|].
      destruct (decide (g = ps_cur p)) as [->|]; [rewrite Hs1; split; [lia|by eexists]|].
      rewrite Holder, Hg by done. lia.
    + intros g s2. destruct (decide (g = S (ps_cur p))) as [->|]; [rewrite Hs'; by intros [= <-]|].
      destruct (decide (g = ps_cur p)) as [->|]; [|rewrite Holder by done; apply Ha].
      rewrite Hs1. intros [= <-]. eapply wf_app_evolves; [by eapply Ha|done].
    + rewrite Hhub. destruct err; lia.
    + intros g s2. destruct (decide (g = S (ps_cur p))) as [->|]; [lia|].
      destruct (decide (g = ps_cur p)) as [->|]; [rewrite Hs1; by intros [= <-]|].
      rewrite Holder by done. intros Hs2 Hlt. apply (Hst g s2 Hs2). lia.
Qed.

Lemma wf_proc_steps p p' : wf_proc p -> rtc proc_step p p' -> wf_proc p'.
Proof. intros H Hs. induction Hs; eauto using wf_proc_step. Qed.

(** *** A generation stays what it was built as *)
Lemma generation_step p p' g s :
  wf_proc p -> proc_step p p' -> ps_gens p !! g = Some s -> exists s', ps_gens p' !! g = Some s' /\ app_evolves s s'.
Proof.
  intros Hp Hstep Hg. destruct Hstep as [g1 s1 s1' Hg1 Hev%app_op_evolves|id rl|clients history|load now seed p' err Hload Hr].
  - simpl. destruct (decide (g = g1)) as [->|Hne].
    + rewrite lookup_insert_eq. exists s1'. split; [done|]. congruence.
    + rewrite lookup_insert_ne by done. exists s. split; [done|reflexivity].
  - exists s. split; [done|reflexivity].
  - exists s. split; [done|reflexivity].
  - pose proof (proc_reload_outcome load now seed p Hp Hload) as Hout.
    destruct load as [[cfg|e]|]; rewrite Hr in Hout; [|injection Hout as -> _; exists s; split; [done|reflexivity]|done].
    destruct Hout as [_ _ (s0 & s1 & Hs0 & Hs1 & Hev & _) Holder _ _].
    assert (g <= ps_cur p)%nat as Hle by (apply (wp_gens p Hp); by eexists).
    destruct (decide (g = ps_cur p)) as [->|Hne]; [exists s1; split; [done|congruence]|].
    rewrite Holder by lia. exists s. split; [done|reflexivity].
Qed.

Lemma generation_steps p p' g s :
  wf_proc p -> rtc proc_step p p' -> ps_gens p !! g = Some s -> exists s', ps_gens p' !! g = Some s' /\ app_evolves s s'.
Proof.
  intros Hp Hs. revert s Hp. induction Hs as [p|p p1 p' Hstep _ IH]; intros s Hp Hg; [exists s; split; [done|reflexivity]|].
  destruct (generation_step p p1 g s Hp Hstep Hg) as (s1 & Hg1 & Hev).
  destruct (IH s1 (wf_proc_step _ _ Hp Hstep) Hg1) as (s' & Hs' & Hev'). exists s'. split; [done|]. by etrans.
Qed.

Lemma cur_steps p p' : wf_proc p -> rtc (proc_step) p p' -> (ps_cur p <= ps_cur p')%nat.
Proof.
  intros Hp Hs. apply (wp_gens p' (wf_proc_steps _ _ Hp Hs)).
  destruct (wf_generation p (ps_cur p) Hp ltac:(done)) as (s & Hs0 & _).
  destruct (generation_steps p p' _ s Hp Hs Hs0) as (s' & -> & _). by eexists.
Qed.

(** The monitors of the last generation are stopped at the end of main. *)
Lemma proc_stop_outcome p :
  wf_proc p -> exists p', proc_stop order p = Some p' /\ proc_step p p' /\
    forall g s, ps_gens p' !! g = Some s -> checks_stopped s.
Proof.
  intros Hp. destruct (wf_generation p (ps_cur p) Hp ltac:(done)) as (s & Hs & _ & Hwf). unfold proc_stop.
  rewrite Hs. cbn [mbind option_bind].
  destruct (service_Stop_ok (order (sm_instances (as_svcMgr s))) (as_svcMgr s) (wf_monitors_ok s Hwf) (Horder _))
    as (m & Hm & Hstopped).
  rewrite Hm. cbn [mbind option_bind]. eexists. split; [done|].
  split; [by eapply proc_generation, op_stop|]. intros g s1. simpl.
  destruct (decide (g = ps_cur p)) as [->|Hne]; [rewrite lookup_insert_eq; intros [= <-]; by eapply stopped_closed|].
  rewrite lookup_insert_ne by done. intros Hs1. apply (wp_stopped p Hp g s1 Hs1).
  assert (g <= ps_cur p)%nat by (apply (wp_gens p Hp); by eexists). lia.
Qed.
End running.

(** ** Every handler acts by these steps *)
Section guarantee.
Context {R : Type} `{!Rand R} {Lim : Type} `{!RateLib Lim} `{!GoSort float64 f64_less}.
Context {tables : UnicodeTables} {decoder : JSONDecoder} {sort : GoSort (Route RouteHandler) route_less}.
Context (order : gmap string (ServiceInstance R) -> list (string * ServiceInstance R)).
Context (services : Config -> list (string * ServiceConfig)) (routers : Config -> list (string * option RouterConfig)).
Context (Horder : forall m, order m ≡ₚ map_to_list m).
Context (Hservices : forall cfg, services cfg ≡ₚ map_to_list (cfg_Services cfg)).
Context {W : Type} `{!Env W} {client : Client W} (P : Lens W (Process R Lim)).
Context (open_log : string -> option (Lens W (list accessLogEntry))).

(** The program in the world [w] is one that [p0] can become. *)
Definition reaches (p0 : Process R Lim) (w : W) : Prop := rtc (proc_step order services routers) p0 (lget P w).

(** What runs while a handler waits takes such steps, too; the access log files are not in this state. *)
Context (Henv : forall p0, Stable (reaches p0)).
Context (Hlog : forall path L p0, open_log path = Some L -> insensitive (reaches p0) L).
#[local] Existing Instance Henv.

Lemma reaches_put p0 p w : reaches p0 w -> proc_step order services routers (lget P w) p -> reaches p0 (lput P p w).
Proof. intros Hw Hs. unfold reaches. rewrite lget_put. eapply rtc_r; [exact Hw|exact Hs]. Qed.

(** The components of a generation that the program started with. *)
Section generation.
Context (p0 : Process R Lim) (Hp0 : wf_proc p0) (g : nat) (s0 : appState R Lim) (Hg : ps_gens p0 !! g = Some s0).

Lemma reached_generation w : reaches p0 w ->
  exists s, ps_gens (lget P w) !! g = Some s /\ generation g (lget P w) = s /\ app_evolves s0 s /\ wf_app s.
Proof.
  intros Hw. destruct (generation_steps order services routers Horder Hservices p0 (lget P w) g s0 Hp0 Hw Hg) as (s & Hs & Hev).
  exists s. unfold generation. rewrite Hs. split_and!; [done..|]. eapply wf_app_evolves; [|done].
  by eapply (wp_apps p0 Hp0).
Qed.

Lemma reached_instance name i0 w : GetInstance name (as_svcMgr s0) = Some i0 -> reaches p0 w ->
  exists s i, ps_gens (lget P w) !! g = Some s /\ generation g (lget P w) = s /\
    GetInstance name (as_svcMgr s) = Some i /\ inst_evolves i0 i /\ wf_instance name i.
Proof.
  intros Hi0 Hw. destruct (reached_generation w Hw) as (s & Hs & Hgs & Hev & Hwf).
  pose proof (ae_instances _ _ Hev name) as H. rewrite Hi0 in H. inversion H as [? i Hii E E'|]; subst.
  eexists _, i. split_and!; [done..|]. by apply (wa_instances _ Hwf).
Qed.

Definition core_at (name : string) : Lens W (Proxy (AnyAlgorithm R)) :=
  compose_lens (compose_lens P (gen_lens g)) (core_lens name).

Lemma core_at_wf name i0 w :
  GetInstance name (as_svcMgr s0) = Some i0 -> reaches p0 w -> wf_core (service_urls (si_Config i0)) (lget (core_at name) w).
Proof.
  intros Hi0 Hw. destruct (reached_instance name i0 w Hi0 Hw) as (s & i & _ & Hgs & Hi & Hev & Hwf).
  unfold core_at; simpl. rewrite Hgs, Hi. cbn [default from_option id]. rewrite <- (ie_config _ _ Hev). apply Hwf.
Qed.

Lemma core_respects name : is_Some (GetInstance name (as_svcMgr s0)) -> respects (reaches p0) (core_at name) core_step.
Proof.
  intros [i0 Hi0] w p Hw Hstep. destruct (reached_instance name i0 w Hi0 Hw) as (s & i & Hs & Hgs & Hi & _ & _).
  unfold core_at in *; simpl in *. rewrite Hgs, Hi in Hstep. cbn [default from_option id] in Hstep.
  apply reaches_put; [done|]. rewrite Hgs. eapply proc_generation; [exact Hs|]. by eapply op_core.
Qed.

Lemma gen_limiter_insensitive id rps burst :
  insensitive (reaches p0) (compose_lens (compose_lens P (gen_lens g)) (limiter_lens id rps burst)).
Proof.
  intros rl w Hw. destruct (reached_generation w Hw) as (s & Hs & Hgs & _ & _). simpl.
  apply reaches_put; [done|]. rewrite Hgs. eapply proc_generation; [exact Hs|]. apply op_limiter.
Qed.

Lemma gen_registry_keeps record url ok w :
  registry (compose_lens P (gen_lens g)) order = Some record -> reaches p0 w -> reaches p0 (record url ok w).
Proof.
  intros [= <-] Hw. stable_clock (reaches p0). stable_clock (reaches p0).
  match goal with H : reaches p0 ?w |- _ => destruct (reached_generation w H) as (s & Hs & Hgs & _ & _) end.
  unfold modify; simpl. apply reaches_put; [done|]. rewrite Hgs. eapply proc_generation; [exact Hs|].
  exact (op_record order s z z0 url ok).
Qed.

Lemma gen_chain_keeps mws next :
  keeps (reaches p0) next ->
  keeps (reaches p0) (Chain (interpret (compose_lens P (gen_lens g)) open_log order <$> mws) next).
Proof.
  intros Hnext. induction mws as [|b mws IH]; [done|]. apply keeps_interpret_with; [done| | | |done].
  - apply gen_limiter_insensitive.
  - apply gen_registry_keeps.
  - intros path L. apply Hlog.
Qed.

(** Two clients that agree on the servers of a service answer the requests to it alike. *)
Lemma gen_chain_agree mws next1 next2 :
  keeps (reaches p0) next1 -> agree_on (reaches p0) next1 next2 ->
  agree_on (reaches p0) (Chain (interpret (compose_lens P (gen_lens g)) open_log order <$> mws) next1)
    (Chain (interpret (compose_lens P (gen_lens g)) open_log order <$> mws) next2).
Proof.
  intros Hk Ha. induction mws as [|b mws IH]; [done|]. refine (congruent_interpret _ _ _ _ b _ _ _ _ IH).
  - apply gen_limiter_insensitive.
  - by apply gen_chain_keeps.
Qed.

Lemma service_agree name i0 (c2 : Client W) :
  GetInstance name (as_svcMgr s0) = Some i0 -> same_backends (service_urls (si_Config i0)) client c2 ->
  agree_on (reaches p0) (service_handler (Client0 := client) (compose_lens P (gen_lens g)) name)
    (service_handler (Client0 := c2) (compose_lens P (gen_lens g)) name).
Proof.
  intros Hi Hsame. refine (proxy_agree client c2 (reaches p0) (core_at name) (service_urls (si_Config i0)) _ Hsame).
  intros w Hw. apply (wc_servers _ _ (core_at_wf name i0 w Hi Hw)).
Qed.

(** The dispatch of generation [g]. *)
Lemma gen_dispatch_keeps : keeps (reaches p0) (app_ServeHTTP (compose_lens P (gen_lens g)) open_log order).
Proof.
  intros rw req w Hw. destruct (reached_generation w Hw) as (s & Hs & Hgs & Hev & Hwf).
  assert (forall name, is_Some (GetInstance name (as_svcMgr s)) -> is_Some (GetInstance name (as_svcMgr s0))) as Hback.
  { intros name [i Hi]. pose proof (ae_instances _ _ Hev name) as H. rewrite Hi in H. inversion H; subst. by eexists. }
  unfold app_ServeHTTP. simpl lget. rewrite Hgs.
  destruct (Manager_Route (as_routerMgr s) req) as [route|] eqn:Er.
  - rewrite route_handler_chain. apply gen_chain_keeps; [|done]. refine (proxy_keeps _ _ (core_respects _ _)).
    apply Hback, (wa_routes _ Hwf). unfold Manager_Route in Er. apply List.find_some in Er as [Hin _].
    by apply list_elem_of_In.
  - destruct (GetInstance "default" (as_svcMgr s)) as [i|] eqn:Ei; [|done].
    refine (proxy_keeps _ _ (core_respects _ _) rw req w Hw). apply Hback. by rewrite Ei.
Qed.
End generation.

(** A world the program reaches is one it goes on from. *)
Lemma reaches_trans p0 w w' : reaches p0 w -> reaches (lget P w) w' -> reaches p0 w'.
Proof. unfold reaches. intros H1 H2. by etrans. Qed.

Lemma reaches_wf p0 w : wf_proc p0 -> reaches p0 w -> wf_proc (lget P w).
Proof. intros H Hw. by eapply wf_proc_steps. Qed.

Lemma state_keeps p0 : wf_proc p0 -> keeps (reaches p0) (state_ServeHTTP order P open_log).
Proof.
  intros Hp0 rw req w Hw. eapply reaches_trans; [exact Hw|]. pose proof (reaches_wf p0 w Hp0 Hw) as Hp.
  destruct (wf_generation _ (ps_cur (lget P w)) Hp ltac:(done)) as (s & Hs & _).
  unfold state_ServeHTTP. eapply (gen_dispatch_keeps (lget P w)); [done|exact Hs|]. unfold reaches. reflexivity.
Qed.

(** *** The dispatch of one request *)
(** Where a state sends a request: the handler of the best route, or the service "default", or nowhere. *)
Definition dispatch (s : appState R Lim) (req : Request) : option RouteHandler :=
  match Manager_Route (as_routerMgr s) req with
  | Some route => Some (rt_Handler route)
  | None => (fun _ => mkRouteHandler "default" []) <$> GetInstance "default" (as_svcMgr s)
  end.

Lemma state_dispatch rw req w :
  let p := lget P w in
  let gen := compose_lens P (gen_lens (ps_cur p)) in
  state_ServeHTTP order P open_log rw req w =
  match dispatch (generation (ps_cur p) p) req with
  | Some rh => Chain (interpret gen open_log order <$> rh_middlewares rh) (service_handler gen (rh_service rh)) rw req w
  | None => mkServed (http_Error "No matching service" 502 rw) (req_Header req) (req_Body req) w
  end.
Proof.
  intros p gen. unfold state_ServeHTTP, app_ServeHTTP, dispatch. simpl lget. fold p.
  destruct (Manager_Route _ req) as [route|]; [by rewrite route_handler_chain|].
  by destruct (GetInstance "default" _).
Qed.

Lemma dispatch_service s req rh :
  wf_app s -> dispatch s req = Some rh -> is_Some (GetInstance (rh_service rh) (as_svcMgr s)).
Proof.
  intros Hs. unfold dispatch. destruct (Manager_Route (as_routerMgr s) req) as [route|] eqn:Er.
  - intros [= <-]. apply (wa_routes _ Hs). unfold Manager_Route in Er. apply List.find_some in Er as [Hin _].
    by apply list_elem_of_In.
  - destruct (GetInstance "default" (as_svcMgr s)) as [i|] eqn:Ei; [|done]. intros [= <-]. simpl. by rewrite Ei.
Qed.

Lemma dispatch_agree rw req w rh svc (c2 : Client W) :
  wf_proc (lget P w) ->
  let s := generation (ps_cur (lget P w)) (lget P w) in
  dispatch s req = Some rh -> cfg_Services (as_cfg s) !! rh_service rh = Some svc ->
  same_backends (service_urls svc) client c2 ->
  state_ServeHTTP (Client0 := c2) order P open_log rw req w = state_ServeHTTP (Client0 := client) order P open_log rw req w.
Proof.
  intros Hp s Hd Hsvc Hsame. destruct (wf_generation _ (ps_cur (lget P w)) Hp ltac:(done)) as (s1 & Hs1 & Hs & Hwf).
  assert (s = s1) as -> by done. destruct (dispatch_service s1 req rh Hwf Hd) as [i Hi].
  assert (si_Config i = svc) as Hcfg
    by (pose proof (wa_configured _ Hwf (rh_service rh)) as H; rewrite Hi, Hsvc in H; by injection H).
  assert (reaches (lget P w) w) as Hw by (unfold reaches; reflexivity).
  pose proof (state_dispatch rw req w) as E1. cbv zeta in E1. rewrite E1. clear E1.
  assert (forall c : Client W, state_ServeHTTP (Client0 := c) order P open_log rw req w =
    Chain (interpret (compose_lens P (gen_lens (ps_cur (lget P w)))) open_log order <$> rh_middlewares rh)
      (service_handler (Client0 := c) (compose_lens P (gen_lens (ps_cur (lget P w)))) (rh_service rh)) rw req w) as E.
  { intros c. unfold state_ServeHTTP, app_ServeHTTP. simpl lget. rewrite Hs. unfold dispatch in Hd.
    destruct (Manager_Route _ req) as [route|]; [injection Hd as <-; by rewrite route_handler_chain|].
    destruct (GetInstance "default" _); [|done]. by injection Hd as <-. }
  rewrite E, Hs, Hd. symmetry.
  refine (gen_chain_agree (lget P w) Hp (ps_cur (lget P w)) s1 Hs1 _ _ _ _ _ rw req w Hw).
  - refine (proxy_keeps _ _ (core_respects (lget P w) Hp _ s1 Hs1 _ _)). by eexists.
  - eapply service_agree; [done..|]. by rewrite Hcfg.
Qed.

(** *** Entrypoints *)
Lemma ep_limiter_insensitive p0 id rps burst : insensitive (reaches p0) (compose_lens P (epLimiter_lens id rps burst)).
Proof. intros rl w Hw. simpl. apply reaches_put; [done|]. apply proc_limiter. Qed.

Lemma ep_chain_keeps p0 mws next :
  wf_proc p0 -> keeps (reaches p0) next ->
  keeps (reaches p0) (Chain (ep_interpret order P open_log <$> mws) next).
Proof.
  intros Hp0 Hnext. destruct (wf_generation p0 0 Hp0 ltac:(lia)) as (s & Hs & _).
  induction mws as [|b mws IH]; [done|]. apply keeps_interpret_with; [done| | | |done].
  - apply ep_limiter_insensitive.
  - by eapply gen_registry_keeps.
  - intros path L. apply Hlog.
Qed.

(** *** The dashboard *)
Lemma snapshot_step (p : Process R Lim) now g :
  wf_proc p -> (g <= ps_cur p)%nat ->
  proc_step order services routers p
    (mkProcess (snapshot_gen order now g (ps_gens p)).1 (ps_cur p) (ps_hub p) (ps_epLimiters p)).
Proof.
  intros Hp Hg. destruct (wf_generation p g Hp Hg) as (s & Hs & _). unfold snapshot_gen. rewrite Hs.
  pose proof (op_snapshot order s now) as Hop.
  destruct (service_DashboardSnap _ _ _) as [m snap]. cbn [fst] in *. by eapply (proc_generation _ _ _ p g s).
Qed.

(** An operation of the hub: it takes a snapshot or none, and does what it does with clients and history. *)
Definition hub_op (f : Hub (Pointer R Lim) -> Hub (Pointer R Lim)) : Prop := forall h,
  (hub_provider (f h) = hub_provider h \/
   hub_provider (f h) = (provider_DashboardSnap (SnapshotProvider := Pointer_provider order) (hub_provider h)).2).

Lemma hub_op_steps p0 now f w : wf_proc p0 -> hub_op f -> reaches p0 w ->
  reaches p0 (modify P (fun p => hub_store (f (hub_view now p)) p) w).
Proof.
  intros Hp0 Hf Hw. pose proof (reaches_wf p0 w Hp0 Hw) as Hp. unfold modify. set (p := lget P w) in *.
  set (h := f (hub_view now p)).
  assert (rtc (proc_step order services routers) p (hub_store h p)) as Hsteps.
  { destruct (Hf (hub_view now p)) as [E|E]; fold h in E.
    - apply rtc_once. unfold hub_store. rewrite E. simpl. apply proc_clients.
    - eapply rtc_l; [exact (snapshot_step p now (hub_provider (ps_hub p)) Hp (wp_hub p Hp))|].
      apply rtc_once. unfold hub_store. rewrite E. simpl.
      destruct (snapshot_gen order now (hub_provider (ps_hub p)) (ps_gens p)) as [gens snap].
      exact (proc_clients _ _ _ (mkProcess gens (ps_cur p) (ps_hub p) (ps_epLimiters p)) _ _). }
  unfold reaches. rewrite lget_put. etrans; [exact Hw|exact Hsteps].
Qed.

Lemma hub_handler_keeps p0 (f : ResponseWriter -> Hub (Pointer R Lim) -> ResponseWriter * Hub (Pointer R Lim)) : wf_proc p0 -> (forall rw, hub_op (fun h => (f rw h).2)) ->
  keeps (reaches p0) (hub_handler P f).
Proof.
  intros Hp0 Hf rw req w Hw. unfold hub_handler. stable_clock (reaches p0).
  pose proof (hub_op_steps p0 (fun _ => z) _ _ Hp0 (Hf rw) Hw) as Hs. unfold modify in *. cbn beta in Hs.
  destruct (f rw (hub_view (fun _ => z) (lget P w0))) as [rw' h]. exact Hs.
Qed.

Context (encode : Document -> bytes) (encode_snapshot : DashboardSnapshot -> result string bytes).
Context (serve_page : Handler W) (redirect : string -> Handler W).
Context (upgrade : ResponseWriter -> Request -> W -> ResponseWriter * option nat * W).
Context (Hpage : forall p0, keeps (reaches p0) serve_page).
Context (Hredirect : forall p0 path, keeps (reaches p0) (redirect path)).
Context (Hupgrade : forall p0 rw req w, reaches p0 w -> reaches p0 (upgrade rw req w).2).

Lemma dash_keeps p0 : wf_proc p0 ->
  keeps (reaches p0) (dash_mux order P encode encode_snapshot serve_page redirect upgrade).
Proof.
  intros Hp0. apply mux_keeps; [done|]. intros path h Hin.
  repeat (apply elem_of_cons in Hin as [[= -> ->]|Hin]); [| | | | | | |by apply elem_of_nil in Hin].
  - apply Hpage.
  - intros rw req w Hw. unfold hub_HandleWS. pose proof (Hupgrade p0 rw req w Hw) as Hu.
    destruct (upgrade rw req w) as [[rw' conn] w1]. cbn [sv_world snd] in *. destruct conn as [conn|]; [|done].
    apply hub_op_steps; [done|by left|done].
  - apply hub_handler_keeps; [done|]. intros rw' hub. right. unfold HandleAPIMetrics.
    by destruct (provider_DashboardSnap (hub_provider hub)).
  - apply hub_handler_keeps; [done|]. intros rw' hub. by left.
  - apply hub_handler_keeps; [done|]. intros rw' hub. right. unfold HandleAPIHealth.
    destruct (provider_DashboardSnap (hub_provider hub)) as [snap q]. by destruct (0 <? ds_HealthyCount snap).
  - apply hub_handler_keeps; [done|]. intros rw' hub. by left.
  - intros rw req w Hw. unfold stats_ServeHTTP. stable_clock (reaches p0).
    match goal with H : reaches p0 ?w |- _ => pose proof (snapshot_step (lget P w) (fun _ => z) (ps_cur (lget P w))
      (reaches_wf p0 w Hp0 H) ltac:(done)) as Hs end.
    destruct (snapshot_gen _ _ _ _) as [gens snap]. cbn [fst sv_world] in *. by apply reaches_put.
Qed.

Lemma entry_keeps p0 name : wf_proc p0 ->
  keeps (reaches p0) (entry_handler order P open_log encode encode_snapshot serve_page redirect upgrade name).
Proof. intros Hp0. unfold entry_handler. destruct (String.eqb _ _); [by apply dash_keeps|by apply state_keeps]. Qed.

Lemma hub_tick_keeps p0 writable w : wf_proc p0 -> reaches p0 w -> reaches p0 (hub_tick order P writable w).
Proof.
  intros Hp0 Hw. unfold hub_tick. stable_clock (reaches p0). apply hub_op_steps; [done| |done].
  intros h. right. unfold broadcast_tick. by destruct (provider_DashboardSnap (hub_provider h)).
Qed.
End guarantee.

(** ** The claims *)
Section claims.
Context {R : Type} `{!Rand R} {Lim : Type} `{!RateLib Lim} `{!GoSort float64 f64_less}.
Context {tables : UnicodeTables} {decoder : JSONDecoder} {sort : GoSort (Route RouteHandler) route_less}.
Context (order : gmap string (ServiceInstance R) -> list (string * ServiceInstance R)).
Context (services : Config -> list (string * ServiceConfig)) (routers : Config -> list (string * option RouterConfig)).
Context (Horder : forall m, order m ≡ₚ map_to_list m).
Context (Hservices : forall cfg, services cfg ≡ₚ map_to_list (cfg_Services cfg)).
Context (Hrouters : forall cfg, routers cfg ≡ₚ map_to_list (cfg_Routers cfg)).

(** C14. A generation is what it was built as for as long as anything points to it.  Whatever operations are
    carried out on the program, on this generation or on another, reloads included, its configuration, its
    routes, its services and their servers stay, with a breaker and statistics for each; and of a
    generation that has been replaced no health check goes on. *)
Theorem generation_survives (p p' : Process R Lim) g :
  wf_proc p -> rtc (proc_step order services routers) p p' -> (g <= ps_cur p)%nat ->
  as_cfg (generation g p') = as_cfg (generation g p) /\ same_tables (generation g p) (generation g p') /\
  (forall name i, GetInstance name (as_svcMgr (generation g p)) = Some i ->
     exists i', GetInstance name (as_svcMgr (generation g p')) = Some i' /\ si_Config i' = si_Config i /\
       wf_core (service_urls (si_Config i)) (si_core i')) /\
  (ps_cur p <= ps_cur p')%nat /\ ((g < ps_cur p')%nat -> checks_stopped (generation g p')).
Proof.
  intros Hp Hs Hg. destruct (wf_generation p g Hp Hg) as (s & Hgs & Hgen & Hwf).
  destruct (generation_steps order services routers Horder Hservices p p' g s Hp Hs Hgs) as (s' & Hgs' & Hev).
  pose proof (wf_proc_steps order services routers Horder Hservices p p' Hp Hs) as Hp'.
  assert (generation g p' = s') as -> by (unfold generation; by rewrite Hgs'). rewrite Hgen.
  split_and!.
  - apply Hev.
  - split; [by rewrite (ae_routes _ _ Hev)|]. intros n. pose proof (ae_instances _ _ Hev n) as H.
    destruct H; split; intros [? [=]]; by eexists.
  - intros name i Hi. pose proof (ae_instances _ _ Hev name) as H. rewrite Hi in H. inversion H as [? i' Hii E E'|]; subst.
    exists i'. split; [done|]. split; [apply Hii|]. rewrite <- (ie_config _ _ Hii).
    eapply wi_core, (wa_instances s'); [by eapply wf_app_evolves|done].
  - by eapply cur_steps.
  - intros Hlt. by eapply (wp_stopped p' Hp').
Qed.

(** C27. Where the pointers are after a reload.  One that does not load changes nothing; one that panics, in Load or
    over a configuration that is not runnable, ends the program.  One that loads puts a
    new generation in force for requests and for /stats, with fresh rate limits on its routes, while the
    entrypoints keep theirs, and the health checks of the old generation are stopped.  The dashboard
    follows only if every router could be added: after a failed reload it shows services that no
    request uses any more. *)
Theorem reload_pointers load now seed (p : Process R Lim) :
  wf_proc p -> (forall cfg, load = Some (Ok cfg) -> valid_config cfg) ->
  match load, proc_reload order services routers load now seed p with
  | None, r => r = None
  | Some (Err e), r => r = Some (p, Some (ParseConfig e))
  | Some (Ok cfg), Some (p', err) => reloaded p cfg err p' /\ wf_proc p'
  | Some (Ok cfg), None => ~ runnable cfg
  end.
Proof.
  intros Hp Hload. pose proof (proc_reload_outcome order services routers Horder Hservices load now seed p Hp Hload) as H.
  destruct load as [[cfg|e]|]; [|done..].
  destruct (proc_reload _ _ _ _ _ _ _) as [[p' err]|] eqn:Hr.
  - split; [done|]. eapply (wf_proc_step order services routers); [done..|]. by eapply proc_reloaded.
  - destruct (proc_reload_returns order services routers Horder Hservices Hrouters _ now seed p Hp Hload Hr)
      as [|(cfg' & [= <-] & Hno)]; done.
Qed.

Context {W : Type} `{!Env W} {client : Client W} (P : Lens W (Process R Lim)).
Context (open_log : string -> option (Lens W (list accessLogEntry))).

(** C4. The program stays well formed.  Whatever runs meanwhile by the same steps, a request to any entrypoint,
    through any chain of built middlewares, to the routes or to the dashboard, changes the program by
    steps that keep it so: every service has a breaker and statistics for exactly its servers, routes
    are in order and lead to existing services, pointers are valid, replaced generations are quiet. *)
Theorem program_stays_well_formed encode encode_snapshot serve_page redirect upgrade (p0 : Process R Lim) name mws rw req w :
  (forall p0, Stable (reaches order services routers P p0)) ->
  (forall path L p0, open_log path = Some L -> insensitive (reaches order services routers P p0) L) ->
  (forall p0, keeps (reaches order services routers P p0) serve_page) -> (forall p0 path, keeps (reaches order services routers P p0) (redirect path)) ->
  (forall p0 rw req w, reaches order services routers P p0 w -> reaches order services routers P p0 (upgrade rw req w).2) ->
  wf_proc p0 -> reaches order services routers P p0 w ->
  let handler := entry_handler order P open_log encode encode_snapshot serve_page redirect upgrade name in
  let w' := sv_world (Chain (ep_interpret order P open_log <$> mws) handler rw req w) in
  reaches order services routers P p0 w' /\ wf_proc (lget P w').
Proof.
  intros Henv Hlog Hpage Hred Hup Hp0 Hw handler w'.
  assert (reaches order services routers P p0 w') as Hw'.
  { apply (ep_chain_keeps order services routers Horder Hservices P open_log Henv Hlog p0 mws _ Hp0); [|done].
    by apply entry_keeps. }
  split; [done|]. by eapply reaches_wf.
Qed.

(** C2. A request is served by the configuration under which it came, however the configuration is reloaded
    while it is being served.  Where it goes is decided once, by the routes that are in force when it comes:
    to the best route's handler, whose middlewares and whose service are those of that generation, or to
    its service "default", or nowhere.  And it reaches no backend but the servers that that service has in
    that configuration: what any other URL would answer makes no difference. *)
Theorem request_keeps_generation (p0 : Process R Lim) rw req w :
  (forall p0, Stable (reaches order services routers P p0)) ->
  (forall path L p0, open_log path = Some L -> insensitive (reaches order services routers P p0) L) ->
  wf_proc p0 -> reaches order services routers P p0 w ->
  let gen := compose_lens P (gen_lens (ps_cur (lget P w))) in
  let s := generation (ps_cur (lget P w)) (lget P w) in
  match dispatch s req with
  | None =>
      state_ServeHTTP order P open_log rw req w =
      mkServed (http_Error "No matching service" 502 rw) (req_Header req) (req_Body req) w
  | Some rh =>
      state_ServeHTTP order P open_log rw req w =
      Chain (interpret gen open_log order <$> rh_middlewares rh) (service_handler gen (rh_service rh)) rw req w /\
      exists svc, cfg_Services (as_cfg s) !! rh_service rh = Some svc /\
        forall client2 : Client W, same_backends (service_urls svc) client client2 ->
          state_ServeHTTP (Client0 := client2) order P open_log rw req w =
          state_ServeHTTP (Client0 := client) order P open_log rw req w
  end.
Proof.
  intros Henv Hlog Hp0 Hw gen s. pose proof (state_dispatch order P open_log rw req w) as Hd. cbv zeta in Hd.
  fold gen s in Hd. destruct (dispatch s req) as [rh|] eqn:Erh; [|exact Hd]. split; [exact Hd|].
  assert (wf_proc (lget P w)) as Hp by by eapply reaches_wf.
  destruct (wf_generation _ (ps_cur (lget P w)) Hp ltac:(done)) as (s1 & _ & Hs & Hwf). fold s in Hs. subst s1.
  destruct (dispatch_service s req rh Hwf Erh) as [i Hi].
  pose proof (wa_configured _ Hwf (rh_service rh)) as Hcfg. rewrite Hi in Hcfg. exists (si_Config i).
  split; [done|]. intros client2 Hsame.
  apply (dispatch_agree order services routers Horder Hservices P open_log Henv Hlog rw req w rh (si_Config i) client2 Hp);
    done.
Qed.

(** C5. A nil pointer is dereferenced only over a null entry of the configuration file, in any state the program
    reaches: a selection of any generation finds a breaker for every server; a tick of any health-check
    goroutine completes; the final stop returns; and a reload returns unless the file has a null service
    or entrypoint, or loads and has a null router, a router that lists a null middleware, or a
    health-check interval that makes no ticker. *)
Theorem no_nil_dereference `{!Prober W} (p0 : Process R Lim) w :
  (forall p0, Stable (reaches order services routers P p0)) ->
  (forall p0 url timeout w, reaches order services routers P p0 w -> reaches order services routers P p0 (probe_Get url timeout w).2) ->
  wf_proc p0 -> reaches order services routers P p0 w ->
  (forall g s name i pri excluded, ps_gens (lget P w) !! g = Some s -> GetInstance name (as_svcMgr s) = Some i ->
     (proxy_select (core_at P g name) pri excluded w).1 <> SelectPanic) /\
  (forall g s name i mon server ch, ps_gens (lget P w) !! g = Some s -> GetInstance name (as_svcMgr s) = Some i ->
     si_Monitor i = Some mon -> (server, ch) ∈ mon_goroutines mon ->
     exists w', probe_at P g name server w = Some w' /\ reaches order services routers P p0 w') /\
  (forall data unmarshal vorder now seed, (forall m, vorder m ≡ₚ map_to_list m) ->
     let load := Load data unmarshal vorder in
     (proc_reload order services routers load now seed (lget P w) = None ->
        null_document data unmarshal \/ exists cfg, load = Some (Ok cfg) /\ ~ runnable cfg) /\
     (null_document data unmarshal -> proc_reload order services routers load now seed (lget P w) = None)) /\
  is_Some (proc_stop order (lget P w)).
Proof.
  intros Henv Hprobe Hp0 Hw. set (p := lget P w) in *.
  assert (wf_proc p) as Hp by by eapply reaches_wf. assert (reaches order services routers P p w) as Hpw by (unfold reaches; reflexivity).
  split_and!.
  - intros g s name i pri ex Hg Hi. eapply (proxy_select_safe (reaches order services routers P p) (core_at P g name)
      (core_respects order services routers Horder Hservices P p Hp g s Hg name ltac:(by eexists)) (service_urls (si_Config i)));
      [|exact Hpw]. intros w' Hw'. by eapply core_at_wf.
  - intros g s name i mon server ch Hg Hi Hmon Hin.
    destruct (wi_monitor name i (wa_instances s (wp_apps p Hp g s Hg) name i Hi) mon Hmon) as [Hinv Hservers].
    assert (srv_URL server ∈ service_urls (si_Config i)) as Hurl.
    { unfold service_urls. apply list_elem_of_fmap. exists server. split; [done|]. rewrite <- Hservers.
      by eapply mi_probes. }
    destruct (check_keeps (reaches order services routers P p) (core_at P g name)
      (core_respects order services routers Horder Hservices P p Hp g s Hg name ltac:(by eexists)) (Hprobe p)
      (service_urls (si_Config i)) server w) as (w' & Hc & Hw'); [|done|done|].
    { intros w1 Hw1. by eapply core_at_wf. }
    exists w'. split; [exact Hc|]. by eapply reaches_trans.
  - intros data unmarshal vorder now seed Hv load. split.
    + intros Hr. rewrite <- (Load_panics data unmarshal vorder).
      apply (proc_reload_returns order services routers Horder Hservices Hrouters load now seed p Hp); [|done].
      intros cfg. by apply Load_valid.
    + intros Hnull. apply Load_panics with (order := vorder) in Hnull. unfold load. rewrite Hnull.
      destruct (wf_generation p (ps_cur p) Hp ltac:(done)) as (s & Hs & _). unfold proc_reload. by rewrite Hs.
  - by destruct (proc_stop_outcome order services routers Horder p Hp) as (p' & -> & _).
Qed.
End claims.

(** ** Witnesses: the program of App.v, just started *)
#[local] Existing Instance app_Rand.
#[local] Existing Instance app_RateLib.

Definition w_services (cfg : Config) : list (string * ServiceConfig) := map_to_list (cfg_Services cfg).
Definition w_routers (cfg : Config) : list (string * option RouterConfig) := map_to_list (cfg_Routers cfg).
Definition w_order (m : gmap string (ServiceInstance unit)) : list (string * ServiceInstance unit) := map_to_list m.

Lemma w_valid service : valid_config (app_config service).
Proof.
  split; [apply fill_defaults_complete|].
  assert (entries_urls (map_to_list (cfg_Services (app_config service))) = ["http://b1"%string]) as -> by (vm_compute; reflexivity).
  apply NoDup_singleton.
Qed.

Definition w_start : appState unit nat := default no_app (fst <$> app_initialize "default").
Definition w_process : Process unit nat := mkProcess {[ 0%nat := w_start ]} 0 (NewHub 0%nat) ∅.
Definition w_running : Sim (Process unit nat) := mkSim 5 w_process (fun _ => None).
Definition w_P : Lens (Sim (Process unit nat)) (Process unit nat) := sim_lens _.

Lemma w_process_wf : wf_proc w_process.
Proof.
  apply initial_wf. unfold w_start. destruct (app_initialize "default") as [[s err]|] eqn:E.
  - apply (initialize_wf (R := unit) (Lim := nat) (tables := example_tables) (decoder := example_decoder)
      (sort := app_sort) _ _ _ _ (app_config "default") s err (w_valid "default") (Permutation_refl _) E).
  - exfalso. assert ((fun _ => tt) <$> app_initialize "default" = Some tt) as H by (vm_compute; reflexivity).
    rewrite E in H. discriminate H.
Qed.

(** Nothing but the handlers touches the simulated program. *)
Lemma w_stable p0 : Stable (reaches (tables := example_tables) (decoder := example_decoder) (sort := app_sort)
  w_order w_services w_routers w_P p0).
Proof. exact (frame_Stable w_P (fun p => rtc (proc_step w_order w_services w_routers) p0 p)). Qed.

Lemma w_reaches : reaches (tables := example_tables) (decoder := example_decoder) (sort := app_sort)
  w_order w_services w_routers w_P w_process w_running.
Proof. unfold reaches. reflexivity. Qed.

Definition w_reload_to (cfg : Config) (p : Process unit nat) : option (Process unit nat * option ReloadError) :=
  proc_reload (tables := example_tables) (decoder := example_decoder) (sort := app_sort) w_order w_services w_routers
    (Some (Ok cfg)) (fun _ => 0) (fun _ => tt) p.
Definition w_reload (service : string) : option (Process unit nat * option ReloadError) :=
  w_reload_to (app_config service) w_process.

Lemma w_runnable : runnable (app_config "nobody").
Proof. refine (bool_decide_eq_true_1 _ _). vm_compute. reflexivity. Qed.

(** A reload that fails at its router: the program goes on with it, the dashboard with the old one. *)
Lemma reload_pointers_witness :
  exists p' err, w_reload "nobody" = Some (p', err) /\ ps_cur p' = 1%nat /\
    (err <> None -> hub_provider (ps_hub p') = 0%nat).
Proof.
  assert (match w_reload "nobody" with
          | Some (p', err) => reloaded w_process (app_config "nobody") err p' /\ wf_proc p'
          | None => ~ runnable (app_config "nobody")
          end) as H.
  { refine (reload_pointers (tables := example_tables) (decoder := example_decoder) (sort := app_sort)
      w_order w_services w_routers (fun _ => reflexivity _) (fun _ => reflexivity _) (fun _ => reflexivity _)
      (Some (Ok (app_config "nobody"))) (fun _ => 0) (fun _ => tt) w_process w_process_wf _).
    intros cfg E. injection E as <-. apply w_valid. }
  destruct (w_reload "nobody") as [[p' err]|]; [|destruct (H w_runnable)]. destruct H as [Hre _].
  exists p', err. split; [reflexivity|]. split; [exact (re_cur _ _ _ _ Hre)|]. intros Herr.
  rewrite (re_hub _ _ _ _ Hre). destruct err; [reflexivity|]. destruct (Herr eq_refl).
Defined.

Lemma w_reload_steps cfg p p' err :
  valid_config cfg -> w_reload_to cfg p = Some (p', err) ->
  proc_step (tables := example_tables) (decoder := example_decoder) (sort := app_sort) w_order w_services w_routers p p'.
Proof. intros Hv Hr. eapply proc_reloaded; [|exact Hr]. intros cfg' E. injection E as <-. exact Hv. Qed.

Lemma generation_survives_witness :
  exists p' err, w_reload "nobody" = Some (p', err) /\ same_tables w_start (generation 0 p') /\
    checks_stopped (generation 0 p').
Proof.
  destruct (w_reload "nobody") as [[p' err]|] eqn:Hr.
  - exists p', err. split; [reflexivity|].
    destruct (generation_survives (tables := example_tables) (decoder := example_decoder) (sort := app_sort)
      w_order w_services w_routers (fun _ => reflexivity _) (fun _ => reflexivity _) w_process p' 0 w_process_wf)
      as (_ & Hsame & _ & _ & Hstop).
    + eapply rtc_once, (w_reload_steps (app_config "nobody") _ _ err); [apply w_valid|exact Hr].
    + apply le_n.
    + split; [exact Hsame|]. apply Hstop.
      assert ((fun r => ps_cur r.1) <$> w_reload "nobody" = Some 1%nat) as Hcur by (vm_compute; reflexivity).
      rewrite Hr in Hcur. injection Hcur as Hcur. cbn in Hcur. rewrite Hcur. apply le_n.
  - exfalso. assert ((fun _ => tt) <$> w_reload "nobody" = Some tt) as H by (vm_compute; reflexivity).
    rewrite Hr in H. discriminate H.
Defined.

(** *** A world in which every reading of the clock reloads the configuration, to one with another backend *)
Definition other_config : Config := fill_defaults
  (mkConfig 0 0 [mkServer "http://b2" "b2" 0 0 (mkHC "" 0 0 0)] "roundrobin" 0 0 0 0 0 0 (f64_of_Z 0) 0 0 0 0 ""
     (mkAuth "" "") (mkTLS false "" "" false) (mkCORS [] [] []) false ∅ (mkTimeouts 0 0 0) ∅ ∅ ∅)%string.

Lemma other_valid : valid_config other_config.
Proof.
  split; [apply fill_defaults_complete|].
  assert (entries_urls (map_to_list (cfg_Services other_config)) = ["http://b2"%string]) as -> by (vm_compute; reflexivity).
  apply NoDup_singleton.
Qed.

Definition reloading_env : Env (Sim (Process unit nat)) := {|
  env_Now w := (sim_now w, mkSim (sim_now w) (default (sim_state w) (fst <$> w_reload_to other_config (sim_state w)))
                             (sim_backends w));
  env_SleepUntil := env_SleepUntil (Env := Sim_Env _);
  env_Choose := env_Choose (Env := Sim_Env _);
  env_Float64 := env_Float64 (Env := Sim_Env _);
  env_RandBytes := env_RandBytes (Env := Sim_Env _);
  env_Info := env_Info (Env := Sim_Env _);
  env_Error := env_Error (Env := Sim_Env _);
|}.

Lemma reloading_stable p0 : Stable (Env0 := reloading_env) (Client0 := Sim_Client _)
  (reaches (tables := example_tables) (decoder := example_decoder) (sort := app_sort) w_order w_services w_routers w_P p0).
Proof.
  split; try (intros; assumption). intros w H. unfold reaches in *. cbn [env_Now reloading_env snd].
  change (lget w_P (mkSim ?n ?p ?b)) with p. destruct (w_reload_to other_config (sim_state w)) as [[p' err]|] eqn:E; [|exact H].
  eapply rtc_r; [exact H|]. exact (w_reload_steps other_config _ _ err other_valid E).
Qed.

Lemma prefix_of_app s t : String.prefix s (s +:+ t)%string = true.
Proof.
  induction s as [|a s IH]; [by destruct t|]. change (String a s +:+ t)%string with (String a (s +:+ t)).
  cbn [String.prefix]. by destruct (ascii_dec a a).
Qed.

(** A client that knows the backend of the first configuration only. *)
Definition only_b1 : Client (Sim (Process unit nat)) := {|
  client_NewRequest_ok _ _ := true;
  client_Do out w :=
    if String.prefix "http://b1" (out_URL out) then client_Do (Client := Sim_Client _) out w
    else (Err "no route to host"%string, [], w);
|}.

(** Every backend answers with the URL it was asked for. *)
Definition echo_world : Sim (Process unit nat) :=
  mkSim 5 w_process (fun out => Some (mkResponse 200 ∅ (to_bytes (out_URL out)))).

Definition served_while_reloading (c : Client (Sim (Process unit nat))) : Served (Sim (Process unit nat)) :=
  state_ServeHTTP (Env0 := reloading_env) (Client0 := c) w_order w_P (fun _ => None) (ServerWriter false ∅ None [])
    (sim_request "GET" "/api/x" Background) echo_world.

(** Reloads run while the request is served, and it is answered by the backend it was dispatched to. *)
Lemma request_keeps_generation_witness :
  served_while_reloading only_b1 = served_while_reloading (Sim_Client _) /\
  (0 < ps_cur (lget w_P (sv_world (served_while_reloading (Sim_Client _)))))%nat /\
  (client_view (sv_w (served_while_reloading (Sim_Client _)))).2 = to_bytes "http://b1/api/x".
Proof.
  split; [|split; [vm_compute; apply le_n_S, le_0_n|vm_compute; reflexivity]].
  assert (forall (path : string) L p0, @None (Lens (Sim (Process unit nat)) (list accessLogEntry)) = Some L ->
    insensitive (reaches (tables := example_tables) (decoder := example_decoder) (sort := app_sort)
      w_order w_services w_routers w_P p0) L) as Hlog by (intros path L p0 E; discriminate E).
  pose proof (request_keeps_generation (tables := example_tables) (decoder := example_decoder) (sort := app_sort)
    w_order w_services w_routers (fun _ => reflexivity _) (fun _ => reflexivity _) (Env0 := reloading_env)
    (client := Sim_Client _) w_P (fun _ => None) w_process (ServerWriter false ∅ None [])
    (sim_request "GET" "/api/x" Background) echo_world reloading_stable Hlog
    w_process_wf (rtc_refl _ _)) as H.
  cbv zeta in H. set (d := dispatch _ _) in H.
  assert (rh_service <$> d = Some "default"%string) as Hname by (vm_compute; reflexivity).
  clearbody d. destruct d as [rh|]; [|discriminate Hname]. injection Hname as Hname.
  destruct H as (_ & svc & Hsvc & H).
  assert (service_urls svc = ["http://b1"%string]) as Hurls.
  { assert (service_urls <$> Some svc = Some ["http://b1"%string]) as E
      by (rewrite <- Hsvc, Hname; vm_compute; reflexivity). by injection E. }
  unfold served_while_reloading. refine (H only_b1 _). rewrite Hurls. split; [reflexivity|]. intros out w (target & uri & Hin & Hurl). apply list_elem_of_singleton in Hin as ->.
  cbn [client_Do only_b1]. rewrite Hurl, prefix_of_app. reflexivity.
Defined.

(** A request to the dashboard's /stats, and one to the routes. *)
Definition w_entry (name : string) : Handler (Sim (Process unit nat)) :=
  Chain (ep_interpret w_order w_P (fun _ => None) <$> [BuiltHeaders; BuiltRateLimit 0 (f64_of_Z 1) 2; BuiltCircuitBreaker])
    (entry_handler w_order w_P (fun _ => None) (fun _ => []) (fun _ => Ok []) (fun rw r w => mkServed rw ∅ [] w)
       (fun _ rw r w => mkServed rw ∅ [] w) (fun rw _ w => (rw, None, w)) name).

Lemma program_stays_well_formed_witness :
  wf_proc (lget w_P (sv_world (w_entry "dashboard" (ServerWriter false ∅ None []) (sim_request "GET" "/stats" Background) w_running))) /\
  wf_proc (lget w_P (sv_world (w_entry "web" (ServerWriter false ∅ None []) (sim_request "GET" "/api/x" Background) w_running))).
Proof.
  assert (forall name rw r, wf_proc (lget w_P (sv_world (w_entry name rw r w_running)))) as H.
  - intros name rw r.
    destruct (program_stays_well_formed (tables := example_tables) (decoder := example_decoder) (sort := app_sort)
      w_order w_services w_routers (fun _ => reflexivity _) (fun _ => reflexivity _) w_P (fun _ => None)
      (fun _ => []) (fun _ => Ok []) (fun rw r w => mkServed rw ∅ [] w)
      (fun _ rw r w => mkServed rw ∅ [] w) (fun rw _ w => (rw, None, w)) w_process name
      [BuiltHeaders; BuiltRateLimit 0 (f64_of_Z 1) 2; BuiltCircuitBreaker] rw r w_running) as [_ H].
    + exact w_stable.
    + intros path L p0 E. discriminate E.
    + intros p0 rw' r' w' Hw. exact Hw.
    + intros p0 path rw' r' w' Hw. exact Hw.
    + intros p0 rw' r' w' Hw. exact Hw.
    + exact w_process_wf.
    + exact w_reaches.
    + exact H.
  - split; apply H.
Defined.

Lemma no_nil_dereference_witness :
  (proxy_select (core_at w_P 0 "default") "high" [] w_running).1 <> SelectPanic /\
  is_Some (proc_stop w_order w_process).
Proof.
  destruct (no_nil_dereference (tables := example_tables) (decoder := example_decoder) (sort := app_sort)
    w_order w_services w_routers (fun _ => reflexivity _) (fun _ => reflexivity _) (fun _ => reflexivity _) w_P
    (Prober0 := fun _ _ w => (None, w)) w_process w_running) as (Hsel & _ & _ & Hstop).
  - exact w_stable.
  - intros p0 url timeout w Hw. exact Hw.
  - exact w_process_wf.
  - exact w_reaches.
  - split; [|exact Hstop].
    assert (is_Some (GetInstance "default" (as_svcMgr w_start))) as [i Hi]
      by (unfold is_Some; vm_compute; eexists; reflexivity).
    exact (Hsel 0%nat w_start "default"%string i "high"%string [] eq_refl Hi).
Defined.
