(* ===== verification/Tls.v ===== *)
(** * internal/tlsutil/certs.go: the self-signed certificate

    [GenerateSelfSigned] on a disk: a map of files, and for every path whether it can be created and how
    many bytes can be written there.  Key generation, signing and the encodings are parameters (class
    [Crypto]); what is proved is which files a call leaves, on each of its outcomes. *)
From S2P Require Import Prelude GoStrings NetIP.
Open Scope Z_scope.

(** *** The disk *)
Record Disk : Type := mkDisk {
  dk_files : gmap string bytes;
  dk_create : string -> option string;        (* the error of creating a file there *)
  dk_room : string -> option (nat * string);  (* how many bytes fit, and the error at the next one *)
}.

Definition set_file (path : string) (data : bytes) (d : Disk) : Disk :=
  mkDisk (<[path := data]> (dk_files d)) (dk_create d) (dk_room d).

(** [os.Create] truncates a file that is there. *)
Definition os_Create (path : string) (d : Disk) : result string Disk :=
  match dk_create d path with Some e => Err e | None => Ok (set_file path [] d) end.

(** Writing to a file just created; a write that fails has written what there was room for. *)
Definition write_all (path : string) (data : bytes) (d : Disk) : Disk * option string :=
  match dk_room d path with
  | Some (n, e) =>
      if (n <? length data)%nat then (set_file path (take n data) d, Some e)
      else (set_file path data d, None)
  | None => (set_file path data d, None)
  end.

Definition fileExists (path : string) (d : Disk) : bool := bool_decide (is_Some (dk_files d !! path)).

(** *** Certificates *)
(** The template's fields; the usage flags are constants. *)
Record Template : Type := mkTemplate {
  ct_SerialNumber : Z;
  ct_Organization : list string;
  ct_CommonName : string;
  ct_NotBefore : Z;
  ct_NotAfter : Z;
  ct_DNSNames : list string;
  ct_IPAddresses : list (option (list Z));
}.

Class Crypto : Type := {
  Key : Type;
  ecdsa_GenerateKey : result string Key;
  rand_Int : Z -> result string Z;
  x509_CreateCertificate : Template -> Key -> result string bytes;
  x509_MarshalECPrivateKey : Key -> result string bytes;
  pem_Encode : string -> bytes -> bytes;
}.

Inductive CertError : Type :=
| KeyGeneration (err : string)
| SerialNumber (err : string)
| CreateCertificate (err : string)
| CreateCertFile (err : string)
| WriteCert (err : string)
| CreateKeyFile (err : string)
| MarshalKey (err : string)
| WriteKey (err : string).

Section tls.
Context {crypto : Crypto}.

Definition cert_template (serial now later : Z) : Template :=
  mkTemplate serial ["Intelligent Load Balancer"]%string "localhost" now (later + 365 * 24 * 3600 * Second)
    ["localhost"; "loadbalancer"]%string [ParseIP "127.0.0.1"; ParseIP "::1"].

Definition wrap_error {A : Type} (f : string -> CertError) (r : result string A) : result CertError A :=
  match r with Ok a => Ok a | Err e => Err (f e) end.

(** The part before the first file is opened; [now] and [later] are the two readings of the clock. *)
Definition make_cert (now later : Z) : result CertError (Key * bytes) :=
  let? privateKey := wrap_error KeyGeneration ecdsa_GenerateKey in
  let? serialNumber := wrap_error SerialNumber (rand_Int (2 ^ 128)) in
  let? certDER := wrap_error CreateCertificate
                    (x509_CreateCertificate (cert_template serialNumber now later) privateKey) in
  Ok (privateKey, certDER).

Definition GenerateSelfSigned (certPath keyPath : string) (now later : Z) (d : Disk) : Disk * option CertError :=
  if fileExists certPath d && fileExists keyPath d then (d, None)
  else
    match make_cert now later with
    | Err e => (d, Some e)
    | Ok (privateKey, certDER) =>
        match os_Create certPath d with
        | Err e => (d, Some (CreateCertFile e))
        | Ok d =>
            match write_all certPath (pem_Encode "CERTIFICATE" certDER) d with
            | (d, Some e) => (d, Some (WriteCert e))
            | (d, None) =>
                match os_Create keyPath d with
                | Err e => (d, Some (CreateKeyFile e))
                | Ok d =>
                    match x509_MarshalECPrivateKey privateKey with
                    | Err e => (d, Some (MarshalKey e))
                    | Ok keyDER =>
                        match write_all keyPath (pem_Encode "EC PRIVATE KEY" keyDER) d with
                        | (d, Some e) => (d, Some (WriteKey e))
                        | (d, None) => (d, None)
                        end
                    end
                end
            end
        end
    end.
End tls.

(** ** What a call leaves on the disk *)
Section outcomes.
Context {crypto : Crypto}.

(** The two files are a certificate and the key it was made for. *)
Definition matching_pair (certPath keyPath : string) (now later : Z) (d : Disk) : Prop :=
  exists key certDER keyDER, make_cert now later = Ok (key, certDER) /\ x509_MarshalECPrivateKey key = Ok keyDER /\
    dk_files d !! certPath = Some (pem_Encode "CERTIFICATE" certDER) /\
    dk_files d !! keyPath = Some (pem_Encode "EC PRIVATE KEY" keyDER).

Lemma write_all_files path data d :
  exists written, dk_files (write_all path data d).1 = <[path := written]> (dk_files d) /\
    match (write_all path data d).2 with
    | None => written = data
    | Some e => exists n, dk_room d path = Some (n, e) /\ (n < length data)%nat /\ written = take n data
    end.
Proof.
  unfold write_all. destruct (dk_room d path) as [[n e0]|]; [destruct (n <? length data)%nat eqn:E|].
  - apply Nat.ltb_lt in E. exists (take n data). split; [done|]. by exists n.
  - by exists data.
  - by exists data.
Qed.

Lemma write_all_disk path data d :
  dk_create (write_all path data d).1 = dk_create d /\ dk_room (write_all path data d).1 = dk_room d.
Proof. unfold write_all. by repeat case_match. Qed.

(** The error of a call that does its work, its cause, and what it leaves of the two files. *)
Definition left_by (certPath keyPath : string) (now later : Z) (d d' : Disk) (e : CertError) : Prop :=
  match e with
  | KeyGeneration _ | SerialNumber _ | CreateCertificate _ => make_cert now later = Err e /\ d' = d
  | CreateCertFile err =>
      (exists made, make_cert now later = Ok made) /\ dk_create d certPath = Some err /\ d' = d
  | WriteCert err =>
      exists key certDER n, make_cert now later = Ok (key, certDER) /\
        dk_room d certPath = Some (n, err) /\ (n < length (pem_Encode "CERTIFICATE" certDER))%nat /\
        dk_files d' !! certPath = Some (take n (pem_Encode "CERTIFICATE" certDER)) /\
        dk_files d' !! keyPath = dk_files d !! keyPath
  | CreateKeyFile _ | MarshalKey _ | WriteKey _ =>
      exists key certDER, make_cert now later = Ok (key, certDER) /\
        dk_files d' !! certPath = Some (pem_Encode "CERTIFICATE" certDER) /\
        match e with
        | CreateKeyFile err => dk_create d keyPath = Some err /\ dk_files d' !! keyPath = dk_files d !! keyPath
        | MarshalKey err => x509_MarshalECPrivateKey key = Err err /\ dk_files d' !! keyPath = Some []
        | WriteKey err =>
            exists keyDER n, x509_MarshalECPrivateKey key = Ok keyDER /\ dk_room d keyPath = Some (n, err) /\
              (n < length (pem_Encode "EC PRIVATE KEY" keyDER))%nat /\
              dk_files d' !! keyPath = Some (take n (pem_Encode "EC PRIVATE KEY" keyDER))
        | _ => True
        end
  end.

Lemma GenerateSelfSigned_spec certPath keyPath now later d :
  certPath <> keyPath ->
  let '(d', err) := GenerateSelfSigned certPath keyPath now later d in
  (forall path, path <> certPath -> path <> keyPath -> dk_files d' !! path = dk_files d !! path) /\
  if fileExists certPath d && fileExists keyPath d then d' = d /\ err = None
  else match err with
       | None => matching_pair certPath keyPath now later d'
       | Some e => left_by certPath keyPath now later d d' e
       end.
Proof.
  intros Hne. unfold GenerateSelfSigned. destruct (_ && _) eqn:Eex; [done|].
  destruct (make_cert now later) as [[key certDER]|e] eqn:Emake.
  2: { split; [done|]. unfold left_by. rewrite Emake. unfold make_cert in Emake.
       destruct ecdsa_GenerateKey; simpl in Emake; [|by simplify_eq].
       destruct (rand_Int _); simpl in Emake; [|by simplify_eq].
       destruct (x509_CreateCertificate _ _); simpl in Emake; by simplify_eq. }
  unfold os_Create at 1. destruct (dk_create d certPath) eqn:Ecert; [by cbn [left_by]; eauto|].
  destruct (write_all_files certPath (pem_Encode "CERTIFICATE" certDER) (set_file certPath [] d)) as (part & Hf & Hpart).
  destruct (write_all_disk certPath (pem_Encode "CERTIFICATE" certDER) (set_file certPath [] d)) as [Hcr Hroom].
  destruct (write_all certPath _ (set_file certPath [] d)) as [d1 [e|]]; cbn [fst snd dk_room dk_create dk_files set_file] in *;
    rewrite insert_insert_eq in Hf.
  { destruct Hpart as (n & Hn & Hlt & ->). rewrite Hf. cbn [left_by].
    split; [intros path H1 H2; by rewrite lookup_insert_ne|].
    exists key, certDER, n. rewrite Hf, lookup_insert_eq, lookup_insert_ne by done. done. }
  subst part. unfold os_Create. rewrite Hcr. destruct (dk_create d keyPath) eqn:Ekeyc.
  { rewrite Hf. split; [intros path H1 H2; by rewrite lookup_insert_ne|].
    exists key, certDER. by rewrite Hf, lookup_insert_eq, lookup_insert_ne. }
  destruct (x509_MarshalECPrivateKey key) as [keyDER|e] eqn:Ekey.
  2: { cbn [dk_files set_file]. rewrite Hf. split; [intros path H1 H2; by rewrite !lookup_insert_ne|].
       exists key, certDER. cbn [dk_files set_file]. rewrite Hf, lookup_insert_ne, !lookup_insert_eq by done. done. }
  destruct (write_all_files keyPath (pem_Encode "EC PRIVATE KEY" keyDER) (set_file keyPath [] d1)) as (part & Hf2 & Hpart).
  destruct (write_all keyPath _ (set_file keyPath [] d1)) as [d2 [e|]]; cbn [fst snd dk_room dk_files set_file] in *;
    rewrite Hf, insert_insert_eq in Hf2; rewrite Hf2;
    (split; [intros path H1 H2; by rewrite !lookup_insert_ne|]).
  - destruct Hpart as (n & Hn & Hlt & ->). rewrite Hroom in Hn.
    exists key, certDER. rewrite Hf2, lookup_insert_ne, !lookup_insert_eq by done. split_and!; [done|done|].
    by exists keyDER, n.
  - exists key, certDER, keyDER. by rewrite Hf2, Hpart, lookup_insert_eq, lookup_insert_ne, lookup_insert_eq.
Qed.

End outcomes.

(** C29. What each outcome leaves.  When both files exist, and only then, nothing is done and nothing reported.
    Otherwise, without an error the two are a fresh certificate and its key; an error is that of the step
    that failed: one before the certificate's file is opened leaves the disk as it was; one while the
    certificate is written leaves as much of it as there was room for; a later one leaves the whole new
    certificate beside a key file that is the old one, empty or cut short.  No other file is touched. *)
Theorem tls_outcomes {crypto : Crypto} certPath keyPath now later d :
  certPath <> keyPath ->
  let '(d', err) := GenerateSelfSigned certPath keyPath now later d in
  (forall path, path <> certPath -> path <> keyPath -> dk_files d' !! path = dk_files d !! path) /\
  if fileExists certPath d && fileExists keyPath d then d' = d /\ err = None
  else match err with
       | None => matching_pair certPath keyPath now later d'
       | Some e => left_by certPath keyPath now later d d' e
       end.
Proof. apply GenerateSelfSigned_spec. Qed.

(** C39. A failure that leaves both files is not made good.  After an error while the key is encoded or
    written, or an earlier one beside an old key file, the two files are there and do not belong
    together; every later call finds them, does nothing and reports no error. *)
Theorem tls_failure_sticks {crypto : Crypto} certPath keyPath now later d d1 e :
  certPath <> keyPath -> GenerateSelfSigned certPath keyPath now later d = (d1, Some e) ->
  match e with
  | MarshalKey _ | WriteKey _ => True
  | WriteCert _ | CreateKeyFile _ => is_Some (dk_files d !! keyPath)
  | _ => False
  end ->
  forall (crypto' : Crypto) now' later',
    GenerateSelfSigned (crypto := crypto') certPath keyPath now' later' d1 = (d1, None).
Proof.
  intros Hne Hrun He crypto' now' later'. pose proof (GenerateSelfSigned_spec (crypto := crypto) certPath keyPath now later d Hne) as Hs.
  rewrite Hrun in Hs. destruct Hs as [_ Hs]. destruct (_ && _); [by destruct Hs|].
  assert (is_Some (dk_files d1 !! certPath) /\ is_Some (dk_files d1 !! keyPath)) as [Hc Hk].
  { destruct e; try done; cbn [left_by] in Hs.
    - destruct Hs as (key & der & n & _ & _ & _ & -> & ->). done.
    - destruct Hs as (key & der & _ & -> & _ & ->). done.
    - destruct Hs as (key & der & _ & -> & _ & ->). done.
    - destruct Hs as (key & der & _ & -> & kder & n & _ & _ & _ & ->). done. }
  unfold GenerateSelfSigned, fileExists. by rewrite !bool_decide_eq_true_2.
Qed.

(** The certificate is valid for a year from its first instant. *)
Lemma cert_one_year serial now later : now <= later ->
  365 * 24 * 3600 * Second <= ct_NotAfter (cert_template serial now later) - ct_NotBefore (cert_template serial now later).
Proof. simpl. lia. Qed.

(** ** Witnesses: keys are numbers, and an encoding says so *)
Definition toy_crypto (key : nat) : Crypto := {|
  Key := nat;
  ecdsa_GenerateKey := Ok key;
  rand_Int _ := Ok 7;
  x509_CreateCertificate _ key := Ok (replicate key "c"%char);
  x509_MarshalECPrivateKey key := Ok (replicate key "k"%char);
  pem_Encode _ data := data;
|}.

(** A disk with an old key that cannot be replaced. *)
Definition stale_disk : Disk :=
  mkDisk {[ "server.key"%string := replicate 3 "k"%char ]}
    (fun path => if String.eqb path "server.key" then Some "permission denied"%string else None) (fun _ => None).

Lemma tls_outcomes_witness :
  let '(d', err) := GenerateSelfSigned (crypto := toy_crypto 5) "server.crt" "server.key" 0 1 stale_disk in
  err = Some (CreateKeyFile "permission denied") /\
  dk_files d' !! "server.key"%string = Some (replicate 3 "k"%char) /\
  exists n, dk_files d' !! "server.crt"%string = Some (replicate n "c"%char).
Proof.
  pose proof (tls_outcomes (crypto := toy_crypto 5) "server.crt" "server.key" 0 1 stale_disk ltac:(discriminate)) as H.
  destruct (GenerateSelfSigned _ _ _ _ _) as [d' err] eqn:E.
  assert (err = Some (CreateKeyFile "permission denied")) as -> by (apply (f_equal snd) in E; symmetry; exact E).
  destruct H as (_ & key & der & Hmake & Hc & _ & Hk). split; [reflexivity|]. split; [exact Hk|].
  exists 5%nat. rewrite Hc. injection Hmake as <- <-. reflexivity.
Defined.

(** The certificate of one key stays beside the other, and the next start sees nothing wrong. *)
Lemma tls_failure_sticks_witness :
  let d1 := (GenerateSelfSigned (crypto := toy_crypto 5) "server.crt" "server.key" 0 1 stale_disk).1 in
  GenerateSelfSigned (crypto := toy_crypto 6) "server.crt" "server.key" 10 11 d1 = (d1, None).
Proof.
  apply (tls_failure_sticks (crypto := toy_crypto 5) "server.crt" "server.key" 0 1 stale_disk _
    (CreateKeyFile "permission denied")).
  - discriminate.
  - reflexivity.
  - eexists. reflexivity.
Defined.
