(* ===== verification/Reporter.v ===== *)
(** * internal/metrics/reporter.go: the table on the terminal

    What [PrintReport] prints is a record of its figures; the layout of the lines is left out.  The loop
    over the snapshot's servers takes the order in which it meets them. *)
From S2P Require Import Prelude GoFloat GoStrings GoSort Collector.
Open Scope Z_scope.

(** [StartReporter]: the period of the reports; the panic, in its goroutine, ends the program. *)
Definition StartReporter (intervalSec : Z) : option Z := NewTicker intervalSec.

Record ReportRow : Type := mkReportRow {
  rr_Name : string;
  rr_Health : string;
  rr_Requests : Z;
  rr_Avg : float64;
  rr_P95 : float64;
  rr_Active : Z;
  rr_Retries : Z;
  rr_Success : float64;
  rr_Circuit : string;
}.

Record Report : Type := mkReport {
  rp_rows : list ReportRow;
  rp_TotalRequests : Z;
  rp_SuccessRate : float64;
  rp_GlobalRPS : float64;
  rp_HealthyCount : Z;
  rp_TotalCount : Z;
  rp_time : string;
}.

Definition report_row (s : ServerStats) : ReportRow :=
  let health := if IsHealthy s then "UP  ✓"%string else "DOWN ✗"%string in
  let rate := if 0 <? TotalRequests s
              then f64_mul (f64_div (f64_of_Z (SuccessCount s)) (f64_of_Z (TotalRequests s))) (f64_of_Z 100)
              else f64_zero in
  mkReportRow (Name s) health (TotalRequests s) (AvgLatencyMs s) (P95LatencyMs s) (ActiveConnections s) (RetryCount s)
    rate (CircuitState s).

(** [now] is the clock of the snapshot and [later] that of the last line. *)
Definition PrintReport (order : gmap string ServerStats -> list (string * ServerStats)) (now later : Z) (c : Collector)
    : Collector * Report :=
  let '(c, snap) := DashboardSnap now c in
  (c, mkReport ((fun e => report_row e.2) <$> order (ds_Servers snap)) (ds_TotalRequests snap) (ds_SuccessRate snap)
        (ds_GlobalRPS snap) (ds_HealthyCount snap) (ds_TotalCount snap) (format_hms later)).

(** ** The last line is the sum of the table *)
Definition sum_rows (f : ReportRow -> Z) (rows : list ReportRow) : Z := foldr (fun r n => f r + n) 0 rows.

(** The total of requests is the sum of the column, the healthy count the number of rows marked UP, the
    server count that of the rows, whatever the order of the rows; and the report changes nothing of the
    statistics. *)
Theorem report_adds_up order now later (c : Collector) :
  (forall m, order m ≡ₚ map_to_list m) ->
  let '(c', r) := PrintReport order now later c in
  c_servers c' = c_servers c /\
  rp_TotalRequests r = wrap64 (sum_rows rr_Requests (rp_rows r)) /\
  rp_HealthyCount r = wrap64 (Z.of_nat (length (filter (fun row => rr_Health row = "UP  ✓"%string) (rp_rows r)))) /\
  rp_TotalCount r = Z.of_nat (length (rp_rows r)).
Proof.
  intros Horder. unfold PrintReport, DashboardSnap. cbn [c_servers ds_Servers rp_TotalRequests rp_rows rp_HealthyCount
    rp_TotalCount ds_TotalRequests ds_HealthyCount ds_TotalCount]. pose proof (Horder (c_servers c)) as Hp.
  split_and!; [done| | |].
  - unfold sum_totals. rewrite (sum_any_order TotalRequests _ _ Hp). f_equal.
    generalize (order (c_servers c)). intros l. induction l as [|e l IH]; [done|].
    cbn [foldr fmap list_fmap]. by rewrite IH.
  - rewrite (count_healthy_any_order _ _ Hp). do 2 f_equal. generalize (order (c_servers c)). intros l.
    induction l as [|e l IH]; [done|]. cbn [fmap list_fmap]. rewrite !filter_cons.
    assert (rr_Health (report_row e.2) = "UP  ✓"%string <-> IsHealthy e.2 = true) as Hrow
      by (unfold report_row; cbn [rr_Health]; by destruct (IsHealthy e.2)).
    destruct (decide (IsHealthy e.2 = true)).
    + rewrite decide_True by by apply Hrow. cbn [length]. by rewrite IH.
    + rewrite decide_False by by rewrite Hrow. done.
  - by rewrite length_fmap, Hp, length_map_to_list.
Qed.

Lemma report_adds_up_witness :
  rp_TotalCount (PrintReport map_to_list 5 6 (New 0 ["a"; "b"]%string [] [])).2 = 2.
Proof.
  pose proof (report_adds_up map_to_list 5 6 (New 0 ["a"; "b"]%string [] []) (fun m => reflexivity _)) as H.
  destruct (PrintReport _ _ _ _) as [c' r] eqn:E. destruct H as (_ & _ & _ & H). cbn [snd]. rewrite H.
  assert (r = (PrintReport map_to_list 5 6 (New 0 ["a"; "b"]%string [] [])).2) as -> by (rewrite E; reflexivity).
  reflexivity.
Defined.
