(* ===== verification/Startup.v ===== *)
(** * cmd/loadbalancer/main.go: main

    From the configuration file to the running program of Process.v, and its shutdown.  [main_start] is the
    part of main before it waits for a signal: it ends early with the cause ([Exit], a call of
    [log.Fatalf]), in a panic ([None]), or with the program running.  A goroutine that main starts and that
    panics on its first line, over a ticker, is taken to do so at once. *)
From S2P Require Import Prelude GoFloat GoSort GoStrings NetIP GoHttp Breaker Collector Balancer Canary Selector Logging Env.
From S2P Require Import Stability Config Proxy Monitor SharedCore Service Rule RuleSyntax Routes Middlewares CircuitBreaker.
From S2P Require Import RateLimit AccessLog Builder Hub EntryPoint App Pipeline Process Running Reporter Tls.
Open Scope Z_scope.

(** The causes of an early end. *)
Inductive Exit : Type :=
| ExitConfig (e : ConfigError)
| ExitInitialize (e : InitError)
| ExitCertificate (e : CertError)
| ExitMiddlewares (epName : string) (e : BuildError).

(** *** The banner *)
Record BannerService : Type := mkBannerService {
  bs_name : string;
  bs_algorithm : string;
  bs_canary : bool;
  bs_health : string * Z;
  bs_breaker : Z * Z;
  bs_servers : list string;
}.

Record BannerEntry : Type := mkBannerEntry {
  be_name : string; be_address : string; be_protocol : string; be_tls : string; be_middlewares : list string;
}.

Record Banner : Type := mkBanner {
  bn_algorithm : string;
  bn_services : Z;
  bn_servers : Z;
  bn_routers : Z;
  bn_rate : float64 * Z;
  bn_middlewares : Z;
  bn_entrypoints : list BannerEntry;
  bn_rows : list BannerService;
  bn_hot_reload : bool;
}.

(** The row of a service dereferences its three pointers. *)
Definition banner_service (e : string * ServiceConfig) : option BannerService :=
  lb ← svc_LoadBalancer e.2;
  hc ← svc_HealthCheck e.2;
  cb ← svc_CircuitBreaker e.2;
  Some (mkBannerService e.1 (if svc_Canary e.2 then "canary"%string else lb_Algorithm lb) (svc_Canary e.2)
          (hc_Path hc, hc_IntervalSec hc) (cb_Threshold cb, cb_RecoveryTimeoutSec cb) (srv_Name <$> svc_Servers e.2)).

Definition banner_entry (e : string * EntryPointConfig) : BannerEntry :=
  mkBannerEntry e.1 (ep_Address e.2) (ep_Protocol e.2)
    (match ep_TLS e.2 with Some _ => "enabled" | None => "off" end)%string (ep_Middlewares e.2).

Definition startup_banner (services : list (string * ServiceConfig)) (eps : list (string * EntryPointConfig))
    (cfg : Config) : option Banner :=
  rows ← mapM banner_service services;
  Some (mkBanner (cfg_Algorithm cfg) (Z.of_nat (length services))
          (foldr (fun e n => Z.of_nat (length (svc_Servers e.2)) + n) 0 services) (Z.of_nat (size (cfg_Routers cfg)))
          (cfg_RateLimitRPS cfg, cfg_RateLimitBurst cfg) (Z.of_nat (size (cfg_Middlewares cfg)))
          (banner_entry <$> eps) rows (cfg_HotReload cfg)).

Section startup.
Context {R : Type} `{!Rand R} {Lim : Type} `{!RateLib Lim} `{!GoSort float64 f64_less}.
Context {tables : UnicodeTables} {decoder : JSONDecoder} {sort : GoSort (Route RouteHandler) route_less}.
Context {crypto : Crypto} {W : Type}.
(** The orders in which the loops over maps meet their entries. *)
Context (order : gmap string (ServiceInstance R) -> list (string * ServiceInstance R)).
Context (services : Config -> list (string * ServiceConfig)) (routers : Config -> list (string * option RouterConfig)).
Context (entrypoints : Config -> list (string * EntryPointConfig)).
(** The handler behind an entrypoint's middlewares and what a built middleware stands for (Process.v). *)
Context (handler : string -> Handler W) (interp : Built -> Middleware W).

(** The loop over the entrypoints; they share one builder.  [None] is the panic at a null middleware. *)
Fixpoint register_entrypoints (entries : list (string * EntryPointConfig)) (mwBuilder : Builder)
    (epManager : EPManager (W := W)) : option (result Exit (EPManager (W := W))) :=
  match entries with
  | [] => Some (Ok epManager)
  | (epName, epCfg) :: entries =>
      match ResolveMiddlewares (ep_Middlewares epCfg) mwBuilder with
      | Err e => if build_panics e then None else Some (Err (ExitMiddlewares epName e))
      | Ok (middlewares, mwBuilder) =>
          register_entrypoints entries mwBuilder
            (Register (entrypoint_New epName epCfg (handler epName) (interp <$> middlewares)) epManager)
      end
  end.

(** The running program: its state, the entrypoints, the terminal report (of the first service the loop
    meets, at its period), whether the file is watched. *)
Record Started : Type := mkStarted {
  st_process : Process R Lim;
  st_entrypoints : EPManager (W := W);
  st_reporter : option (string * Z);
  st_banner : Banner;
  st_watched : bool;
}.

(** What main leaves when it waits for a signal, or gives up. *)
Record Startup : Type := mkStartup {
  su_logger : Logger;
  su_warning : option string;   (* the access log file could not be opened *)
  su_disk : Disk;
  su_outcome : result Exit Started;
}.

(** The certificate, if it is to be generated. *)
Definition auto_certificate (now later : Z) (cfg : Config) (d : Disk) : Disk * option CertError :=
  if tls_Enabled (cfg_TLS cfg) && tls_AutoGenerate (cfg_TLS cfg) then
    GenerateSelfSigned (dflt_s (tls_CertFile (cfg_TLS cfg)) "server.crt") (dflt_s (tls_KeyFile (cfg_TLS cfg)) "server.key")
      now later d
  else (d, None).

(** The loop over the instances, which ends at the first; [None] is the panic of the reporter's goroutine. *)
Definition start_reporter (intervalSec : Z) (entries : list (string * ServiceInstance R))
    : option (option (string * Z)) :=
  match entries with
  | [] => Some None
  | (name, _) :: _ => period ← StartReporter intervalSec; Some (Some (name, period))
  end.

(** [opened]: what opening the access log file gives; [now], [seed]: clock and random source as each service
    is built; [t1], [t2]: the clock as the certificate is made; [watch]: whether the file can be watched. *)
Definition main_start (load : option (result ConfigError Config)) (opened : string -> result string (list (option AccessLog)))
    (now : string -> Z) (seed : string -> R) (t1 t2 : Z) (watch : bool) (d : Disk) : option Startup :=
  load ← load;
  match load with
  | Err e => Some (mkStartup Logger_init None d (Err (ExitConfig e)))
  | Ok cfg =>
      let '(lg, warning) := InitFileLogger (opened (cfg_AccessLogPath cfg)) Logger_init in
      '(s, err) ← initialize now seed (services cfg) (routers cfg) cfg;
      match err with
      | Some e => Some (mkStartup lg warning d (Err (ExitInitialize e)))
      | None =>
          let proc := mkProcess {[ 0%nat := s ]} 0 (NewHub 0%nat) ∅ in
          reporter ← start_reporter (cfg_MetricsIntervalSec cfg) (order (sm_instances (as_svcMgr s)));
          let '(d, certErr) := auto_certificate t1 t2 cfg d in
          match certErr with
          | Some e => Some (mkStartup lg warning d (Err (ExitCertificate e)))
          | None =>
              registered ← register_entrypoints (entrypoints cfg) (NewBuilder cfg) entrypoint_NewManager;
              match registered with
              | Err e => Some (mkStartup lg warning d (Err e))
              | Ok epManager =>
                  let epManager := StartAll epManager in
                  banner ← startup_banner (services cfg) (entrypoints cfg) cfg;
                  Some (mkStartup lg warning d
                          (Ok (mkStarted proc epManager reporter banner (cfg_HotReload cfg && watch))))
              end
          end
      end
  end.

(** ** The end of main *)
(** [ShutdownAll] under a context of 30 seconds, then the monitors; [None] is a panic. *)
Definition main_shutdown (shutdown : EntryPoint -> option string) (eps : list (string * EntryPoint (W := W)))
    (p : Process R Lim) : option (option (list (string * string)) * Process R Lim) :=
  let errs := ShutdownAll shutdown eps in
  p ← proc_stop order p;
  Some (errs, p).
End startup.

(** ** Where main ends up *)
Section outcomes.
Context {R : Type} `{!Rand R} {Lim : Type} `{!RateLib Lim} `{!GoSort float64 f64_less}.
Context {tables : UnicodeTables} {decoder : JSONDecoder} {sort : GoSort (Route RouteHandler) route_less}.
Context {W : Type} (handler : string -> Handler W) (interp : Built -> Middleware W).

(** An entrypoint is there, behind the middlewares built for it. *)
Definition entry_built (built : gmap string Built) (m : EPManager (W := W)) (name : string) (epCfg : EntryPointConfig)
    : Prop :=
  exists mws, instances_of built (ep_Middlewares epCfg) mws /\
    em_entrypoints m !! name = Some (entrypoint_New name epCfg (handler name) (interp <$> mws)).

Definition entrypoint_ok (cfg : Config) (epCfg : EntryPointConfig) : Prop :=
  Forall (fun n => buildable cfg n = true) (ep_Middlewares epCfg).

(** The entrypoint lists a middleware whose entry is null. *)
Definition entrypoint_nil (cfg : Config) (epCfg : EntryPointConfig) : Prop := Exists (null_middleware cfg) (ep_Middlewares epCfg).

#[export] Instance entrypoint_nil_dec cfg epCfg : Decision (entrypoint_nil cfg epCfg).
Proof. unfold entrypoint_nil. apply _. Defined.

Lemma entrypoint_ok_not_nil cfg epCfg : entrypoint_ok cfg epCfg -> ~ entrypoint_nil cfg epCfg.
Proof.
  unfold entrypoint_ok. rewrite Forall_forall. intros Hok (n & Hn & Hnull)%Exists_exists.
  specialize (Hok n Hn). apply null_not_buildable in Hnull. cbn in *. congruence.
Qed.

Lemma register_entrypoints_ok cfg entries b m :
  builder_inv cfg b -> NoDup entries.*1 ->
  match register_entrypoints handler interp entries b m with
  | Some (Ok m') => exists built, bd_cache b ⊆ built /\
      (forall name epCfg, (name, epCfg) ∈ entries -> entry_built built m' name epCfg /\ entrypoint_ok cfg epCfg) /\
      (forall name, name ∉ entries.*1 -> em_entrypoints m' !! name = em_entrypoints m !! name) /\
      em_errChans m' = em_errChans m
  | Some (Err e) =>
      exists name epCfg err, e = ExitMiddlewares name err /\ (name, epCfg) ∈ entries /\ ~ entrypoint_ok cfg epCfg
  | None => exists name epCfg, (name, epCfg) ∈ entries /\ entrypoint_nil cfg epCfg
  end.
Proof.
  revert b m. induction entries as [|[name epCfg] entries IH]; intros b m Hb Hnd; cbn [register_entrypoints].
  { exists (bd_cache b). split_and!; [done|by intros ?? ?%elem_of_nil|done|done]. }
  apply NoDup_cons in Hnd as [Hnin Hnd]. unfold ResolveMiddlewares.
  pose proof (BuildChain_ok cfg (ep_Middlewares epCfg) b Hb) as Hc.
  destruct (BuildChain (ep_Middlewares epCfg) b) as [[mws b1]|e] eqn:Ech.
  2: { destruct (build_panics e) eqn:Hp; [exists name, epCfg; split; [left|by eapply BuildChain_panics]|].
       exists name, epCfg, e. split_and!; [done|left|]. intros Hall. apply Exists_exists in Hc as (n & Hn & Hf).
       unfold entrypoint_ok in Hall. rewrite Forall_forall in Hall. specialize (Hall n Hn). cbn in *. congruence. }
  destruct Hc as [Hb1 Hall].
  destruct (BuildChain_spec (ep_Middlewares epCfg) b mws b1 (bo_inv _ _ Hb) Ech) as (_ & Hsub & Hmws).
  specialize (IH b1 (Register (entrypoint_New name epCfg (handler name) (interp <$> mws)) m) Hb1 Hnd).
  destruct (register_entrypoints _ _ _ _ _) as [[m'|e]|].
  - destruct IH as (built & Hsub' & Hin & Hout & Hch). exists built. split_and!; [by etrans| | |done].
    + intros n ec [[= -> ->]|Hn]%elem_of_cons; [|by apply Hin]. split; [|done]. exists mws. split.
      * eapply instances_of_mono; [exact Hsub'|exact Hmws].
      * rewrite Hout by done. simpl. apply lookup_insert_eq.
    + intros n Hn. cbn [fmap list_fmap fst] in Hn. rewrite elem_of_cons in Hn. rewrite Hout by tauto. simpl.
      apply lookup_insert_ne. intros ->. tauto.
  - destruct IH as (n & ec & err & -> & Hin & Hno). exists n, ec, err. split_and!; [done|by right|done].
  - destruct IH as (n & ec & Hin & Hnil). exists n, ec. split; [by right|done].
Qed.

(** A configuration with its defaults filled in has everything the banner prints. *)
Lemma startup_banner_total cfg services eps :
  config_complete cfg -> services ≡ₚ map_to_list (cfg_Services cfg) -> is_Some (startup_banner services eps cfg).
Proof.
  intros Hc Hp. unfold startup_banner.
  assert (is_Some (mapM banner_service services)) as [rows ->]; [|by eexists].
  apply mapM_is_Some, Forall_forall. intros [name svc] Hin. rewrite Hp, elem_of_map_to_list in Hin.
  destruct (cc_services cfg Hc name svc Hin) as (lb & hc & cb & El & Eh & Ec & _). change (is_Some (banner_service (name, svc))).
  unfold banner_service. cbn [fst snd]. rewrite El, Eh, Ec. by eexists.
Qed.

Context {crypto : Crypto}.
Context (order : gmap string (ServiceInstance R) -> list (string * ServiceInstance R)).
Context (services : Config -> list (string * ServiceConfig)) (routers : Config -> list (string * option RouterConfig)).
Context (entrypoints : Config -> list (string * EntryPointConfig)).

(** A configuration with which the program starts without a panic: also, no entrypoint lists a null
    middleware, and the terminal report has a ticker if there is a service to report on. *)
Definition startable (cfg : Config) : Prop :=
  runnable cfg /\ map_Forall (fun _ epCfg => ~ entrypoint_nil cfg epCfg) (cfg_EntryPoints cfg) /\
  (cfg_Services cfg = ∅ \/ is_Some (StartReporter (cfg_MetricsIntervalSec cfg))).

(** The terminal reports on one of the services, if there is any. *)
Definition reporting (cfg : Config) (reporter : option (string * Z)) : Prop :=
  match reporter with
  | Some (name, period) => is_Some (cfg_Services cfg !! name) /\ StartReporter (cfg_MetricsIntervalSec cfg) = Some period
  | None => cfg_Services cfg = ∅
  end.

Context (Horder : forall m, order m ≡ₚ map_to_list m).

Lemma start_reporter_ok cfg (mgr : ServiceManager R) :
  (forall n, is_Some (GetInstance n mgr) <-> is_Some (cfg_Services cfg !! n)) ->
  match start_reporter (cfg_MetricsIntervalSec cfg) (order (sm_instances mgr)) with
  | Some reporter => reporting cfg reporter
  | None => ~ (cfg_Services cfg = ∅ \/ is_Some (StartReporter (cfg_MetricsIntervalSec cfg)))
  end.
Proof.
  intros Hdom.
  assert (forall n i, (n, i) ∈ order (sm_instances mgr) <-> GetInstance n mgr = Some i) as Hel
    by (intros; by rewrite Horder, elem_of_map_to_list).
  destruct (order (sm_instances mgr)) as [|[name i] l]; cbn [start_reporter reporting].
  - apply map_eq. intros n. rewrite lookup_empty. apply eq_None_not_Some. intros [i Hi]%Hdom.
    apply Hel in Hi. by apply elem_of_nil in Hi.
  - assert (is_Some (cfg_Services cfg !! name)) as Hs by (apply Hdom; exists i; apply Hel; left).
    destruct (StartReporter _) as [period|] eqn:E; cbn [mbind option_bind reporting]; [done|].
    intros [He|[? [=]]]. rewrite He, lookup_empty in Hs. by destruct Hs.
Qed.

(** The program as main leaves it running. *)
Record running_program (cfg : Config) (st : Started (R := R) (Lim := Lim) (W := W)) : Prop := {
  rp_wf : wf_proc (st_process st);
  rp_generation : exists s, ps_gens (st_process st) = {[ 0%nat := s ]} /\ as_cfg s = cfg;
  rp_dashboard : ps_cur (st_process st) = 0%nat /\ ps_hub (st_process st) = NewHub 0%nat;
  rp_routers : routers_ok cfg;
  rp_startable : startable cfg;
  rp_reporter : reporting cfg (st_reporter st);
  rp_entrypoints : exists built, forall name epCfg, cfg_EntryPoints cfg !! name = Some epCfg ->
    entry_built built (st_entrypoints st) name epCfg /\ entrypoint_ok cfg epCfg;
  rp_listening : forall name, em_errChans (st_entrypoints st) !! name =
    (fun epCfg => entrypoint_Start (mkEP name epCfg (handler name))) <$> (cfg_EntryPoints cfg !! name);
}.

Lemma started_running cfg s m reporter banner watched entries :
  wf_app s -> as_cfg s = cfg -> routers_ok cfg -> runnable cfg -> reporting cfg reporter ->
  (forall name epCfg, (name, epCfg) ∈ entries <-> cfg_EntryPoints cfg !! name = Some epCfg) ->
  (exists built, bd_cache (NewBuilder cfg) ⊆ built /\
     (forall name epCfg, (name, epCfg) ∈ entries -> entry_built built m name epCfg /\ entrypoint_ok cfg epCfg) /\
     (forall name, name ∉ entries.*1 -> em_entrypoints m !! name = em_entrypoints (W := W) entrypoint_NewManager !! name) /\
     em_errChans m = em_errChans (W := W) entrypoint_NewManager) ->
  running_program cfg (mkStarted (mkProcess {[ 0%nat := s ]} 0 (NewHub 0%nat) ∅) (StartAll m) reporter banner watched).
Proof.
  intros Hwf Hcfg Hoks Hrun Hrep Hel (built & _ & Hin & Hout & Hch).
  split; cbn [st_process st_entrypoints st_reporter ps_gens ps_cur ps_hub]; [by apply initial_wf|by eexists|done|done| |done| |].
  - split_and!; [done| |].
    + intros name epCfg H. apply entrypoint_ok_not_nil, (Hin name epCfg), Hel, H.
    + destruct reporter as [[name period]|]; [right|by left]. destruct Hrep as [_ ->]. by eexists.
  - exists built. intros name epCfg H. apply (Hin name epCfg), Hel, H.
  - intros name. unfold StartAll. cbn [em_errChans em_entrypoints]. rewrite lookup_union, lookup_fmap, Hch.
    destruct (cfg_EntryPoints cfg !! name) as [epCfg|] eqn:E.
    + apply Hel in E. destruct (Hin name epCfg E) as [(mws & _ & ->) _]. done.
    + rewrite Hout; [done|]. intros ([n ec] & -> & Hn)%list_elem_of_fmap. apply Hel in Hn. simpl in E. congruence.
Qed.

(** What main makes of a configuration that loaded. *)
Definition started (cfg : Config) (t1 t2 : Z) (d : Disk) (su : Startup (R := R) (Lim := Lim) (W := W)) : Prop :=
  match su_outcome su with
  | Ok st => running_program cfg st /\ auto_certificate t1 t2 cfg d = (su_disk su, None)
  | Err (ExitConfig _) => False
  | Err (ExitInitialize _) =>
      (exists name rc, cfg_Routers cfg !! name = Some (Some rc) /\ ~ router_ok cfg rc) /\ su_disk su = d
  | Err (ExitCertificate e) => routers_ok cfg /\ auto_certificate t1 t2 cfg d = (su_disk su, Some e)
  | Err (ExitMiddlewares name _) =>
      (exists epCfg, cfg_EntryPoints cfg !! name = Some epCfg /\ ~ entrypoint_ok cfg epCfg) /\ routers_ok cfg /\
      auto_certificate t1 t2 cfg d = (su_disk su, None)
  end.

Lemma main_start_spec load opened now seed t1 t2 watch d :
  (forall cfg, load = Some (Ok cfg) -> valid_config cfg /\ services cfg ≡ₚ map_to_list (cfg_Services cfg) /\
     routers cfg ≡ₚ map_to_list (cfg_Routers cfg) /\ entrypoints cfg ≡ₚ map_to_list (cfg_EntryPoints cfg)) ->
  match load, main_start order services routers entrypoints handler interp load opened now seed t1 t2 watch d with
  | None, r => r = None
  | Some (Err e), r => r = Some (mkStartup Logger_init None d (Err (ExitConfig e)))
  | Some (Ok cfg), Some su => started cfg t1 t2 d su
  | Some (Ok cfg), None => ~ startable cfg
  end.
Proof.
  intros Hload. unfold main_start. destruct load as [[cfg|e]|]; cbn [mbind option_bind]; [|done..].
  destruct (Hload cfg eq_refl) as (Hv & Hs & Hr & He).
  destruct (InitFileLogger _ _) as [lg warning].
  pose proof (initialize_ok (Lim := Lim) now seed (services cfg) (routers cfg) cfg (proj1 Hv) Hs Hr) as Hinit.
  destruct (initialize now seed (services cfg) (routers cfg) cfg) as [[s err]|] eqn:Ei; cbn [mbind option_bind];
    [|by intros [? _]].
  destruct (initialize_wf _ _ _ _ cfg s err Hv Hs Ei) as (Hwf & Hcfg & _).
  destruct Hinit as (mgr & Hmgr & _ & Hsvc & _ & Herr). destruct err as [e|].
  { unfold started. cbn [su_outcome su_disk]. destruct Herr as (added & name & rc & rest & Hd & _ & Hno).
    split; [|done]. exists name, rc. split; [|done]. apply elem_of_map_to_list. rewrite <- Hr, Hd. apply elem_of_app. right. left. }
  destruct Herr as [_ Hoks].
  pose proof (instances_configured now seed cfg _ mgr (proj1 Hv) Hs Hmgr) as Hdom. rewrite <- Hsvc in Hdom.
  assert (runnable cfg) as Hrun.
  { apply routers_runnable; [|done]. pose proof (service_NewManager_ok now seed cfg _ (proj1 Hv) Hs) as Ht.
    rewrite Hmgr in Ht. apply Ht. }
  pose proof (start_reporter_ok cfg (as_svcMgr s) Hdom) as Hrep.
  destruct (start_reporter _ _) as [reporter|]; cbn [mbind option_bind]; [|by intros (_ & _ & ?)].
  destruct (auto_certificate t1 t2 cfg d) as [d' [e|]] eqn:Eauto; [by unfold started; cbn [su_outcome su_disk]|].
  assert (forall name epCfg, (name, epCfg) ∈ entrypoints cfg <-> cfg_EntryPoints cfg !! name = Some epCfg) as Hel
    by (intros; by rewrite He, elem_of_map_to_list).
  pose proof (register_entrypoints_ok cfg (entrypoints cfg) (NewBuilder cfg) entrypoint_NewManager (NewBuilder_ok cfg)) as Hreg.
  assert (NoDup (entrypoints cfg).*1) as Hnd by (rewrite He; apply NoDup_fst_map_to_list). specialize (Hreg Hnd).
  destruct (register_entrypoints _ _ _ _ _) as [[m|e]|]; cbn [mbind option_bind].
  2: { destruct Hreg as (name & epCfg & err & -> & Hin & Hno). unfold started. cbn [su_outcome su_disk].
       split_and!; [exists epCfg; by rewrite <- Hel|done|done]. }
  2: { destruct Hreg as (name & epCfg & Hin & Hnil). intros (_ & Hno & _). apply (Hno name epCfg); [by apply Hel|done]. }
  destruct (startup_banner_total cfg (services cfg) (entrypoints cfg) (proj1 Hv) Hs) as [banner ->].
  cbn [mbind option_bind]. unfold started. cbn [su_outcome su_disk]. split; [|done].
  by apply (started_running cfg s m reporter banner _ (entrypoints cfg)).
Qed.
End outcomes.

(** ** The claims *)
Section claims.
Context {R : Type} `{!Rand R} {Lim : Type} `{!RateLib Lim} `{!GoSort float64 f64_less}.
Context {tables : UnicodeTables} {decoder : JSONDecoder} {sort : GoSort (Route RouteHandler) route_less}.
Context {crypto : Crypto} {W : Type} (handler : string -> Handler W) (interp : Built -> Middleware W).
Context (order : gmap string (ServiceInstance R) -> list (string * ServiceInstance R)).
Context (services : Config -> list (string * ServiceConfig)) (routers : Config -> list (string * option RouterConfig)).
Context (entrypoints : Config -> list (string * EntryPointConfig)).
Context (Horder : forall m, order m ≡ₚ map_to_list m).
Context (Hservices : forall cfg, services cfg ≡ₚ map_to_list (cfg_Services cfg)).
Context (Hrouters : forall cfg, routers cfg ≡ₚ map_to_list (cfg_Routers cfg)).
Context (Hentrypoints : forall cfg, entrypoints cfg ≡ₚ map_to_list (cfg_EntryPoints cfg)).


(** C28. The whole life of the program.  Started from a file, taken through any requests, probes, snapshots and
    reloads (one that panics ends the program and is none of these), it shuts down without a panic: every
    entrypoint is asked to, the error lists exactly those that failed, and no health check of any
    generation goes on.  And a program that runs was started from a configuration without a null entry or
    an interval over which it would have panicked. *)
Theorem main_life data unmarshal vorder opened now seed t1 t2 watch d su st (p : Process R Lim) shutdown eps :
  (forall m, vorder m ≡ₚ map_to_list m) ->
  main_start order services routers entrypoints handler interp (Load data unmarshal vorder) opened now seed t1 t2 watch d
    = Some su ->
  su_outcome su = Ok st -> rtc (proc_step order services routers) (st_process st) p ->
  eps ≡ₚ map_to_list (em_entrypoints (st_entrypoints st)) ->
  wf_proc p /\
  (exists cfg, Load data unmarshal vorder = Some (Ok cfg) /\ startable cfg /\ reporting cfg (st_reporter st)) /\
  exists errs p', main_shutdown order shutdown eps p = Some (errs, p') /\
    (forall g s, ps_gens p' !! g = Some s -> checks_stopped s) /\
    forall name ep, em_entrypoints (st_entrypoints st) !! name = Some ep ->
      forall err, shutdown ep = Some err <-> (name, err) ∈ default [] errs.
Proof.
  intros Hv Hmain Hst Hsteps Heps.
  assert (forall cfg, Load data unmarshal vorder = Some (Ok cfg) -> valid_config cfg /\ services cfg ≡ₚ map_to_list (cfg_Services cfg) /\
    routers cfg ≡ₚ map_to_list (cfg_Routers cfg) /\ entrypoints cfg ≡ₚ map_to_list (cfg_EntryPoints cfg)) as Hload
    by (intros cfg Hl; split_and!; [by eapply Load_valid|done..]).
  pose proof (main_start_spec (Lim := Lim) handler interp order services routers entrypoints Horder
    (Load data unmarshal vorder) opened now seed t1 t2 watch d Hload) as Hout.
  destruct (Load data unmarshal vorder) as [[cfg|e]|]; rewrite Hmain in Hout; [|by injection Hout as ->|done].
  unfold started in Hout. rewrite Hst in Hout. destruct Hout as [Hrun _].
  destruct Hrun as [Hwf _ _ _ Hstart Hrep _ _].
  assert (wf_proc p) as Hp by (by eapply (wf_proc_steps order services routers)). split; [done|].
  split; [exists cfg; done|].
  destruct (proc_stop_outcome order services routers Horder p Hp) as (p' & Hstop & _ & Hclosed).
  unfold main_shutdown. rewrite Hstop. cbn [mbind option_bind]. eexists _, p'. split; [done|]. split; [done|].
  intros name ep Hep err. pose proof (ShutdownAll_errors shutdown eps) as Hs.
  assert (forall n e, (n, e) ∈ eps <-> em_entrypoints (st_entrypoints st) !! n = Some e) as Hel
    by (intros; by rewrite Heps, elem_of_map_to_list).
  destruct (ShutdownAll shutdown eps) as [errs|]; cbn [default from_option id].
  - destruct Hs as [_ Hs]. rewrite Hs. split; [intros H; exists ep; by rewrite Hel|].
    intros (ep' & Hin & H). apply Hel in Hin. congruence.
  - rewrite elem_of_nil. split; [|done]. intros H. rewrite (Hs name ep) in H; [done|]. by apply Hel.
Qed.
End claims.

(** ** Witnesses: the file of App.v, with its certificate made at start-up *)
#[local] Existing Instance app_Rand.
#[local] Existing Instance app_RateLib.

Definition w_file : Config :=
  mkConfig 0 0 [mkServer "http://b1" "b1" 0 0 (mkHC "" 0 0 0)] "roundrobin" 0 0 0 0 0 0 (f64_of_Z 0) 0 0 0 0 ""
     (mkAuth "" "") (mkTLS true "" "" true) (mkCORS [] [] []) false ∅ (mkTimeouts 0 0 0)
     ∅ {[ "api" := Some (app_router "default") ]}%string ∅.

Definition w_disk : Disk := mkDisk ∅ (fun _ => None) (fun _ => None).
Definition w_handler (name : string) : Handler (Sim (Process unit nat)) := w_entry name.
Definition w_interp (b : Built) : Middleware (Sim (Process unit nat)) := fun next => next.

Definition w_main (data : option string) : option (Startup (R := unit) (Lim := nat) (W := Sim (Process unit nat))) :=
  main_start (tables := example_tables) (decoder := example_decoder) (sort := app_sort) (crypto := toy_crypto 5)
    w_order w_services w_routers (fun cfg => map_to_list (cfg_EntryPoints cfg)) w_handler w_interp
    (Load data (fun _ => Some (decoded w_file)) map_to_list) (fun _ => Err "denied"%string) (fun _ => 0) (fun _ => tt) 1 2 true w_disk.


Lemma main_life_witness :
  exists su st errs p', w_main (Some "{}"%string) = Some su /\ su_outcome su = Ok st /\
    main_shutdown w_order (fun ep => if String.eqb (ep_Name ep) "web" then Some "deadline exceeded"%string else None)
      (map_to_list (em_entrypoints (st_entrypoints st))) (st_process st) = Some (errs, p') /\
    forall g s, ps_gens p' !! g = Some s -> checks_stopped s.
Proof.
  assert ((fun su => is_Ok (su_outcome su)) <$> w_main (Some "{}"%string) = Some true) as Hok by (vm_compute; reflexivity).
  destruct (w_main (Some "{}"%string)) as [su|] eqn:Emain; [|discriminate Hok]. injection Hok as Hok.
  destruct (su_outcome su) as [st|e] eqn:Est; [|discriminate Hok].
  destruct (main_life (R := unit) (Lim := nat) (tables := example_tables) (decoder := example_decoder) (sort := app_sort)
    (crypto := toy_crypto 5) w_handler w_interp w_order w_services w_routers (fun cfg => map_to_list (cfg_EntryPoints cfg))
    (fun _ => reflexivity _) (fun _ => reflexivity _) (fun _ => reflexivity _) (fun _ => reflexivity _)
    (Some "{}"%string) (fun _ => Some (decoded w_file)) map_to_list (fun _ => Err "denied"%string) (fun _ => 0) (fun _ => tt) 1 2
    true w_disk su st (st_process st)
    (fun ep => if String.eqb (ep_Name ep) "web" then Some "deadline exceeded"%string else None)
    (map_to_list (em_entrypoints (st_entrypoints st))) (fun _ => reflexivity _) Emain Est)
    as (_ & _ & errs & p' & Hsd & Hclosed & _).
  - apply rtc_refl.
  - reflexivity.
  - exists su, st, errs, p'. split; [reflexivity|]. split; [exact Est|]. split; [exact Hsd|exact Hclosed].
Defined.
