(* ===== verification/Backend.v ===== *)
(** * backend/server.go: the demonstration backend

    Three handlers over two atomic variables.  [toggleHandler] loads one and stores it back: what other
    goroutines do in between is the argument [interfere].  The JSON encoding and math/rand.Intn are
    arguments; the log lines are left out. *)
From S2P Require Import Prelude GoFloat GoStrings GoHttp Logging Env Stability ServeMux.
Open Scope Z_scope.

(** The atomic variables of the package. *)
Record BackendState : Type := mkBackendState { be_reqCount : Z; be_isFailing : bool }.

(** The settings from the command line. *)
Record BackendConfig : Type := mkBackendConfig { be_port : Z; be_delayMs : Z; be_serverName : string }.

Definition backend_defaults : BackendConfig := mkBackendConfig 8001 10 "Server".

(** The arguments after the program's name; the errors of [Atoi] are dropped. *)
Definition backend_args (args : list string) : BackendConfig :=
  mkBackendConfig
    (match args with a :: _ => (Atoi a).1 | [] => be_port backend_defaults end)
    (match args with _ :: a :: _ => (Atoi a).1 | _ => be_delayMs backend_defaults end)
    (match args with _ :: _ :: a :: _ => a | _ => be_serverName backend_defaults end).

(** The JSON documents. *)
Inductive BackendDoc : Type :=
| HealthDoc (port : Z) (name : string) (requests_served : Z)
| ApiDoc (handled_by : string) (port request_count delay_ms : Z) (path : string).

Section backend.
Context {W : Type} `{!Env W} (L : Lens W BackendState) (cfg : BackendConfig).
Context (encode : BackendDoc -> bytes) (Intn : Z -> W -> Z * W).

Definition set_failing (b : bool) (s : BackendState) : BackendState := mkBackendState (be_reqCount s) b.
Definition add_request (s : BackendState) : BackendState := mkBackendState (wrap64 (be_reqCount s + 1)) (be_isFailing s).

Definition newline : string := String "010" EmptyString.

Definition toggleHandler (interfere : W -> W) : Handler W := fun rw req w =>
  let newState := negb (be_isFailing (lget L w)) in
  let w := interfere w in
  let w := modify L (set_failing newState) w in
  let stateStr := if newState then "FAILING"%string else "HEALTHY"%string in
  let rw := rw_WriteHeader 200 rw in
  let rw := (rw_Write (to_bytes ("Server toggled to " +:+ stateStr +:+ newline)) rw).1 in
  mkServed rw (req_Header req) (req_Body req) w.

Definition healthHandler : Handler W := fun rw req w =>
  let s := lget L w in
  let rw :=
    if be_isFailing s then http_Error "Simulated Chaos Failure" 500 rw
    else
      let rw := rw_Set "Content-Type" "application/json" rw in
      (rw_Write (encode (HealthDoc (be_port cfg) (be_serverName cfg) (be_reqCount s))) rw).1 in
  mkServed rw (req_Header req) (req_Body req) w.

Definition apiHandler : Handler W := fun rw req w =>
  let '(jitter, w) := if 0 <? be_delayMs cfg then Intn (Z.quot (be_delayMs cfg) 2 + 1) w else (0, w) in
  let '(now, w) := env_Now w in
  let w := env_SleepUntil (now + Z.max 0 (Duration_mul (wrap64 (be_delayMs cfg + jitter)) Millisecond)) w in
  if be_isFailing (lget L w) then
    mkServed (http_Error "Simulated Chaos Failure" 500 rw) (req_Header req) (req_Body req) w
  else
    let w := modify L add_request w in
    let count := be_reqCount (lget L w) in
    let rw := rw_Set "Content-Type" "application/json" rw in
    let rw := rw_Set "X-Server-Name" (be_serverName cfg) rw in
    let rw := (rw_Write (encode (ApiDoc (be_serverName cfg) (be_port cfg) count (wrap64 (be_delayMs cfg + jitter))
                                   (req_Path req))) rw).1 in
    mkServed rw (req_Header req) (req_Body req) w.

(** The routes main registers. *)
Definition backend_mux (redirect : string -> Handler W) (interfere : W -> W) : Handler W :=
  mux_ServeHTTP redirect
    [("/health", healthHandler); ("/toggle", toggleHandler interfere); ("/", apiHandler)]%string.

(** What a handler did to the variables. *)
Definition failing_after (h : Handler W) (rw : ResponseWriter) (req : Request) (w : W) : bool :=
  be_isFailing (lget L (sv_world (h rw req w))).

Lemma toggle_writes interfere rw req w :
  failing_after (toggleHandler interfere) rw req w = negb (be_isFailing (lget L w)).
Proof. unfold failing_after. cbn [toggleHandler sv_world]. by rewrite lget_modify. Qed.
End backend.

Section properties.
Context {W : Type} (L : Lens W BackendState).

(** The toggle flips the state its own load saw.  A call that is alone flips it and a second call flips it
    back; but of two calls, the second running between the load and the store of the first, one is
    lost: the state is flipped once, and both tell their callers the same. *)
Theorem toggle_is_not_atomic rw1 rw2 req1 req2 (w : W) :
  let before := be_isFailing (lget L w) in
  let alone := toggleHandler L (fun w => w) in
  let between := fun w => sv_world (alone rw2 req2 w) in
  failing_after L alone rw1 req1 w = negb before /\
  failing_after L alone rw2 req2 (sv_world (alone rw1 req1 w)) = before /\
  failing_after L (toggleHandler L between) rw1 req1 w = negb before /\
  sv_w (toggleHandler L between rw1 req1 w) = sv_w (alone rw1 req1 w).
Proof.
  intros before alone between. repeat split; try apply toggle_writes.
  unfold alone, between. rewrite toggle_writes. fold (failing_after L (toggleHandler L (fun w => w)) rw1 req1 w).
  rewrite toggle_writes. apply negb_involutive.
Qed.

Context `{!Env W} `{!Frame L} (cfg : BackendConfig) (encode : BackendDoc -> bytes) (Intn : Z -> W -> Z * W).

(** What the backend tells a health check and a client, when nobody else touches its variables while it
    sleeps: in the failing state both get a 500 and nothing is counted; otherwise both get a 200 and
    exactly the client's request is counted, under the number it is told. *)
Theorem backend_answers head h req (w : W) :
  (forall n w, lget L (Intn n w).2 = lget L w) ->
  let s := lget L w in
  let health := healthHandler L cfg encode (ServerWriter head h None []) req w in
  let api := apiHandler L cfg encode Intn (ServerWriter head h None []) req w in
  lget L (sv_world health) = s /\
  if be_isFailing s then
    (client_view (sv_w health)).1.1 = 500 /\ (client_view (sv_w api)).1.1 = 500 /\ lget L (sv_world api) = s
  else
    (client_view (sv_w health)).1.1 = 200 /\ (client_view (sv_w api)).1.1 = 200 /\
    lget L (sv_world api) = add_request s /\
    exists delay, (client_view (sv_w api)).2 =
      body_sent head (encode (ApiDoc (be_serverName cfg) (be_port cfg) (wrap64 (be_reqCount s + 1)) delay (req_Path req))).
Proof.
  intros HIntn s health api. split; [done|]. unfold health, api, healthHandler, apiHandler. clear health api.
  set (draw := if 0 <? be_delayMs cfg then _ else _).
  assert (lget L draw.2 = s) as H0 by (unfold draw; destruct (0 <? be_delayMs cfg); [apply HIntn|done]).
  destruct draw as [jitter w1]. cbn [snd] in H0.
  pose proof (frame_Now (L := L) w1) as H1. destruct (env_Now w1) as [now w2]. cbn [snd] in H1.
  set (w3 := env_SleepUntil _ w2). assert (lget L w3 = s) as H3 by (unfold w3; by rewrite frame_SleepUntil, H1).
  clearbody w3. rewrite H3. fold s. destruct (be_isFailing s) eqn:Ef; cbn [sv_w sv_world].
  - by rewrite !http_Error_view.
  - rewrite lget_modify, H3. repeat split. by eexists.
Qed.
End properties.

(** A backend that answered four requests, out in the world. *)
Definition quiet_backend : Sim BackendState := mkSim 0 (mkBackendState 4 false) (fun _ => None).
Definition backend_request : Request :=
  mkRequest "GET" "/api/test" "/api/test" "127.0.0.1:1" "localhost:8001" false ∅ [] Background.

Lemma backend_answers_witness :
  let api := apiHandler (sim_lens _) backend_defaults (fun _ => []) (fun n w => (n - 1, w))
               (ServerWriter false ∅ None []) backend_request quiet_backend in
  (client_view (sv_w api)).1.1 = 200 /\ be_reqCount (sim_state (sv_world api)) = 5.
Proof.
  pose proof (backend_answers (sim_lens _) backend_defaults (fun _ => []) (fun n w => (n - 1, w)) false ∅ backend_request
    quiet_backend (fun _ _ => eq_refl)) as (_ & _ & Hcode & Hs & _).
  split; [exact Hcode|]. change (be_reqCount (lget (sim_lens _) (sv_world (apiHandler (sim_lens _) backend_defaults
    (fun _ => []) (fun n w => (n - 1, w)) (ServerWriter false ∅ None []) backend_request quiet_backend))) = 5).
  by rewrite Hs.
Defined.
