(* ===== verification/Clients.v ===== *)
(** * client/: the load test, the failure test and the chaos client

    The figures the load test prints, the failure test's loop, the chaos client's belief about the
    backends it toggles (Backend.v), and the priorities of the dynamic load, whose sine is an argument.  The
    texts around the figures are left out. *)
From S2P Require Import Prelude GoFloat GoStrings GoSort GoHttp Logging Env Collector ServeMux Backend.
Open Scope Z_scope.

(** ** loadtest.go *)
Module LoadTest.

Record result : Type := mkResult {
  latencyMs : float64;
  status : Z;
  server : string;
  priority : string;
}.

(** The priority of request [i] of [total]. *)
Definition priority_of (total : Z) (highPct : float64) (i : Z) : string :=
  if f64_lt (f64_div (f64_of_Z i) (f64_of_Z total)) highPct then "HIGH" else "LOW".

Definition milliseconds (d : Z) : float64 := f64_of_Z (Z.quot d Millisecond).

(** One goroutine; [None] is the nil request of a URL that does not parse, dereferenced. *)
Definition send {W : Type} `{!Env W} `{!Client W} (lbURL p : string) (w : W) : option result * W :=
  let '(t, w) := env_Now w in
  if negb (client_NewRequest_ok "GET" lbURL) then (None, w)
  else
    let '(answer, _, w) := client_Do (mkOut "GET" lbURL (Header_Set ∅ "X-Priority" p) [] Background) w in
    let '(now, w) := env_Now w in
    let ms := milliseconds (time_Since now t) in
    (Some (match answer with
           | Err _ => mkResult ms 0 "error" p
           | Ok resp => mkResult ms (resp_StatusCode resp) (Header_Get (resp_Header resp) "X-Handled-By") p
           end), w).

Record Tally : Type := mkTally {
  lats : list float64;
  ok : Z;
  dist : gmap string Z;
  highOK : Z;
  lowOK : Z;
}.

Definition empty_tally : Tally := mkTally [] 0 ∅ 0 0.

Definition count (t : Tally) (r : result) : Tally :=
  if status r =? 200 then
    mkTally (lats t ++ [latencyMs r]) (wrap64 (ok t + 1))
      (<[server r := wrap64 (default 0 (dist t !! server r) + 1)]> (dist t))
      (if String.eqb (priority r) "HIGH" then wrap64 (highOK t + 1) else highOK t)
      (if String.eqb (priority r) "HIGH" then lowOK t else wrap64 (lowOK t + 1))
  else t.

Definition tally (results : list result) : Tally := fold_left count results empty_tally.

Definition p95idx (n : Z) : Z :=
  let i := f64_to_int64 (f64_mul (f64_of_Z n) (f64_lit 95 100)) in
  if n <=? i then n - 1 else i.

Record Report : Type := mkReport {
  lr_total : Z;
  lr_throughput : float64;
  lr_success : float64;
  lr_avg : float64;
  lr_p95 : float64;
  lr_high : Z;
  lr_low : Z;
  lr_servers : list (string * Z * float64);
}.

Section report.
Context `{!GoSort float64 f64_less}.

Definition avg_p95 (lats : list float64) : float64 * float64 :=
  let lats := go_sort f64_less lats in
  let n := Z.of_nat (length lats) in
  if 0 <? n then
    (f64_div (fold_left f64_add lats f64_zero) (f64_of_Z n), default f64_zero (lats !! Z.to_nat (p95idx n)))
  else (f64_zero, f64_zero).

(** [results] are in the order in which the goroutines finished; [order] is the order of a range over a map. *)
Definition report (order : gmap string Z -> list (string * Z)) (total elapsed : Z) (results : list result) : Report :=
  let t := tally results in
  let '(avg, p95) := avg_p95 (lats t) in
  mkReport total (f64_div (f64_of_Z total) (Duration_Seconds elapsed))
    (f64_mul (f64_div (f64_of_Z (ok t)) (f64_of_Z total)) (f64_of_Z 100)) avg p95 (highOK t) (lowOK t)
    ((fun e => (e.1, e.2, f64_mul (f64_div (f64_of_Z e.2) (f64_of_Z (ok t))) (f64_of_Z 100))) <$> order (dist t)).
End report.
End LoadTest.

(** ** failuretest.go *)
Module FailureTest.

Record State : Type := mkState { failureDetectedAt : Z; failureStarted : bool; lastStatus : Z }.
Definition start : State := mkState 0 false 0.

(** The lines of the log; a duration is printed rounded to milliseconds. *)
Inductive LogLine : Type :=
| Detected (i status at_ : Z)
| Recovered (server : string) (recoveryTime : Z)
| Sent (i status : Z) (server : string) (ms : float64).

Definition lbURL : string := "http://localhost:8080/api/test".

Section test.
Context {W : Type} `{!Env W} `{!Client W}.

(** The body of the loop. *)
Definition round (i : Z) (s : State) (w : W) : list LogLine * State * W :=
  let '(started, w) := env_Now w in
  let ctx := WithTimeout started (3 * Second) Background in
  let '(answer, _, w) := client_Do (mkOut "GET" lbURL (Header_Set ∅ "X-Priority" "LOW") [] ctx) w in
  let '(now, w) := env_Now w in
  let ms := LoadTest.milliseconds (time_Since now started) in
  let '(status, server) :=
    match answer with
    | Ok resp => (resp_StatusCode resp, Header_Get (resp_Header resp) "X-Handled-By")
    | Err _ => (0, ""%string)
    end in
  let '(onset, s, w) :=
    if negb (status =? 200) && negb (failureStarted s) then
      let '(now, w) := env_Now w in
      ([Detected i status now], mkState now true (lastStatus s), w)
    else ([], s, w) in
  let '(recovery, s, w) :=
    if (status =? 200) && failureStarted s && negb (lastStatus s =? 200) then
      let '(now, w) := env_Now w in
      ([Recovered server (time_Since now (failureDetectedAt s))],
       mkState (failureDetectedAt s) false (lastStatus s), w)
    else ([], s, w) in
  let s := mkState (failureDetectedAt s) (failureStarted s) status in
  let '(now, w) := env_Now w in
  (onset ++ recovery ++ [Sent i status server ms], s, env_SleepUntil (now + 500 * Millisecond) w).

(** The first [n] rounds from request [i] on. *)
Fixpoint run (n : nat) (i : Z) (s : State) (w : W) : list LogLine * State * W :=
  match n with
  | O => ([], s, w)
  | S n =>
      let '(lines, s, w) := round i s w in
      let '(more, s, w) := run n (wrap64 (i + 1)) s w in
      (lines ++ more, s, w)
  end.
End test.

(** What a line says happened. *)
Inductive Event : Type := Onset (i status : Z) | Recovery | Request_ (status : Z).
Definition event (l : LogLine) : Event :=
  match l with
  | Detected i st _ => Onset i st
  | Recovered _ _ => Recovery
  | Sent _ st _ _ => Request_ st
  end.
Definition line_status (l : LogLine) : option Z := match l with Sent _ st _ _ => Some st | _ => None end.

(** The edges of a sequence of statuses: an onset where a failure follows a success, a recovery where a
    success follows a failure. *)
Fixpoint edges (i prev : Z) (statuses : list Z) : list Event :=
  match statuses with
  | [] => []
  | st :: rest =>
      (if negb (st =? 200) && (prev =? 200) then [Onset i st] else []) ++
      (if (st =? 200) && negb (prev =? 200) then [Recovery] else []) ++
      Request_ st :: edges (wrap64 (i + 1)) st rest
  end.
End FailureTest.

(** ** dynamic_load.go *)
Module DynamicLoad.

Definition lbURL : string := "http://localhost:8080/api/dynamic".

(** The nearest integer to [x / y], the even one of two. *)
Definition nearest_even (x y : Z) : Z :=
  let q := (2 * x + y) / (2 * y) in
  if ((2 * x + y) mod (2 * y) =? 0) && Z.odd q then q - 1 else q.

(** [math.Remainder]: what is left of [x] after the nearest multiple of [y], exactly. *)
Definition Remainder (x y : float64) : float64 :=
  match x, y with
  | S754_zero _, S754_finite _ _ _ => x
  | S754_finite sx m e, S754_finite _ n f =>
      let g := Z.min e f in
      let X := Z.pos m * 2 ^ (e - g) in
      let Y := Z.pos n * 2 ^ (f - g) in
      let r := X - nearest_even X Y * Y in
      binary_normalize 53 1024 (if sx then - r else r) g sx
  | S754_finite _ _ _, S754_infinity _ | S754_zero _, S754_infinity _ => x
  | _, _ => S754_nan
  end.

(** [15 + int(sinVal*10)], [sinVal] the sine of the elapsed time. *)
Definition target_rps (sinVal : float64) : Z := wrap64 (15 + f64_to_int64 (f64_mul sinVal (f64_of_Z 10))).

(** The header of a request sent at the instant [now], in nanoseconds since 1970. *)
Definition request_header (now : Z) : Header :=
  if f64_eq (Remainder (f64_of_Z now) (f64_of_Z 4)) f64_zero then Header_Set ∅ "X-Priority" "HIGH" else ∅.

Section turn.
Context {W : Type} `{!Env W} `{!Client W} (Sin : float64 -> float64) (angle : float64 -> float64).

(** The goroutine of a request; what comes back is dropped. *)
Definition request (w : W) : W :=
  let '(now, w) := env_Now w in
  let '(_, _, w) := client_Do (mkOut "GET" lbURL (request_header now) [] Background) w in
  w.

(** A turn of the loop: the goroutines it starts, run one after the other, the rate it prints; [angle] is the
    multiplication by the constant [2 * math.Pi / 30]. *)
Definition turn (start : Z) (w : W) : Z * W :=
  let '(now, w) := env_Now w in
  let rps := target_rps (Sin (angle (Duration_Seconds (time_Since now start)))) in
  let w := Nat.iter (Z.to_nat rps) request w in
  let '(now, w) := env_Now w in
  (rps, env_SleepUntil (now + Second) w).
End turn.
End DynamicLoad.

(** ** chaos_mode.go *)
Module Chaos.

Definition lbURL : string := "http://localhost:8080/api/chaos".
Definition serverURLs : list string :=
  ["http://localhost:8001/toggle"; "http://localhost:8002/toggle"; "http://localhost:8003/toggle";
   "http://localhost:8004/toggle"].
Definition serverNames : list string := ["Alpha"; "Beta"; "Gamma"; "Delta"].

(** *** The stress workers: [totalReqs] and [failedReqs] are atomic counters the workers share *)
Record Counters : Type := mkCounters { totalReqs : Z; failedReqs : Z }.

Section client.
Context {W : Type} `{!Env W} `{!Client W} (Intn : Z -> W -> Z * W).

Definition add_total (c : Counters) : Counters := mkCounters (wrap64 (totalReqs c + 1)) (failedReqs c).
Definition add_failed (c : Counters) : Counters := mkCounters (totalReqs c) (wrap64 (failedReqs c + 1)).

(** One turn of a worker's loop. *)
Definition stress_turn (L : Lens W Counters) (w : W) : W :=
  let '(draw, w) := Intn 4 w in
  let h := if draw =? 0 then Header_Set ∅ "X-Priority" "HIGH" else ∅ in
  let '(now, w) := env_Now w in
  let '(answer, _, w) := client_Do (mkOut "GET" lbURL h [] (WithTimeout now (5 * Second) Background)) w in
  let failed := match answer with Err _ => true | Ok resp => 500 <=? resp_StatusCode resp end in
  let w := if failed then modify L add_failed w else w in
  let w := modify L add_total w in
  let '(pause, w) := Intn 40 w in
  let '(now, w) := env_Now w in
  env_SleepUntil (now + (10 + pause) * Millisecond) w.

(** One turn of the reporting loop: what it prints. *)
Definition stress_report (L : Lens W Counters) (w : W) : Z * Z * W :=
  let '(now, w) := env_Now w in
  let w := env_SleepUntil (now + 5 * Second) w in
  (totalReqs (lget L w), failedReqs (lget L w), w).

(** *** The monkey *)
Inductive ChaosLine : Type := Toggled (name : string) (healthy : bool) | NotToggled (name err : string).

Definition monkey_turn (interval : Z) (serverStates : list bool) (w : W) : list bool * ChaosLine * W :=
  let '(now, w) := env_Now w in
  let w := env_SleepUntil (now + interval) w in
  let '(idx, w) := Intn (Z.of_nat (length serverURLs)) w in
  let idx := Z.to_nat idx in
  let target := default ""%string (serverURLs !! idx) in
  let name := default ""%string (serverNames !! idx) in
  let '(answer, _, w) := client_Do (mkOut "GET" target ∅ [] Background) w in
  match answer with
  | Ok _ =>
      let state := negb (default false (serverStates !! idx)) in
      (<[idx := state]> serverStates, Toggled name state, w)
  | Err e => (serverStates, NotToggled name e, w)
  end.

Fixpoint chaosMonkey (n : nat) (interval : Z) (serverStates : list bool) (w : W) : list bool * list ChaosLine * W :=
  match n with
  | O => (serverStates, [], w)
  | S n =>
      let '(serverStates, line, w) := monkey_turn interval serverStates w in
      let '(serverStates, lines, w) := chaosMonkey n interval serverStates w in
      (serverStates, line :: lines, w)
  end.
End client.

(** *** A network of four backends, for the properties

    The plan says which backend each turn draws and what becomes of its request: refused, answered, or
    run by the backend with the answer lost on the way. *)
Inductive Fate : Type := Refused | Answered | Lost.
Record Net : Type := mkNet { net_now : Z; net_backends : list BackendState; net_plan : list (nat * Fate) }.

#[export] Instance Net_Env : Env Net := {|
  env_Now w := (net_now w, w);
  env_SleepUntil t w := mkNet t (net_backends w) (net_plan w);
  env_Choose w := (true, w);
  env_Float64 w := (f64_zero, w);
  env_RandBytes n w := (replicate n 0, w);
  env_Info _ w := w;
  env_Error _ w := w;
|}.

Definition net_Intn (n : Z) (w : Net) : Z * Net :=
  (match net_plan w with (i, _) :: _ => Z.of_nat i | [] => 0 end, w).

Definition toggle_request (out : OutRequest) : Request :=
  mkRequest (out_Method out) "/toggle" "/toggle" "127.0.0.1:1" "localhost" false (out_Header out) (out_Body out)
    (out_ctx out).

(** The toggle handler of the backend, run on its own variables. *)
Definition served_toggle (out : OutRequest) (b : BackendState) : Served BackendState :=
  toggleHandler (id_lens BackendState) (fun b => b) (ServerWriter false ∅ None []) (toggle_request out) b.

#[export] Instance Net_Client : Client Net := {|
  client_NewRequest_ok _ _ := true;
  client_Do out w :=
    match net_plan w with
    | [] => (Err "no route to host"%string, [], w)
    | (_, Refused) :: plan => (Err "connection refused"%string, [], mkNet (net_now w) (net_backends w) plan)
    | (_, fate) :: plan =>
        match (list_find (eq (out_URL out)) serverURLs) with
        | None => (Err "no such host"%string, [], mkNet (net_now w) (net_backends w) plan)
        | Some (i, _) =>
            let w' := mkNet (net_now w)
                        (alter (fun b => sv_world (served_toggle out b)) i (net_backends w)) plan in
            let resp := match fate, net_backends w !! i with
                        | Answered, Some b =>
                            let '(code, h, body) := client_view (sv_w (served_toggle out b)) in
                            Ok (mkResponse code h body)
                        | _, _ => Err "EOF"%string
                        end in
            (resp, [], w')
        end
    end;
|}.

(** How often the answer of backend [i] was lost. *)
Definition is_lost (f : Fate) : bool := match f with Lost => true | _ => false end.
Definition lost_answers (i : nat) (plan : list (nat * Fate)) : nat :=
  length (filter (fun e => (e.1 =? i)%nat && is_lost e.2 = true) plan).
End Chaos.

(** ** The failure test reports the edges *)
Section failure.
Context {W : Type} `{!Env W} `{!Client W}.
Import FailureTest.

(** What the three variables say after a status [prev]; before the first request it counts as 200. *)
Definition after_status (prev : Z) (s : State) : Prop :=
  failureStarted s = negb (prev =? 200) /\ (failureStarted s = true -> lastStatus s = prev).

Lemma round_edges i prev s (w : W) :
  after_status prev s ->
  let '(lines, s', _) := round i s w in
  exists st, after_status st s' /\
    event <$> lines = (if negb (st =? 200) && (prev =? 200) then [Onset i st] else []) ++
                      (if (st =? 200) && negb (prev =? 200) then [Recovery] else []) ++ [Request_ st] /\
    omap line_status lines = [st].
Proof.
  intros [Hf Hl]. unfold round. destruct (env_Now w) as [t0 w0]. destruct (client_Do _ w0) as [[answer body] w1].
  destruct (env_Now w1) as [t2 w2].
  set (sv := match answer with Err _ => _ | Ok resp => _ end). destruct sv as [st server]. rewrite Hf, negb_involutive.
  destruct (negb (st =? 200) && (prev =? 200)) eqn:E1; cbn [failureStarted lastStatus failureDetectedAt].
  - apply andb_true_iff in E1 as [E1 E2]. apply negb_true_iff in E1. destruct (env_Now w2) as [t3 w3]. rewrite E1.
    cbn [andb]. destruct (env_Now w3) as [t4 w4]. exists st.
    unfold after_status. cbn [failureStarted lastStatus]. by rewrite E1, E2.
  - rewrite Hf. destruct ((st =? 200) && negb (prev =? 200)) eqn:E2; cbn [andb].
    + apply andb_true_iff in E2 as [E2 E3]. rewrite Hl by by rewrite Hf. rewrite E3.
      destruct (env_Now w2) as [t3 w3]. destruct (env_Now w3) as [t4 w4]. exists st.
      unfold after_status. cbn [failureStarted lastStatus]. rewrite E2. done.
    + destruct (env_Now w2) as [t3 w3]. exists st. unfold after_status. cbn [failureStarted lastStatus].
      rewrite Hf. by destruct (st =? 200), (prev =? 200).
Qed.

Lemma run_edges n : forall i prev s (w : W), after_status prev s ->
  event <$> (run n i s w).1.1 = edges i prev (omap line_status (run n i s w).1.1) /\
  length (omap line_status (run n i s w).1.1) = n.
Proof.
  induction n as [|n IH]; intros i prev s w Hs; [done|]. cbn [run].
  pose proof (round_edges i prev s w Hs) as H. destruct (round i s w) as [[lines s1] w1].
  destruct H as (st & H1 & He & Ho). pose proof (IH (wrap64 (i + 1)) st s1 w1 H1) as [IHe IHl].
  destruct (run n _ s1 w1) as [[more s2] w2]. cbn [fst snd] in *.
  rewrite fmap_app, omap_app, Ho, He, IHe. cbn [app edges length]. rewrite IHl.
  split; [by rewrite <- !app_assoc|done].
Qed.
End failure.

(** The failure test's three variables do what a look at the previous answer would: whatever the balancer
    answers, it reports a failure exactly at the requests that fail after one that succeeded (the first
    request, when it fails), and a recovery exactly at those that succeed after one that failed. *)
Theorem failure_test_reports_edges {W : Type} `{!Env W} `{!Client W} n (w : W) :
  let lines := (FailureTest.run n 0 FailureTest.start w).1.1 in
  FailureTest.event <$> lines = FailureTest.edges 0 200 (omap FailureTest.line_status lines) /\
  length (omap FailureTest.line_status lines) = n.
Proof. by apply run_edges. Qed.

(** ** The load test's figures do not depend on who finishes first *)
Section load_report.
Import LoadTest.
Context `{!GoSort float64 f64_less}.

Definition successes (results : list result) : list result := filter (fun r => status r = 200) results.

(** How many of the successes satisfy [P]. *)
Definition number (P : result -> bool) (results : list result) : nat :=
  length (filter (fun r => P r = true) (successes results)).

Definition high (r : result) : bool := String.eqb (priority r) "HIGH".
Definition by_server (srv : string) (r : result) : bool := String.eqb (server r) srv.

Lemma number_snoc P rs r :
  number P (rs ++ [r]) = ((if ((status r =? 200)%Z && P r)%bool then 1 else 0) + number P rs)%nat.
Proof.
  unfold number, successes. rewrite !filter_app, filter_cons, filter_nil.
  destruct (Z.eqb_spec (status r) 200) as [E|E].
  - rewrite decide_True by done. rewrite filter_cons, filter_nil. cbn [andb].
    destruct (P r); case_decide; try done; rewrite length_app; cbn [length]; lia.
  - rewrite decide_False by done. rewrite filter_nil, app_nil_r. done.
Qed.

Lemma wrap_succ n : wrap64 (wrap64 (Z.of_nat n) + 1) = wrap64 (Z.of_nat (1 + n)).
Proof. unfold_int. Z.div_mod_to_equations. lia. Qed.

Record tallied (rs : list result) (t : Tally) : Prop := {
  tl_lats : lats t = latencyMs <$> successes rs;
  tl_ok : ok t = wrap64 (Z.of_nat (number (fun _ => true) rs));
  tl_high : highOK t = wrap64 (Z.of_nat (number high rs));
  tl_low : lowOK t = wrap64 (Z.of_nat (number (negb ∘ high) rs));
  tl_dist : forall srv, dist t !! srv =
    if (number (by_server srv) rs =? 0)%nat then None else Some (wrap64 (Z.of_nat (number (by_server srv) rs)));
}.

Lemma tally_tallied rs : tallied rs (tally rs).
Proof.
  induction rs as [|r rs IH] using rev_ind; [by split|].
  unfold tally. rewrite fold_left_app. fold (tally rs). cbn [fold_left]. set (t := tally rs) in *. clearbody t.
  destruct IH as [H1 H2 H3 H4 H5]. unfold count.
  assert (successes (rs ++ [r]) = successes rs ++ (if status r =? 200 then [r] else [])) as Hs.
  { unfold successes. rewrite filter_app, filter_cons, filter_nil.
    destruct (Z.eqb_spec (status r) 200); case_decide; done. }
  split; [rewrite Hs|rewrite number_snoc..|intros srv; rewrite number_snoc];
    destruct (status r =? 200) eqn:E; cbn [lats ok highOK lowOK dist andb compose]; fold (high r).
  - by rewrite fmap_app, H1.
  - by rewrite app_nil_r.
  - by rewrite H2, wrap_succ.
  - done.
  - destruct (high r); [by rewrite H3, wrap_succ|done].
  - done.
  - destruct (high r); [done|by rewrite H4, wrap_succ].
  - done.
  - unfold by_server at 1 3. destruct (String.eqb_spec (server r) srv) as [->|Hne].
    + rewrite lookup_insert_eq, H5, <- wrap_succ. cbn [Nat.add Nat.eqb].
      by destruct (Nat.eqb_spec (number (by_server srv) rs) 0) as [->|].
    + by rewrite lookup_insert_ne, H5.
  - by rewrite H5.
Qed.

(** The float of a whole number is not the negative zero, the only float the sort cannot tell from another. *)
Definition sortable (x : float64) : Prop := x <> S754_zero true.

Lemma f64_of_nat_sortable n : 0 <= n -> sortable (f64_of_Z n).
Proof.
  unfold f64_of_Z, binary_normalize, sortable. destruct n as [|p|p]; [done| |lia]. intros _.
  unfold binary_round. destruct (shl_align _ _ _) as [mz ez]. unfold binary_round_aux.
  destruct (shr_fexp _ _ _ _ _) as [m1 e1]. destruct (shr_fexp _ _ _ _ _) as [m2 e2]. by repeat case_match.
Qed.

Lemma fkey_inj x y : sortable x -> sortable y -> fkey x = fkey y -> x = y.
Proof.
  unfold sortable. destruct x as [[]|[]| |[] m e], y as [[]|[]| |[] n f]; simpl; intros ?? [=]; try done; f_equal; lia.
Qed.

Lemma f64_sort_unique l l' : Forall sortable l -> l ≡ₚ l' -> go_sort f64_less l = go_sort f64_less l'.
Proof.
  intros Hl Hp. apply (StronglySorted_unique_strong (fun x y => f64_less y x = false)).
  - intros x y Hx Hy H1 H2. rewrite go_sort_perm in Hx, Hy. rewrite <- Hp in Hy. rewrite Forall_forall in Hl.
    apply fkey_inj; [by apply Hl..|].
    rewrite f64_less_false in H1, H2. destruct (fkey x) as [[??]?], (fkey y) as [[??]?]. simpl in *.
    repeat f_equal; lia.
  - apply go_sort_strongly, f64_less_swo.
  - apply go_sort_strongly, f64_less_swo.
  - by rewrite !go_sort_perm.
Qed.

(** What the load test prints does not depend on the order in which its goroutines finish, although
    the results are collected in that order and the latencies are added as floats: they are sorted
    first.  And the figures add up: the HIGH and LOW successes are the successes the rate is of. *)
Theorem load_report_any_order order total elapsed rs rs' :
  rs ≡ₚ rs' -> (forall r, r ∈ rs -> exists d, 0 <= d /\ latencyMs r = milliseconds d) ->
  report order total elapsed rs = report order total elapsed rs' /\
  wrap64 (lr_high (report order total elapsed rs) + lr_low (report order total elapsed rs)) = ok (tally rs).
Proof.
  intros Hp Hms. destruct (tally_tallied rs) as [H1 H2 H3 H4 H5]. destruct (tally_tallied rs') as [H1' H2' H3' H4' H5'].
  assert (forall P, number P rs' = number P rs) as Hn by (intros P; unfold number, successes; by rewrite Hp).
  assert (avg_p95 (lats (tally rs)) = avg_p95 (lats (tally rs'))) as Ha.
  { unfold avg_p95. erewrite f64_sort_unique; [done| |by rewrite H1, H1'; unfold successes; rewrite Hp].
    rewrite H1. apply Forall_fmap, Forall_forall. intros r [_ Hr]%list_elem_of_filter.
    destruct (Hms r Hr) as (d & Hd & Hr'). cbn [compose]. rewrite Hr'. apply f64_of_nat_sortable. by apply Z.quot_pos. }
  assert (dist (tally rs) = dist (tally rs')) as Hd.
  { apply map_eq. intros srv. by rewrite H5, H5', Hn. }
  assert (ok (tally rs) = ok (tally rs')) as Ho by by rewrite H2, H2', Hn.
  split.
  - unfold report. rewrite Ha, Hd, Ho, H3, H3', H4, H4', !Hn. done.
  - unfold report. destruct (avg_p95 _) as [a p]. cbn [lr_high lr_low]. rewrite H2, H3, H4.
    assert (number (fun _ => true) rs = number high rs + number (negb ∘ high) rs)%nat as ->.
    { clear. induction rs as [|r rs IH] using rev_ind; [done|]. rewrite !number_snoc, IH.
      unfold compose. destruct (status r =? 200), (high r); simpl; lia. }
    unfold_int. Z.div_mod_to_equations. lia.
Qed.
End load_report.

Definition example_results : list LoadTest.result :=
  [LoadTest.mkResult (LoadTest.milliseconds 3000000) 200 "Alpha" "HIGH";
   LoadTest.mkResult (LoadTest.milliseconds 1000000) 200 "Beta" "LOW";
   LoadTest.mkResult (LoadTest.milliseconds 9000000) 502 "" "LOW"].

Lemma load_report_any_order_witness :
  let sort := insertion_GoSort f64_less f64_less_asym in
  LoadTest.report map_to_list 3 Second example_results = LoadTest.report map_to_list 3 Second (rev example_results).
Proof.
  apply (load_report_any_order (GoSort0 := insertion_GoSort f64_less f64_less_asym) map_to_list 3 Second example_results (rev example_results)).
  - apply Permutation_rev.
  - intros r Hr. unfold example_results in Hr. set_unfold in Hr.
    destruct Hr as [->|[->|[->|[]]]]; eexists; (split; [|reflexivity]); lia.
Defined.

(** ** The monkey's belief *)
Section chaos.
Import Chaos.

Definition failing (w : Net) (i : nat) : bool := default false (be_isFailing <$> net_backends w !! i).
Definition healthy (serverStates : list bool) (i : nat) : bool := default false (serverStates !! i).

(** A turn keeps the belief and the truth in step, unless the answer is lost. *)
Lemma monkey_turn_belief interval states w i f plan j :
  net_plan w = (i, f) :: plan -> (i < 4)%nat -> length states = 4%nat -> length (net_backends w) = 4%nat ->
  let '(states', _, w') := monkey_turn net_Intn interval states w in
  net_plan w' = plan /\ length states' = 4%nat /\ length (net_backends w') = 4%nat /\
  xorb (healthy states' j) (failing w' j) =
  xorb (xorb (healthy states j) (failing w j)) ((i =? j)%nat && is_lost f).
Proof.
  destruct w as [now bs p]. cbn [net_plan net_backends]. intros -> Hi Hs Hb.
  assert (exists b, bs !! i = Some b) as [b Hbi] by (apply lookup_lt_is_Some_2; lia).
  assert (exists s, states !! i = Some s) as [s Hsi] by (apply lookup_lt_is_Some_2; lia).
  assert (list_find (eq (default ""%string (serverURLs !! i))) serverURLs =
    Some (i, default ""%string (serverURLs !! i))) as Hurl by (do 4 (destruct i as [|i]; [reflexivity|]); lia).
  unfold monkey_turn, net_Intn. cbn [env_Now env_SleepUntil Net_Env net_now net_backends net_plan].
  rewrite Nat2Z.id. cbn [client_Do Net_Client net_plan net_backends net_now out_URL]. rewrite Hurl, Hbi.
  destruct (Nat.eqb_spec i j) as [->|Hne].
  - unfold failing, healthy.
    destruct f; [|destruct (client_view _) as [[code h] body]|]; cbn [net_plan net_backends is_lost andb];
      rewrite ?length_insert, ?length_alter, ?list_lookup_alter_eq, ?list_lookup_insert_eq, ?Hsi, ?Hbi by lia;
      (split_and!; [done..|]); cbn; by destruct s, (be_isFailing b).
  - unfold failing, healthy.
    destruct f; [|destruct (client_view _) as [[code h] body]|]; cbn [net_plan net_backends is_lost andb];
      rewrite ?length_insert, ?length_alter, ?list_lookup_alter_ne, ?list_lookup_insert_ne by done;
      (split_and!; [done..|]); by rewrite xorb_false_r.
Qed.

(** The chaos client prints as the state of a backend what it believes it to be: its own count of the
    toggles that were answered.  The belief is right about a backend exactly when an even number of its
    answers was lost; a request that never arrived does no harm. *)
Theorem chaos_belief interval backends plan j :
  length backends = 4%nat -> Forall (fun b => be_isFailing b = false) backends ->
  Forall (fun e => (e.1 < 4)%nat) plan -> (j < 4)%nat ->
  let '(states, _, w) := chaosMonkey net_Intn (length plan) interval [true; true; true; true] (mkNet 0 backends plan) in
  healthy states j = xorb (negb (failing w j)) (Nat.odd (lost_answers j plan)).
Proof.
  intros Hb Hf Hplan Hj.
  assert (forall states w, net_plan w = plan -> length states = 4%nat -> length (net_backends w) = 4%nat ->
    let '(states', _, w') := chaosMonkey net_Intn (length plan) interval states w in
    xorb (healthy states' j) (failing w' j) =
    xorb (xorb (healthy states j) (failing w j)) (Nat.odd (lost_answers j plan))) as H.
  { clear Hb Hf. induction Hplan as [|[i f] plan Hi _ IH]; intros states w Hp Hs Hb; cbn [length chaosMonkey].
    - by rewrite xorb_false_r.
    - pose proof (monkey_turn_belief interval states w i f plan j Hp Hi Hs Hb) as Ht.
      destruct (monkey_turn _ _ _ w) as [[states1 line] w1]. destruct Ht as (Hp1 & Hs1 & Hb1 & Ht).
      specialize (IH states1 w1 Hp1 Hs1 Hb1).
      destruct (chaosMonkey _ _ _ states1 w1) as [[states2 lines] w2]. rewrite IH, Ht.
      unfold lost_answers. rewrite filter_cons. cbn [fst snd].
      destruct ((i =? j)%nat && is_lost f); case_decide; try done; [|by rewrite xorb_false_r].
      cbn [length]. rewrite Nat.odd_succ, <- Nat.negb_odd. by destruct (healthy states j), (failing w j), (Nat.odd _). }
  specialize (H [true; true; true; true] (mkNet 0 backends plan) eq_refl eq_refl Hb).
  destruct (chaosMonkey _ _ _ _ _) as [[states lines] w].
  assert (healthy [true; true; true; true] j = true) as E1 by (do 4 (destruct j as [|j]; [reflexivity|]); lia).
  assert (failing (mkNet 0 backends plan) j = false) as E2.
  { unfold failing. cbn [net_backends]. destruct (backends !! j) eqn:E; [|done]. cbn [fmap option_fmap option_map default].
    by eapply Forall_lookup_1 in Hf. }
  rewrite E1, E2 in H. by destruct (healthy states j), (failing w j), (Nat.odd _).
Qed.

Definition fresh_backends : list BackendState := replicate 4 (mkBackendState 0 false).

Lemma chaos_belief_witness :
  let '(states, _, w) := Chaos.chaosMonkey Chaos.net_Intn 3 (12 * Second) [true; true; true; true]
    (Chaos.mkNet 0 fresh_backends [(1%nat, Chaos.Answered); (2%nat, Chaos.Lost); (1%nat, Chaos.Refused)]) in
  healthy states 1 = false /\ failing w 1 = true /\ healthy states 2 = true /\ failing w 2 = true.
Proof.
  pose proof (fun j => chaos_belief (12 * Second) fresh_backends
    [(1%nat, Chaos.Answered); (2%nat, Chaos.Lost); (1%nat, Chaos.Refused)] j eq_refl
    ltac:(repeat constructor) ltac:(repeat constructor; simpl; lia)) as H.
  cbn [length] in H. pose proof (H 1%nat ltac:(lia)) as H1. pose proof (H 2%nat ltac:(lia)) as H2.
  destruct (Chaos.chaosMonkey _ _ _ _ _) as [[states lines] w] eqn:E. vm_compute in E. simplify_eq.
  split_and!; [exact H1|reflexivity|exact H2|reflexivity].
Defined.
End chaos.

(** ** The priorities of the dynamic load *)
Section dynamic.
Import DynamicLoad.

Lemma digits2_pos_bound p : Z.pos p < 2 ^ Z.pos (digits2_pos p).
Proof.
  induction p as [p IH|p IH|]; cbn [digits2_pos]; [..|done]; rewrite Pos2Z.inj_succ, Z.pow_succ_r by lia; lia.
Qed.

Lemma digits2_pos_lower p : 2 ^ (Z.pos (digits2_pos p) - 1) <= Z.pos p.
Proof.
  induction p as [p IH|p IH|]; cbn [digits2_pos]; [..|done]; rewrite Pos2Z.inj_succ, Z.sub_succ_l, Z.pow_succ_r by lia; lia.
Qed.

Lemma Zdigits2_upper m k : 0 <= m < 2 ^ k -> 0 <= k -> Zdigits2 m <= k.
Proof.
  intros [H0 Hm] Hk. destruct m as [|p|p]; cbn [Zdigits2]; [done| |lia]. pose proof (digits2_pos_lower p).
  destruct (Z.lt_ge_cases k (Z.pos (digits2_pos p))) as [H1|H1]; [|done].
  assert (2 ^ k <= 2 ^ (Z.pos (digits2_pos p) - 1)) by (apply Z.pow_le_mono_r; lia). lia.
Qed.

Lemma shr_1_bound r : 0 <= shr_m r -> 0 <= shr_m (shr_1 r) <= shr_m r.
Proof. destruct r as [[|[p|p|]|p] a b]; simpl; lia. Qed.

Lemma shr_bound r e n : 0 <= shr_m r -> 0 <= shr_m (shr r e n).1 <= shr_m r.
Proof.
  intros Hr. destruct n as [|p|p]; simpl; [lia| |lia]. revert r Hr.
  induction p as [p IH|p IH|]; intros r Hr; cbn [iter_pos].
  - pose proof (shr_1_bound r Hr). pose proof (IH (shr_1 r) ltac:(lia)). pose proof (IH (iter_pos shr_1 p (shr_1 r)) ltac:(lia)). lia.
  - pose proof (IH r Hr). pose proof (IH (iter_pos shr_1 p r) ltac:(lia)). lia.
  - by apply shr_1_bound.
Qed.

Lemma shr_exponent r e n : (shr r e n).2 = e + Z.max 0 n.
Proof. unfold shr. destruct n; simpl; lia. Qed.

Lemma round_nearest_even_bound m l : m <= round_nearest_even m l <= m + 1.
Proof. unfold round_nearest_even. destruct l as [|[]]; try lia. destruct (Z.even m); lia. Qed.

(** A whole number of 61 to 63 bits is rounded to a multiple of 256. *)
Lemma f64_of_big n : 2 ^ 60 <= n < 2 ^ 63 ->
  f64_of_Z n = f64_zero \/ exists m e, f64_of_Z n = S754_finite false m e /\ 8 <= e.
Proof.
  intros [Hn Hn']. unfold f64_of_Z, binary_normalize. destruct n as [|p|p]; [lia| |lia].
  assert (61 <= Z.pos (digits2_pos p) <= 63) as Hd.
  { split; [|by apply (Zdigits2_upper (Z.pos p) 63)].
    destruct (Z.lt_ge_cases (Z.pos (digits2_pos p)) 61) as [H|H]; [|done].
    pose proof (digits2_pos_bound p). assert (2 ^ Z.pos (digits2_pos p) <= 2 ^ 60) by (apply Z.pow_le_mono_r; lia). lia. }
  unfold binary_round, shl_align. set (fe := fexp 53 1024 (Z.pos (digits2_pos p) + 0)).
  assert (8 <= fe <= 10) as Hfe by (unfold fe, fexp, emin; lia).
  destruct (fe - 0) as [|q|q] eqn:E; [lia| |lia]. unfold binary_round_aux.
  assert (0 <= shr_m (shr_fexp 53 1024 (Z.pos p) 0 loc_Exact).1 <= Z.pos p /\
    8 <= (shr_fexp 53 1024 (Z.pos p) 0 loc_Exact).2 <= 10) as [H1m H1e].
  { unfold shr_fexp. rewrite shr_exponent. cbn [Zdigits2]. fold fe.
    pose proof (shr_bound (shr_record_of_loc (Z.pos p) loc_Exact) 0 (fe - 0) ltac:(simpl; lia)). simpl in *. lia. }
  destruct (shr_fexp 53 1024 (Z.pos p) 0 loc_Exact) as [m1 e1]. cbn [fst snd] in *.
  set (m := round_nearest_even _ _). pose proof (round_nearest_even_bound (shr_m m1) (loc_of_shr_record m1)) as Hr. fold m in Hr.
  assert (0 <= shr_m (shr_fexp 53 1024 m e1 loc_Exact).1 /\ 8 <= (shr_fexp 53 1024 m e1 loc_Exact).2 <= 30) as [H2m H2e].
  { pose proof (Zdigits2_upper m 64 ltac:(lia) ltac:(lia)). unfold shr_fexp. rewrite shr_exponent. unfold fexp, emin.
    assert (shr_m (shr_record_of_loc m loc_Exact) = m) as Em by done.
    pose proof (shr_bound (shr_record_of_loc m loc_Exact) e1 (Z.max (Zdigits2 m + e1 - 53) (3 - 1024 - 53) - e1) ltac:(lia)). lia. }
  destruct (shr_fexp 53 1024 m e1 loc_Exact) as [m2 e2]. cbn [fst snd] in *.
  destruct (shr_m m2) as [|k|k]; [by left| |lia]. right. exists k, e2.
  rewrite (proj2 (Z.leb_le e2 (1024 - 53))) by lia. split; [done|lia].
Qed.

(** C40. Although a quarter of the requests are meant to be of high priority, from the year 2006 on all are: the
    nanoseconds since 1970, as a float, are a multiple of 256, so the remainder by 4 is always zero. *)
Theorem dynamic_load_all_high now :
  2 ^ 60 <= now < 2 ^ 63 -> request_header now = Header_Set ∅ "X-Priority" "HIGH".
Proof.
  intros Hn. unfold request_header. assert (f64_eq (Remainder (f64_of_Z now) (f64_of_Z 4)) f64_zero = true) as ->; [|done].
  destruct (f64_of_big now Hn) as [->|(m & e & -> & He)]; [reflexivity|].
  change (f64_of_Z 4) with (S754_finite false 4503599627370496 (-50)). unfold Remainder.
  rewrite Z.min_r by lia. replace (-50 - -50) with 0 by lia. rewrite Z.pow_0_r, Z.mul_1_r.
  replace (e - -50) with (52 + (e - 2)) by lia. rewrite Z.pow_add_r by lia.
  set (k := Z.pos m * 2 ^ (e - 2)). replace (Z.pos m * (2 ^ 52 * 2 ^ (e - 2))) with (k * 4503599627370496) by (unfold k; lia).
  assert (nearest_even (k * 4503599627370496) 4503599627370496 = k) as ->.
  { unfold nearest_even.
    assert ((2 * (k * 4503599627370496) + 4503599627370496) mod (2 * 4503599627370496) = 4503599627370496) as ->
      by (Z.div_mod_to_equations; lia).
    cbn [Z.eqb andb Pos.eqb]. Z.div_mod_to_equations; lia. }
  by rewrite Z.sub_diag.
Qed.

Lemma dynamic_load_all_high_witness : 2 ^ 60 <= 1764000000000000003 /\
  request_header 1764000000000000003 = Header_Set ∅ "X-Priority" "HIGH".
Proof. split; [lia|]. apply (dynamic_load_all_high 1764000000000000003). lia. Defined.

(** The test itself can tell a multiple of 4: three nanoseconds after 1970 no priority is set. *)
Example early_request_low : request_header 3 = ∅ /\ request_header 4 = Header_Set ∅ "X-Priority" "HIGH".
Proof. split; vm_compute; reflexivity. Qed.
End dynamic.
